(* ===== verification/_CoqProject ===== *)
-Q . S2P
Prelude.v
Machine.v
Sample.v
Wp.v
Print.v
Contexts.v
LtoRequired.v
StackTrace.v
SpinLock.v
TrapEntry.v
Pte.v
PageAlloc.v
Instructions.v
Vmem.v
Tables.v
VmemSpec.v
ShadowSpec.v
FlushSpec.v
WalkSpec.v
Invariant.v
SampleTables.v
VmemTheorems.v
VmemRefine.v
VirtCsr.v
GuestPrivilege.v
PrivilegeSpec.v
Timer.v
PrivilegeTheorems.v
VirtMmDev.v
PageFault.v
Fetch.v
ExcHandlers.v
Hypervisor.v
TrapSpec.v
SampleGuest.v
TrapTheorems.v
EmulationTheorems.v
System.v
Retry.v
SystemTheorems.v
