(* ===== verification/Prelude.v ===== *)
(** * A verification library for the RISC-V machine-mode hypervisor of src/src

    The program runs in machine mode under a guest kernel written for machine
    mode.  The guest is run in user mode throughout: "guest-machine mode" is
    user mode translated by the machine table (guest-physical to
    host-physical, a fixed offset above the hypervisor), "guest-user mode" with
    paging on is user mode translated by a shadow table (guest-virtual to
    host-physical) that the hypervisor fills on demand from the guest's own
    Sv39 tables.  Every privileged instruction, page fault and device access of
    the guest traps; the handler emulates it and returns.

    ** Files, and the code they model

    - Prelude: machine integers as Z with their wrap-around, bit operations as
      arithmetic, the hint database and tactics shared by all files.
    - Machine (contexts.h, base_types.h, csr.h, the globals of pagealloc.c and
      timer.c), Sample, Contexts: the state, a Record of the CSR file, memory,
      the per-hart and per-guest records and the globals; the monad of state
      with panic, undefined behaviour and divergence in which every function is
      written; the class Platform of what the linker and the devices provide,
      with the assumptions PlatformOk; a concrete instance for the witnesses.
    - Wp: the weakest preconditions the proofs use.  [wp Pn m Q] says that m
      returns in a state of Q or panics from a state of Pn, and neither loops
      nor is undefined; [wpx ub] also allows undefined behaviour under ub.
    - Print (uart.h, print.c, panic.c, halt_thread), StackTrace (stacktrace.c,
      the walk in panic.c), LtoRequired (lto_required.c).
    - SpinLock (sync.h, several harts), PageAlloc (pagealloc.c, sync.h on the
      one hart of the build).  PageAlloc states what clients may rely on as the
      class AllocatorContract, of which the free list is the instance
      alloc_inv_contract; everything above it is proved from the class.
    - TrapEntry (hypenterleave.S), instruction by instruction.
    - Pte, Vmem, PageFault (vmem.h, vmem.c) and Instructions (instructions.h,
      the parsers of vmem.c): page-table entries and the Sv39 reference, the
      walk [sv39_translate] that says what a table maps, and [hart_access], what
      a hart makes of it (canonical addresses only, permissions, the A and D
      bits); the machine and shadow tables, the walk of the guest's tables, the
      iterator over guest memory; handle_page_fault.
    - Tables, VmemSpec, ShadowSpec, FlushSpec, WalkSpec: the invariant of the
      tables ([tables_ok]: each page of the pool has one role, a machine table
      or a place in the shadow tree) and what each operation of Vmem does to it.
    - Invariant: the invariant [hyp_inv] of the whole hypervisor.
    - VirtCsr (virtcsr.c, csrs.cc), GuestPrivilege and PrivilegeSpec
      (guestprivilege.c), Timer (timer.c, timer.h), VirtMmDev (virtmmdev.c),
      ExcHandlers (exchandlers.c), Hypervisor (hypervisor.c).
    - TrapSpec: every handler keeps the invariant.  System: the hart and the
      guest around it, as a step relation from boot.  Retry: exception() around
      a fault that it resolves.
    - Fetch: the guest instruction that trapped, read through the tables and
      decoded to its access ([guest_access]).  SampleTables and SampleGuest:
      concrete guests for the witnesses.
    - VmemTheorems, VmemRefine, PrivilegeTheorems, TrapTheorems, EmulationTheorems,
      SystemTheorems, and the ends of the other files: the properties.

    Functions keep the names of the code.  A loop of the code is a Fixpoint (or
    [for_each] over the indices); the statements of a branch that is long in
    the code are a definition of their own, named in the comment above it.

    ** What the theorems show

    - The system (C1-C4): isolation of the hypervisor from the guest in every
      reachable state, the invariant behind it, totality of the trap handler,
      separation of the memories.
    - Demand paging and emulation from the trap to the resumption (C5-C10):
      exception() as a whole around a fault it resolves, and what becomes of the
      retry; every branch of faults of fetches, loads and stores in either
      mode; loads and stores to devices in either mode; the system
      instructions.
    - Virtual memory (C11-C16): vmem.c refines an abstract machine without
      tables ([vmem_refines], a set of regions and a map of pages) for every
      sequence of its operations; each function against the Sv39 reference on
      every branch, what flushing leaves, what iteration visits, what the walk of
      the guest's tables finds and where it deviates.
    - The allocator against its abstract specification (C17-C18); the changes
      of privilege, deferred exceptions and boot (C19-C23); the CSR
      instructions and the emulated CSRs, with the writes on which the emulation
      and the specification agree (C24-C27); the decoder against the encodings
      of the manual (C28-C29); the emulated devices (C30-C31); the clock
      (C32-C34).
    - Representation and support: entries, printing, panic and its report, trap
      entry and exit, the lock, the memory routines (C35-C40).
    - Theorems that are not numbered support a finding or a component:
      guest_root_below_ram (an uninitialised pointer),
      virtual_clock_runs_backwards, mtimecmp_store_load, the stack trace.

    ** Bounds

    - TABLE_FUEL = 6: clear_pagetable and deallocate_pagepable call each other
      twice per level of a table of three levels; FlushSpec proves it enough.
    - WALK_FUEL = 4 and RESOLVE_FUEL = 5: a walk visits three levels, and one
      or two more rounds stop it; WalkSpec proves them enough.
    - uart_patience: the number of polls within which the UART becomes ready,
      an assumption of PlatformOk; nothing else can wait.
    - trace_fuel: quadratic in the number of entries, proved enough.

    ** Assumptions

    PlatformOk: the linker script places the image below HYPERVISOR_END, arrays
    are aligned as declared, the UART becomes ready.  [boot_ready]: the loader
    zeroes .bss.  The translation caches may hold anything that was not fenced:
    [guest_translates] allows any translation until a full sfence.vma follows
    the last change of satp or of a table.

    The hart.  A real hart refuses addresses that are not canonical, and either
    sets the A and D bits of a leaf itself or faults where they are clear.  The
    code knows neither: it masks the upper bits of addresses, maps
    [2^38, 2^39), and leaves A and D clear.  Safety (C1-C4) is proved for the
    walk alone, that is for more accesses than a hart makes; statements that an
    operation maps or visits an address speak of what the table maps
    ([sv39_translate]), for the addresses below 2^39 that a walk tells apart;
    and what a hart then does is stated with [hart_access] and [hart_maps]: C5
    for harts of both kinds, C15 and C16 for canonical addresses.  The A and D
    bits that such a hart writes into the tables are not modelled; the code
    looks at none of them.

    ** Not modelled

    - hypervisor.ld and the build files, except through PlatformOk; the
      debugger script; the prototype headers.
    - Several physical harts, except for the lock: the build has
      MAX_PHYS_HARTS = 1 and the code's own comments leave the rest to do.
    - Interrupts inside the hypervisor: mstatus.MIE is clear in a handler.
    - The hypervisor's stack, and the nested stack it switches to in order to
      report its own faults. *)
From Stdlib Require Export ZArith Lia Ascii.
From stdpp Require Export strings numbers base gmap sets list_numbers list.

Open Scope Z_scope.

(** ** Machine integers: a w-bit unsigned value is a Z in [0, 2^w) *)

Definition u64 (x : Z) : Z := x mod 2 ^ 64.
Definition u32 (x : Z) : Z := x mod 2 ^ 32.
Definition u16 (x : Z) : Z := x mod 2 ^ 16.
Definition u8 (x : Z) : Z := x mod 2 ^ 8.

(** Two's complement reading of the low [w] bits. *)
Definition sext (w x : Z) : Z :=
  let y := x mod 2 ^ w in if y <? 2 ^ (w - 1) then y else y - 2 ^ w.
Definition s64 (x : Z) : Z := sext 64 x.
Definition s32 (x : Z) : Z := sext 32 x.

Definition add64 (a b : Z) : Z := u64 (a + b).
Definition sub64 (a b : Z) : Z := u64 (a - b).
Definition not64 (a : Z) : Z := 2 ^ 64 - 1 - u64 a.

Definition in_u64 (x : Z) : Prop := 0 <= x < 2 ^ 64.

(** [if (mask)] on an integer condition. *)
Definition nonzero (x : Z) : bool := negb (x =? 0).

Create HintDb word discriminated.
#[export] Hint Constants Opaque : word.

(** ** Bit operations as arithmetic *)

Lemma land_low (x k : Z) : 0 <= k -> Z.land x (2 ^ k - 1) = x mod 2 ^ k.
Proof. intros. rewrite <- Z.land_ones by lia. f_equal. rewrite Z.ones_equiv. lia. Qed.

Lemma lor_disjoint_add (a b k : Z) :
  0 <= k -> 0 <= b < 2 ^ k -> Z.lor (a * 2 ^ k) b = a * 2 ^ k + b.
Proof.
  intros Hk Hb. rewrite <- Z.lxor_lor, <- Z.add_nocarry_lxor; [done| |].
  all: apply Z.bits_inj'; intros i Hi; rewrite Z.land_spec, Z.bits_0;
    destruct (decide (i < k)).
  1,3: rewrite Z.mul_pow2_bits_low by lia; done.
  all: rewrite <- (Z.mod_small b (2 ^ k)) by lia;
    rewrite Z.mod_pow2_bits_high by lia; by rewrite andb_false_r.
Qed.

(** [x & (1 << i)] as a condition is bit [i] of [x]. *)
Lemma land_bit_nonzero (x i : Z) :
  0 <= i -> nonzero (Z.land x (2 ^ i)) = Z.testbit x i.
Proof.
  intros Hi. unfold nonzero. destruct (Z.testbit x i) eqn:E.
  - apply negb_true_iff, Z.eqb_neq. intros H0.
    assert (Z.testbit (Z.land x (2 ^ i)) i = false) as Hf by by rewrite H0, Z.bits_0.
    rewrite Z.land_spec, E, Z.pow2_bits_true in Hf by lia. done.
  - apply negb_false_iff, Z.eqb_eq, Z.bits_inj'. intros j Hj.
    rewrite Z.land_spec, Z.bits_0. destruct (decide (i = j)) as [->|].
    + by rewrite E.
    + rewrite Z.pow2_bits_false by lia. apply andb_false_r.
Qed.

Lemma land_pow2 (x i : Z) : 0 <= i -> Z.land x (2 ^ i) = if Z.testbit x i then 2 ^ i else 0.
Proof.
  intros Hi. apply Z.bits_inj'. intros j Hj. rewrite Z.land_spec.
  destruct (decide (i = j)) as [->|Hne].
  - rewrite Z.pow2_bits_true by done. destruct (Z.testbit x j) eqn:E; [|by rewrite Z.bits_0].
    by rewrite Z.pow2_bits_true.
  - rewrite Z.pow2_bits_false by done. rewrite andb_false_r.
    destruct (Z.testbit x i); [by rewrite Z.pow2_bits_false|by rewrite Z.bits_0].
Qed.

(** The field of [x] under the mask [m] at bit [k]. *)
Lemma land_field (x m k : Z) : 0 <= k -> Z.land x (Z.shiftl m k) = Z.shiftl (Z.land (Z.shiftr x k) m) k.
Proof.
  intros Hk. apply Z.bits_inj'. intros j Hj. rewrite Z.land_spec, !Z.shiftl_spec by done.
  destruct (decide (j < k)).
  - by rewrite !(Z.testbit_neg_r _ (j - k)), andb_false_r by lia.
  - rewrite Z.land_spec, Z.shiftr_spec by lia. by replace (j - k + k) with j by lia.
Qed.

Lemma lor_range a b k : 0 <= k -> 0 <= a < 2 ^ k -> 0 <= b < 2 ^ k -> 0 <= Z.lor a b < 2 ^ k.
Proof.
  intros Hk Ha Hb. split; [apply Z.lor_nonneg; lia|].
  rewrite <- (Z.mod_small a (2 ^ k)), <- (Z.mod_small b (2 ^ k)) by lia.
  assert (Z.lor (a mod 2 ^ k) (b mod 2 ^ k) = Z.lor a b mod 2 ^ k) as ->.
  { rewrite <- !Z.land_ones by lia. by rewrite Z.land_lor_distr_l. }
  apply Z.mod_pos_bound. lia.
Qed.

Lemma u64_range x : 0 <= u64 x < 2 ^ 64.
Proof. unfold u64. apply Z.mod_pos_bound. lia. Qed.
Lemma u64_id x : 0 <= x < 2 ^ 64 -> u64 x = x.
Proof. intros. unfold u64. by apply Z.mod_small. Qed.
#[export] Hint Resolve u64_range u64_id : word.

(** Solve goals about the width operations by their definitions. *)
Ltac word_unfold :=
  unfold add64, sub64, not64, u64, u32, u16, u8, s64, s32, sext, in_u64 in *.
Ltac word_lia :=
  word_unfold; repeat match goal with |- context [2 ^ ?n] => let v := eval compute in (2 ^ n) in
    change (2 ^ n) with v in * end; Z.div_mod_to_equations; lia.

(** ** Strings *)

Lemma string_app_nil_r (x : string) : (x +:+ "")%string = x.
Proof. induction x as [|c x IH]; simpl; [done|]. unfold String.append in *. by rewrite IH. Qed.
Lemma string_app_assoc (x y z : string) : ((x +:+ y) +:+ z = x +:+ (y +:+ z))%string.
Proof. induction x as [|c x IH]; simpl; [done|]. unfold String.append in *. by rewrite IH. Qed.
