(* ===== verification/Machine.v ===== *)
(** The machine the hypervisor runs on and the C state it keeps: byte-addressed
    physical memory, the CSR file of the hart (csr.h), the per-hart and
    per-guest records of contexts.h and base_types.h, the allocator globals of
    pagealloc.c, the timer globals of timer.c, the UART transmit log, and the
    monad in which every function of the program is written. *)
From S2P Require Import Prelude.

(** ** Physical memory: little-endian, byte addressed *)

Abbreviation mem_t := (gmap Z Z).

Definition load8 (m : mem_t) (a : Z) : Z := u8 (default 0 (m !! a)).

Fixpoint load_le (n : nat) (m : mem_t) (a : Z) : Z :=
  match n with
  | O => 0
  | S n' => load8 m a + 256 * load_le n' m (a + 1)
  end.

Fixpoint store_le (n : nat) (m : mem_t) (a v : Z) : mem_t :=
  match n with
  | O => m
  | S n' => store_le n' (<[a := v mod 256]> m) (a + 1) (v / 256)
  end.

Definition load64 (m : mem_t) (a : Z) : Z := load_le 8 m a.
Definition load16 (m : mem_t) (a : Z) : Z := load_le 2 m a.
Definition store64 (m : mem_t) (a v : Z) : mem_t := store_le 8 m a v.

(** Two memories agree on the byte range [[a, a + n)]. *)
Definition mem_agree (a n : Z) (m m' : mem_t) : Prop :=
  forall x, a <= x < a + n -> m !! x = m' !! x.

(** ** CSR numbers used by name (csrs.cc) *)

Definition CSR_satp : Z := 0x180.
Definition CSR_mstatus : Z := 0x300.
Definition CSR_mie : Z := 0x304.
Definition CSR_mtvec : Z := 0x305.
Definition CSR_mscratch : Z := 0x340.
Definition CSR_mepc : Z := 0x341.
Definition CSR_mcause : Z := 0x342.
Definition CSR_mtval : Z := 0x343.
Definition CSR_pmpcfg0 : Z := 0x3A0.
Definition CSR_pmpcfg15 : Z := 0x3AF.
Definition CSR_pmpaddr0 : Z := 0x3B0.
Definition CSR_pmpaddr63 : Z := 0x3EF.

(** csr.h, field masks *)
Definition MSTATUS_MPP_MASK : Z := Z.shiftl 3 11.
Definition MSTATUS_MPP_U : Z := Z.shiftl 0 11.
Definition MSTATUS_MIE : Z := Z.shiftl 1 3.
Definition MSTATUS_MDT : Z := Z.shiftl 1 42.
Definition MIE_MEIE : Z := Z.shiftl 1 11.
Definition MIE_MTIE : Z := Z.shiftl 1 7.
Definition MIE_MSIE : Z := Z.shiftl 1 3.
Definition MCAUSE_ASYNC_BIT : Z := Z.shiftl 1 63.
Definition MCAUSE_ASYNC_TIMER : Z := 7.
Definition SATP_MODE_SHIFT : Z := 60.
Definition SATP_MODE_NONE : Z := 0.
Definition SATP_MODE_SV39 : Z := Z.shiftl 8 SATP_MODE_SHIFT.
Definition MAKE_SATP (ptptr : Z) : Z := Z.lor SATP_MODE_SV39 (Z.shiftr ptptr 12).

(** ** Sizes (base_types.h, pagealloc.h, vmem.h) *)

Definition MAX_GUESTS : Z := 1.
Definition MAX_VIRT_HARTS : Z := 1.
Definition MAX_ALLOCATEABLE_PAGES : Z := 16384.
Definition PGSHIFT : Z := 12.
Definition PGSIZE : Z := Z.shiftl 1 PGSHIFT.
Definition GUEST_MEMORY_OFFSET : Z := 0x5000000.

(** ** Records of contexts.h *)

(** [GuestThreadId] is the pair (machine, thread). *)
Abbreviation GuestThreadId := (Z * Z)%type.

Record HostThreadData := mkHostThreadData {
  active_regs : list Z;             (* x_plus_one[31]: x1 .. x31 *)
  exception_handler_stack : Z;
  current_guest : GuestThreadId }.

(** The [csr] sub-record of [GuestThreadContext]; bit fields hold values of
    their declared width. *)
Record GuestCsrs := mkGuestCsrs {
  g_mtvec : Z; g_mepc : Z; g_mscratch : Z; g_mcause : Z; g_mtval : Z;
  g_mstatus_mpp : Z;                (* : 2 *)
  g_mstatus_mie : bool; g_mstatus_mdt : bool;
  g_mie_msie : bool; g_mie_mtie : bool; g_mie_meie : bool;
  g_satp_mode : Z;                  (* : 4 *)
  g_satp_ppn : Z }.                 (* : 44 *)

Record GuestThreadContext := mkGuestThreadContext {
  shadow_page_table : Z;            (* PagetablePage *, 0 is NULL *)
  shadow_pt_active : bool;
  user_mode : bool;
  timer_scheduled : bool;
  deferred_exception : bool;
  timer_deadline : Z; timer_suspended_at : Z; timer_adjustment : Z;
  deferred_mcause : Z;
  gcsr : GuestCsrs }.

Definition zero_guest_csrs (mdt : bool) : GuestCsrs :=
  mkGuestCsrs 0 0 0 0 0 0 false mdt false false false 0 0.

(** contexts.c, GUEST_THREAD_CONTEXT_INIT *)
Definition GUEST_THREAD_CONTEXT_INIT : GuestThreadContext :=
  mkGuestThreadContext 0 false false false false 0 0 0 0 (zero_guest_csrs true).

(** ** The machine state *)

(** Operations the memory-management unit can observe, newest first. *)
Inductive Event :=
  | EvPteWrite (addr value : Z)
  | EvSatpWrite (value : Z)
  | EvSfence (vaddr asid : option Z)
  | EvWfi.

Record State := mkState {
  csr : gmap Z Z;
  mem : mem_t;
  host_thread : HostThreadData;                        (* host_threads[0] *)
  guest_threads : gmap GuestThreadId GuestThreadContext;
  free_list_top : Z; next_unallocated_idx : Z; allocator_lock : bool;
  interrupt_target : GuestThreadId;
  clint_mtimecmp : Z;
  tick : nat;                                          (* volatile reads done *)
  console : string;                                    (* bytes sent to uart0 *)
  trace : list Event }.

Definition set_csr (v : gmap Z Z) (s : State) : State :=
  mkState v (mem s) (host_thread s) (guest_threads s) (free_list_top s)
    (next_unallocated_idx s) (allocator_lock s) (interrupt_target s) (clint_mtimecmp s)
    (tick s) (console s) (trace s).
Definition set_mem (v : mem_t) (s : State) : State :=
  mkState (csr s) v (host_thread s) (guest_threads s) (free_list_top s)
    (next_unallocated_idx s) (allocator_lock s) (interrupt_target s) (clint_mtimecmp s)
    (tick s) (console s) (trace s).
Definition set_host_thread (v : HostThreadData) (s : State) : State :=
  mkState (csr s) (mem s) v (guest_threads s) (free_list_top s) (next_unallocated_idx s)
    (allocator_lock s) (interrupt_target s) (clint_mtimecmp s) (tick s) (console s)
    (trace s).
Definition set_guest_threads (v : gmap GuestThreadId GuestThreadContext) (s : State) : State :=
  mkState (csr s) (mem s) (host_thread s) v (free_list_top s) (next_unallocated_idx s)
    (allocator_lock s) (interrupt_target s) (clint_mtimecmp s) (tick s) (console s)
    (trace s).
Definition set_free_list_top (v : Z) (s : State) : State :=
  mkState (csr s) (mem s) (host_thread s) (guest_threads s) v (next_unallocated_idx s)
    (allocator_lock s) (interrupt_target s) (clint_mtimecmp s) (tick s) (console s)
    (trace s).
Definition set_next_unallocated_idx (v : Z) (s : State) : State :=
  mkState (csr s) (mem s) (host_thread s) (guest_threads s) (free_list_top s) v
    (allocator_lock s) (interrupt_target s) (clint_mtimecmp s) (tick s) (console s)
    (trace s).
Definition set_allocator_lock (v : bool) (s : State) : State :=
  mkState (csr s) (mem s) (host_thread s) (guest_threads s) (free_list_top s)
    (next_unallocated_idx s) v (interrupt_target s) (clint_mtimecmp s) (tick s) (console s)
    (trace s).
Definition set_interrupt_target (v : GuestThreadId) (s : State) : State :=
  mkState (csr s) (mem s) (host_thread s) (guest_threads s) (free_list_top s)
    (next_unallocated_idx s) (allocator_lock s) v (clint_mtimecmp s) (tick s) (console s)
    (trace s).
Definition set_clint_mtimecmp (v : Z) (s : State) : State :=
  mkState (csr s) (mem s) (host_thread s) (guest_threads s) (free_list_top s)
    (next_unallocated_idx s) (allocator_lock s) (interrupt_target s) v (tick s) (console s)
    (trace s).
Definition set_tick (v : nat) (s : State) : State :=
  mkState (csr s) (mem s) (host_thread s) (guest_threads s) (free_list_top s)
    (next_unallocated_idx s) (allocator_lock s) (interrupt_target s) (clint_mtimecmp s) v
    (console s) (trace s).
Definition set_console (v : string) (s : State) : State :=
  mkState (csr s) (mem s) (host_thread s) (guest_threads s) (free_list_top s)
    (next_unallocated_idx s) (allocator_lock s) (interrupt_target s) (clint_mtimecmp s)
    (tick s) v (trace s).
Definition set_trace (v : list Event) (s : State) : State :=
  mkState (csr s) (mem s) (host_thread s) (guest_threads s) (free_list_top s)
    (next_unallocated_idx s) (allocator_lock s) (interrupt_target s) (clint_mtimecmp s)
    (tick s) (console s) v.

(** Only the console and the count of device reads differ. *)
Definition with_io (t : nat) (c : string) (s : State) : State :=
  set_tick t (set_console c s).

(** Everything written by the program so far is visible to address
    translation: no table or satp write is newer than the last full fence. *)
Fixpoint tlb_synced (tr : list Event) : bool :=
  match tr with
  | [] => true
  | EvSfence None None :: _ => true
  | EvPteWrite _ _ :: _ | EvSatpWrite _ :: _ => false
  | _ :: tr' => tlb_synced tr'
  end.

(** ** What the program is linked with and runs against *)

(** The linker's placement of the globals whose address the code takes, and
    the memory-mapped devices as streams indexed by the number of volatile
    reads done so far. *)
Class Platform := {
  host_threads_addr : Z;
  machine_pagetable_roots_addr : Z;
  page_pool_addr : Z;
  hypstack0_addr : Z;
  hypstack_nested_addr : Z;
  exc_entry_addr : Z;
  dev_mtime : nat -> Z;
  dev_uart_lsr : nat -> Z;
  dev_uart_rbr : nat -> Z;
  uart_patience : nat }.

Definition RAM_START : Z := 0x80000000.
Definition HYPERVISOR_END : Z := RAM_START + GUEST_MEMORY_OFFSET.

(** hypervisor.ld places the image at [RAM_START]; the arrays carry an
    alignment of one page; the UART's holding register empties within
    [uart_patience] polls. *)
Class PlatformOk `{!Platform} : Prop := {
  roots_aligned : machine_pagetable_roots_addr mod 4096 = 0;
  pool_aligned : page_pool_addr mod 4096 = 0;
  roots_in_image : RAM_START <= machine_pagetable_roots_addr /\
    machine_pagetable_roots_addr + 4096 * MAX_GUESTS <= HYPERVISOR_END;
  pool_in_image : RAM_START <= page_pool_addr /\
    page_pool_addr + 4096 * MAX_ALLOCATEABLE_PAGES <= HYPERVISOR_END;
  roots_pool_disjoint :
    machine_pagetable_roots_addr + 4096 * MAX_GUESTS <= page_pool_addr \/
    page_pool_addr + 4096 * MAX_ALLOCATEABLE_PAGES <= machine_pagetable_roots_addr;
  host_threads_in_image : RAM_START <= host_threads_addr < HYPERVISOR_END;
  uart_ready : forall t, exists n, (n < uart_patience)%nat /\
    Z.testbit (dev_uart_lsr (t + n)%nat) 5 = true }.

Lemma host_threads_not_null `{PlatformOk} : host_threads_addr <> 0.
Proof. pose proof host_threads_in_image. unfold RAM_START in *. lia. Qed.

Lemma host_threads_u64 `{PlatformOk} : u64 host_threads_addr = host_threads_addr.
Proof.
  pose proof host_threads_in_image. apply u64_id.
  unfold HYPERVISOR_END, GUEST_MEMORY_OFFSET, RAM_START in *. lia.
Qed.

(** ** The monad: state, panic, undefined behaviour, divergence *)

Inductive result (A : Type) :=
  | Ok (a : A) (s : State)
  | Panic (s : State)          (* halt_thread was reached from panic *)
  | Undef                      (* undefined behaviour of the C program *)
  | Diverge.                   (* a busy wait or a recursion that never ends *)
Arguments Ok {A} a s.
Arguments Panic {A} s.
Arguments Undef {A}.
Arguments Diverge {A}.

Definition M (A : Type) : Type := State -> result A.

Definition ret {A} (a : A) : M A := fun s => Ok a s.
Definition bind {A B} (m : M A) (k : A -> M B) : M B := fun s =>
  match m s with
  | Ok a s' => k a s'
  | Panic s' => Panic s'
  | Undef => Undef
  | Diverge => Diverge
  end.
Definition undef {A} : M A := fun _ => Undef.
Definition diverge {A} : M A := fun _ => Diverge.
Definition gets {A} (f : State -> A) : M A := fun s => Ok (f s) s.
Definition modify (f : State -> State) : M unit := fun s => Ok tt (f s).

Declare Scope hyp_scope.
Delimit Scope hyp_scope with hyp.
Notation "'let!' x ':=' m 'in' k" := (bind m (fun x => k))
  (at level 10, x pattern, m at level 100, k at level 200) : hyp_scope.
Notation "m ;; k" := (bind m (fun _ => k)) : hyp_scope.
Open Scope hyp_scope.

(** [for (x : l) f(x)] *)
Fixpoint for_each {A} (l : list A) (f : A -> M unit) : M unit :=
  match l with
  | [] => ret tt
  | x :: l' => f x ;; for_each l' f
  end.

(** ** Primitive operations *)

(** csr.h: r_NAME and w_NAME; satp writes are observable by translation. *)
Definition r_csr (n : Z) : M Z := gets (fun s => default 0 (csr s !! n)).
Definition w_csr (n v : Z) : M unit :=
  modify (fun s =>
    let s' := set_csr (<[n := u64 v]> (csr s)) s in
    if n =? CSR_satp then set_trace (EvSatpWrite (u64 v) :: trace s') s' else s').

(** vmem.h, vmem_fence *)
Definition vmem_fence (vaddr_ptr asid_ptr : option Z) : M unit :=
  modify (fun s => set_trace (EvSfence vaddr_ptr asid_ptr :: trace s) s).

Definition wfi : M unit := modify (fun s => set_trace (EvWfi :: trace s) s).

Definition load_mem64 (a : Z) : M Z := gets (fun s => load64 (mem s) a).
Definition load_mem16 (a : Z) : M Z := gets (fun s => load16 (mem s) a).
Definition store_mem64 (a v : Z) : M unit :=
  modify (fun s => set_mem (store64 (mem s) a v) s).
(** A store to a page-table entry. *)
Definition store_pte (a v : Z) : M unit :=
  modify (fun s => set_trace (EvPteWrite a v :: trace s) (set_mem (store64 (mem s) a v) s)).

Section platform.
Context {plat : Platform}.

(** Volatile device reads. *)
Definition read_mtime : M Z := fun s => Ok (u64 (dev_mtime (tick s))) (set_tick (S (tick s)) s).
Definition read_uart_lsr : M Z := fun s => Ok (u8 (dev_uart_lsr (tick s))) (set_tick (S (tick s)) s).
Definition read_uart_rbr : M Z := fun s => Ok (u8 (dev_uart_rbr (tick s))) (set_tick (S (tick s)) s).

(** contexts.h *)
Definition set_host_thread_address (ptr : Z) : M unit := w_csr CSR_mscratch ptr.
Definition get_host_thread_address : M Z := r_csr CSR_mscratch.

(** Dereference of a [HostThreadData *]: [host_threads[0]] is the only one. *)
Definition host_thread_deref (ptr : Z) : M HostThreadData := fun s =>
  if ptr =? host_threads_addr then Ok (host_thread s) s else Undef.
Definition host_thread_assign (ptr : Z) (v : HostThreadData) : M unit := fun s =>
  if ptr =? host_threads_addr then Ok tt (set_host_thread v s) else Undef.

(** [get_host_thread_address()] followed by a read of the record. *)
Definition get_host_thread : M HostThreadData :=
  let! ptr := get_host_thread_address in host_thread_deref ptr.
Definition put_host_thread (v : HostThreadData) : M unit :=
  let! ptr := get_host_thread_address in host_thread_assign ptr v.

(** [&guest_threads[machine][thread]], out of bounds is undefined. *)
Definition get_guest_thread (id : GuestThreadId) : M GuestThreadContext := fun s =>
  match guest_threads s !! id with Some g => Ok g s | None => Undef end.
Definition put_guest_thread (id : GuestThreadId) (g : GuestThreadContext) : M unit := fun s =>
  match guest_threads s !! id with
  | Some _ => Ok tt (set_guest_threads (<[id := g]> (guest_threads s)) s)
  | None => Undef
  end.

(** [&guest_threads[host_thr->current_guest.machine][host_thr->current_guest.thread]] *)
Definition get_current_guest : M (GuestThreadId * GuestThreadContext) :=
  let! host_thr := get_host_thread in
  let! g := get_guest_thread (current_guest host_thr) in
  ret (current_guest host_thr, g).

End platform.

(** Registers: [x_plus_one[i]] *)
Definition x_plus_one (regs : list Z) (i : Z) : Z := default 0 (regs !! Z.to_nat i).
Definition set_x_plus_one (regs : list Z) (i v : Z) : list Z := <[Z.to_nat i := v]> regs.
(** [x(n)], the zero register included, as the instruction set reads it. *)
Definition xreg (regs : list Z) (n : Z) : Z := if n =? 0 then 0 else x_plus_one regs (n - 1).

Definition set_active_regs (r : list Z) (h : HostThreadData) : HostThreadData :=
  mkHostThreadData r (exception_handler_stack h) (current_guest h).
Definition set_exception_handler_stack (v : Z) (h : HostThreadData) : HostThreadData :=
  mkHostThreadData (active_regs h) v (current_guest h).

(** ** Facts about memory *)

Section memory.
Implicit Types (m : mem_t) (a v : Z).

Lemma load8_range m a : 0 <= load8 m a < 256.
Proof. unfold load8, u8. apply Z.mod_pos_bound. lia. Qed.

Lemma load_le_range n m a : 0 <= load_le n m a < 256 ^ Z.of_nat n.
Proof.
  revert a. induction n as [|n IH]; intros a; simpl load_le; [lia|].
  rewrite Nat2Z.inj_succ, Z.pow_succ_r by lia.
  pose proof (load8_range m a). specialize (IH (a + 1)). lia.
Qed.

Lemma load_le_agree n m m' a :
  mem_agree a (Z.of_nat n) m m' -> load_le n m a = load_le n m' a.
Proof.
  revert a. induction n as [|n IH]; intros a Hag; simpl; [done|].
  unfold load8. rewrite (Hag a) by lia. f_equal. f_equal.
  apply IH. intros x Hx. apply Hag. lia.
Qed.

Lemma store_le_lookup_other n m a v x :
  x < a \/ a + Z.of_nat n <= x -> store_le n m a v !! x = m !! x.
Proof.
  revert m a v. induction n as [|n IH]; intros m a v Hx; simpl; [done|].
  rewrite IH by lia. rewrite lookup_insert_ne by lia. done.
Qed.

Lemma load_store_le_same n m a v : load_le n (store_le n m a v) a = v mod 256 ^ Z.of_nat n.
Proof.
  revert m a v. induction n as [|n IH]; intros m a v; simpl load_le; simpl store_le.
  { by rewrite Z.mod_1_r. }
  unfold load8 at 1. rewrite store_le_lookup_other by lia. rewrite lookup_insert_eq. simpl.
  rewrite IH. unfold u8. change (2 ^ 8) with 256. rewrite Z.mod_mod by lia.
  rewrite Nat2Z.inj_succ, Z.pow_succ_r by lia.
  rewrite Z.rem_mul_r by lia. lia.
Qed.

Lemma load_store_le_other k n m a b v :
  a + Z.of_nat k <= b \/ b + Z.of_nat n <= a ->
  load_le k (store_le n m b v) a = load_le k m a.
Proof.
  intros H. apply load_le_agree. intros x Hx. apply store_le_lookup_other. lia.
Qed.

Lemma load64_range m a : 0 <= load64 m a < 2 ^ 64.
Proof. apply (load_le_range 8). Qed.
Lemma load16_range m a : 0 <= load16 m a < 2 ^ 16.
Proof. apply (load_le_range 2). Qed.
Lemma load64_store64_same m a v : load64 (store64 m a v) a = u64 v.
Proof. apply (load_store_le_same 8). Qed.
Lemma load64_store64_other m a b v :
  a + 8 <= b \/ b + 8 <= a -> load64 (store64 m b v) a = load64 m a.
Proof. intros. apply (load_store_le_other 8 8). lia. Qed.
Lemma load64_agree m m' a : mem_agree a 8 m m' -> load64 m a = load64 m' a.
Proof. apply (load_le_agree 8). Qed.
(** Two halfwords make a word. *)
Lemma load_le_two m a : load_le 2 m a = load16 m a.
Proof. done. Qed.
Lemma load_le_halves m a : load_le 4 m a = load16 m a + 2 ^ 16 * load16 m (a + 2).
Proof.
  unfold load16. simpl load_le. replace (a + 1 + 1) with (a + 2) by lia.
  replace (a + 1 + 1 + 1) with (a + 2 + 1) by lia. lia.
Qed.
Lemma store64_agree m a v b n :
  b + n <= a \/ a + 8 <= b -> mem_agree b n m (store64 m a v).
Proof. intros H x Hx. symmetry. apply (store_le_lookup_other 8). lia. Qed.

End memory.

Lemma mem_agree_refl a n m : mem_agree a n m m.
Proof. done. Qed.
Lemma mem_agree_trans a n m1 m2 m3 :
  mem_agree a n m1 m2 -> mem_agree a n m2 m3 -> mem_agree a n m1 m3.
Proof. intros H1 H2 x Hx. rewrite H1 by done. by apply H2. Qed.
Lemma mem_agree_sub a n b k m m' :
  mem_agree a n m m' -> a <= b -> b + k <= a + n -> mem_agree b k m m'.
Proof. intros H ?? x Hx. apply H. lia. Qed.

Create HintDb mem discriminated.
#[export] Hint Constants Opaque : mem.
#[export] Hint Resolve mem_agree_refl load64_range load16_range : mem.

#[global] Opaque load64 load16 store64.

(** ** Registers *)

Lemma x_plus_one_set_same regs i v :
  0 <= i < Z.of_nat (length regs) -> x_plus_one (set_x_plus_one regs i v) i = v.
Proof.
  intros. unfold x_plus_one, set_x_plus_one. by rewrite list_lookup_insert_eq by lia.
Qed.
Lemma x_plus_one_set_other regs i j v :
  0 <= i -> 0 <= j -> i <> j -> x_plus_one (set_x_plus_one regs i v) j = x_plus_one regs j.
Proof.
  intros. unfold x_plus_one, set_x_plus_one. by rewrite list_lookup_insert_ne by lia.
Qed.
Lemma length_set_x_plus_one regs i v : length (set_x_plus_one regs i v) = length regs.
Proof. apply length_insert. Qed.

(** The 31 saved registers hold machine words. *)
Definition regs_wf (regs : list Z) : Prop :=
  length regs = 31%nat /\ Forall (fun x => 0 <= x < 2 ^ 64) regs.

Lemma x_plus_one_range regs i : regs_wf regs -> 0 <= x_plus_one regs i < 2 ^ 64.
Proof.
  intros [_ Hall]. unfold x_plus_one. destruct (regs !! Z.to_nat i) as [v|] eqn:E; [|done].
  exact (Forall_lookup_1 _ _ _ _ Hall E).
Qed.
