(* ===== verification/Sample.v ===== *)
(** A concrete platform that satisfies the assumptions of Machine.PlatformOk,
    and concrete states on it, for the examples of the other files. *)
From S2P Require Import Prelude Machine.

(** The image at the start of RAM; a clock that advances by ten between reads
    and a UART that is always ready and has received the letter A. *)
#[export] Instance sample_platform : Platform := {|
  host_threads_addr := 0x84010000;
  machine_pagetable_roots_addr := 0x80010000;
  page_pool_addr := 0x80011000;
  hypstack0_addr := 0x84012000;
  hypstack_nested_addr := 0x84013000;
  exc_entry_addr := 0x80000020;
  dev_mtime := fun t => 1000 + 10 * Z.of_nat t;
  dev_uart_lsr := fun _ => 0x61;
  dev_uart_rbr := fun _ => 65;
  uart_patience := 1 |}.

#[export] Instance sample_platform_ok : PlatformOk.
Proof.
  split; unfold RAM_START, HYPERVISOR_END, GUEST_MEMORY_OFFSET, RAM_START, MAX_ALLOCATEABLE_PAGES, MAX_GUESTS;
    simpl; try lia; try done.
  intros t. exists 0%nat. split; [lia|done].
Defined.

Definition sample_host : HostThreadData := mkHostThreadData (replicate 31 0) 0 (0, 0).

(** The state in which _boot_entry calls boot_main. *)
Definition reset_state : State :=
  mkState ∅ ∅ sample_host {[ (0, 0) := GUEST_THREAD_CONTEXT_INIT ]} 0 0 false (-1, -1) 0 0 "" [].

(** The state with the hart's record installed, as boot_main leaves it. *)
Definition sample_state : State := set_csr {[ CSR_mscratch := host_threads_addr ]} reset_state.

Lemma sample_regs_wf : regs_wf (active_regs (host_thread sample_state)).
Proof. split; [reflexivity|]. by repeat constructor. Defined.
