(* ===== verification/Wp.v ===== *)
(** A weakest-precondition calculus for the monad of Machine.v.  [wp Pn m Q s]
    says that [m] run from [s] neither reaches undefined behaviour nor
    diverges, that [Q] holds of the value and state it returns, and that [Pn]
    holds of the state if it panics.  With [Pn := no_panic] it is total
    correctness. *)
From S2P Require Import Prelude Machine.

Definition wp {A} (Pn : State -> Prop) (m : M A) (Q : A -> State -> Prop) (s : State) : Prop :=
  match m s with
  | Ok a s' => Q a s'
  | Panic s' => Pn s'
  | Undef | Diverge => False
  end.

Definition no_panic : State -> Prop := fun _ => False.
Definition any_panic : State -> Prop := fun _ => True.

(** What printing may change. *)
Definition io_ext (s s' : State) : Prop := exists t c, s' = with_io t (console s +:+ c) s.

Create HintDb wp discriminated.
#[export] Hint Constants Opaque : wp.

Section rules.
Context {A B : Type}.
Implicit Types (Pn : State -> Prop) (m : M A).

Lemma wp_ret Pn (a : A) (Q : A -> State -> Prop) s : Q a s -> wp Pn (ret a) Q s.
Proof. done. Qed.

Lemma wp_bind Pn m (k : A -> M B) (Q : B -> State -> Prop) s :
  wp Pn m (fun a s' => wp Pn (k a) Q s') s -> wp Pn (bind m k) Q s.
Proof. unfold wp, bind. by destruct (m s). Qed.

(** What is known of a run that may panic holds of one that does not. *)
Lemma wp_not_panicking m (P Q : A -> State -> Prop) s :
  wp any_panic m Q s -> wp no_panic m P s -> wp no_panic m Q s.
Proof. unfold wp. by destruct (m s). Qed.

(** The first two of three steps at once. *)
Lemma wp_bind2 Pn {C} (n : M C) (f : C -> M A) (k : A -> M B) (Q : B -> State -> Prop) s :
  wp Pn (bind n f) (fun a s' => wp Pn (k a) Q s') s -> wp Pn (bind n (fun r => bind (f r) k)) Q s.
Proof. unfold wp, bind. destruct (n s) as [c s1| | |]; try done. by destruct (f c s1). Qed.

Lemma wp_mono Pn Pn' m (Q Q' : A -> State -> Prop) s :
  wp Pn m Q s -> (forall a s', Q a s' -> Q' a s') -> (forall s', Pn s' -> Pn' s') ->
  wp Pn' m Q' s.
Proof. unfold wp. destruct (m s); eauto. Qed.

Lemma wp_post Pn m (Q Q' : A -> State -> Prop) s :
  wp Pn m Q s -> (forall a s', Q a s' -> Q' a s') -> wp Pn m Q' s.
Proof. intros. eapply wp_mono; eauto. Qed.

Lemma wp_total Pn m (Q : A -> State -> Prop) s : wp no_panic m Q s -> wp Pn m Q s.
Proof. intros. eapply wp_mono; eauto. done. Qed.

Lemma wp_any Pn m (Q : A -> State -> Prop) s : wp Pn m Q s -> wp any_panic m Q s.
Proof. intros. by eapply wp_mono. Qed.

Lemma wp_gets Pn (f : State -> A) (Q : A -> State -> Prop) s : Q (f s) s -> wp Pn (gets f) Q s.
Proof. done. Qed.

(** Total correctness is exactly: the run ends normally in [Q]. *)
Lemma wp_no_panic_iff m (Q : A -> State -> Prop) s :
  wp no_panic m Q s <-> exists a s', m s = Ok a s' /\ Q a s'.
Proof.
  unfold wp, no_panic. split.
  - destruct (m s) as [a s'| | |]; [eauto|done..].
  - intros (a & s' & -> & H). done.
Qed.

(** Reasoning forwards from a known run. *)
Lemma wp_ok Pn m (Q : A -> State -> Prop) s a s' : m s = Ok a s' -> Q a s' -> wp Pn m Q s.
Proof. unfold wp. by intros ->. Qed.
Lemma wp_elim Pn m (Q : A -> State -> Prop) s a s' : wp Pn m Q s -> m s = Ok a s' -> Q a s'.
Proof. unfold wp. intros H Hm. by rewrite Hm in H. Qed.

Lemma wp_run Pn m (Q : A -> State -> Prop) s :
  wp Pn m Q s -> (forall s', ~ Pn s') -> exists a s', m s = Ok a s' /\ Q a s'.
Proof. unfold wp. intros H HP. destruct (m s) as [a s'|s'| |]; [eauto|by destruct (HP s')|done..]. Qed.

(** A run seen to return by evaluation. *)
Definition returns (r : result A) : bool := match r with Ok _ _ => true | _ => false end.

Lemma wp_returns Pn m (Q : A -> State -> Prop) s :
  wp Pn m Q s -> returns (m s) = true -> exists a s', m s = Ok a s' /\ Q a s'.
Proof. unfold wp. destruct (m s); [eauto|done..]. Qed.

(** The state a run returns in, [s] if it does not return. *)
Definition final (r : result A) (s : State) : State := match r with Ok _ s' => s' | _ => s end.

(** A run that must panic. *)
Lemma wp_panics m s : wp any_panic m (fun _ _ => False) s -> exists s', m s = Panic s'.
Proof. unfold wp. destruct (m s); [done|eauto|done..]. Qed.

Lemma bind_ok m (k : A -> M B) s a s' : m s = Ok a s' -> bind m k s = k a s'.
Proof. unfold bind. by intros ->. Qed.
End rules.

Lemma returns_final (r : result unit) s : returns r = true -> r = Ok tt (final r s).
Proof. by destruct r as [[]| | |]. Qed.

Lemma wp_modify Pn f (Q : unit -> State -> Prop) s : Q tt (f s) -> wp Pn (modify f) Q s.
Proof. done. Qed.

(** Loops: an invariant indexed by the elements done and those to do. *)
Lemma wp_for_each {A} Pn (l : list A) (f : A -> M unit) (I : list A -> State -> Prop) s
    (Q : unit -> State -> Prop) :
  I l s ->
  (forall x rest s, x ∈ l -> I (x :: rest) s -> wp Pn (f x) (fun _ => I rest) s) ->
  (forall s, I [] s -> Q tt s) ->
  wp Pn (for_each l f) Q s.
Proof.
  intros HI Hstep HQ.
  enough (forall l', (forall x, x ∈ l' -> x ∈ l) -> forall s, I l' s -> wp Pn (for_each l' f) Q s)
    as H by eauto.
  induction l' as [|x l' IH]; intros Hin s' HI'; [by apply HQ|].
  apply wp_bind. eapply wp_post; [eapply Hstep; [|done]; set_solver|].
  intros [] s'' HI''. apply IH; [set_solver|done].
Qed.

(** Loops over [lo <= i < hi], the invariant indexed by the next [i]. *)
Lemma wp_for_range Pn (lo n : Z) (f : Z -> M unit) (I : Z -> State -> Prop) s
    (Q : unit -> State -> Prop) :
  0 <= n -> I lo s ->
  (forall i s, lo <= i < lo + n -> I i s -> wp Pn (f i) (fun _ => I (i + 1)) s) ->
  (forall s, I (lo + n) s -> Q tt s) ->
  wp Pn (for_each (seqZ lo n) f) Q s.
Proof.
  intros Hn. revert lo s. pattern n. apply natlike_ind; [| |done].
  - intros lo s HI _ HQ. rewrite seqZ_nil by lia. apply HQ. by rewrite Z.add_0_r.
  - intros k Hk IH lo s HI Hstep HQ. rewrite seqZ_cons by lia. simpl.
    apply wp_bind. eapply wp_post; [apply Hstep; [lia|done]|].
    intros [] s' HI'. rewrite Z.pred_succ. apply IH; [done| |].
    + intros i s'' Hi. apply Hstep. lia.
    + intros s'' Hend. apply HQ. by replace (lo + Z.succ k) with (Z.succ lo + k) by lia.
Qed.

(** ** Runs that may be undefined *)

(** As [wp], a panic allowed, and undefined behaviour only if [ub] holds. *)
Definition wpx {A} (ub : Prop) (m : M A) (Q : A -> State -> Prop) (s : State) : Prop :=
  match m s with
  | Ok a s' => Q a s'
  | Panic _ => True
  | Undef => ub
  | Diverge => False
  end.

Section rulesx.
Context {A B : Type} (ub : Prop).
Implicit Types (m : M A).

Lemma wpx_ret (a : A) (Q : A -> State -> Prop) s : Q a s -> wpx ub (ret a) Q s.
Proof. done. Qed.
Lemma wpx_bind m (k : A -> M B) (Q : B -> State -> Prop) s :
  wpx ub m (fun a s' => wpx ub (k a) Q s') s -> wpx ub (bind m k) Q s.
Proof. unfold wpx, bind. by destruct (m s). Qed.
(** The first two of three steps at once. *)
Lemma wpx_bind2 {C} (n : M C) (f : C -> M A) (k : A -> M B) (Q : B -> State -> Prop) s :
  wpx ub (bind n f) (fun a s' => wpx ub (k a) Q s') s -> wpx ub (bind n (fun r => bind (f r) k)) Q s.
Proof. unfold wpx, bind. destruct (n s) as [c s1| | |]; try done. by destruct (f c s1). Qed.
Lemma wpx_post m (Q Q' : A -> State -> Prop) s :
  wpx ub m Q s -> (forall a s', Q a s' -> Q' a s') -> wpx ub m Q' s.
Proof. unfold wpx. destruct (m s); eauto. Qed.
Lemma wpx_wp Pn m (Q : A -> State -> Prop) s : wp Pn m Q s -> wpx ub m Q s.
Proof. unfold wp, wpx. by destruct (m s). Qed.
Lemma wpx_ok m (Q : A -> State -> Prop) s a s' : m s = Ok a s' -> Q a s' -> wpx ub m Q s.
Proof. unfold wpx. by intros ->. Qed.
Lemma wpx_elim m (Q : A -> State -> Prop) s a s' : wpx ub m Q s -> m s = Ok a s' -> Q a s'.
Proof. unfold wpx. intros H Hm. by rewrite Hm in H. Qed.
End rulesx.

Lemma wpx_false {A} (m : M A) (Q : A -> State -> Prop) s : wpx False m Q s -> wp any_panic m Q s.
Proof. unfold wp, wpx. by destruct (m s). Qed.

(** ** Primitive operations *)

Section primitives.
Context {plat : Platform}.

Lemma get_host_thread_ok s :
  default 0 (csr s !! CSR_mscratch) = host_threads_addr ->
  get_host_thread s = Ok (host_thread s) s.
Proof.
  intros H. unfold get_host_thread, bind, get_host_thread_address, r_csr, gets,
    host_thread_deref. by rewrite H, Z.eqb_refl.
Qed.

Lemma put_host_thread_ok s v :
  default 0 (csr s !! CSR_mscratch) = host_threads_addr ->
  put_host_thread v s = Ok tt (set_host_thread v s).
Proof.
  intros H. unfold put_host_thread, bind, get_host_thread_address, r_csr, gets,
    host_thread_assign. by rewrite H, Z.eqb_refl.
Qed.

Lemma get_guest_thread_ok s id g :
  guest_threads s !! id = Some g -> get_guest_thread id s = Ok g s.
Proof. intros H. unfold get_guest_thread. by rewrite H. Qed.

Lemma put_guest_thread_ok s id g g' :
  guest_threads s !! id = Some g ->
  put_guest_thread id g' s = Ok tt (set_guest_threads (<[id := g']> (guest_threads s)) s).
Proof. intros H. unfold put_guest_thread. by rewrite H. Qed.

Lemma get_current_guest_ok s g :
  default 0 (csr s !! CSR_mscratch) = host_threads_addr ->
  guest_threads s !! current_guest (host_thread s) = Some g ->
  get_current_guest s = Ok (current_guest (host_thread s), g) s.
Proof.
  intros H1 H2. unfold get_current_guest.
  erewrite bind_ok by (by apply get_host_thread_ok).
  erewrite bind_ok by (by apply get_guest_thread_ok). done.
Qed.

Lemma io_ext_refl s : io_ext s s.
Proof.
  exists (tick s), ""%string. rewrite string_app_nil_r. by destruct s.
Qed.
End primitives.

#[export] Hint Resolve io_ext_refl : wp.

(** A write to a CSR, satp apart. *)
Lemma wp_w_csr Pn n v (Q : unit -> State -> Prop) s :
  n <> CSR_satp -> Q tt (set_csr (<[n := u64 v]> (csr s)) s) -> wp Pn (w_csr n v) Q s.
Proof.
  intros Hn HQ. apply wp_modify. cbv beta zeta. by rewrite (proj2 (Z.eqb_neq _ _) Hn).
Qed.

(** ** Tactics *)

(** One step of symbolic execution of a [wp] goal. *)
Ltac wp_step :=
  lazymatch goal with
  | |- wp _ (bind _ _) _ _ => apply wp_bind
  | |- wp _ (ret _) _ _ => apply wp_ret
  | |- wp _ (gets _) _ _ => apply wp_gets
  | |- wp _ (modify _) _ _ => apply wp_modify
  | |- wp _ (r_csr _) _ _ => apply wp_gets
  | |- wp _ (w_csr _ _) _ _ => apply wp_modify
  | |- wp _ (vmem_fence _ _) _ _ => apply wp_modify
  | |- wp _ (load_mem64 _) _ _ => apply wp_gets
  | |- wp _ (load_mem16 _) _ _ => apply wp_gets
  | |- wp _ (store_mem64 _ _) _ _ => apply wp_modify
  | |- wp _ (store_pte _ _) _ _ => apply wp_modify
  | |- wp _ (if ?b then _ else _) _ _ => let E := fresh "E" in destruct b eqn:E
  end.
Ltac wp_steps := repeat (wp_step; cbv beta).

(** Use a proved specification for the head operation. *)
Tactic Notation "wp_apply" uconstr(H) := eapply wp_post; [eapply H|].
Tactic Notation "wp_apply_total" uconstr(H) := eapply wp_post; [eapply wp_total, H|].
