(* ===== verification/Print.v ===== *)
(** uart.h, print.c and panic.c: polled output on the hypervisor's UART,
    hexadecimal printing of addresses, the register dump and the halt that end
    every panic. *)
From S2P Require Import Prelude Machine Sample Wp.

(** ** uart.h *)

Definition UART_LSR_DR : Z := Z.shiftl 1 0.
Definition UART_LSR_THRE : Z := Z.shiftl 1 5.
Definition UART_LSR_TEMT : Z := Z.shiftl 1 6.

Section uart.
Context {plat : Platform}.

(** [while ((uart->lsr & mask) == 0) ;] with the number of polls bounded. *)
Fixpoint uart_wait (mask : Z) (fuel : nat) : M unit :=
  match fuel with
  | O => diverge
  | S fuel' =>
      let! lsr := read_uart_lsr in
      if Z.land lsr mask =? 0 then uart_wait mask fuel' else ret tt
  end.

(** [uart->thr = c] *)
Definition uart_put_thr (c : ascii) : M unit :=
  modify (fun s => set_console (console s +:+ String c "") s).

Definition uart_putc_blocking (c : ascii) : M unit :=
  uart_wait UART_LSR_THRE uart_patience ;;
  uart_put_thr c.

Definition uart_getc_blocking : M Z :=
  uart_wait UART_LSR_DR uart_patience ;;
  read_uart_rbr.

Definition uart_write_blocking (buf : list ascii) : M unit :=
  for_each buf uart_putc_blocking.

(** ** print.c *)

Definition print_string_slice (slc : list ascii) : M unit := uart_write_blocking slc.

(** [while (str[len]) ++len;]: the bytes before the first NUL. *)
Fixpoint c_strlen (str : string) : nat :=
  match str with
  | EmptyString => 0
  | String c rest => if decide (c = Ascii.zero) then 0 else S (c_strlen rest)
  end.

(** [None] is the null pointer. *)
Definition print_string (str : option string) : M unit :=
  match str with
  | None => ret tt
  | Some str => print_string_slice (take (c_strlen str) (String.list_ascii_of_string str))
  end.

Definition nibble_char (c : Z) : ascii :=
  Ascii.ascii_of_N (Z.to_N (if c <? 10 then u8 (c + 48) else u8 (c + (65 - 10)))).

(** The loop over [i = 8 .. 1], writing [buf[i*2]] and [buf[i*2+1]]. *)
Fixpoint print_addr_loop (i : nat) (num : Z) (buf : list ascii) : list ascii :=
  match i with
  | O => buf
  | S i' =>
      let byte := Z.land num 0xFF in
      let buf := <[(i * 2)%nat := nibble_char (Z.shiftr byte 4)]> buf in
      let buf := <[(i * 2 + 1)%nat := nibble_char (Z.land byte 0xF)]> buf in
      print_addr_loop i' (Z.shiftr num 8) buf
  end.

Definition print_addr_buf (num : Z) : list ascii :=
  print_addr_loop 8 num (String.list_ascii_of_string "0x" ++ replicate 16 Ascii.zero).

Definition print_addr (num : Z) : M unit := print_string_slice (print_addr_buf num).

(** ** panic.c *)

Definition nl : string := String (Ascii.ascii_of_nat 10) "".
Definition esc : string := String (Ascii.ascii_of_nat 27) "".

(** registers.cc, in order; the i-th names [x_plus_one[i]]. *)
Definition register_names : list string :=
  ["ra"; "sp"; "gp"; "tp"; "t0"; "t1"; "t2"; "s0"; "s1"; "a0"; "a1"; "a2"; "a3"; "a4"; "a5";
   "a6"; "a7"; "s2"; "s3"; "s4"; "s5"; "s6"; "s7"; "s8"; "s9"; "s10"; "s11"; "t3"; "t4";
   "t5"; "t6"]%string.

Definition dump_register (ctx : Z) (nr : string * Z) : M unit :=
  print_string (Some (nr.1 +:+ " = ")) ;;
  let! h := host_thread_deref ctx in
  print_addr (x_plus_one (active_regs h) nr.2) ;;
  print_string (Some nl).

Definition dump_caller_registers : M unit :=
  print_string (Some "mepc = "%string) ;;
  let! mepc := r_csr CSR_mepc in
  print_addr mepc ;;
  print_string (Some nl) ;;
  let! ctx := get_host_thread_address in
  if ctx =? 0 then print_string (Some ("mscratch = NULL" +:+ nl))
  else for_each (zip register_names (seqZ 0 31)) (dump_register ctx).

(** hypenterleave.S, halt_thread: mask every interrupt and wait for ever. *)
Definition halt_thread {A} : M A :=
  w_csr CSR_mie 0 ;;
  (fun s => Panic s).

Definition panic_banner : string :=
  nl +:+ esc +:+ "[0;1;91m*** Hypervisor panic ***" +:+ esc +:+ "[0m" +:+ nl.

(** The build leaves USE_STACK_TRACE undefined. *)
Definition panic {A} : M A :=
  print_string (Some panic_banner) ;;
  dump_caller_registers ;;
  halt_thread.

(** [print_string(msg); panic();] *)
Definition panic_msg {A} (msg : string) : M A := print_string (Some msg) ;; panic.
(** [print_string(msg); print_addr(v); panic();] *)
Definition panic_msg_addr {A} (msg : string) (v : Z) : M A :=
  print_string (Some msg) ;; print_addr v ;; panic.

End uart.

(** A panic does not return. *)
Lemma panic_not_ok `{plat : Platform} {A} s (a : A) s' : panic s <> Ok a s'.
Proof.
  unfold panic. unfold bind at 1. destruct (print_string _ s) as [[] s1|s1| |]; try done.
  unfold bind at 1. by destruct (dump_caller_registers s1).
Qed.
Lemma panic_msg_not_ok `{plat : Platform} {A} msg s (a : A) s' : panic_msg msg s <> Ok a s'.
Proof. unfold panic_msg. unfold bind at 1. destruct (print_string _ s); try done. apply panic_not_ok. Qed.

Lemma panic_msg_addr_not_ok `{plat : Platform} {A} msg v s (a : A) s' : panic_msg_addr msg v s <> Ok a s'.
Proof.
  unfold panic_msg_addr. unfold bind at 1. destruct (print_string _ s) as [[] s1|s1| |]; try done.
  unfold bind at 1. destruct (print_addr v s1); try done. apply panic_not_ok.
Qed.

(** ** Reference: hexadecimal notation *)

Definition hex_value (c : ascii) : Z :=
  let n := Z.of_N (Ascii.N_of_ascii c) in if n <? 58 then n - 48 else n - 55.

(** The [n] low hexadecimal digits of [num], most significant first. *)
Fixpoint hex_digits (n : nat) (num : Z) : list ascii :=
  match n with
  | O => []
  | S n' => hex_digits n' (num / 16) ++ [nibble_char (num mod 16)]
  end.

Definition hex_parse (l : list ascii) : Z := foldl (fun acc c => 16 * acc + hex_value c) 0 l.

Definition hex_string (num : Z) : string := "0x" +:+ String.string_of_list_ascii (hex_digits 16 num).

(** ** Reference: the report of a panic *)

(** The names of x1 to x31 in the calling convention. *)
Definition abi_names : list string :=
  ["ra"; "sp"; "gp"; "tp"; "t0"; "t1"; "t2"; "s0"; "s1"; "a0"; "a1"; "a2"; "a3"; "a4"; "a5"; "a6"; "a7";
   "s2"; "s3"; "s4"; "s5"; "s6"; "s7"; "s8"; "s9"; "s10"; "s11"; "t3"; "t4"; "t5"; "t6"]%string.

(** One line for each of the words of the trap that is reported: the program
    counter, and the saved registers if the hart has a record. *)
Definition report_line (name : string) (v : Z) : string := name +:+ " = " +:+ hex_string v +:+ nl.
Definition report (mepc : Z) (saved : option (list Z)) : string :=
  report_line "mepc" mepc +:+
  match saved with
  | None => "mscratch = NULL" +:+ nl
  | Some regs => String.concat "" (zip_with (fun name i => report_line name (xreg regs i)) abi_names (seqZ 1 31))
  end.

(** ** Correctness of print_addr *)

Lemma length_hex_digits n num : length (hex_digits n num) = n.
Proof. revert num. induction n; intros; simpl; [done|]. rewrite length_app, IHn. simpl. lia. Qed.

Lemma hex_value_nibble c : 0 <= c < 16 -> hex_value (nibble_char c) = c.
Proof.
  assert (Forall (fun d => hex_value (nibble_char d) = d) (seqZ 0 16)) as H
    by (apply (bool_decide_unpack _); by vm_compute).
  intros Hc. rewrite Forall_seqZ in H. apply H. lia.
Qed.

Lemma hex_parse_digits n num : hex_parse (hex_digits n num) = num mod 16 ^ Z.of_nat n.
Proof.
  revert num. induction n as [|n IH]; intros num; simpl; [by rewrite Z.mod_1_r|].
  unfold hex_parse in *. rewrite foldl_app, IH. simpl.
  rewrite hex_value_nibble by (apply Z.mod_pos_bound; lia).
  rewrite Nat2Z.inj_succ, Z.pow_succ_r, Z.rem_mul_r by lia. lia.
Qed.

(** Two digits written side by side at the end of the area still to fill. *)
Lemma insert_two {A} (l : list A) (k : nat) (a b : A) :
  (k + 2 <= length l)%nat ->
  <[(k + 1)%nat := b]> (<[k := a]> l) = take k l ++ [a; b] ++ drop (k + 2) l.
Proof.
  intros H. pose proof (take_drop k l) as Hl.
  assert (length (take k l) = k) as Hk by (rewrite length_take; lia).
  assert (length (drop k l) = (length l - k)%nat) as Hd by apply length_drop.
  destruct (drop k l) as [|x [|y r]] eqn:E; simpl in Hd; [lia..|].
  assert (drop (k + 2) l = r) as -> by (by rewrite <- drop_drop, E).
  rewrite <- Hl at 1. rewrite !insert_app_r_alt by lia. rewrite Hk.
  by replace (k - k)%nat with 0%nat by lia; replace (k + 1 - k)%nat with 1%nat by lia.
Qed.

Lemma print_addr_loop_spec i num buf :
  (2 * i + 2 <= length buf)%nat ->
  print_addr_loop i num buf =
    take 2 buf ++ hex_digits (2 * i) num ++ drop (2 * i + 2) buf.
Proof.
  revert num buf. induction i as [|i IH]; intros num buf Hl.
  { simpl. by rewrite take_drop. }
  cbn [print_addr_loop].
  replace (S i * 2)%nat with (2 * i + 2)%nat by lia.
  rewrite insert_two by lia.
  rewrite Z.shiftr_div_pow2 by lia.
  rewrite IH by (rewrite !length_app, length_take, length_drop; simpl; lia).
  rewrite take_app_le by (rewrite length_take; lia). rewrite take_take.
  replace (2 `min` (2 * i + 2))%nat with 2%nat by lia. f_equal.
  replace (2 * S i)%nat with (S (S (2 * i))) by lia. cbn [hex_digits].
  rewrite drop_app_length' by (rewrite length_take; lia).
  rewrite <- !app_assoc. f_equal; [f_equal; rewrite Z.div_div by lia; done|].
  change 0xFF with (2 ^ 8 - 1). change 0xF with (2 ^ 4 - 1). rewrite !land_low by lia.
  rewrite Z.shiftr_div_pow2 by lia. simpl.
  f_equal; [f_equal|f_equal; [f_equal|]].
  - change (2 ^ 8) with 256. change (2 ^ 4) with 16. Z.div_mod_to_equations. lia.
  - change (2 ^ 8) with 256. change (2 ^ 4) with 16. Z.div_mod_to_equations. lia.
  - f_equal. lia.
Qed.

Lemma print_addr_buf_spec num :
  print_addr_buf num = String.list_ascii_of_string "0x" ++ hex_digits 16 num.
Proof.
  unfold print_addr_buf. rewrite print_addr_loop_spec by (simpl; lia).
  change (2 * 8)%nat with 16%nat. generalize (hex_digits 16 num). intros l.
  simpl. by rewrite app_nil_r.
Qed.

(** ** Output never blocks and changes nothing but the device *)

Section output.
Context {plat : Platform} {plat_ok : PlatformOk}.

Lemma land_thre x : (Z.land (u8 x) UART_LSR_THRE =? 0) = negb (Z.testbit x 5).
Proof.
  pose proof (land_bit_nonzero (u8 x) 5 ltac:(lia)) as H.
  unfold nonzero in H. change (2 ^ 5) with UART_LSR_THRE in H.
  unfold u8 in *. rewrite Z.mod_pow2_bits_low in H by lia.
  rewrite <- H. by rewrite negb_involutive.
Qed.

Lemma uart_wait_thre_ok s : exists t, uart_wait UART_LSR_THRE uart_patience s = Ok tt (set_tick t s).
Proof.
  destruct (uart_ready (tick s)) as (n & Hn & Hbit).
  revert s n Hn Hbit. induction uart_patience as [|k IH]; intros s n Hn Hbit; [lia|].
  cbn [uart_wait]. unfold bind, read_uart_lsr. rewrite land_thre.
  destruct (Z.testbit (dev_uart_lsr (tick s)) 5) eqn:E; simpl.
  { exists (S (tick s)). done. }
  destruct n as [|n]; [by rewrite Nat.add_0_r, E in Hbit|].
  destruct (IH (set_tick (S (tick s)) s) n) as [t Ht]; [lia|simpl; by rewrite <- Nat.add_succ_r|].
  exists t. rewrite Ht. by destruct s.
Qed.

Lemma uart_write_blocking_ok buf s : exists t,
  uart_write_blocking buf s =
    Ok tt (with_io t (console s +:+ String.string_of_list_ascii buf) s).
Proof.
  unfold uart_write_blocking. revert s. induction buf as [|c buf IH]; intros s.
  { exists (tick s). simpl. rewrite string_app_nil_r. by destruct s. }
  cbn [for_each]. destruct (uart_wait_thre_ok s) as [t Ht].
  unfold uart_putc_blocking at 1. unfold bind. rewrite Ht. unfold uart_put_thr, modify.
  destruct (IH (set_console (console (set_tick t s) +:+ String c "") (set_tick t s)))
    as [t' Ht'].
  exists t'. rewrite Ht'. destruct s. unfold with_io. simpl. by rewrite string_app_assoc.
Qed.

Lemma io_ext_write s t c : io_ext s (with_io t (console s +:+ c) s).
Proof. by exists t, c. Qed.

Lemma io_ext_trans s1 s2 s3 : io_ext s1 s2 -> io_ext s2 s3 -> io_ext s1 s3.
Proof.
  intros (t & c & ->) (t' & c' & ->). exists t', (c +:+ c'). simpl.
  rewrite string_app_assoc. by destruct s1.
Qed.

Lemma wp_print_slice Pn slc (Q : unit -> State -> Prop) s :
  (forall s', io_ext s s' -> Q tt s') -> wp Pn (print_string_slice slc) Q s.
Proof.
  intros H. destruct (uart_write_blocking_ok slc s) as [t Ht].
  eapply wp_ok; [exact Ht|]. apply H, io_ext_write.
Qed.

Lemma wp_print_string Pn str (Q : unit -> State -> Prop) s :
  (forall s', io_ext s s' -> Q tt s') -> wp Pn (print_string str) Q s.
Proof.
  intros H. destruct str; simpl; [by apply wp_print_slice|].
  apply wp_ret, H, io_ext_refl.
Qed.

Lemma wp_print_addr Pn num (Q : unit -> State -> Prop) s :
  (forall s', io_ext s s' -> Q tt s') -> wp Pn (print_addr num) Q s.
Proof. apply wp_print_slice. Qed.

(** [mscratch] points to the hart's record. *)
Definition mscratch_ok (s : State) : Prop :=
  default 0 (csr s !! CSR_mscratch) = host_threads_addr.

Lemma io_ext_csr s s' : io_ext s s' -> csr s' = csr s.
Proof. by intros (? & ? & ->). Qed.

Lemma mscratch_ok_io s s' : io_ext s s' -> mscratch_ok s -> mscratch_ok s'.
Proof. intros H. unfold mscratch_ok. by rewrite (io_ext_csr _ _ H). Qed.

Lemma wp_dump_register Pn nr (Q : unit -> State -> Prop) s :
  (forall s', io_ext s s' -> Q tt s') -> wp Pn (dump_register host_threads_addr nr) Q s.
Proof.
  intros H. unfold dump_register. apply wp_bind, wp_print_string. intros s1 H1.
  apply wp_bind. unfold host_thread_deref at 1, wp at 1. rewrite Z.eqb_refl.
  apply wp_bind, wp_print_addr. intros s2 H2. apply wp_print_string. intros s3 H3.
  eauto using io_ext_trans.
Qed.

Lemma wp_dump_caller_registers Pn (Q : unit -> State -> Prop) s :
  mscratch_ok s -> (forall s', io_ext s s' -> Q tt s') -> wp Pn dump_caller_registers Q s.
Proof.
  intros Hm H. unfold dump_caller_registers.
  apply wp_bind, wp_print_string. intros s1 H1. wp_step. apply wp_gets.
  apply wp_bind, wp_print_addr. intros s2 H2. apply wp_bind, wp_print_string. intros s3 H3.
  assert (io_ext s s3) as H03 by eauto using io_ext_trans.
  wp_step. apply wp_gets. rewrite (mscratch_ok_io _ _ H03 Hm).
  rewrite (proj2 (Z.eqb_neq _ _) host_threads_not_null).
  apply wp_for_each with (I := fun _ s' => io_ext s s'); [done| |by intros; apply H].
  intros x rest s' _ Hs'. apply wp_dump_register. eauto using io_ext_trans.
Qed.

(** A panic always reaches the halt loop, with every interrupt masked, having
    only printed on the way. *)
Lemma wp_panic {A} Pn (Q : A -> State -> Prop) s :
  mscratch_ok s ->
  (forall s', io_ext s s' -> Pn (set_csr (<[CSR_mie := 0]> (csr s')) s')) ->
  wp Pn panic Q s.
Proof.
  intros Hm H. unfold panic. apply wp_bind, wp_print_string. intros s1 H1.
  apply wp_bind, wp_dump_caller_registers; [by eapply mscratch_ok_io|]. intros s2 H2.
  unfold halt_thread. apply wp_bind, wp_modify. cbv beta. apply H.
  eauto using io_ext_trans.
Qed.

Lemma wp_panic_any {A} (Q : A -> State -> Prop) s :
  mscratch_ok s -> wp any_panic panic Q s.
Proof. intros. by apply wp_panic. Qed.

Lemma wp_panic_msg {A} (Pn : State -> Prop) msg (Q : A -> State -> Prop) s :
  mscratch_ok s -> (forall s', Pn s') -> wp Pn (panic_msg msg) Q s.
Proof.
  intros Hm H. apply wp_bind, wp_print_string. intros s1 H1. apply wp_panic; [by eapply mscratch_ok_io|auto].
Qed.

Lemma wp_panic_msg_any {A} msg (Q : A -> State -> Prop) s :
  mscratch_ok s -> wp any_panic (panic_msg msg) Q s.
Proof.
  intros. apply wp_bind, wp_print_string. intros. apply wp_panic_any.
  by eapply mscratch_ok_io.
Qed.

Lemma wp_panic_msg_addr_any {A} msg v (Q : A -> State -> Prop) s :
  mscratch_ok s -> wp any_panic (panic_msg_addr msg v) Q s.
Proof.
  intros. apply wp_bind, wp_print_string. intros. apply wp_bind, wp_print_addr. intros.
  apply wp_panic_any. by repeat (eapply mscratch_ok_io; [done|]).
Qed.

(** [C36] Printing an address never blocks and prints the address: on a UART
    whose holding register empties, print_addr sends exactly "0x" and sixteen
    digits, of which [hex_parse] recovers the number, and changes nothing else. *)
Theorem print_addr_correct num s :
  0 <= num < 2 ^ 64 ->
  exists digits t,
    print_addr num s = Ok tt (with_io t (console s +:+ "0x" +:+ String.string_of_list_ascii digits) s) /\
    length digits = 16%nat /\ hex_parse digits = num.
Proof.
  intros Hn. destruct (uart_write_blocking_ok (print_addr_buf num) s) as [t Ht].
  exists (hex_digits 16 num), t. split; [|split].
  - unfold print_addr, print_string_slice. by rewrite Ht, print_addr_buf_spec.
  - apply length_hex_digits.
  - rewrite hex_parse_digits. apply Z.mod_small. done.
Qed.

(** [m] prints [str] and does nothing else, whatever was printed before. *)
Definition prints (s : State) (m : M unit) (str : string) : Prop :=
  forall t c, exists t', m (with_io t c s) = Ok tt (with_io t' (c +:+ str) s).

Lemma prints_slice s l : prints s (print_string_slice l) (String.string_of_list_ascii l).
Proof. intros t c. destruct (uart_write_blocking_ok l (with_io t c s)) as [t' Ht]. exists t'. exact Ht. Qed.

Lemma prints_seq s m m' str str' : prints s m str -> prints s m' str' -> prints s (m ;; m') (str +:+ str').
Proof.
  intros H H' t c. destruct (H t c) as [t1 H1]. destruct (H' t1 (c +:+ str)) as [t2 H2]. exists t2.
  erewrite bind_ok by exact H1. by rewrite H2, string_app_assoc.
Qed.

(** A string without a NUL is printed whole. *)
Lemma prints_string s str : c_strlen str = length (String.list_ascii_of_string str) ->
  prints s (print_string (Some str)) str.
Proof.
  intros Hlen. rewrite <- (String.string_of_list_ascii_of_string str) at 2.
  unfold print_string. rewrite take_ge by (by rewrite Hlen). apply prints_slice.
Qed.

(** Reading what printing leaves alone. *)
Lemma prints_read {B} s (m : M B) b k str :
  (forall t c, m (with_io t c s) = Ok b (with_io t c s)) -> prints s (k b) str -> prints s (bind m k) str.
Proof. intros Hm Hk t c. destruct (Hk t c) as [t' Ht]. exists t'. by erewrite bind_ok. Qed.

Lemma prints_addr s v : prints s (print_addr v) (hex_string v).
Proof. unfold print_addr. rewrite print_addr_buf_spec. apply prints_slice. Qed.

Lemma prints_for_each {B} s (f : B -> M unit) (g : B -> string) l :
  (forall x, x ∈ l -> prints s (f x) (g x)) -> prints s (for_each l f) (String.concat "" (g <$> l)).
Proof.
  induction l as [|x l IH]; intros Hl; [intros t c; exists t; by rewrite string_app_nil_r|].
  assert (String.concat "" (g <$> x :: l) = g x +:+ String.concat "" (g <$> l)) as ->.
  { destruct l; simpl; [by rewrite string_app_nil_r|done]. }
  cbn [for_each]. apply prints_seq; [apply Hl|apply IH; intros y Hy; apply Hl]; set_solver.
Qed.

(** The names of the registers, with where the dump finds each. *)
Lemma register_lines regs :
  (fun nr : string * Z => report_line nr.1 (x_plus_one regs nr.2)) <$> zip register_names (seqZ 0 31)
  = zip_with (fun name i => report_line name (xreg regs i)) abi_names (seqZ 1 31).
Proof. reflexivity. Qed.

Lemma register_names_printed : Forall (fun nr : string * Z =>
  c_strlen (nr.1 +:+ " = ") = length (String.list_ascii_of_string (nr.1 +:+ " = "))) (zip register_names (seqZ 0 31)).
Proof. apply (bool_decide_unpack _). by vm_compute. Qed.

Lemma host_thread_deref_same s : host_thread_deref host_threads_addr s = Ok (host_thread s) s.
Proof. unfold host_thread_deref. by rewrite Z.eqb_refl. Qed.

Lemma prints_register s nr :
  c_strlen (nr.1 +:+ " = ") = length (String.list_ascii_of_string (nr.1 +:+ " = ")) ->
  prints s (dump_register host_threads_addr nr) (report_line nr.1 (x_plus_one (active_regs (host_thread s)) nr.2)).
Proof.
  intros Hn. unfold dump_register, report_line. rewrite <- string_app_assoc.
  apply prints_seq; [by apply prints_string|]. apply (prints_read _ _ (host_thread s)); [intros t c; exact (host_thread_deref_same (with_io t c s))|].
  apply prints_seq; [apply prints_addr|by apply prints_string].
Qed.

Lemma prints_report s :
  (let mscratch := default 0 (csr s !! CSR_mscratch) in
   mscratch = 0 \/ mscratch = host_threads_addr ->
   prints s dump_caller_registers (report (default 0 (csr s !! CSR_mepc))
     (if mscratch =? 0 then None else Some (active_regs (host_thread s))))).
Proof.
  cbv zeta. intros Hm. unfold dump_caller_registers, report, report_line at 1. rewrite !string_app_assoc.
  rewrite <- (string_app_assoc "mepc" " = "). apply prints_seq; [by apply prints_string|].
  apply (prints_read _ _ (default 0 (csr s !! CSR_mepc))); [done|]. apply prints_seq; [apply prints_addr|].
  apply prints_seq; [by apply prints_string|]. apply (prints_read _ _ (default 0 (csr s !! CSR_mscratch))); [done|].
  destruct (Z.eqb_spec (default 0 (csr s !! CSR_mscratch)) 0) as [H0|H0]; [by apply prints_string|].
  destruct Hm as [|Hm]; [done|]. rewrite Hm, <- register_lines. apply prints_for_each.
  intros nr Hnr. apply prints_register. pose proof register_names_printed as Hall. rewrite Forall_forall in Hall.
  by apply Hall.
Qed.

(** [C37] A panic is the end: whether the hart has its record yet (mscratch
    points to it) or not (mscratch is NULL), panic prints its banner, the
    program counter and, from the record, every register of the trap by name
    and in order, masks every interrupt of the hart and halts; nothing else
    changes: memory, page tables, guest records and the allocator are as they
    were. *)
Theorem panic_halts {A} (s : State) :
  (let mscratch := default 0 (csr s !! CSR_mscratch) in
   mscratch = 0 \/ mscratch = host_threads_addr ->
   exists s', panic (A := A) s = Panic s' /\
     csr s' = <[CSR_mie := 0]> (csr s) /\ io_ext s (set_csr (csr s) s') /\
     console s' = (console s +:+ panic_banner +:+ report (default 0 (csr s !! CSR_mepc))
       (if (mscratch =? 0)%Z then None else Some (active_regs (host_thread s))))%string).
Proof.
  cbv zeta. intros Hm. set (text := report _ _).
  destruct (prints_string s panic_banner eq_refl (tick s) (console s)) as [t1 H1].
  destruct (prints_report s Hm t1 (console s +:+ panic_banner)) as [t H2]. fold text in H2.
  assert (with_io (tick s) (console s) s = s) as Hs by (by destruct s). rewrite Hs in H1.
  exists (set_csr (<[CSR_mie := 0]> (csr s)) (with_io t (console s +:+ panic_banner +:+ text) s)). split.
  - unfold panic. erewrite bind_ok by exact H1. erewrite bind_ok by exact H2.
    unfold halt_thread, w_csr, modify, bind. simpl. by rewrite string_app_assoc.
  - split; [done|]. split; [|done]. exists t, (panic_banner +:+ text)%string. by destruct s.
Qed.

End output.

Lemma print_addr_correct_witness :
  exists digits t,
    print_addr 0x80001A2B sample_state
    = Ok tt (with_io t ("0x" +:+ String.string_of_list_ascii digits) sample_state) /\
    length digits = 16%nat /\ hex_parse digits = 0x80001A2B.
Proof. apply (print_addr_correct 0x80001A2B sample_state). lia. Defined.

(** With the record, whose a0 is 0x2A, and without. *)
Lemma panic_halts_witness :
  (exists s', panic (A := unit) (set_host_thread (set_active_regs (<[9%nat := 0x2A]> (replicate 31 0))
      (host_thread sample_state)) sample_state) = Panic s' /\
    console s' = panic_banner +:+ report 0 (Some (<[9%nat := 0x2A]> (replicate 31 0)))) /\
  (exists s', panic (A := unit) reset_state = Panic s' /\
    console s' = panic_banner +:+ "mepc = 0x0000000000000000" +:+ nl +:+ "mscratch = NULL" +:+ nl)%string.
Proof.
  split.
  - destruct (panic_halts (A := unit) (set_host_thread (set_active_regs (<[9%nat := 0x2A]> (replicate 31 0))
      (host_thread sample_state)) sample_state) (or_intror eq_refl)) as (s' & Hrun & _ & _ & Hout).
    exists s'. split; [exact Hrun|exact Hout].
  - destruct (panic_halts (A := unit) reset_state (or_introl eq_refl)) as (s' & Hrun & _ & _ & Hout).
    exists s'. split; [exact Hrun|exact Hout].
Defined.
