(* ===== verification/Contexts.v ===== *)
(** contexts.h: field updates of the guest's record, in-place updates through
    the pointers the code takes, and the relation that leaves everything but
    the current guest's record alone. *)
From S2P Require Import Prelude Machine Sample Wp Print.

(** ** Field updates of [guest_thr->csr] *)

Definition set_g_mtvec (v : Z) (c : GuestCsrs) : GuestCsrs :=
  mkGuestCsrs v (g_mepc c) (g_mscratch c) (g_mcause c) (g_mtval c) (g_mstatus_mpp c)
    (g_mstatus_mie c) (g_mstatus_mdt c) (g_mie_msie c) (g_mie_mtie c) (g_mie_meie c)
    (g_satp_mode c) (g_satp_ppn c).
Definition set_g_mepc (v : Z) (c : GuestCsrs) : GuestCsrs :=
  mkGuestCsrs (g_mtvec c) v (g_mscratch c) (g_mcause c) (g_mtval c) (g_mstatus_mpp c)
    (g_mstatus_mie c) (g_mstatus_mdt c) (g_mie_msie c) (g_mie_mtie c) (g_mie_meie c)
    (g_satp_mode c) (g_satp_ppn c).
Definition set_g_mscratch (v : Z) (c : GuestCsrs) : GuestCsrs :=
  mkGuestCsrs (g_mtvec c) (g_mepc c) v (g_mcause c) (g_mtval c) (g_mstatus_mpp c)
    (g_mstatus_mie c) (g_mstatus_mdt c) (g_mie_msie c) (g_mie_mtie c) (g_mie_meie c)
    (g_satp_mode c) (g_satp_ppn c).
Definition set_g_mcause (v : Z) (c : GuestCsrs) : GuestCsrs :=
  mkGuestCsrs (g_mtvec c) (g_mepc c) (g_mscratch c) v (g_mtval c) (g_mstatus_mpp c)
    (g_mstatus_mie c) (g_mstatus_mdt c) (g_mie_msie c) (g_mie_mtie c) (g_mie_meie c)
    (g_satp_mode c) (g_satp_ppn c).
Definition set_g_mtval (v : Z) (c : GuestCsrs) : GuestCsrs :=
  mkGuestCsrs (g_mtvec c) (g_mepc c) (g_mscratch c) (g_mcause c) v (g_mstatus_mpp c)
    (g_mstatus_mie c) (g_mstatus_mdt c) (g_mie_msie c) (g_mie_mtie c) (g_mie_meie c)
    (g_satp_mode c) (g_satp_ppn c).
Definition set_g_mstatus_mpp (v : Z) (c : GuestCsrs) : GuestCsrs :=
  mkGuestCsrs (g_mtvec c) (g_mepc c) (g_mscratch c) (g_mcause c) (g_mtval c) (v mod 4)
    (g_mstatus_mie c) (g_mstatus_mdt c) (g_mie_msie c) (g_mie_mtie c) (g_mie_meie c)
    (g_satp_mode c) (g_satp_ppn c).
Definition set_g_mstatus_mie (v : bool) (c : GuestCsrs) : GuestCsrs :=
  mkGuestCsrs (g_mtvec c) (g_mepc c) (g_mscratch c) (g_mcause c) (g_mtval c) (g_mstatus_mpp c)
    v (g_mstatus_mdt c) (g_mie_msie c) (g_mie_mtie c) (g_mie_meie c)
    (g_satp_mode c) (g_satp_ppn c).
Definition set_g_mstatus_mdt (v : bool) (c : GuestCsrs) : GuestCsrs :=
  mkGuestCsrs (g_mtvec c) (g_mepc c) (g_mscratch c) (g_mcause c) (g_mtval c) (g_mstatus_mpp c)
    (g_mstatus_mie c) v (g_mie_msie c) (g_mie_mtie c) (g_mie_meie c)
    (g_satp_mode c) (g_satp_ppn c).
Definition set_g_mie (msie mtie meie : bool) (c : GuestCsrs) : GuestCsrs :=
  mkGuestCsrs (g_mtvec c) (g_mepc c) (g_mscratch c) (g_mcause c) (g_mtval c) (g_mstatus_mpp c)
    (g_mstatus_mie c) (g_mstatus_mdt c) msie mtie meie (g_satp_mode c) (g_satp_ppn c).
Definition set_g_satp (mode ppn : Z) (c : GuestCsrs) : GuestCsrs :=
  mkGuestCsrs (g_mtvec c) (g_mepc c) (g_mscratch c) (g_mcause c) (g_mtval c) (g_mstatus_mpp c)
    (g_mstatus_mie c) (g_mstatus_mdt c) (g_mie_msie c) (g_mie_mtie c) (g_mie_meie c)
    (mode mod 2 ^ 4) (ppn mod 2 ^ 44).

(** ** Field updates of [*guest_thr] *)

Definition set_gcsr (v : GuestCsrs) (g : GuestThreadContext) : GuestThreadContext :=
  mkGuestThreadContext (shadow_page_table g) (shadow_pt_active g) (user_mode g)
    (timer_scheduled g) (deferred_exception g) (timer_deadline g) (timer_suspended_at g)
    (timer_adjustment g) (deferred_mcause g) v.
Definition set_shadow_page_table (v : Z) (g : GuestThreadContext) : GuestThreadContext :=
  mkGuestThreadContext v (shadow_pt_active g) (user_mode g)
    (timer_scheduled g) (deferred_exception g) (timer_deadline g) (timer_suspended_at g)
    (timer_adjustment g) (deferred_mcause g) (gcsr g).
Definition set_shadow_pt_active (v : bool) (g : GuestThreadContext) : GuestThreadContext :=
  mkGuestThreadContext (shadow_page_table g) v (user_mode g)
    (timer_scheduled g) (deferred_exception g) (timer_deadline g) (timer_suspended_at g)
    (timer_adjustment g) (deferred_mcause g) (gcsr g).
Definition set_user_mode (v : bool) (g : GuestThreadContext) : GuestThreadContext :=
  mkGuestThreadContext (shadow_page_table g) (shadow_pt_active g) v
    (timer_scheduled g) (deferred_exception g) (timer_deadline g) (timer_suspended_at g)
    (timer_adjustment g) (deferred_mcause g) (gcsr g).
Definition set_timer_scheduled (v : bool) (g : GuestThreadContext) : GuestThreadContext :=
  mkGuestThreadContext (shadow_page_table g) (shadow_pt_active g) (user_mode g)
    v (deferred_exception g) (timer_deadline g) (timer_suspended_at g)
    (timer_adjustment g) (deferred_mcause g) (gcsr g).
Definition set_deferred_exception (v : bool) (g : GuestThreadContext) : GuestThreadContext :=
  mkGuestThreadContext (shadow_page_table g) (shadow_pt_active g) (user_mode g)
    (timer_scheduled g) v (timer_deadline g) (timer_suspended_at g)
    (timer_adjustment g) (deferred_mcause g) (gcsr g).
Definition set_timer_deadline (v : Z) (g : GuestThreadContext) : GuestThreadContext :=
  mkGuestThreadContext (shadow_page_table g) (shadow_pt_active g) (user_mode g)
    (timer_scheduled g) (deferred_exception g) v (timer_suspended_at g)
    (timer_adjustment g) (deferred_mcause g) (gcsr g).
Definition set_timer_suspended_at (v : Z) (g : GuestThreadContext) : GuestThreadContext :=
  mkGuestThreadContext (shadow_page_table g) (shadow_pt_active g) (user_mode g)
    (timer_scheduled g) (deferred_exception g) (timer_deadline g) v
    (timer_adjustment g) (deferred_mcause g) (gcsr g).
Definition set_timer_adjustment (v : Z) (g : GuestThreadContext) : GuestThreadContext :=
  mkGuestThreadContext (shadow_page_table g) (shadow_pt_active g) (user_mode g)
    (timer_scheduled g) (deferred_exception g) (timer_deadline g) (timer_suspended_at g)
    v (deferred_mcause g) (gcsr g).
Definition set_deferred_mcause (v : Z) (g : GuestThreadContext) : GuestThreadContext :=
  mkGuestThreadContext (shadow_page_table g) (shadow_pt_active g) (user_mode g)
    (timer_scheduled g) (deferred_exception g) (timer_deadline g) (timer_suspended_at g)
    (timer_adjustment g) v (gcsr g).

(** [guest_thr->field = ...], the record read again at each assignment. *)
Definition update_guest (id : GuestThreadId)
    (f : GuestThreadContext -> GuestThreadContext) : M unit :=
  let! g := get_guest_thread id in put_guest_thread id (f g).

Definition update_gcsr (f : GuestCsrs -> GuestCsrs) (g : GuestThreadContext) : GuestThreadContext :=
  set_gcsr (f (gcsr g)) g.

(** ** The state around the current guest *)

Section contexts.
Context {plat : Platform}.

(** The hart serves guest thread (0, 0), whose record is [g]. *)
Definition serving (g : GuestThreadContext) (s : State) : Prop :=
  mscratch_ok s /\ current_guest (host_thread s) = (0, 0) /\ guest_threads s !! (0, 0) = Some g.

(** The state with another record for the guest. *)
Definition with_guest (g : GuestThreadContext) (s : State) : State :=
  set_guest_threads (<[(0, 0) := g]> (guest_threads s)) s.

Lemma serving_with_guest g g' s : serving g s -> serving g' (with_guest g' s).
Proof. intros (Hsc & Hcur & _). split; [done|]. split; [done|]. apply lookup_insert_eq. Qed.

Lemma with_guest_twice g g' s : with_guest g (with_guest g' s) = with_guest g s.
Proof. unfold with_guest, set_guest_threads. simpl. by rewrite insert_insert_eq. Qed.

Lemma serving_csr g s n v :
  serving g s -> n <> CSR_mscratch -> serving g (set_csr (<[n := v]> (csr s)) s).
Proof.
  intros (Hsc & Hcur & Hg) Hn. split_and!; try done. unfold mscratch_ok in *. simpl.
  by rewrite lookup_insert_ne.
Qed.

Lemma get_current_guest_serving g s : serving g s -> get_current_guest s = Ok ((0, 0), g) s.
Proof.
  intros (Hsc & Hcur & Hg). rewrite (get_current_guest_ok s g); rewrite ?Hcur; done.
Qed.

Lemma update_guest_serving g s f : serving g s -> update_guest (0, 0) f s = Ok tt (with_guest (f g) s).
Proof.
  intros (_ & _ & Hg). unfold update_guest. erewrite bind_ok by (by apply get_guest_thread_ok).
  by erewrite put_guest_thread_ok.
Qed.

Lemma wp_current_guest Pn g (Q : GuestThreadId * GuestThreadContext -> State -> Prop) s :
  serving g s -> Q ((0, 0), g) s -> wp Pn get_current_guest Q s.
Proof. intros Hs HQ. eapply wp_ok; [by apply get_current_guest_serving|done]. Qed.

Lemma wp_update_guest Pn g f (Q : unit -> State -> Prop) s :
  serving g s -> (serving (f g) (with_guest (f g) s) -> Q tt (with_guest (f g) s)) ->
  wp Pn (update_guest (0, 0) f) Q s.
Proof.
  intros Hs HQ. eapply wp_ok; [by apply update_guest_serving|]. by apply HQ, (serving_with_guest g).
Qed.

End contexts.

(** ** An example *)

Lemma sample_serving : serving GUEST_THREAD_CONTEXT_INIT sample_state.
Proof. by split_and!. Defined.
