(* ===== verification/LtoRequired.v ===== *)
(** lto_required.c: the memory routines the compiler may call. *)
From S2P Require Import Prelude Machine Sample Wp.

(** A byte access; a [char] holds the low eight bits of what is assigned. *)
Definition load_mem8 (a : Z) : M Z := gets (fun s => load8 (mem s) a).
Definition store_mem8 (a v : Z) : M unit := modify (fun s => set_mem (<[a := u8 v]> (mem s)) s).

Definition memset (dst val size : Z) : M unit :=
  for_each (seqZ 0 size) (fun i => store_mem8 (dst + i) val).

Definition copy_byte (dst src i : Z) : M unit :=
  let! c := load_mem8 (src + i) in
  store_mem8 (dst + i) c.

Definition memcpy (dst src size : Z) : M unit := for_each (seqZ 0 size) (copy_byte dst src).

(** The loop of memcmp over the indices still to compare. *)
Fixpoint memcmp_loop (s1 s2 : Z) (l : list Z) : M Z :=
  match l with
  | [] => ret 0
  | i :: l' =>
      let! a := load_mem8 (s1 + i) in
      let! b := load_mem8 (s2 + i) in
      let diff := a - b in
      if diff <? 0 then ret (-1)
      else if 0 <? diff then ret 1
      else memcmp_loop s1 s2 l'
  end.

Definition memcmp (s1 s2 size : Z) : M Z := memcmp_loop s1 s2 (seqZ 0 size).

(** [for (i = size; i > 0; --i) dst[i - 1] = src[i - 1];] in the second branch. *)
Definition memmove (dst src size : Z) : M unit :=
  if dst <=? src then for_each (seqZ 0 size) (copy_byte dst src)
  else for_each (reverse (seqZ 1 size)) (fun i => copy_byte dst src (i - 1)).

(** ** Reference: bytes of a region, and their lexicographic order *)

Definition region (m : mem_t) (a n : Z) : list Z := (fun i => load8 m (a + i)) <$> seqZ 0 n.

Fixpoint lex (l k : list Z) : comparison :=
  match l, k with
  | x :: l', y :: k' => match x ?= y with Eq => lex l' k' | c => c end
  | [], [] => Eq
  | [], _ => Lt
  | _, [] => Gt
  end.

(** Memory [m'] is [m] with the [n] bytes at [dst] replaced by those at [src]. *)
Definition moved (dst src n : Z) (m m' : mem_t) : Prop :=
  (forall i, 0 <= i < n -> load8 m' (dst + i) = load8 m (src + i)) /\
  (forall a, a < dst \/ dst + n <= a -> m' !! a = m !! a).

Lemma load8_insert m a b v :
  load8 (<[b := u8 v]> m) a = if decide (a = b) then u8 v else load8 m a.
Proof.
  unfold load8. case_decide as H.
  - subst. rewrite lookup_insert_eq. simpl. unfold u8. by rewrite Z.mod_mod.
  - by rewrite lookup_insert_ne.
Qed.

Lemma load8_u8 m a : u8 (load8 m a) = load8 m a.
Proof. unfold load8, u8. by rewrite Z.mod_mod. Qed.

Lemma wp_copy_byte Pn dst src i (Q : unit -> State -> Prop) s :
  Q tt (set_mem (<[dst + i := load8 (mem s) (src + i)]> (mem s)) s) -> wp Pn (copy_byte dst src i) Q s.
Proof.
  intros HQ. unfold copy_byte. wp_step. apply wp_gets. apply wp_modify. cbv beta.
  by rewrite load8_u8.
Qed.

(** One byte of the copy, the source still intact where it is yet to be read. *)
Lemma load8_copied m m0 dst src i a :
  load8 m (src + i) = load8 m0 (src + i) ->
  load8 (<[dst + i := load8 m (src + i)]> m) a =
    if decide (a = dst + i) then load8 m0 (src + i) else load8 m a.
Proof.
  intros H. rewrite <- (load8_u8 m (src + i)), load8_insert. case_decide; [|done].
  by rewrite load8_u8.
Qed.

(** The forward loop, where no byte is overwritten before it is read. *)
Lemma copy_forward dst src n s :
  0 <= n -> dst <= src \/ src + n <= dst ->
  wp no_panic (for_each (seqZ 0 n) (copy_byte dst src))
    (fun _ s' => exists m, s' = set_mem m s /\ moved dst src n (mem s) m) s.
Proof.
  intros Hn Hsep.
  apply wp_for_range with (I := fun i s1 => exists m, s1 = set_mem m s /\ moved dst src i (mem s) m); [done|..].
  - exists (mem s). split; [by destruct s|]. split; [lia|done].
  - intros i s1 Hi (m & -> & Hdone & Hframe). apply wp_copy_byte. eexists. split; [done|]. simpl.
    assert (load8 m (src + i) = load8 (mem s) (src + i)) as Hsrc.
    { unfold load8. rewrite Hframe by lia. done. }
    split.
    + intros j Hj. rewrite (load8_copied m (mem s)) by done. case_decide.
      * by replace j with i by lia.
      * apply Hdone. lia.
    + intros a Ha. rewrite lookup_insert_ne by lia. apply Hframe. lia.
  - intros s1 H. exact H.
Qed.

(** The backward loop: the [n - k] last bytes are done. *)
Lemma copy_backward dst src n s :
  0 <= n -> src <= dst ->
  wp no_panic (for_each (reverse (seqZ 1 n)) (fun i => copy_byte dst src (i - 1)))
    (fun _ s' => exists m, s' = set_mem m s /\ moved dst src n (mem s) m) s.
Proof.
  intros Hn Hle.
  set (I := fun k s1 => exists m, s1 = set_mem m s /\
    (forall i, k <= i < n -> load8 m (dst + i) = load8 (mem s) (src + i)) /\
    (forall a, a < dst + k \/ dst + n <= a -> m !! a = mem s !! a)).
  assert (forall k, 0 <= k <= n -> forall s1, I k s1 ->
    wp no_panic (for_each (reverse (seqZ 1 k)) (fun i => copy_byte dst src (i - 1))) (fun _ => I 0) s1) as Hloop.
  { intros k [Hk Hkn]. revert Hkn. pattern k. apply natlike_ind; [| |done].
    - intros _ s1 H1. rewrite seqZ_nil by lia. by apply wp_ret.
    - intros j Hj IH Hjn s1 (m & -> & Hdone & Hframe).
      assert (seqZ 1 (Z.succ j) = seqZ 1 j ++ [j + 1]) as ->.
      { unfold Z.succ. rewrite seqZ_app by lia. f_equal. rewrite seqZ_cons by lia.
        rewrite seqZ_nil by lia. f_equal. lia. }
      rewrite reverse_snoc. cbn [for_each]. apply wp_bind. apply wp_copy_byte.
      replace (j + 1 - 1) with j by lia. apply IH; [lia|]. eexists. split; [done|]. simpl.
      assert (load8 m (src + j) = load8 (mem s) (src + j)) as Hsrc.
      { unfold load8. rewrite Hframe by lia. done. }
      split.
      + intros i Hi. rewrite (load8_copied m (mem s)) by done. case_decide.
        * by replace i with j by lia.
        * apply Hdone. lia.
      + intros a Ha. rewrite lookup_insert_ne by lia. apply Hframe. lia. }
  eapply wp_post; [apply (Hloop n); [lia|]|].
  - exists (mem s). split; [by destruct s|]. split; [lia|done].
  - intros [] s1 (m & -> & Hdone & Hframe). exists m. split; [done|]. split; [done|].
    intros a Ha. apply Hframe. lia.
Qed.

Lemma memset_spec dst val n s :
  0 <= n ->
  wp no_panic (memset dst val n) (fun _ s' => exists m, s' = set_mem m s /\
    (forall i, 0 <= i < n -> load8 m (dst + i) = u8 val) /\
    (forall a, a < dst \/ dst + n <= a -> m !! a = mem s !! a)) s.
Proof.
  intros Hn. apply wp_for_range with (I := fun k s1 => exists m, s1 = set_mem m s /\
    (forall i, 0 <= i < k -> load8 m (dst + i) = u8 val) /\
    (forall a, a < dst \/ dst + k <= a -> m !! a = mem s !! a)); [done|..].
  - exists (mem s). split; [by destruct s|]. split; [lia|done].
  - intros i s1 Hi (m & -> & Hdone & Hframe). apply wp_modify. eexists. split; [done|]. simpl. split.
    + intros j Hj. rewrite load8_insert. case_decide; [done|]. apply Hdone. lia.
    + intros a Ha. rewrite lookup_insert_ne by lia. apply Hframe. lia.
  - intros s1 H. exact H.
Qed.

Definition compare_result (c : comparison) : Z := match c with Lt => -1 | Eq => 0 | Gt => 1 end.

Lemma memcmp_loop_spec s1 s2 l s :
  memcmp_loop s1 s2 l s =
    Ok (compare_result (lex ((fun i => load8 (mem s) (s1 + i)) <$> l)
                            ((fun i => load8 (mem s) (s2 + i)) <$> l))) s.
Proof.
  induction l as [|i l IH]; [done|]. cbn [memcmp_loop fmap list_fmap lex].
  unfold bind, load_mem8, gets.
  destruct (Z.compare_spec (load8 (mem s) (s1 + i)) (load8 (mem s) (s2 + i))) as [H|H|H].
  - rewrite H, Z.sub_diag. exact IH.
  - rewrite (proj2 (Z.ltb_lt _ _)) by lia. done.
  - rewrite (proj2 (Z.ltb_ge _ _)), (proj2 (Z.ltb_lt 0 _)) by lia. done.
Qed.

(** ** Properties *)

(** [m] returns, having made of the memory what [P] says and changed nothing
    else. *)
Definition writes (s : State) (m : M unit) (P : mem_t -> Prop) : Prop :=
  exists m', m s = Ok tt (set_mem m' s) /\ P m'.

Lemma writes_wp s m (P : mem_t -> Prop) :
  wp no_panic m (fun _ s' => exists m', s' = set_mem m' s /\ P m') s -> writes s m P.
Proof. intros H. apply wp_no_panic_iff in H as ([] & s' & Hrun & m' & -> & HP). by exists m'. Qed.

(** [C40] The memory routines, on regions of any length and contents: memset fills
    its region with the low byte of its argument; memcpy copies as long as no
    byte of the source is overwritten before it is read; memmove copies the
    original bytes whatever the overlap of the two regions; each writes its
    destination only and returns.  memcmp returns the sign of the
    lexicographic comparison of the regions as unsigned bytes, and writes
    nothing. *)
Theorem memory_routines_correct dst src n val s :
  0 <= n ->
  writes s (memset dst val n) (fun m => (forall i, 0 <= i < n -> load8 m (dst + i) = u8 val) /\
    (forall a, a < dst \/ dst + n <= a -> m !! a = mem s !! a)) /\
  (dst <= src \/ src + n <= dst -> writes s (memcpy dst src n) (moved dst src n (mem s))) /\
  writes s (memmove dst src n) (moved dst src n (mem s)) /\
  memcmp dst src n s = Ok (compare_result (lex (region (mem s) dst n) (region (mem s) src n))) s.
Proof.
  intros Hn. split; [by apply writes_wp, memset_spec|]. split; [intros Hsep; by apply writes_wp, copy_forward|].
  split; [|apply memcmp_loop_spec]. apply writes_wp. unfold memmove.
  destruct (Z.leb_spec dst src); [apply copy_forward|apply copy_backward]; lia.
Qed.

(** The bytes 1 2 3 at address 10, moved up by one over themselves, and compared
    with what follows. *)
Definition three_bytes : mem_t := list_to_map [(10, 1); (11, 2); (12, 3)].

Lemma memory_routines_correct_witness :
  writes (set_mem three_bytes sample_state) (memmove 11 10 3) (moved 11 10 3 three_bytes) /\
  memcmp 11 10 3 (set_mem three_bytes sample_state) = Ok 1 (set_mem three_bytes sample_state).
Proof.
  destruct (memory_routines_correct 11 10 3 0 (set_mem three_bytes sample_state)) as (_ & _ & Hmove & Hcmp); [lia|].
  split; [exact Hmove|exact Hcmp].
Defined.
