(* ===== verification/StackTrace.v ===== *)
(** stacktrace.c and stacktrace.h, and the walk over the stack trace in
    panic.c, as built with USE_STACK_TRACE.  The entries live in the frames of
    the functions that push them, so they are modelled as a store of entries
    by address. *)
From S2P Require Import Prelude.

Record StackTraceEntry := mkEntry {
  caller : Z;                       (* StackTraceEntry *, 0 is NULL *)
  description : option string }.

(** The entries in memory and [ctx->stack_trace_caller]. *)
Record TraceState := mkTrace {
  entries : gmap Z StackTraceEntry;
  stack_trace_caller : Z }.

Definition stack_trace_push_descr (descr : option string) (buffer : Z) (t : TraceState) : TraceState :=
  mkTrace (<[buffer := mkEntry (stack_trace_caller t) descr]> (entries t)) buffer.

(** Undefined when the top is not an entry. *)
Definition stack_trace_pop (t : TraceState) : option TraceState :=
  e ← entries t !! stack_trace_caller t; Some (mkTrace (entries t) (caller e)).

Definition stack_trace_clear (t : TraceState) : TraceState := mkTrace (entries t) 0.

(** ** panic.c *)

(** What the loop prints. *)
Inductive TraceLine :=
  | AtLine (descr : string) (entry : Z)
  | CycleLine (to : Z).

Definition describe (e : StackTraceEntry) : string := default "(null)"%string (description e).

(** [while (entry) ...]; [None] is undefined behaviour (an entry that is not
    there), the outer option an exhausted fuel. *)
Fixpoint trace_loop (fuel : nat) (st : gmap Z StackTraceEntry) (entry entry_slow : Z) (update_slow : bool)
    : option (option (list TraceLine)) :=
  if entry =? 0 then Some (Some [])
  else match fuel with
  | O => None
  | S fuel' =>
      match st !! entry with
      | None => Some None
      | Some e =>
          let line := AtLine (describe e) entry in
          if entry_slow =? caller e then Some (Some [line; CycleLine entry_slow])
          else
            match (if update_slow then caller <$> st !! entry_slow else Some entry_slow) with
            | None => Some None
            | Some entry_slow' =>
                match trace_loop fuel' st (caller e) entry_slow' (negb update_slow) with
                | Some (Some ls) => Some (Some (line :: ls))
                | r => r
                end
            end
      end
  end.

(** ** The chain of callers *)

Section chain.
Context (st : gmap Z StackTraceEntry).

(** Every caller is null or an entry. *)
Definition closed : Prop := forall a e, st !! a = Some e -> caller e = 0 \/ is_Some (st !! caller e).

(** The [i]-th entry from [a]; stays at null. *)
Definition next (a : Z) : Z := match st !! a with Some e => caller e | None => 0 end.
Fixpoint chain (i : nat) (a : Z) : Z := match i with O => a | S i' => next (chain i' a) end.

Lemma chain_add i j a : chain (i + j) a = chain i (chain j a).
Proof. induction i as [|i IH]; [done|]. simpl. by rewrite IH. Qed.

Lemma chain_next i a : chain i (next a) = chain (S i) a.
Proof. replace (S i) with (i + 1)%nat by lia. by rewrite chain_add. Qed.

Context (Hclosed : closed).

Definition good (a : Z) : Prop := a = 0 \/ is_Some (st !! a).

Lemma good_next a : good a -> a <> 0 -> good (next a).
Proof.
  intros [->|[e He]] Hne; [done|]. unfold next. rewrite He. by eapply Hclosed.
Qed.

Lemma good_chain i a : good a -> (forall j, (j < i)%nat -> chain j a <> 0) -> good (chain i a).
Proof.
  intros Ha. induction i as [|i IH]; [done|]. intros Hne. apply good_next; [|by apply Hne; lia].
  apply IH. intros j Hj. apply Hne. lia.
Qed.

(** The state of the loop after [i] rounds from the top [a]. *)
Lemma trace_loop_round fuel a i :
  (forall j, (j <= i)%nat -> chain j a <> 0) -> good a ->
  trace_loop (S fuel) st (chain i a) (chain (i / 2) a) (Nat.odd i) =
    if chain (i / 2) a =? chain (S i) a then
      Some (Some [AtLine (default "(null)"%string (e ← st !! chain i a; description e)) (chain i a);
                  CycleLine (chain (i / 2) a)])
    else match trace_loop fuel st (chain (S i) a) (chain (S i / 2) a) (Nat.odd (S i)) with
      | Some (Some ls) => Some (Some (AtLine (default "(null)"%string (e ← st !! chain i a; description e))
          (chain i a) :: ls))
      | r => r
      end.
Proof.
  intros Hne Ha.
  assert (forall k, (k <= i)%nat -> exists e, st !! chain k a = Some e /\ caller e = chain (S k) a) as Hget.
  { intros k Hk. destruct (good_chain k a Ha) as [H0|[e He]].
    - intros j Hj. apply Hne. lia.
    - by destruct (Hne k Hk).
    - exists e. split; [done|]. simpl. unfold next. by rewrite He. }
  destruct (Hget i ltac:(lia)) as (e & He & Hc).
  destruct (Hget (i / 2)%nat) as (es & Hes & Hcs).
  { apply Nat.Div0.div_le_upper_bound. lia. }
  cbn [trace_loop]. rewrite (proj2 (Z.eqb_neq _ _)) by (apply Hne; lia).
  rewrite He. cbn [mbind option_bind]. unfold describe. rewrite Hc.
  destruct (_ =? _); [done|]. rewrite Hes. cbn [fmap option_fmap option_map].
  assert ((if Nat.odd i then Some (caller es) else Some (chain (i / 2) a)) = Some (chain (S i / 2) a)) as ->.
  { destruct (Nat.odd i) eqn:Hodd.
    - rewrite Hcs. f_equal. f_equal. apply Nat.odd_spec in Hodd as [k ->].
      replace (S (2 * k + 1)) with ((k + 1) * 2)%nat by lia. rewrite Nat.div_mul by lia.
      replace (2 * k + 1)%nat with (1 + k * 2)%nat by lia. rewrite Nat.div_add by lia. simpl. lia.
    - f_equal. f_equal. assert (Nat.even i = true) as [k ->]%Nat.even_spec
        by (by rewrite <- Nat.negb_odd, Hodd).
      replace (S (2 * k)) with (1 + k * 2)%nat by lia. rewrite Nat.div_add by lia.
      replace (2 * k)%nat with (k * 2)%nat by lia. rewrite Nat.div_mul by lia. simpl. lia. }
  by rewrite Nat.odd_succ, <- Nat.negb_odd.
Qed.

(** A round at which the loop stops. *)
Definition stops (a : Z) (n : nat) : Prop := chain n a = 0 \/ chain (n / 2) a = chain (S n) a.

Lemma trace_loop_stops a n : good a -> stops a n -> forall d i,
  (i <= n)%nat -> (n <= i + d)%nat -> (forall j, (j < i)%nat -> chain j a <> 0) ->
  exists ls, trace_loop (S d) st (chain i a) (chain (i / 2) a) (Nat.odd i) = Some (Some ls).
Proof.
  intros Ha Hstop. induction d as [|d IH]; intros i Hi Hd Hne;
    (destruct (Z.eqb_spec (chain i a) 0) as [H0|H0]; [exists []; cbn [trace_loop]; by rewrite H0|]);
    rewrite trace_loop_round by first [done | intros j Hj; destruct (decide (j = i)) as [->|]; [done|apply Hne; lia]];
    (destruct (Z.eqb_spec (chain (i / 2) a) (chain (S i) a)) as [He|He]; [by eexists|]).
  - assert (i = n) as -> by lia. destruct Hstop; done.
  - assert (i <> n) by (intros ->; destruct Hstop; done).
    destruct (IH (S i)) as [ls ->]; [lia|lia| |by eexists].
    intros j Hj. destruct (decide (j = i)) as [->|]; [done|apply Hne; lia].
Qed.

(** A repetition in the chain makes the loop stop. *)
Lemma cycle_stops a i j : (i < j)%nat -> chain i a = chain j a -> stops a (2 * ((i + 1) * (j - i) - 1)).
Proof.
  intros Hij Heq. right. set (p := (j - i)%nat). set (m := ((i + 1) * p - 1)%nat).
  replace (2 * m / 2)%nat with m by (rewrite Nat.mul_comm, Nat.div_mul; lia).
  assert (0 < p)%nat by (unfold p; lia). assert (i <= m)%nat by (unfold m; nia).
  assert (forall k, (i <= k)%nat -> chain (p + k) a = chain k a) as Hper.
  { intros k Hk. replace k with ((k - i) + i)%nat by lia.
    replace (p + (k - i + i))%nat with ((k - i) + j)%nat by (unfold p; lia).
    rewrite !chain_add. by rewrite Heq. }
  assert (forall c k, (i <= k)%nat -> chain (c * p + k) a = chain k a) as Hmult.
  { intros c k Hk. induction c as [|c IH]; [done|].
    replace (S c * p + k)%nat with (p + (c * p + k))%nat by lia. rewrite Hper by lia. exact IH. }
  replace (S (2 * m)) with ((i + 1) * p + m)%nat by (unfold m; nia). by rewrite Hmult.
Qed.

Lemma chain_repeats a :
  good a -> (forall i, (i <= size st)%nat -> chain i a <> 0) ->
  ~ (forall i j, (i < j)%nat -> (j <= size st)%nat -> chain i a <> chain j a).
Proof.
  intros Ha Hne Hinj.
  assert (NoDup ((fun i => chain i a) <$> seq 0 (S (size st)))) as Hnd.
  { apply NoDup_fmap_2_strong; [|apply NoDup_seq]. intros x y Hx Hy Hxy.
    apply elem_of_seq in Hx, Hy. destruct (Nat.lt_trichotomy x y) as [H|[H|H]]; [|done|].
    - by destruct (Hinj x y); [lia..|].
    - by destruct (Hinj y x); [lia..|]. }
  assert (length ((fun i => chain i a) <$> seq 0 (S (size st))) <= length (elements (dom st)))%nat as Hle.
  { apply submseteq_length, NoDup_submseteq; [done|]. intros x Hx.
    apply list_elem_of_fmap in Hx as (i & -> & Hi). apply elem_of_seq in Hi.
    apply elem_of_elements, elem_of_dom.
    destruct (good_chain i a Ha) as [H0|H]; [|by destruct (Hne i ltac:(lia))|done].
    intros j Hj. apply Hne. lia. }
  rewrite length_fmap, length_seq in Hle. change (length (elements (dom st))) with (size (dom st)) in Hle.
  rewrite size_dom in Hle. lia.
Qed.

(** Rounds enough for any trace over the entries of [st]. *)
Definition trace_fuel : nat := S (2 * ((size st + 1) * (size st + 1))).

Lemma trace_loop_terminates a :
  good a -> exists ls, trace_loop trace_fuel st a a false = Some (Some ls).
Proof.
  intros Ha.
  assert (forall n, (n <= 2 * ((size st + 1) * (size st + 1)))%nat -> stops a n ->
    exists ls, trace_loop trace_fuel st a a false = Some (Some ls)) as Hrun.
  { intros n Hn Hstop. apply (trace_loop_stops a n Ha Hstop _ 0); lia. }
  destruct (trace_loop trace_fuel st a a false) as [[ls|]|] eqn:E; [by eexists| |]; exfalso;
    (apply (chain_repeats a Ha); [intros i Hi H0|intros i j Hij Hj Heq]).
  1,3: destruct (Hrun i) as [ls H]; [nia|by left|congruence].
  all: destruct (Hrun (2 * ((i + 1) * (j - i) - 1))%nat) as [ls H]; [nia|by apply cycle_stops|congruence].
Qed.

(** Without a cycle every frame is listed, innermost first. *)
Lemma trace_loop_lists n a i fuel :
  good a -> chain n a = 0 -> (forall j k, (j < k <= n)%nat -> chain j a <> chain k a) ->
  (i <= n)%nat -> (n <= i + fuel)%nat ->
  trace_loop fuel st (chain i a) (chain (i / 2) a) (Nat.odd i) =
    Some (Some ((fun j => AtLine (default "(null)"%string (e ← st !! chain j a; description e)) (chain j a))
      <$> seq i (n - i))).
Proof.
  intros Ha H0 Hinj. revert i. induction fuel as [|fuel IH]; intros i Hi Hf.
  - assert (i = n) as -> by lia. rewrite H0, Nat.sub_diag. done.
  - destruct (decide (i = n)) as [->|Hne].
    { cbn [trace_loop]. by rewrite H0, Nat.sub_diag. }
    rewrite trace_loop_round.
    + rewrite (proj2 (Z.eqb_neq _ _)).
      2: { apply Hinj. split; [|lia]. assert (i / 2 <= i)%nat by (apply Nat.Div0.div_le_upper_bound; lia). lia. }
      rewrite IH by lia. replace (n - i)%nat with (S (n - S i)) by lia. done.
    + intros j Hj Hz. destruct (Hinj j n); [lia|congruence].
    + done.
Qed.

End chain.

(** ** Properties *)

(** The walk over the stack trace in panic always ends, also when the
    chain of callers is a cycle: two pointers, one at half speed, meet within
    [trace_fuel] rounds, and no dangling entry is read. *)
Theorem stack_trace_walk_terminates st a :
  closed st -> good st a ->
  exists ls, trace_loop (trace_fuel st) st a a false = Some (Some ls).
Proof. intros Hc Ha. by apply trace_loop_terminates. Qed.

(** Two entries that call each other. *)
Definition two_cycle : gmap Z StackTraceEntry :=
  {[ 8 := mkEntry 16 (Some "a"%string); 16 := mkEntry 8 (Some "b"%string) ]}.

Lemma two_cycle_closed : closed two_cycle.
Proof.
  intros a e H. unfold two_cycle in *. rewrite lookup_insert_Some, lookup_singleton_Some in H.
  destruct H as [[<- <-]|[_ [<- <-]]]; right; by eexists.
Qed.

Lemma stack_trace_walk_terminates_witness :
  exists ls, trace_loop (trace_fuel two_cycle) two_cycle 8 8 false = Some (Some ls).
Proof. apply (stack_trace_walk_terminates two_cycle 8); [exact two_cycle_closed|right; by eexists]. Defined.

(** The trace after the calls [frames], innermost first. *)
Definition pushed (frames : list (option string * Z)) : TraceState :=
  foldr (fun f t => stack_trace_push_descr f.1 f.2 t) (mkTrace ∅ 0) frames.

(** A chain that avoids an entry does not depend on it. *)
Lemma chain_insert st b e i a :
  (forall j, (j < i)%nat -> chain st j a <> b) -> chain (<[b := e]> st) i a = chain st i a.
Proof.
  induction i as [|i IH]; [done|]. intros H. simpl. rewrite IH by (intros; apply H; lia).
  unfold next. by rewrite lookup_insert_ne by (intros Hb; by apply (H i ltac:(lia))).
Qed.

Lemma pushed_chain frames i :
  NoDup (0 :: frames.*2) ->
  chain (entries (pushed frames)) i (stack_trace_caller (pushed frames)) = default 0 (frames.*2 !! i).
Proof.
  revert i. induction frames as [|f l IH]; intros i Hnd.
  - induction i as [|i IHi]; [done|]. cbn [chain]. by rewrite IHi.
  - cbn [fmap list_fmap] in Hnd. rewrite !NoDup_cons, not_elem_of_cons in Hnd.
    destruct Hnd as ((Hf0 & H0) & Hf & Hnd).
    assert (forall j, default 0 (l.*2 !! j) <> f.2) as Hne.
    { intros j Hj. destruct (l.*2 !! j) as [y|] eqn:E; simpl in Hj; [|done].
      subst. by apply list_elem_of_lookup_2 in E. }
    destruct i as [|i]; [done|]. rewrite <- chain_next. simpl.
    assert (next (<[f.2 := mkEntry (stack_trace_caller (pushed l)) f.1]> (entries (pushed l))) f.2
      = stack_trace_caller (pushed l)) as Hn by (unfold next; by rewrite lookup_insert_eq).
    rewrite Hn, chain_insert; [|intros j _]; rewrite IH by (by apply NoDup_cons); [done|apply Hne].
Qed.

Lemma pushed_closed frames : NoDup (0 :: frames.*2) -> closed (entries (pushed frames)).
Proof.
  induction frames as [|f l IH]; intros Hnd; [intros a e H; done|].
  cbn [fmap list_fmap] in Hnd. rewrite !NoDup_cons, not_elem_of_cons in Hnd.
  destruct Hnd as ((Hf0 & H0) & Hf & Hnd). intros a e H. simpl in *.
  assert (forall b, is_Some (entries (pushed l) !! b) ->
    is_Some (<[f.2 := mkEntry (stack_trace_caller (pushed l)) f.1]> (entries (pushed l)) !! b)) as Hmono.
  { intros b Hb. rewrite lookup_insert_is_Some'. by right. }
  rewrite lookup_insert_Some in H. destruct H as [[<- <-]|[_ H]].
  - simpl. destruct l as [|g l]; [by left|right]. apply Hmono. simpl. rewrite lookup_insert_eq. by eexists.
  - destruct (IH (proj2 (NoDup_cons _ _) (conj H0 Hnd)) _ _ H) as [Hz|Hs]; [by left|right]. by apply Hmono.
Qed.

Lemma pushed_entry frames i f :
  NoDup (0 :: frames.*2) -> frames !! i = Some f ->
  (e ← entries (pushed frames) !! f.2; description e) = f.1.
Proof.
  revert i. induction frames as [|g l IH]; intros i Hnd Hi; [done|].
  cbn [fmap list_fmap] in Hnd. rewrite !NoDup_cons, not_elem_of_cons in Hnd.
  destruct Hnd as ((Hf0 & H0) & Hf & Hnd). destruct i as [|i]; simpl in Hi.
  - injection Hi as ->. simpl. by rewrite lookup_insert_eq.
  - simpl. rewrite lookup_insert_ne; [eapply IH; [by apply NoDup_cons|done]|].
    intros Heq. apply Hf. rewrite Heq. apply list_elem_of_fmap. exists f. split; [done|].
    by eapply list_elem_of_lookup_2.
Qed.

(** The stack trace of a panic lists the frames that were entered and not
    left, innermost first, and nothing else: for calls whose entries are
    distinct objects, the walk prints one line per [stack_trace_push_descr],
    and a pop leaves the trace as before the last push. *)
Theorem stack_trace_lists_frames frames :
  NoDup (0 :: frames.*2) ->
  (let t := pushed frames in
   trace_loop (length frames) (entries t) (stack_trace_caller t) (stack_trace_caller t) false
   = Some (Some ((fun f => AtLine (default "(null)"%string f.1) f.2) <$> frames))) /\
  forall descr buffer,
    stack_trace_caller <$> stack_trace_pop (stack_trace_push_descr descr buffer (pushed frames))
    = Some (stack_trace_caller (pushed frames)).
Proof.
  intros Hnd. split.
  - cbv zeta. set (st := entries (pushed frames)). set (top := stack_trace_caller (pushed frames)).
    assert (forall i, chain st i top = default 0 (frames.*2 !! i)) as Hchain
      by (intros i; by apply pushed_chain).
    assert (good st top) as Hgood.
    { unfold top. destruct frames as [|f l]; [by left|right]. unfold st. simpl. rewrite lookup_insert_eq. by eexists. }
    pose proof (trace_loop_lists st (pushed_closed _ Hnd) (length frames) top 0 (length frames) Hgood) as H.
    change (0 / 2)%nat with 0%nat in H. change (Nat.odd 0) with false in H. cbn [chain] in H. rewrite H; [|..|lia|lia].
    + rewrite Nat.sub_0_r. do 2 f_equal. apply list_eq. intros i. rewrite !list_lookup_fmap.
      destruct (frames !! i) as [f|] eqn:Hf.
      * rewrite lookup_seq_lt by (by eapply lookup_lt_Some). simpl. rewrite Hchain.
        rewrite list_lookup_fmap, Hf. pose proof (pushed_entry frames i f Hnd Hf) as He. fold st in He. simpl. by rewrite He.
      * rewrite lookup_seq_ge by (by apply lookup_ge_None). done.
    + rewrite Hchain. by rewrite lookup_ge_None_2 by (by rewrite length_fmap).
    + intros j k Hjk. rewrite !Hchain. apply NoDup_cons in Hnd as [H0 Hnd].
      destruct (lookup_lt_is_Some_2 frames.*2 j) as [x Hx]; [rewrite length_fmap; lia|].
      rewrite Hx. simpl. destruct (frames.*2 !! k) as [y|] eqn:Hy; simpl.
      * intros ->. assert (j = k) by (by eapply NoDup_lookup). lia.
      * intros ->. by apply H0, list_elem_of_lookup; exists j.
  - intros descr buffer. unfold stack_trace_pop. simpl. by rewrite lookup_insert_eq.
Qed.

Lemma stack_trace_lists_frames_witness :
  let frames := [(Some "inner"%string, 64); (None, 32)] in
  (let t := pushed frames in
   trace_loop (length frames) (entries t) (stack_trace_caller t) (stack_trace_caller t) false
   = Some (Some ((fun f => AtLine (default "(null)"%string f.1) f.2) <$> frames))) /\
  forall descr buffer,
    stack_trace_caller <$> stack_trace_pop (stack_trace_push_descr descr buffer (pushed frames))
    = Some (stack_trace_caller (pushed frames)).
Proof.
  apply (stack_trace_lists_frames [(Some "inner"%string, 64); (None, 32)]).
  repeat (apply NoDup_cons; split; [simpl; set_solver|]). apply NoDup_nil_2.
Defined.
