(* ===== verification/SpinLock.v ===== *)
(** sync.h: the spin lock under any interleaving of several harts.  A critical
    section is a list of updates of the data the lock protects; the harts take
    turns one update, one test-and-set or one release at a time. *)
From S2P Require Import Prelude.

Section spinlock.
Context {D : Type}.

(** What a hart does with the lock held. *)
Definition Section_ : Type := list (D -> D).

Inductive HartState :=
  | Idle
  | Spinning (body : Section_)       (* in spin_lock_acquire *)
  | Inside (rest : Section_).        (* between acquire and release *)

Record LockState := mkLock {
  flag : bool;                       (* lock->flag *)
  data : D;                          (* what the lock protects *)
  harts : gmap nat HartState;
  (* the sections in the order of their acquisitions, newest first *)
  entered : list Section_ }.

(** [atomic_flag_test_and_set]: the value it returns, and the flag it leaves. *)
Definition test_and_set (f : bool) : bool * bool := (f, true).

Definition set_hart (h : nat) (x : HartState) (s : LockState) : LockState :=
  mkLock (flag s) (data s) (<[h := x]> (harts s)) (entered s).

(** One step of one hart. *)
Inductive lock_step (s : LockState) : LockState -> Prop :=
  | step_call h body :
      harts s !! h = Some Idle -> lock_step s (set_hart h (Spinning body) s)
  (* one round of [while (atomic_flag_test_and_set(&lock->flag)) ;] *)
  | step_spin h body was_set flag' :
      harts s !! h = Some (Spinning body) -> test_and_set (flag s) = (was_set, flag') ->
      lock_step s (if was_set then mkLock flag' (data s) (harts s) (entered s)
                   else mkLock flag' (data s) (<[h := Inside body]> (harts s)) (body :: entered s))
  (* [spin_lock_try_acquire] *)
  | step_try h body was_set flag' :
      harts s !! h = Some Idle -> test_and_set (flag s) = (was_set, flag') ->
      lock_step s (if negb was_set
                   then mkLock flag' (data s) (<[h := Inside body]> (harts s)) (body :: entered s)
                   else mkLock flag' (data s) (harts s) (entered s))
  | step_work h f rest :
      harts s !! h = Some (Inside (f :: rest)) ->
      lock_step s (mkLock (flag s) (f (data s)) (<[h := Inside rest]> (harts s)) (entered s))
  (* [spin_lock_release] *)
  | step_release h :
      harts s !! h = Some (Inside []) ->
      lock_step s (mkLock false (data s) (<[h := Idle]> (harts s)) (entered s)).

(** [SPIN_LOCK_UNLOCKED], and every hart outside. *)
Record lock_init (d : D) (s : LockState) : Prop := {
  li_flag : flag s = false;
  li_data : data s = d;
  li_harts h x : harts s !! h = Some x -> x = Idle;
  li_entered : entered s = [] }.

Inductive lock_reachable (d : D) : LockState -> Prop :=
  | lr_init s : lock_init d s -> lock_reachable d s
  | lr_step s s' : lock_reachable d s -> lock_step s s' -> lock_reachable d s'.

(** ** The serial execution *)

Definition run_section (b : Section_) (d : D) : D := foldl (fun d f => f d) d b.
(** The sections one after the other, the list newest first. *)
Definition run_serial (l : list Section_) (d : D) : D := foldr run_section d l.

Lemma run_section_snoc b f d : run_section (b ++ [f]) d = f (run_section b d).
Proof. unfold run_section. by rewrite foldl_app. Qed.

(** Exactly one hart is inside when the flag is set, and the data is that of
    the serial execution up to where it has got. *)
Definition lock_inv (d0 : D) (s : LockState) : Prop :=
  if flag s then
    exists h rest done older, harts s !! h = Some (Inside rest) /\
      (forall h' r, harts s !! h' = Some (Inside r) -> h' = h) /\
      entered s = (done ++ rest) :: older /\ data s = run_section done (run_serial older d0)
  else
    (forall h r, harts s !! h <> Some (Inside r)) /\ data s = run_serial (entered s) d0.

Lemma lock_inv_init d s : lock_init d s -> lock_inv d s.
Proof.
  intros [Hf Hd Hh He]. unfold lock_inv. rewrite Hf, He, Hd. split; [|done].
  intros h r H. by apply Hh in H.
Qed.

(** A change of a hart that is neither inside before nor after. *)
Lemma lock_inv_outside d s h x y :
  lock_inv d s -> harts s !! h = Some x -> (forall r, x <> Inside r) -> (forall r, y <> Inside r) ->
  lock_inv d (set_hart h y s).
Proof.
  unfold lock_inv. simpl. intros Hinv Hx Hnx Hny. destruct (flag s).
  - destruct Hinv as (h0 & rest & dn & older & Hh0 & Huniq & He & Hd). exists h0, rest, dn, older.
    split; [|split; [|done]].
    + rewrite lookup_insert_ne; [done|]. intros ->. rewrite Hx in Hh0. by apply (Hnx rest); congruence.
    + intros h' r [[-> Hy]|[_ Hr]]%lookup_insert_Some; [by destruct (Hny r)|eauto].
  - destruct Hinv as [Hnone Hd]. split; [|done].
    intros h' r [[-> Hy]|[_ Hr]]%lookup_insert_Some; [by destruct (Hny r)|by eapply Hnone].
Qed.

(** Taking the lock. *)
Lemma lock_inv_enter d s h body :
  lock_inv d s -> flag s = false ->
  lock_inv d (mkLock true (data s) (<[h := Inside body]> (harts s)) (body :: entered s)).
Proof.
  unfold lock_inv. intros Hinv Hf. rewrite Hf in Hinv. simpl. destruct Hinv as [Hnone Hd].
  exists h, body, [], (entered s). split; [by rewrite lookup_insert_eq|]. split; [|done].
  intros h' r [[-> _]|[_ Hr]]%lookup_insert_Some; [done|by destruct (Hnone h' r)].
Qed.

Lemma lock_inv_step d s s' : lock_inv d s -> lock_step s s' -> lock_inv d s'.
Proof.
  intros Hinv Hstep.
  destruct Hstep as [h body Hh|h body ws fl Hh Hts|h body ws fl Hh Hts|h f rest Hh|h Hh].
  - by eapply lock_inv_outside.
  - injection Hts as [= <- <-]. destruct (flag s) eqn:Ef; [|by apply lock_inv_enter].
    unfold lock_inv in *. by rewrite Ef in Hinv.
  - injection Hts as [= <- <-]. destruct (flag s) eqn:Ef; simpl; [|by apply lock_inv_enter].
    unfold lock_inv in *. by rewrite Ef in Hinv.
  - unfold lock_inv in *. simpl. destruct (flag s) eqn:Ef.
    2: { destruct Hinv as [Hnone _]. by destruct (Hnone h (f :: rest)). }
    destruct Hinv as (h0 & rest0 & dn & older & Hh0 & Huniq & He & Hd).
    assert (h = h0) as <- by eauto. rewrite Hh in Hh0. injection Hh0 as [= <-].
    exists h, rest, (dn ++ [f]), older. split; [by rewrite lookup_insert_eq|]. split; [|split].
    + intros h' r [[-> _]|[_ Hr]]%lookup_insert_Some; [done|eauto].
    + by rewrite <- app_assoc.
    + by rewrite run_section_snoc, Hd.
  - unfold lock_inv in *. simpl. destruct (flag s) eqn:Ef.
    2: { destruct Hinv as [Hnone _]. by destruct (Hnone h []). }
    destruct Hinv as (h0 & rest0 & dn & older & Hh0 & Huniq & He & Hd).
    assert (h = h0) as <- by eauto. rewrite Hh in Hh0. injection Hh0 as [= <-].
    rewrite app_nil_r in He. split.
    + intros h' r [[-> ?]|[Hne Hr]]%lookup_insert_Some; [done|by destruct Hne; symmetry; eauto].
    + by rewrite He, Hd.
Qed.

Lemma lock_reachable_inv d s : lock_reachable d s -> lock_inv d s.
Proof.
  induction 1 as [s Hi|s s' _ IH Hs]; [by apply lock_inv_init|by eapply lock_inv_step].
Qed.

End spinlock.
Arguments HartState : clear implicits.
Arguments LockState : clear implicits.
Arguments Section_ : clear implicits.

(** ** Properties *)

(** [C39] Mutual exclusion: however the harts interleave, no two of them are
    between acquire and release at once, and when the lock is free the protected
    data is what running the sections one after the other, in the order of their
    acquisitions, would have made of it. *)
Theorem spin_lock_serializes {D : Type} (d : D) s :
  lock_reachable d s ->
  (forall h1 h2 r1 r2, harts s !! h1 = Some (Inside r1) -> harts s !! h2 = Some (Inside r2) -> h1 = h2) /\
  (flag s = false -> data s = run_serial (entered s) d).
Proof.
  intros H%lock_reachable_inv. unfold lock_inv in H. destruct (flag s).
  - destruct H as (h & rest & dn & older & _ & Huniq & _). split; [|done].
    intros h1 h2 r1 r2 H1 H2. by rewrite (Huniq _ _ H1), (Huniq _ _ H2).
  - destruct H as [Hnone Hd]. split; [|done]. intros h1 h2 r1 r2 H1. by destruct (Hnone h1 r1).
Qed.

(** Two harts that increment and double a counter. *)
Definition two_harts : LockState nat := mkLock false 1%nat {[ 0%nat := Idle; 1%nat := Idle ]} [].

Lemma two_harts_init : lock_init 1%nat two_harts.
Proof.
  split; try done. intros h x H. cbn [harts two_harts] in H.
  apply lookup_insert_Some in H as [[_ <-]|[_ H]]; [done|].
  by apply lookup_singleton_Some in H as [_ <-].
Defined.

(** Hart 0 runs its section while hart 1 tries in vain. *)
Definition lock_taken : LockState nat :=
  mkLock true 1%nat (<[0%nat := Inside [S]]> (harts two_harts)) [[S]].
Definition lock_worked : LockState nat :=
  mkLock true 2%nat (<[0%nat := Inside []]> (harts lock_taken)) [[S]].
Definition lock_freed : LockState nat :=
  mkLock false 2%nat (<[0%nat := Idle]> (harts lock_worked)) [[S]].

Lemma lock_freed_reachable : lock_reachable 1%nat lock_freed.
Proof.
  apply (lr_step _ lock_worked); [apply (lr_step _ lock_taken); [apply (lr_step _ lock_taken);
    [apply (lr_step _ two_harts); [apply lr_init, two_harts_init|]|]|]|].
  - exact (step_try two_harts 0%nat [S] false true eq_refl eq_refl).
  - exact (step_try lock_taken 1%nat [S] true true eq_refl eq_refl).
  - exact (step_work lock_taken 0%nat S [] eq_refl).
  - exact (step_release lock_worked 0%nat eq_refl).
Defined.

Lemma spin_lock_serializes_witness :
  lock_reachable 1%nat lock_freed /\ flag lock_freed = false /\
    data lock_freed = run_serial (entered lock_freed) 1%nat.
Proof.
  split; [exact lock_freed_reachable|]. split; [reflexivity|].
  exact (proj2 (spin_lock_serializes 1%nat lock_freed lock_freed_reachable) eq_refl).
Defined.
