(* ===== verification/TrapEntry.v ===== *)
(** hypenterleave.S: the registers saved on entry to a trap and restored on the
    way back to the guest, instruction by instruction. *)
From S2P Require Import Prelude Machine.

(** The hart as the assembly sees it: x1 .. x31, mscratch, memory. *)
Record HartRegs := mkHart { x_regs : list Z; mscratch : Z; hmem : mem_t }.

Inductive Instr :=
  | SD (rs offset base : Z)          (* sd rs, offset(base) *)
  | LD (rd offset base : Z)          (* ld rd, offset(base) *)
  | CSRRW_MSCRATCH (rd rs : Z)       (* csrrw rd, mscratch, rs *)
  | CSRR_MSCRATCH (rd : Z)           (* csrr rd, mscratch *)
  | CSRW_MSCRATCH (rs : Z).          (* csrw mscratch, rs *)

Definition put_reg (rd v : Z) (h : HartRegs) : HartRegs :=
  mkHart (if rd =? 0 then x_regs h else set_x_plus_one (x_regs h) (rd - 1) v) (mscratch h) (hmem h).

Definition exec1 (h : HartRegs) (i : Instr) : HartRegs :=
  match i with
  | SD rs off base =>
      mkHart (x_regs h) (mscratch h)
        (store64 (hmem h) (xreg (x_regs h) base + off) (xreg (x_regs h) rs))
  | LD rd off base => put_reg rd (load64 (hmem h) (xreg (x_regs h) base + off)) h
  | CSRRW_MSCRATCH rd rs =>
      put_reg rd (mscratch h) (mkHart (x_regs h) (xreg (x_regs h) rs) (hmem h))
  | CSRR_MSCRATCH rd => put_reg rd (mscratch h) h
  | CSRW_MSCRATCH rs => mkHart (x_regs h) (xreg (x_regs h) rs) (hmem h)
  end.

Definition exec (l : list Instr) (h : HartRegs) : HartRegs := foldl exec1 h l.

(** The registers by their names in the file. *)
Definition sp : Z := 2.
Definition t0 : Z := 5.

(** "Save the registers": ra, gp, tp, t0, ... t6 *)
Definition save_block : list Instr :=
  [SD 1 0 sp; SD 3 16 sp; SD 4 24 sp; SD 5 32 sp; SD 6 40 sp; SD 7 48 sp; SD 8 56 sp;
   SD 9 64 sp; SD 10 72 sp; SD 11 80 sp; SD 12 88 sp; SD 13 96 sp; SD 14 104 sp; SD 15 112 sp;
   SD 16 120 sp; SD 17 128 sp; SD 18 136 sp; SD 19 144 sp; SD 20 152 sp; SD 21 160 sp;
   SD 22 168 sp; SD 23 176 sp; SD 24 184 sp; SD 25 192 sp; SD 26 200 sp; SD 27 208 sp;
   SD 28 216 sp; SD 29 224 sp; SD 30 232 sp; SD 31 240 sp].

(** _exc_entry up to [call exception]. *)
Definition exc_entry : list Instr :=
  [CSRRW_MSCRATCH sp sp] ++ save_block ++
  [CSRR_MSCRATCH t0; SD t0 8 sp; CSRW_MSCRATCH sp; LD sp 248 sp].

(** "Restore the registers" *)
Definition restore_block : list Instr :=
  [LD 1 0 sp; LD 3 16 sp; LD 4 24 sp; LD 5 32 sp; LD 6 40 sp; LD 7 48 sp; LD 8 56 sp;
   LD 9 64 sp; LD 10 72 sp; LD 11 80 sp; LD 12 88 sp; LD 13 96 sp; LD 14 104 sp; LD 15 112 sp;
   LD 16 120 sp; LD 17 128 sp; LD 18 136 sp; LD 19 144 sp; LD 20 152 sp; LD 21 160 sp;
   LD 22 168 sp; LD 23 176 sp; LD 24 184 sp; LD 25 192 sp; LD 26 200 sp; LD 27 208 sp;
   LD 28 216 sp; LD 29 224 sp; LD 30 232 sp; LD 31 240 sp].

(** enter_guest up to [mret]. *)
Definition enter_guest : list Instr :=
  [CSRR_MSCRATCH sp] ++ restore_block ++ [LD sp 8 sp].

(** ** Blocks of loads and stores *)

(** Every register but x2, in order. *)
Definition saved_regs : list Z := 1 :: seqZ 3 29.

Lemma save_block_eq : save_block = (fun r => SD r (8 * (r - 1)) sp) <$> saved_regs.
Proof. reflexivity. Qed.
Lemma restore_block_eq : restore_block = (fun r => LD r (8 * (r - 1)) sp) <$> saved_regs.
Proof. reflexivity. Qed.

Lemma saved_regs_range r : r ∈ saved_regs <-> 1 <= r <= 31 /\ r <> 2.
Proof. unfold saved_regs. rewrite elem_of_cons, elem_of_seqZ. lia. Qed.

Lemma exec_app l k h : exec (l ++ k) h = exec k (exec l h).
Proof. apply foldl_app. Qed.

Lemma exec_cons i l h : exec (i :: l) h = exec l (exec1 h i).
Proof. reflexivity. Qed.
Lemma exec_nil h : exec [] h = h.
Proof. reflexivity. Qed.

(** The slot of register [r] in the record at [a]. *)
Definition slot (a r : Z) : Z := a + 8 * (r - 1).

Lemma exec_saves l h :
  let h' := exec ((fun r => SD r (8 * (r - 1)) sp) <$> l) h in
  x_regs h' = x_regs h /\ mscratch h' = mscratch h /\
  (forall r, r ∈ l -> load64 (hmem h') (slot (xreg (x_regs h) sp) r) = u64 (xreg (x_regs h) r)) /\
  (forall b n, (forall r, r ∈ l -> b + n <= slot (xreg (x_regs h) sp) r \/ slot (xreg (x_regs h) sp) r + 8 <= b) ->
     mem_agree b n (hmem h) (hmem h')).
Proof.
  induction l as [|q l IH] using rev_ind; intros h'.
  { split_and!; try done. set_solver. }
  subst h'. rewrite fmap_app, exec_app. cbn [fmap list_fmap]. cbn zeta in *.
  destruct IH as (Hr & Hm & Hl & Hf). set (h1 := exec _ h) in *.
  cbn [exec foldl exec1 x_regs mscratch hmem]. rewrite Hr. split; [done|]. split; [done|]. split.
  - intros r Hin. destruct (decide (r = q)) as [->|Hne].
    + apply load64_store64_same.
    + rewrite load64_store64_other by (unfold slot; lia). apply Hl. set_solver.
  - intros b n Hb. eapply mem_agree_trans; [apply Hf; intros r Hin; apply Hb; set_solver|].
    apply store64_agree. destruct (Hb q ltac:(set_solver)); unfold slot in *; lia.
Qed.

Lemma exec_loads l h :
  length (x_regs h) = 31%nat -> (forall r, r ∈ l -> 1 <= r <= 31 /\ r <> 2) ->
  let h' := exec ((fun r => LD r (8 * (r - 1)) sp) <$> l) h in
  hmem h' = hmem h /\ mscratch h' = mscratch h /\ length (x_regs h') = 31%nat /\
  (forall r, r ∈ l -> xreg (x_regs h') r = load64 (hmem h) (slot (xreg (x_regs h) sp) r)) /\
  (forall r, 0 <= r <= 31 -> r ∉ l -> xreg (x_regs h') r = xreg (x_regs h) r).
Proof.
  intros Hlen. induction l as [|q l IH] using rev_ind; intros Hl h'.
  { split_and!; try done. set_solver. }
  destruct (Hl q ltac:(set_solver)) as [Hq Hq2].
  subst h'. rewrite fmap_app, exec_app. cbn [fmap list_fmap]. cbn zeta in *.
  destruct IH as (Hm & Hs & Hn & Hin & Hout); [intros r Hr; apply Hl; set_solver|].
  set (h1 := exec _ h) in *.
  assert (xreg (x_regs h1) sp = xreg (x_regs h) sp) as Hsp.
  { apply Hout; [unfold sp; lia|]. intros H. destruct (Hl sp ltac:(set_solver)). done. }
  cbn [exec foldl exec1 put_reg x_regs mscratch hmem]. rewrite Hsp, Hm.
  rewrite (proj2 (Z.eqb_neq q 0)) by lia. split; [exact eq_refl|]. split; [exact Hs|]. split; [|split].
  - rewrite length_set_x_plus_one. exact Hn.
  - intros r Hr. unfold xreg at 1. rewrite (proj2 (Z.eqb_neq r 0)) by (destruct (Hl r Hr); lia).
    destruct (decide (r = q)) as [->|Hne].
    + rewrite x_plus_one_set_same by lia. done.
    + destruct (Hl r Hr). rewrite x_plus_one_set_other by lia.
      apply elem_of_app in Hr as [Hr|Hr%list_elem_of_singleton]; [|done].
      rewrite <- (Hin r Hr). unfold xreg. by rewrite (proj2 (Z.eqb_neq r 0)) by lia.
  - intros r Hr [Hnl Hnq]%not_elem_of_app. rewrite not_elem_of_cons in Hnq.
    rewrite <- (Hout r Hr Hnl). unfold xreg.
    destruct (Z.eqb_spec r 0); [done|]. rewrite x_plus_one_set_other; [done|lia|lia|].
    lia.
Qed.

(** ** Entry and return *)

(** The record at [a] is what mscratch points to while the guest runs. *)
Record at_guest (a : Z) (h : HartRegs) : Prop := {
  ag_len : length (x_regs h) = 31%nat;
  ag_range r : 1 <= r <= 31 -> 0 <= xreg (x_regs h) r < 2 ^ 64;
  ag_scratch : mscratch h = a }.

Lemma xreg_put h rd v r :
  length (x_regs h) = 31%nat -> 1 <= rd <= 31 -> 0 <= r <= 31 ->
  xreg (x_regs (put_reg rd v h)) r = if decide (r = rd) then v else xreg (x_regs h) r.
Proof.
  intros Hlen Hrd Hr. unfold put_reg, xreg. cbn [x_regs]. rewrite (proj2 (Z.eqb_neq rd 0)) by lia.
  case_decide as Hd.
  - subst r. rewrite (proj2 (Z.eqb_neq rd 0)) by lia. apply x_plus_one_set_same. lia.
  - destruct (Z.eqb_spec r 0); [done|]. apply x_plus_one_set_other; lia.
Qed.

Lemma length_put h rd v : length (x_regs (put_reg rd v h)) = length (x_regs h).
Proof. unfold put_reg. cbn. destruct (rd =? 0); [done|apply length_set_x_plus_one]. Qed.

(** The swap of the stack pointer with the record's address. *)
Lemma entry_swap a h :
  at_guest a h ->
  let h1 := exec1 h (CSRRW_MSCRATCH sp sp) in
  xreg (x_regs h1) sp = a /\ (forall r, 0 <= r <= 31 -> r <> 2 -> xreg (x_regs h1) r = xreg (x_regs h) r) /\
  mscratch h1 = xreg (x_regs h) sp /\ hmem h1 = hmem h /\ length (x_regs h1) = 31%nat.
Proof.
  intros [Hlen Hrange Hsc]. cbn [exec1]. split; [|split; [|split; [done|split; [done|by rewrite length_put]]]].
  - rewrite xreg_put by (cbn [x_regs]; unfold sp; lia || done). by rewrite decide_True.
  - intros r Hr Hne. rewrite xreg_put by (cbn [x_regs]; unfold sp; lia || done).
    by rewrite decide_False.
Qed.

(** The last four instructions of the entry. *)
Lemma entry_tail a h :
  length (x_regs h) = 31%nat -> xreg (x_regs h) sp = a ->
  let h' := exec [CSRR_MSCRATCH t0; SD t0 8 sp; CSRW_MSCRATCH sp; LD sp 248 sp] h in
  mscratch h' = a /\ hmem h' = store64 (hmem h) (a + 8) (mscratch h) /\
  xreg (x_regs h') sp = load64 (hmem h') (a + 248).
Proof.
  intros Hlen Hsp. rewrite !exec_cons, exec_nil.
  set (h3 := exec1 h (CSRR_MSCRATCH t0)).
  assert (xreg (x_regs h3) t0 = mscratch h /\ xreg (x_regs h3) sp = a) as [Ht3 Hs3].
  { unfold h3. cbn [exec1]. rewrite !xreg_put by (unfold sp, t0; lia || done).
    rewrite decide_True, decide_False by done. done. }
  assert (hmem h3 = hmem h) as Hmem3 by done.
  assert (length (x_regs h3) = 31%nat) as Hlen3 by (unfold h3; cbn [exec1]; by rewrite length_put).
  clearbody h3. cbn [exec1 mscratch hmem x_regs]. rewrite Ht3, Hs3, Hmem3.
  split; [done|]. split; [done|].
  rewrite xreg_put by (cbn [x_regs]; unfold sp; lia || done). rewrite decide_True by done. done.
Qed.

Lemma exc_entry_spec a h :
  at_guest a h ->
  let h' := exec exc_entry h in
  mscratch h' = a /\ xreg (x_regs h') sp = load64 (hmem h) (a + 248) /\
  (forall r, 1 <= r <= 31 -> load64 (hmem h') (slot a r) = xreg (x_regs h) r) /\
  (forall b n, b + n <= a \/ a + 248 <= b -> mem_agree b n (hmem h) (hmem h')).
Proof.
  intros Hg. unfold exc_entry. rewrite !exec_app, (exec_cons (CSRRW_MSCRATCH sp sp) []), exec_nil.
  destruct (entry_swap a h Hg) as (Hsp1 & Hr1 & Hm1 & Hmem1 & Hlen1).
  revert Hsp1 Hr1 Hm1 Hmem1 Hlen1. generalize (exec1 h (CSRRW_MSCRATCH sp sp)).
  intros h1 Hsp1 Hr1 Hm1 Hmem1 Hlen1. rewrite save_block_eq.
  destruct (exec_saves saved_regs h1) as (Hr2 & Hm2 & Hl2 & Hf2). rewrite Hsp1 in Hl2, Hf2.
  revert Hr2 Hm2 Hl2 Hf2. generalize (exec ((fun r => SD r (8 * (r - 1)) sp) <$> saved_regs) h1).
  intros h2 Hr2 Hm2 Hl2 Hf2.
  destruct (entry_tail a h2) as (Hm3 & Hmem3 & Hs3); [by rewrite Hr2|by rewrite Hr2|].
  revert Hm3 Hmem3 Hs3. generalize (exec [CSRR_MSCRATCH t0; SD t0 8 sp; CSRW_MSCRATCH sp; LD sp 248 sp] h2).
  intros h' Hm3 Hmem3 Hs3.
  assert (forall b n, b + n <= a \/ a + 248 <= b -> mem_agree b n (hmem h) (hmem h')) as Hframe.
  { intros b n Hb. rewrite <- Hmem1, Hmem3. eapply mem_agree_trans; [apply Hf2|apply store64_agree; lia].
    intros r Hr%saved_regs_range. unfold slot. lia. }
  split; [done|]. split; [|split; [|exact Hframe]].
  - rewrite Hs3. symmetry. apply load64_agree, Hframe. lia.
  - intros r Hr. rewrite Hmem3. destruct (decide (r = sp)) as [->|Hne].
    + change (slot a sp) with (a + 8). rewrite load64_store64_same, Hm2, Hm1.
      apply u64_id, (ag_range _ _ Hg). unfold sp; lia.
    + rewrite load64_store64_other by (unfold slot, sp in *; lia).
      assert (r ∈ saved_regs) as Hin by (apply saved_regs_range; unfold sp in Hne; lia).
      rewrite (Hl2 r Hin), Hr1 by (unfold sp in Hne; lia). apply u64_id, (ag_range _ _ Hg). lia.
Qed.

Lemma enter_guest_spec a h :
  length (x_regs h) = 31%nat -> mscratch h = a ->
  let h' := exec enter_guest h in
  hmem h' = hmem h /\ mscratch h' = a /\
  forall r, 1 <= r <= 31 -> xreg (x_regs h') r = load64 (hmem h) (slot a r).
Proof.
  intros Hlen Hsc. unfold enter_guest.
  rewrite !exec_app, (exec_cons (CSRR_MSCRATCH sp) []), (exec_cons (LD sp 8 sp) []), !exec_nil.
  assert (xreg (x_regs (exec1 h (CSRR_MSCRATCH sp))) sp = a) as Hsp1.
  { cbn [exec1]. rewrite xreg_put by (unfold sp; lia || done). by rewrite decide_True. }
  assert (length (x_regs (exec1 h (CSRR_MSCRATCH sp))) = 31%nat) as Hlen1
    by (cbn [exec1]; by rewrite length_put).
  assert (hmem (exec1 h (CSRR_MSCRATCH sp)) = hmem h /\ mscratch (exec1 h (CSRR_MSCRATCH sp)) = a)
    as [Hmem1 Hm1] by done.
  revert Hsp1 Hlen1 Hmem1 Hm1. generalize (exec1 h (CSRR_MSCRATCH sp)). intros h1 Hsp1 Hlen1 Hmem1 Hm1.
  rewrite restore_block_eq.
  destruct (exec_loads saved_regs h1 Hlen1) as (Hm2 & Hs2 & Hn2 & Hin & Hout).
  { intros r Hr%saved_regs_range. lia. }
  revert Hm2 Hs2 Hn2 Hin Hout. generalize (exec ((fun r => LD r (8 * (r - 1)) sp) <$> saved_regs) h1).
  intros h2 Hm2 Hs2 Hn2 Hin Hout.
  assert (xreg (x_regs h2) sp = a) as Hsp2.
  { rewrite Hout; [done|unfold sp; lia|]. rewrite saved_regs_range. unfold sp. lia. }
  cbn [exec1]. split; [cbn; congruence|]. split; [cbn; congruence|]. intros r Hr.
  rewrite xreg_put by (unfold sp; lia || done). rewrite Hsp2, Hm2, Hmem1. case_decide as Hd.
  - by subst r.
  - rewrite Hin by (apply saved_regs_range; unfold sp in Hd; lia). by rewrite Hsp1, Hmem1.
Qed.

(** ** Properties *)

(** [C38] Entering a trap and returning from it without touching the saved
    registers restores every register of the guest: _exc_entry followed by
    enter_guest is the identity on x1 .. x31 and on mscratch, and the slot of
    register [r] in the record, [active_regs.x_plus_one[r - 1]], holds its value
    while the handler runs. *)
Theorem trap_entry_roundtrip a h h2 :
  at_guest a h ->
  length (x_regs h2) = 31%nat -> mscratch h2 = mscratch (exec exc_entry h) ->
  mem_agree a 248 (hmem (exec exc_entry h)) (hmem h2) ->
  let h' := exec enter_guest h2 in
  mscratch h' = mscratch h /\
  forall r, 1 <= r <= 31 ->
    load64 (hmem (exec exc_entry h)) (a + 8 * (r - 1)) = xreg (x_regs h) r /\
    xreg (x_regs h') r = xreg (x_regs h) r.
Proof.
  intros Hg Hlen Hsc Hmem h'. destruct (exc_entry_spec a h Hg) as (Hm & _ & Hslot & _).
  rewrite Hm in Hsc. destruct (enter_guest_spec a h2 Hlen Hsc) as (_ & Hm' & Hr').
  split; [by rewrite (ag_scratch _ _ Hg)|]. intros r Hr. split; [by apply Hslot|].
  unfold h'. rewrite Hr', <- Hslot by done. symmetry. apply load64_agree.
  eapply mem_agree_sub; [done|unfold slot; lia..].
Qed.

(** A guest whose registers hold 101 .. 131. *)
Definition sample_hart : HartRegs := mkHart (seqZ 101 31) 4096 ∅.

Lemma sample_hart_ok : at_guest 4096 sample_hart.
Proof.
  split; [reflexivity| |reflexivity]. intros r Hr. unfold xreg, x_plus_one.
  rewrite (proj2 (Z.eqb_neq r 0)) by lia. cbn [sample_hart x_regs].
  rewrite lookup_seqZ_lt by lia. simpl. lia.
Qed.

Lemma trap_entry_roundtrip_witness :
  at_guest 4096 sample_hart /\ mscratch (exec enter_guest (exec exc_entry sample_hart)) = 4096 /\
  xreg (x_regs (exec enter_guest (exec exc_entry sample_hart))) 31 = 131.
Proof.
  split; [exact sample_hart_ok|].
  destruct (trap_entry_roundtrip 4096 sample_hart (exec exc_entry sample_hart) sample_hart_ok
    ltac:(vm_compute; reflexivity) eq_refl (mem_agree_refl _ _ _)) as [H1 H2].
  split; [exact H1|]. exact (proj2 (H2 31 ltac:(lia))).
Defined.
