(* ===== verification/Pte.v ===== *)
(** vmem.h: page-table entries and permission bits, and the Sv39 reference for
    the page tables the hypervisor builds: what a table maps, and what a hart
    that translates through it accesses. *)
From S2P Require Import Prelude Machine.

(** ** vmem.h, permission bits *)

Inductive MempermIndex :=
  | PERMIDX_V | PERMIDX_R | PERMIDX_W | PERMIDX_X | PERMIDX_U | PERMIDX_G
  | PERMIDX_A | PERMIDX_D | PERMIDX_RESERVED1 | PERMIDX_RESERVED2.

#[export] Instance MempermIndex_eq_dec : EqDecision MempermIndex.
Proof. solve_decision. Defined.

(** The enumeration's numeric values. *)
Definition memperm_index (idx : MempermIndex) : Z :=
  match idx with
  | PERMIDX_V => 0 | PERMIDX_R => 1 | PERMIDX_W => 2 | PERMIDX_X => 3 | PERMIDX_U => 4
  | PERMIDX_G => 5 | PERMIDX_A => 6 | PERMIDX_D => 7 | PERMIDX_RESERVED1 => 8
  | PERMIDX_RESERVED2 => 9
  end.

Definition PERMSHIFT : Z := 10.
Definition PGOFFSET_MASK : Z := PGSIZE - 1.

Definition permbit_from_index (idx : MempermIndex) : Z := Z.shiftl 1 (memperm_index idx).
Abbreviation PERMBIT := permbit_from_index.

(** [permissions & PERMBIT(i)] as a condition. *)
Definition has_perm (permissions : Z) (idx : MempermIndex) : bool :=
  nonzero (Z.land permissions (PERMBIT idx)).
(** [permissions & (PERMBIT(R) | PERMBIT(W) | PERMBIT(X))] as a condition. *)
Definition PERM_RWX : Z :=
  Z.lor (Z.lor (PERMBIT PERMIDX_R) (PERMBIT PERMIDX_W)) (PERMBIT PERMIDX_X).
Definition has_rwx (permissions : Z) : bool := nonzero (Z.land permissions PERM_RWX).

(** ** vmem.h, entries *)

Record UnpackedPagetableEntry := mkUnpacked {
  numeric_address : Z;
  permissions : Z }.                (* : PERMSHIFT *)

(** Assignment to the ten-bit field [permissions]. *)
Definition perm_field (p : Z) : Z := p mod 2 ^ PERMSHIFT.

Definition pack_pt_entry (unpacked : UnpackedPagetableEntry) : Z :=
  Z.lor (u64 (Z.shiftl (Z.shiftr (numeric_address unpacked) PGSHIFT) PERMSHIFT))
        (permissions unpacked).

Definition unpack_pt_entry (packed : Z) : UnpackedPagetableEntry :=
  mkUnpacked (u64 (Z.shiftl (Z.shiftr packed PERMSHIFT) PGSHIFT))
             (perm_field (Z.land packed (Z.shiftl 1 PERMSHIFT - 1))).

(** The address of entry [i] of the table at [t]. *)
Definition entry_addr (t i : Z) : Z := t + 8 * i.

(** ** Reference: Sv39 address translation

    The specification translates in three parts: the address must be canonical
    ([sv39_canonical]); the tables are walked from the root to a leaf, which
    looks at bits 38:12 of the address only ([sv39_leaf], [sv39_translate]); the
    leaf must permit the access and must have been accessed, and for a store
    dirtied, or the hart sets those bits itself ([hart_access]).  The walk alone
    says what a table maps; only [hart_access] says what a hart does. *)

(** Virtual page number [lvl] of [va]. *)
Definition vpn (lvl : nat) (va : Z) : Z := va / 2 ^ (12 + 9 * Z.of_nat lvl) mod 512.

(** An entry the specification calls invalid or reserved: V clear, W without R,
    or one of the bits 63:54 set. *)
Definition sv39_invalid (pte : Z) : bool :=
  let p := permissions (unpack_pt_entry pte) in
  negb (has_perm p PERMIDX_V)
  || (has_perm p PERMIDX_W && negb (has_perm p PERMIDX_R))
  || (2 ^ 54 <=? pte).

(** The bytes mapped by an entry of level [lvl]. *)
Definition sv39_span (lvl : nat) : Z := 2 ^ (12 + 9 * Z.of_nat lvl).

(** The table walk of the privileged specification from the table [t], an
    entry of level [lvl] being looked up: the leaf entry that maps [va], with
    the level at which it was found; a misaligned superpage faults.  This is
    the walk alone: the address is not checked to be canonical, and neither the
    permissions nor the A and D bits of the leaf are looked at. *)
Fixpoint sv39_leaf (m : mem_t) (lvl : nat) (t va : Z) : option (nat * UnpackedPagetableEntry) :=
  let pte := load64 m (entry_addr t (vpn lvl va)) in
  let e := unpack_pt_entry pte in
  if sv39_invalid pte then None
  else if has_rwx (permissions e) then
    if numeric_address e mod sv39_span lvl =? 0 then Some (lvl, e) else None
  else match lvl with
       | O => None
       | S lvl' => sv39_leaf m lvl' (numeric_address e) va
       end.

(** What the table at [root] maps an address to: the physical address and the
    permissions of the leaf.  A hart accesses a part of this ([hart_access]). *)
Definition sv39_translate (m : mem_t) (root va : Z) : option (Z * Z) :=
  match sv39_leaf m 2 root va with
  | Some (lvl, e) => Some (numeric_address e + va mod sv39_span lvl, permissions e)
  | None => None
  end.

(** Bits 63:39 of a 64-bit address equal its bit 38. *)
Definition sv39_canonical (va : Z) : bool :=
  (va / 2 ^ 38 =? 0) || (va / 2 ^ 38 =? 2 ^ 26 - 1).

(** What a canonical address is mapped to; any other address faults. *)
Definition hart_maps (m : mem_t) (root va : Z) : option (Z * Z) :=
  if sv39_canonical va then sv39_translate m root va else None.

(** Who sets the accessed and dirty bits: the hart (Svadu), or software, for
    which the hart raises a page fault (Svade). *)
Inductive ADScheme := Svadu | Svade.

Definition ad_permits (ad : ADScheme) (p : Z) (access_type : MempermIndex) : bool :=
  match ad with
  | Svadu => true
  | Svade => has_perm p PERMIDX_A &&
      (if decide (access_type = PERMIDX_W) then has_perm p PERMIDX_D else true)
  end.

(** An access in user mode through the table at [root]: the physical address
    that is accessed, or a page fault. *)
Definition hart_access (ad : ADScheme) (m : mem_t) (root va : Z) (access_type : MempermIndex) : option Z :=
  match hart_maps m root va with
  | Some (pa, p) =>
      if has_perm p PERMIDX_U && has_perm p access_type && ad_permits ad p access_type then Some pa else None
  | None => None
  end.

(** ** Packing *)

Lemma PGSIZE_eq : PGSIZE = 4096.
Proof. done. Qed.

Lemma pack_arith a p :
  0 <= a < 2 ^ 64 -> 0 <= p < 1024 ->
  pack_pt_entry (mkUnpacked a p) = a / 4096 * 1024 + p.
Proof.
  intros Ha Hp. unfold pack_pt_entry; simpl. unfold PGSHIFT, PERMSHIFT.
  rewrite Z.shiftr_div_pow2, Z.shiftl_mul_pow2 by lia.
  rewrite u64_id. 2: { change (2 ^ 12) with 4096. change (2 ^ 10) with 1024. word_lia. }
  rewrite lor_disjoint_add by lia. done.
Qed.

Lemma unpack_arith v :
  0 <= v < 2 ^ 64 ->
  unpack_pt_entry v = mkUnpacked (u64 (v / 1024 * 4096)) (v mod 1024).
Proof.
  intros Hv. unfold unpack_pt_entry, perm_field, PGSHIFT, PERMSHIFT.
  rewrite Z.shiftr_div_pow2, Z.shiftl_mul_pow2 by lia.
  change (Z.shiftl 1 10 - 1) with (2 ^ 10 - 1). rewrite land_low by lia.
  rewrite Z.mod_mod by lia. done.
Qed.

Lemma pack_range a p :
  0 <= a < 2 ^ 64 -> 0 <= p < 1024 -> 0 <= pack_pt_entry (mkUnpacked a p) < 2 ^ 64.
Proof. intros. rewrite pack_arith by done. word_lia. Qed.

(** Unpacking recovers what was packed, the page offset of the address lost. *)
Lemma unpack_pack a p :
  0 <= a < 2 ^ 64 -> 0 <= p < 1024 ->
  unpack_pt_entry (pack_pt_entry (mkUnpacked a p)) = mkUnpacked (a / 4096 * 4096) p.
Proof.
  intros Ha Hp. rewrite pack_arith by done. rewrite unpack_arith by word_lia.
  f_equal; word_lia.
Qed.

Lemma unpack_pack_aligned a p :
  0 <= a < 2 ^ 64 -> a mod 4096 = 0 -> 0 <= p < 1024 ->
  unpack_pt_entry (pack_pt_entry (mkUnpacked a p)) = mkUnpacked a p.
Proof. intros. rewrite unpack_pack by done. f_equal. word_lia. Qed.

(** Packing recovers an entry but for its two top bits. *)
Lemma pack_unpack v :
  0 <= v < 2 ^ 64 -> pack_pt_entry (unpack_pt_entry v) = v mod 2 ^ 62.
Proof.
  intros Hv. rewrite unpack_arith by done. rewrite pack_arith; word_lia.
Qed.

Lemma unpack_address_aligned v : numeric_address (unpack_pt_entry v) mod 4096 = 0.
Proof.
  unfold unpack_pt_entry, PGSHIFT; simpl. rewrite Z.shiftl_mul_pow2 by lia.
  change (2 ^ 12) with 4096. word_lia.
Qed.
Lemma unpack_address_range v : 0 <= numeric_address (unpack_pt_entry v) < 2 ^ 64.
Proof. apply u64_range. Qed.
Lemma unpack_perm_range v : 0 <= permissions (unpack_pt_entry v) < 1024.
Proof. unfold unpack_pt_entry, perm_field; simpl. apply Z.mod_pos_bound. done. Qed.

Lemma vpn_range lvl va : 0 <= vpn lvl va < 512.
Proof. apply Z.mod_pos_bound. lia. Qed.

(** A walk looks at the low 39 bits of the address only: addresses that differ
    above bit 38 are not told apart. *)
Lemma vpn_low39 lvl va : (lvl <= 2)%nat -> vpn lvl (va mod 2 ^ 39) = vpn lvl va.
Proof.
  intros Hl. assert (lvl = 0 \/ lvl = 1 \/ lvl = 2)%nat as [->|[->| ->]] by lia; unfold vpn; cbn [Z.of_nat];
    match goal with |- context [2 ^ (12 + 9 * ?k)] => let n := eval vm_compute in (2 ^ (12 + 9 * k)) in
      change (2 ^ (12 + 9 * k)) with n end;
    change (2 ^ 39) with 549755813888; Z.div_mod_to_equations; lia.
Qed.

Lemma sv39_leaf_low39 m lvl t va : (lvl <= 2)%nat -> sv39_leaf m lvl t (va mod 2 ^ 39) = sv39_leaf m lvl t va.
Proof.
  revert t. induction lvl as [|lvl IH]; intros t Hl; cbn [sv39_leaf]; rewrite vpn_low39 by done; [done|].
  by rewrite IH by lia.
Qed.

Lemma sv39_leaf_level m lvl t va l e : sv39_leaf m lvl t va = Some (l, e) -> (l <= lvl)%nat.
Proof.
  revert t. induction lvl as [|lvl IH]; intros t; cbn [sv39_leaf];
    (destruct (sv39_invalid _); [done|]); (destruct (has_rwx _); [|try done]);
    [..|intros H; specialize (IH _ H); lia]; (destruct (_ =? 0); [|done]); intros [= <- <-]; lia.
Qed.

Lemma sv39_translate_low39 m t va : sv39_translate m t (va mod 2 ^ 39) = sv39_translate m t va.
Proof.
  unfold sv39_translate. rewrite sv39_leaf_low39 by lia. destruct (sv39_leaf m 2 t va) as [[l e]|] eqn:Hl; [|done].
  apply sv39_leaf_level in Hl. do 2 f_equal. f_equal. unfold sv39_span. apply Z.mod_mod_divide.
  exists (2 ^ (39 - (12 + 9 * Z.of_nat l))). rewrite <- Z.pow_add_r by lia. f_equal. lia.
Qed.

Lemma sv39_translate_u64 m t va : sv39_translate m t (u64 va) = sv39_translate m t va.
Proof.
  rewrite <- (sv39_translate_low39 m t (u64 va)), <- (sv39_translate_low39 m t va). f_equal.
  apply Z.mod_mod_divide. by exists (2 ^ 25).
Qed.

(** An address below 2^38 is canonical, one from there to 2^39 is not. *)
Lemma sv39_canonical_low va : 0 <= va < 2 ^ 39 -> sv39_canonical va = (va <? 2 ^ 38).
Proof.
  intros Hva. unfold sv39_canonical. change (2 ^ 38) with 274877906944. change (2 ^ 26 - 1) with 67108863.
  change (2 ^ 39) with 549755813888 in Hva.
  destruct (Z.ltb_spec va 274877906944) as [Hlow|Hhigh].
  - by rewrite Z.div_small by lia.
  - assert (va / 274877906944 = 1) as -> by (Z.div_mod_to_equations; lia). done.
Qed.

(** The access of a hart through a mapping without A and D bits. *)
Lemma hart_access_mapped ad m root va pa p a :
  sv39_translate m root va = Some (pa, p) -> has_perm p PERMIDX_U = true -> has_perm p a = true ->
  has_perm p PERMIDX_A = false ->
  hart_access ad m root va a =
    match ad with Svadu => if sv39_canonical va then Some pa else None | Svade => None end.
Proof.
  intros Htr HU Ha HA. unfold hart_access, hart_maps. rewrite Htr.
  destruct (sv39_canonical va); [|by destruct ad]. rewrite HU, Ha. unfold ad_permits. rewrite HA. by destruct ad.
Qed.

#[export] Hint Resolve unpack_address_range unpack_address_aligned unpack_perm_range
  vpn_range : mem.

(** ** Properties *)

(** [C35] Packing and unpacking of page-table entries are inverse up to what the
    format can hold: an unpacked entry loses the page offset of its address and
    nothing else, a packed entry its two top bits and nothing else; the address
    unpacked is always a page and the permissions always fit the bit-field. *)
Theorem pt_entry_roundtrip e v :
  0 <= numeric_address e < 2 ^ 64 -> 0 <= permissions e < 2 ^ PERMSHIFT -> 0 <= v < 2 ^ 64 ->
  unpack_pt_entry (pack_pt_entry e)
    = mkUnpacked (numeric_address e - numeric_address e mod PGSIZE) (permissions e) /\
  pack_pt_entry (unpack_pt_entry v) = v mod 2 ^ 62 /\
  0 <= pack_pt_entry e < 2 ^ 64 /\
  numeric_address (unpack_pt_entry v) mod PGSIZE = 0 /\
  0 <= permissions (unpack_pt_entry v) < 2 ^ PERMSHIFT.
Proof.
  destruct e as [a p]. cbn [numeric_address permissions]. intros Ha Hp Hv.
  change (2 ^ PERMSHIFT) with 1024 in *. rewrite PGSIZE_eq. split; [|split; [|split; [|split]]].
  - rewrite unpack_pack by done. f_equal. Z.div_mod_to_equations; lia.
  - by apply pack_unpack.
  - by apply pack_range.
  - apply unpack_address_aligned.
  - apply unpack_perm_range.
Qed.

Lemma pt_entry_roundtrip_witness :
  unpack_pt_entry (pack_pt_entry (mkUnpacked 0x80001234 23)) = mkUnpacked (0x80001234 - 0x80001234 mod PGSIZE) 23 /\
  pack_pt_entry (unpack_pt_entry (2 ^ 63 + 7)) = (2 ^ 63 + 7) mod 2 ^ 62 /\
  0 <= pack_pt_entry (mkUnpacked 0x80001234 23) < 2 ^ 64 /\
  numeric_address (unpack_pt_entry (2 ^ 63 + 7)) mod PGSIZE = 0 /\
  0 <= permissions (unpack_pt_entry (2 ^ 63 + 7)) < 2 ^ PERMSHIFT.
Proof. apply (pt_entry_roundtrip (mkUnpacked 0x80001234 23) (2 ^ 63 + 7)); by vm_compute. Defined.
