(* ===== verification/PageAlloc.v ===== *)
(** pagealloc.c and sync.h: the page allocator, a free list threaded through
    the free pages over a bump index into a static pool, under a spin lock.
    Besides the code the file states, as a class, what the allocator promises
    to its clients, and proves that the code keeps the promise. *)
From S2P Require Import Prelude Machine Sample Wp.

Section alloc.
Context {plat : Platform}.

(** ** sync.h, as run by the one hart *)

(** Returns whether the acquisition was successful. *)
Definition spin_lock_try_acquire : M bool :=
  let! was_set := gets allocator_lock in
  modify (set_allocator_lock true) ;;
  ret (negb was_set).

(** [while (atomic_flag_test_and_set(&lock->flag)) ;]: no other hart runs, so
    a flag found set stays set. *)
Definition spin_lock_acquire : M unit := fun s =>
  if allocator_lock s then Diverge else Ok tt (set_allocator_lock true s).

Definition spin_lock_release : M unit := modify (set_allocator_lock false).

(** ** pagealloc.c *)

(** [&page_pool[i].page] *)
Definition pool_page (i : Z) : Z := page_pool_addr + PGSIZE * i.

Definition allocate_page : M Z :=
  spin_lock_acquire ;;
  let! entry := gets free_list_top in
  let! result :=
    (if negb (entry =? 0) then
       let! next := load_mem64 entry in
       modify (set_free_list_top next) ;;
       ret entry
     else
       let! idx := gets next_unallocated_idx in
       if idx <? MAX_ALLOCATEABLE_PAGES then
         modify (set_next_unallocated_idx (add64 idx 1)) ;;
         ret (pool_page idx)
       else ret 0) in
  spin_lock_release ;;
  ret result.

Definition deallocate_page (page : Z) : M unit :=
  if page =? 0 then ret tt
  else
    spin_lock_acquire ;;
    let! top := gets free_list_top in
    store_mem64 page top ;;
    modify (set_free_list_top page) ;;
    spin_lock_release.

(** ** What clients may rely on *)

Definition is_pool_page (p : Z) : Prop :=
  exists i, 0 <= i < MAX_ALLOCATEABLE_PAGES /\ p = pool_page i.

(** Only the allocator's variables and memory differ. *)
Definition with_alloc (top idx : Z) (m : mem_t) (s : State) : State :=
  set_mem m (set_next_unallocated_idx idx (set_free_list_top top s)).

(** The pages outside [own] that the allocator may hold in its free list are
    untouched, and so are its variables. *)
Definition alloc_untouched (own : gset Z) (s s' : State) : Prop :=
  free_list_top s' = free_list_top s /\
  next_unallocated_idx s' = next_unallocated_idx s /\
  allocator_lock s' = allocator_lock s /\
  forall p, is_pool_page p -> p ∉ own -> mem_agree p 8 (mem s) (mem s').

(** [ai own s]: in [s] the pages handed out and not yet returned are [own]. *)
Class AllocatorContract (ai : gset Z -> State -> Prop) : Prop := {
  ai_pool_page own s p : ai own s -> p ∈ own -> is_pool_page p;
  ai_frame own s s' : ai own s -> alloc_untouched own s s' -> ai own s';
  ai_allocate own s : ai own s ->
    wp no_panic allocate_page (fun p s' =>
      (p = 0 /\ s' = s /\ forall q, is_pool_page q -> q ∈ own) \/
      ((p ∉ own) /\ is_pool_page p /\ ai ({[p]} ∪ own) s' /\
       (exists top idx, s' = with_alloc top idx (mem s) s))) s;
  ai_deallocate own s p : ai own s -> p ∈ own ->
    wp no_panic (deallocate_page p) (fun _ s' =>
      ai (own ∖ {[p]}) s' /\
      (exists m, s' = with_alloc p (next_unallocated_idx s) m s /\
        forall a n, a + n <= p \/ p + 8 <= a -> mem_agree a n (mem s) m)) s }.

(** ** The representation *)

(** The free list as linked through memory: [l] is the list of pages met from
    [top], the first word of each being the next pointer. *)
Fixpoint free_chain (m : mem_t) (top : Z) (l : list Z) : Prop :=
  match l with
  | [] => top = 0
  | p :: l' => top = p /\ free_chain m (load64 m p) l'
  end.

Definition alloc_rep (own : gset Z) (fl : list Z) (s : State) : Prop :=
  allocator_lock s = false /\
  0 <= next_unallocated_idx s <= MAX_ALLOCATEABLE_PAGES /\
  free_chain (mem s) (free_list_top s) fl /\
  NoDup fl /\
  (forall p, p ∈ fl -> p ∉ own) /\
  (forall p, p ∈ fl \/ p ∈ own <->
     exists i, 0 <= i < next_unallocated_idx s /\ p = pool_page i).

Definition alloc_inv (own : gset Z) (s : State) : Prop := exists fl, alloc_rep own fl s.

(** ** Reference: the allocator as a stack of free pages above a fresh index *)

Record AbsAlloc := mkAbsAlloc { abs_free : list Z; abs_next : Z }.

Definition abs_allocate (a : AbsAlloc) : option Z * AbsAlloc :=
  match abs_free a with
  | p :: l => (Some p, mkAbsAlloc l (abs_next a))
  | [] => if decide (abs_next a < MAX_ALLOCATEABLE_PAGES)
          then (Some (pool_page (abs_next a)), mkAbsAlloc [] (abs_next a + 1))
          else (None, a)
  end.

Definition abs_deallocate (p : Z) (a : AbsAlloc) : AbsAlloc :=
  mkAbsAlloc (p :: abs_free a) (abs_next a).

(** The state refines the abstract allocator. *)
Definition alloc_refines (own : gset Z) (a : AbsAlloc) (s : State) : Prop :=
  alloc_rep own (abs_free a) s /\ next_unallocated_idx s = abs_next a.

(** ** The pool *)

Context {plat_ok : PlatformOk}.

Lemma pool_page_eq i : pool_page i = page_pool_addr + 4096 * i.
Proof. done. Qed.

Lemma pool_page_inj i j : pool_page i = pool_page j -> i = j.
Proof. rewrite !pool_page_eq. lia. Qed.

Lemma is_pool_page_bounds p : is_pool_page p ->
  p mod 4096 = 0 /\ RAM_START <= p /\ p + 4096 <= HYPERVISOR_END /\
  page_pool_addr <= p /\ p + 4096 <= page_pool_addr + 4096 * MAX_ALLOCATEABLE_PAGES.
Proof.
  intros (i & Hi & ->). rewrite pool_page_eq. pose proof pool_aligned. pose proof pool_in_image.
  split_and!; [|lia..]. rewrite Z.mul_comm, Z.mod_add by lia. done.
Qed.

Lemma is_pool_page_nonzero p : is_pool_page p -> p <> 0.
Proof. intros H%is_pool_page_bounds. unfold RAM_START in H. lia. Qed.

(** Distinct pages do not overlap. *)
Lemma is_pool_page_disjoint p q :
  is_pool_page p -> is_pool_page q -> p <> q -> p + 4096 <= q \/ q + 4096 <= p.
Proof.
  intros (i & Hi & ->) (j & Hj & ->) Hne. rewrite !pool_page_eq in *. lia.
Qed.

(** ** The free list *)

Lemma free_chain_agree m m' top l :
  free_chain m top l -> (forall p, p ∈ l -> mem_agree p 8 m m') -> free_chain m' top l.
Proof.
  revert top. induction l as [|p l IH]; intros top; simpl; [done|].
  intros [-> Hc] Hag. split; [done|].
  rewrite <- (load64_agree m m' p) by (apply Hag; set_solver). apply IH; [done|].
  intros q Hq. apply Hag. set_solver.
Qed.

Lemma alloc_rep_pool own fl s p :
  alloc_rep own fl s -> p ∈ fl \/ p ∈ own -> is_pool_page p.
Proof.
  intros (_ & Hn & _ & _ & _ & Hall) Hp. apply Hall in Hp as (i & Hi & ->).
  exists i. split; [lia|done].
Qed.

Lemma alloc_rep_frame own fl s s' :
  alloc_rep own fl s -> alloc_untouched own s s' -> alloc_rep own fl s'.
Proof.
  intros Hrep (Ht & Hi & Hl & Hm). pose proof (alloc_rep_pool own fl s) as Hpool.
  destruct Hrep as (H1 & H2 & H3 & H4 & H5 & H6).
  unfold alloc_rep. rewrite Ht, Hi, Hl. do 2 (split; [done|]). split; [|done].
  eapply free_chain_agree; [done|]. intros p Hp. apply Hm; [|by apply H5].
  eapply Hpool; [done|by left].
Qed.

(** ** The code refines the stack-and-index reference *)

(** Unfold a run of the allocator on an explicit state. *)
Ltac alloc_run :=
  unfold allocate_page, deallocate_page, bind, spin_lock_acquire, gets, modify,
    load_mem64, store_mem64, spin_lock_release, ret; simpl.

(** The representation after the page at the bump index has been taken. *)
Lemma alloc_rep_bump own s n :
  alloc_rep own [] s -> next_unallocated_idx s = n -> n < MAX_ALLOCATEABLE_PAGES ->
  (pool_page n ∉ own) /\
  alloc_rep ({[pool_page n]} ∪ own) [] (with_alloc 0 (n + 1) (mem s) s).
Proof.
  intros (Hlk & Hidx & Hch & Hnd & Hdis & Hall) Hn Hlt. simpl in Hch. split.
  - intros Hin. destruct (proj1 (Hall (pool_page n)) (or_intror Hin)) as (j & Hj & Heq).
    apply pool_page_inj in Heq. lia.
  - split; [done|]. split; [simpl; lia|]. do 2 (split; [done|]). split; [set_solver|].
    intros q. simpl. rewrite elem_of_union, elem_of_singleton. split.
    + intros [Hq|[->|Hq]]; [set_solver|by exists n; split; [lia|]|].
      destruct (proj1 (Hall q) (or_intror Hq)) as (j & Hj & ->). exists j. split; [lia|done].
    + intros (j & Hj & ->). destruct (decide (j = n)) as [->|]; [by right; left|].
      destruct (proj2 (Hall (pool_page j))) as [Hq|Hq]; [|set_solver|by right; right].
      exists j. split; [lia|done].
Qed.

(** The representation after the top of the free list has been taken. *)
Lemma alloc_rep_pop own p fl s :
  alloc_rep own (p :: fl) s ->
  free_list_top s = p /\ (p ∉ own) /\ is_pool_page p /\
  alloc_rep ({[p]} ∪ own) fl
    (with_alloc (load64 (mem s) p) (next_unallocated_idx s) (mem s) s).
Proof.
  intros Hrep. assert (is_pool_page p) as Hp by (eapply alloc_rep_pool; [done|left; left]).
  destruct Hrep as (Hlk & Hidx & [-> Hch] & Hnd & Hdis & Hall).
  apply NoDup_cons in Hnd as [Hnp Hnd].
  split; [done|]. split; [apply Hdis; left|]. split; [done|].
  split; [done|]. split; [done|]. do 2 (split; [done|]). split.
  - intros q Hq. rewrite not_elem_of_union, not_elem_of_singleton. split; [by intros ->|].
    apply Hdis. by right.
  - intros q. simpl. rewrite <- Hall, elem_of_cons. set_solver.
Qed.

Lemma allocate_page_refines own a s :
  alloc_refines own a s ->
  match abs_allocate a with
  | (Some p, a') => exists top idx,
      allocate_page s = Ok p (with_alloc top idx (mem s) s) /\
      (p ∉ own) /\ is_pool_page p /\
      alloc_refines ({[p]} ∪ own) a' (with_alloc top idx (mem s) s)
  | (None, a') => allocate_page s = Ok 0 s /\ a' = a /\ forall q, is_pool_page q -> q ∈ own
  end.
Proof.
  destruct a as [[|p fl] n]; intros [Hrep Hn]; unfold abs_allocate; simpl in *.
  - case_decide as Hlt.
    + destruct (alloc_rep_bump _ _ _ Hrep Hn Hlt) as [Hown Hrep'].
      exists 0, (n + 1). split; [|split; [done|split; [|by split]]].
      * destruct Hrep as (Hlk & Hidx & Hch & _). destruct s; simpl in *; subst. alloc_run.
        rewrite (proj2 (Z.ltb_lt _ _) Hlt). unfold add64. rewrite u64_id; [done|].
        unfold MAX_ALLOCATEABLE_PAGES in *; lia.
      * destruct Hrep as (_ & ? & _). exists n. split; [lia|done].
    + destruct Hrep as (Hlk & Hidx & Hch & _ & _ & Hall). split; [|split; [done|]].
      * destruct s; simpl in *; subst. alloc_run. by rewrite (proj2 (Z.ltb_ge _ _)) by lia.
      * intros q (j & Hj & ->).
        destruct (proj2 (Hall (pool_page j))) as [Hq|Hq]; [|set_solver|done].
        exists j. split; [lia|done].
  - destruct (alloc_rep_pop _ _ _ _ Hrep) as (Htop & Hown & Hp & Hrep').
    exists (load64 (mem s) p), n. rewrite Hn in Hrep'. split; [|by split_and!].
    destruct Hrep as (Hlk & _). destruct s; simpl in *; subst. alloc_run.
    by rewrite (proj2 (Z.eqb_neq _ _) (is_pool_page_nonzero _ Hp)).
Qed.

Lemma deallocate_page_refines own a s p :
  alloc_refines own a s -> p ∈ own ->
  exists m, deallocate_page p s = Ok tt (with_alloc p (next_unallocated_idx s) m s) /\
    m = store64 (mem s) p (free_list_top s) /\
    alloc_refines (own ∖ {[p]}) (abs_deallocate p a)
      (with_alloc p (next_unallocated_idx s) m s).
Proof.
  destruct a as [fl n]. intros [Hrep Hn] Hown. simpl in *.
  pose proof (fun q => alloc_rep_pool own fl s q Hrep) as Hpool.
  assert (is_pool_page p) as Hp by (by apply Hpool; right).
  destruct Hrep as (Hlk & Hidx & Hch & Hnd & Hdis & Hall).
  eexists. split; [|split; [done|]].
  { destruct s; simpl in *; subst. alloc_run.
    by rewrite (proj2 (Z.eqb_neq _ _) (is_pool_page_nonzero _ Hp)). }
  assert (p ∉ fl) as Hpfl by (intros Hin; by apply (Hdis p)).
  split; [|done]. simpl. split; [done|]. split; [done|]. split.
  { simpl. split; [done|]. rewrite load64_store64_same.
    assert (u64 (free_list_top s) = free_list_top s) as ->.
    { apply u64_id. destruct fl as [|q fl]; simpl in Hch; [lia|].
      destruct Hch as [-> _]. destruct (is_pool_page_bounds q) as (_ & H1 & H2 & _).
      - apply Hpool. left. left.
      - unfold RAM_START, HYPERVISOR_END, GUEST_MEMORY_OFFSET, RAM_START in *. lia. }
    eapply free_chain_agree; [done|]. intros q Hq. apply store64_agree.
    destruct (is_pool_page_disjoint p q Hp) as [?|?]; [by apply Hpool; left|by intros ->|lia..]. }
  split; [by apply NoDup_cons|]. split.
  - intros q [->|Hq]%elem_of_cons; [set_solver|]. specialize (Hdis q Hq). set_solver.
  - intros q. simpl. rewrite <- Hall, elem_of_cons, elem_of_difference, elem_of_singleton.
    destruct (decide (q = p)); set_solver.
Qed.

(** The free-list allocator keeps the contract. *)
#[export] Instance alloc_inv_contract : AllocatorContract alloc_inv.
Proof.
  split.
  - intros own s p [fl Hrep] Hp. eapply alloc_rep_pool; [done|by right].
  - intros own s s' [fl Hrep] Hun. exists fl. by eapply alloc_rep_frame.
  - intros own s [fl Hrep]. apply wp_no_panic_iff.
    pose proof (allocate_page_refines own (mkAbsAlloc fl (next_unallocated_idx s)) s
      (conj Hrep eq_refl)) as H.
    destruct (abs_allocate _) as [[p|] a'].
    + destruct H as (top & idx & Hrun & Hp & Hpool & [Hrep' _]).
      exists p, (with_alloc top idx (mem s) s). split; [done|]. right.
      do 2 (split; [done|]). split; [by exists (abs_free a')|by exists top, idx].
    + destruct H as (Hrun & _ & Hfull). exists 0, s. split; [done|]. by left.
  - intros own s p [fl Hrep] Hp. apply wp_no_panic_iff.
    destruct (deallocate_page_refines own (mkAbsAlloc fl (next_unallocated_idx s)) s p
      (conj Hrep eq_refl) Hp) as (m & Hrun & -> & [Hrep' _]).
    eexists tt, _. split; [done|]. split; [by eexists|]. eexists. split; [done|].
    intros a n Ha. by apply store64_agree.
Qed.

(** ** Properties *)

(** A client's calls, and their results in order. *)
Inductive AllocOp := OpAllocate | OpDeallocate (page : Z).

Fixpoint run_ops (ops : list AllocOp) : M (list Z) :=
  match ops with
  | [] => ret []
  | OpAllocate :: ops' =>
      let! p := allocate_page in
      let! ps := run_ops ops' in
      ret (p :: ps)
  | OpDeallocate p :: ops' => deallocate_page p ;; run_ops ops'
  end.

(** The same calls on the reference; [None] when the client returns a page it
    does not hold.  Returning NULL is allowed. *)
Fixpoint abs_run (ops : list AllocOp) (own : gset Z) (a : AbsAlloc)
    : option (list Z * gset Z * AbsAlloc) :=
  match ops with
  | [] => Some ([], own, a)
  | OpAllocate :: ops' =>
      let (r, a') := abs_allocate a in
      let own' := match r with Some p => {[p]} ∪ own | None => own end in
      match abs_run ops' own' a' with
      | Some (ps, own'', a'') => Some (default 0 r :: ps, own'', a'')
      | None => None
      end
  | OpDeallocate p :: ops' =>
      if p =? 0 then abs_run ops' own a
      else if decide (p ∈ own) then abs_run ops' (own ∖ {[p]}) (abs_deallocate p a)
      else None
  end.

(** [C17] The page allocator implements its specification: for every sequence of
    calls in which a client returns only pages it holds, the pointers handed
    out by the free list and bump index in memory are those of the reference (a
    stack of free pages over a fresh index), and the representation still
    matches at the end. *)
Theorem allocator_refines ops own a s ps own' a' :
  alloc_refines own a s -> abs_run ops own a = Some (ps, own', a') ->
  exists s', run_ops ops s = Ok ps s' /\ alloc_refines own' a' s'.
Proof.
  revert own a s ps. induction ops as [|[|p] ops IH]; intros own a s ps Hs Habs; simpl in Habs.
  - injection Habs as <- <- <-. by exists s.
  - pose proof (allocate_page_refines _ _ _ Hs) as Hstep.
    destruct (abs_allocate a) as [[p|] a1].
    + destruct Hstep as (top & idx & Hrun & _ & _ & Hs1).
      destruct (abs_run ops _ a1) as [[[qs own2] a2]|] eqn:E; [|done]. injection Habs as <- <- <-.
      destruct (IH _ _ _ _ Hs1 E) as (s' & Hrest & Hs'). exists s'. split; [|done].
      simpl. erewrite bind_ok by exact Hrun. by erewrite bind_ok by exact Hrest.
    + destruct Hstep as (Hrun & -> & _).
      destruct (abs_run ops _ a) as [[[qs own2] a2]|] eqn:E; [|done]. injection Habs as <- <- <-.
      destruct (IH _ _ _ _ Hs E) as (s' & Hrest & Hs'). exists s'. split; [|done].
      simpl. erewrite bind_ok by exact Hrun. by erewrite bind_ok by exact Hrest.
  - destruct (Z.eqb_spec p 0) as [->|Hp].
    { destruct (IH _ _ _ _ Hs Habs) as (s' & Hrest & Hs'). by exists s'. }
    case_decide as Hown; [|done].
    destruct (deallocate_page_refines _ _ _ _ Hs Hown) as (m & Hrun & _ & Hs1).
    destruct (IH _ _ _ _ Hs1 Habs) as (s' & Hrest & Hs'). exists s'. split; [|done].
    simpl. by erewrite bind_ok by exact Hrun.
Qed.

(** [C18] What allocate_page hands out: NULL, with nothing changed, exactly when
    the caller already holds every page of the pool; otherwise an aligned page
    of the hypervisor's image that overlaps no page held, memory unchanged.  It
    never blocks on its lock. *)
Theorem allocate_page_fresh own s :
  alloc_inv own s ->
  exists p s', allocate_page s = Ok p s' /\ mem s' = mem s /\
    (p = 0 <-> forall q, is_pool_page q -> q ∈ own) /\
    (p = 0 -> s' = s) /\
    (p <> 0 -> alloc_inv ({[p]} ∪ own) s' /\ p mod PGSIZE = 0 /\
       RAM_START <= p /\ p + PGSIZE <= HYPERVISOR_END /\
       forall q, q ∈ own -> p + PGSIZE <= q \/ q + PGSIZE <= p).
Proof.
  intros Hs. pose proof (ai_allocate own s Hs) as H.
  apply wp_no_panic_iff in H as (p & s' & Hrun & H). exists p, s'. split; [done|].
  destruct H as [(-> & -> & Hfull)|(Hp & Hpool & Hai & top & idx & ->)]; [by split_and!|].
  pose proof (is_pool_page_nonzero _ Hpool) as Hne. pose proof (is_pool_page_bounds _ Hpool) as Hb.
  change PGSIZE with 4096. split; [done|]. split; [|split; [done|]].
  - split; [done|]. intros Hall. by destruct (Hp (Hall _ Hpool)).
  - intros _. split; [done|]. split; [apply Hb|]. split; [lia|]. split; [lia|].
    intros q Hq. apply is_pool_page_disjoint; [done|exact (ai_pool_page own s q Hs Hq)|intros Heq; subst; exact (Hp Hq)].
Qed.

End alloc.

(** The pool untouched, as at reset. *)
Lemma alloc_refines_reset : alloc_refines ∅ (mkAbsAlloc [] 0) sample_state.
Proof.
  split; [|reflexivity]. split_and!; try done; [constructor|].
  intros p. split; [intros [H|H]; [by apply elem_of_nil in H|by apply not_elem_of_empty in H]|].
  intros (i & Hi & _). simpl in Hi. lia.
Qed.

Lemma allocator_refines_witness :
  exists s', run_ops [OpAllocate; OpAllocate; OpDeallocate 0x80011000; OpAllocate; OpDeallocate 0] sample_state
    = Ok [0x80011000; 0x80012000; 0x80011000] s' /\
    alloc_refines {[0x80011000; 0x80012000]} (mkAbsAlloc [] 2) s'.
Proof.
  apply (allocator_refines _ ∅ (mkAbsAlloc [] 0) sample_state); [exact alloc_refines_reset|].
  vm_compute. reflexivity.
Defined.

Lemma allocate_page_fresh_witness :
  exists p s', allocate_page sample_state = Ok p s' /\ mem s' = ∅ /\
    (p = 0 <-> forall q, is_pool_page q -> q ∈ (∅ : gset Z)) /\
    (p = 0 -> s' = sample_state) /\
    (p <> 0 -> alloc_inv ({[p]} ∪ ∅) s' /\ p mod PGSIZE = 0 /\
       RAM_START <= p /\ p + PGSIZE <= HYPERVISOR_END /\
       forall q, q ∈ (∅ : gset Z) -> p + PGSIZE <= q \/ q + PGSIZE <= p).
Proof. apply (allocate_page_fresh ∅ sample_state). exists []. apply alloc_refines_reset. Defined.
