(* ===== verification/Instructions.v ===== *)
(** instructions.h, and the decoding of faulting loads and stores in vmem.c
    (parse_source_address, parse_destination_address, reset_upper_bits). *)
From S2P Require Import Prelude Machine Wp Print.

(** ** instructions.h *)

Definition EXTRACT_BITS (num lower count : Z) : Z :=
  Z.land (Z.shiftr num lower) (Z.shiftl 1 count - 1).
Definition EXTEND_SIGN (num from_bits : Z) : Z :=
  if nonzero (Z.land num (Z.shiftl 1 (from_bits - 1)))
  then u64 (num - Z.shiftl 1 from_bits) else num.

Record UnpackedInstruction := mkInstr {
  opcode : Z; rd : Z; funct3 : Z; rs1 : Z; rs2 : Z; funct7 : Z }.

Record UnpackedCompressedInstruction := mkCInstr {
  c_opcode : Z; c_rs2 : Z; c_rs1 : Z; c_funct4 : Z }.

(** A [PackedInstruction] is its 32-bit [numeric_value];
    [compressed_numeric_value] is the low half. *)
Definition compressed_numeric_value (packed : Z) : Z := u16 packed.

Definition dereference_instruction (ptr : Z) : M Z :=
  let! lo := load_mem16 ptr in
  if Z.land lo 3 =? 3 then
    let! hi := load_mem16 (ptr + 2) in
    ret (Z.lor lo (Z.shiftl hi 16))
  else ret lo.

Definition unpack_instruction (p : Z) : UnpackedInstruction :=
  mkInstr (EXTRACT_BITS p 0 7) (EXTRACT_BITS p 7 5) (EXTRACT_BITS p 12 3)
          (EXTRACT_BITS p 15 5) (EXTRACT_BITS p 20 5) (EXTRACT_BITS p 25 7).

Definition unpack_compressed_instruction (packed : Z) : UnpackedCompressedInstruction :=
  let p := compressed_numeric_value packed in
  mkCInstr (EXTRACT_BITS p 0 2) (EXTRACT_BITS p 2 5) (EXTRACT_BITS p 7 5) (EXTRACT_BITS p 12 4).

(** ** vmem.h, access widths *)

Inductive MemoryAccessWidth := MAW_8BIT | MAW_16BIT | MAW_32BIT | MAW_64BIT.

#[export] Instance MemoryAccessWidth_eq_dec : EqDecision MemoryAccessWidth.
Proof. solve_decision. Defined.

(** ** vmem.c: the operands of the faulting instruction *)

(** What the parsers return through their result and their out-parameters: the
    address is [base register + imm] (register 0 reads as zero). *)
Record AccessOperands := mkAccess {
  acc_base : Z; acc_imm : Z;
  acc_width : MemoryAccessWidth; acc_reg : Z; acc_pc_advance : Z; acc_signed : bool }.

Definition access_addr (regs : list Z) (a : AccessOperands) : Z :=
  u64 (xreg regs (acc_base a) + acc_imm a).

(** [EXTEND_SIGN((unsigned)(hi << 5) | lo, 12)] assigned to an [int]. *)
Definition imm12 (hi lo : Z) : Z := s32 (EXTEND_SIGN (Z.lor (Z.shiftl hi 5) lo) 12).

(** The quadrant-0 immediates of C.LW/C.SW and C.LD/C.SD. *)
Definition cl_imm (u : UnpackedCompressedInstruction) (shift_2_or_7 : Z) : Z :=
  let imm_6 := Z.land (Z.shiftr (c_rs2 u) 3) 1 in
  let imm_2_or_7 := Z.shiftr (c_rs2 u) 4 in
  let imm_5 := Z.land (c_funct4 u) 1 in
  let imm_4 := Z.shiftr (c_rs1 u) 4 in
  let imm_3_or_8 := Z.land (Z.shiftr (c_rs1 u) 3) 1 in
  Z.lor (Z.lor (Z.lor (Z.lor (Z.shiftl imm_5 5) (Z.shiftl imm_4 4)) (Z.shiftl imm_3_or_8 3))
    (Z.shiftl imm_2_or_7 shift_2_or_7)) (Z.shiftl imm_6 6).

(** The quadrant-2 immediates: the low [k] bits move up to bit 6. *)
Definition csp_imm (imm_unordered k : Z) : Z :=
  Z.lor (Z.shiftl (Z.shiftr imm_unordered k) k)
        (Z.shiftl (Z.land imm_unordered (Z.shiftl 1 k - 1)) 6).

Definition decode_source (packed : Z) : option AccessOperands :=
  if Z.land packed 3 =? 3 then
    let u := unpack_instruction packed in
    if opcode u =? 3 then
      let imm := imm12 (funct7 u) (rs2 u) in
      let acc w signed := Some (mkAccess (rs1 u) imm w (rd u) 4 signed) in
      match funct3 u with
      | 0 => acc MAW_8BIT true   | 4 => acc MAW_8BIT false
      | 1 => acc MAW_16BIT true  | 5 => acc MAW_16BIT false
      | 2 => acc MAW_32BIT true  | 6 => acc MAW_32BIT false
      | 3 => acc MAW_64BIT false
      | _ => None
      end
    else None
  else
    let u := unpack_compressed_instruction packed in
    let f3 := Z.shiftr (c_funct4 u) 1 in
    match c_opcode u with
    | 0 =>
        let reg1 := 8 + Z.land (c_rs2 u) 7 in
        let reg2 := 8 + Z.land (c_rs1 u) 7 in
        match f3 with
        | 2 => Some (mkAccess reg2 (cl_imm u 2) MAW_32BIT reg1 2 true)     (* C.LW *)
        | 3 => Some (mkAccess reg2 (cl_imm u 7) MAW_64BIT reg1 2 false)    (* C.LD *)
        | _ => None
        end
    | 2 =>
        let imm_unordered := c_rs2 u + Z.shiftl (Z.land (c_funct4 u) 1) 5 in
        match f3 with
        | 2 => Some (mkAccess 2 (csp_imm imm_unordered 2) MAW_32BIT (c_rs1 u) 2 false) (* C.LWSP *)
        | 3 => Some (mkAccess 2 (csp_imm imm_unordered 3) MAW_64BIT (c_rs1 u) 2 false) (* C.LDSP *)
        | _ => None
        end
    | _ => None
    end.

Definition decode_destination (packed : Z) : option AccessOperands :=
  if Z.land packed 3 =? 3 then
    let u := unpack_instruction packed in
    if opcode u =? 0x23 then
      let imm := imm12 (funct7 u) (rd u) in
      let acc w := Some (mkAccess (rs1 u) imm w (rs2 u) 4 false) in
      match funct3 u with
      | 0 => acc MAW_8BIT | 1 => acc MAW_16BIT | 2 => acc MAW_32BIT | 3 => acc MAW_64BIT
      | _ => None
      end
    else None
  else
    let u := unpack_compressed_instruction packed in
    let f3 := Z.shiftr (c_funct4 u) 1 in
    match c_opcode u with
    | 0 =>
        let reg1 := 8 + Z.land (c_rs2 u) 7 in
        let reg2 := 8 + Z.land (c_rs1 u) 7 in
        match f3 with
        | 6 => Some (mkAccess reg2 (cl_imm u 2) MAW_32BIT reg1 2 false)    (* C.SW *)
        | 7 => Some (mkAccess reg2 (cl_imm u 7) MAW_64BIT reg1 2 false)    (* C.SD *)
        | _ => None
        end
    | 2 =>
        let imm_unordered := c_rs1 u + Z.shiftl (Z.land (c_funct4 u) 1) 5 in
        match f3 with
        | 6 => Some (mkAccess 2 (csp_imm imm_unordered 2) MAW_32BIT (c_rs2 u) 2 false) (* C.SWSP *)
        | 7 => Some (mkAccess 2 (csp_imm imm_unordered 3) MAW_64BIT (c_rs2 u) 2 false) (* C.SDSP *)
        | _ => None
        end
    | _ => None
    end.

Section parse.
Context {plat : Platform}.

Definition print_field (nv : string * Z) : M unit :=
  print_string (Some nv.1) ;; print_addr nv.2.

(** The report printed before the panic of either parser. *)
Definition parse_failure {A} (what : string) (packed : Z) : M A :=
  (if Z.land packed 3 =? 3 then
     let u := unpack_instruction packed in
     for_each
       [(nl +:+ "Extract " +:+ what +:+ " address" +:+ nl +:+ "instruction = ", packed);
        (nl +:+ "opcode = ", opcode u); (nl +:+ "rd = ", rd u); (nl +:+ "funct3 = ", funct3 u);
        (nl +:+ "rs1 = ", rs1 u); (nl +:+ "rs2 = ", rs2 u); (nl +:+ "funct7 = ", funct7 u)]
       print_field
   else
     let u := unpack_compressed_instruction packed in
     for_each
       [(nl +:+ "Extract " +:+ what +:+ " address" +:+ nl +:+ "instruction = ",
          compressed_numeric_value packed);
        (nl +:+ "compressed opcode = ", c_opcode u); (nl +:+ "rs2 = ", c_rs2 u);
        (nl +:+ "rs1 = ", c_rs1 u); (nl +:+ "funct4 = ", c_funct4 u)]
       print_field) ;;
  panic.

(** The call sites pass every out-parameter. *)
Definition parse_source_address (instr_ptr : Z) : M AccessOperands :=
  let! packed := dereference_instruction instr_ptr in
  match decode_source packed with
  | Some a => ret a
  | None => parse_failure "source" packed
  end.

Definition parse_destination_address (instr_ptr : Z) : M AccessOperands :=
  let! packed := dereference_instruction instr_ptr in
  match decode_destination packed with
  | Some a => ret a
  | None => parse_failure "destination" packed
  end.

End parse.

(** The register value after [reset_upper_bits(&reg, width, is_signed)]. *)
Definition reset_upper_bits (reg : Z) (width : MemoryAccessWidth) (is_signed : bool) : Z :=
  match width with
  | MAW_8BIT => if is_signed then u64 (sext 8 reg) else u8 reg
  | MAW_16BIT => if is_signed then u64 (sext 16 reg) else u16 reg
  | MAW_32BIT => if is_signed then u64 (sext 32 reg) else u32 reg
  | MAW_64BIT => reg
  end.

(** ** Reference: the memory-access instructions of the instruction set *)

(** The integer loads and stores of RV64I and of its compressed extension, with
    their encodings in the RISC-V manual and what each accesses.  Floating-point
    and atomic accesses are not among them: the parsers of vmem.c know none. *)
Inductive LoadInstr :=
  | LOAD (w : MemoryAccessWidth) (zero_extend : bool) (rd rs1 imm : Z)
  | C_LW (rd' rs1' uimm : Z) | C_LD (rd' rs1' uimm : Z)
  | C_LWSP (rd uimm : Z) | C_LDSP (rd uimm : Z).

Inductive StoreInstr :=
  | STORE (w : MemoryAccessWidth) (rs2 rs1 imm : Z)
  | C_SW (rs2' rs1' uimm : Z) | C_SD (rs2' rs1' uimm : Z)
  | C_SWSP (rs2 uimm : Z) | C_SDSP (rs2 uimm : Z).

Definition width_code (w : MemoryAccessWidth) : Z :=
  match w with MAW_8BIT => 0 | MAW_16BIT => 1 | MAW_32BIT => 2 | MAW_64BIT => 3 end.

(** Bits [lo, lo + n) of [x] placed at bit [pos]. *)
Definition place (x lo n pos : Z) : Z := x / 2 ^ lo mod 2 ^ n * 2 ^ pos.

Definition encode_load (i : LoadInstr) : Z :=
  match i with
  | LOAD w z rd rs1 imm =>
      place imm 0 12 20 + rs1 * 2 ^ 15 + (width_code w + if z then 4 else 0) * 2 ^ 12
      + rd * 2 ^ 7 + 0x03
  | C_LW rd' rs1' u =>
      2 * 2 ^ 13 + place u 3 3 10 + (rs1' - 8) * 2 ^ 7 + place u 2 1 6 + place u 6 1 5
      + (rd' - 8) * 2 ^ 2
  | C_LD rd' rs1' u =>
      3 * 2 ^ 13 + place u 3 3 10 + (rs1' - 8) * 2 ^ 7 + place u 6 2 5 + (rd' - 8) * 2 ^ 2
  | C_LWSP rd u => 2 * 2 ^ 13 + place u 5 1 12 + rd * 2 ^ 7 + place u 2 3 4 + place u 6 2 2 + 2
  | C_LDSP rd u => 3 * 2 ^ 13 + place u 5 1 12 + rd * 2 ^ 7 + place u 3 2 5 + place u 6 3 2 + 2
  end.

Definition encode_store (i : StoreInstr) : Z :=
  match i with
  | STORE w rs2 rs1 imm =>
      place imm 5 7 25 + rs2 * 2 ^ 20 + rs1 * 2 ^ 15 + width_code w * 2 ^ 12 + place imm 0 5 7
      + 0x23
  | C_SW rs2' rs1' u =>
      6 * 2 ^ 13 + place u 3 3 10 + (rs1' - 8) * 2 ^ 7 + place u 2 1 6 + place u 6 1 5
      + (rs2' - 8) * 2 ^ 2
  | C_SD rs2' rs1' u =>
      7 * 2 ^ 13 + place u 3 3 10 + (rs1' - 8) * 2 ^ 7 + place u 6 2 5 + (rs2' - 8) * 2 ^ 2
  | C_SWSP rs2 u => 6 * 2 ^ 13 + place u 2 4 9 + place u 6 2 7 + rs2 * 2 ^ 2 + 2
  | C_SDSP rs2 u => 7 * 2 ^ 13 + place u 3 3 10 + place u 6 3 7 + rs2 * 2 ^ 2 + 2
  end.

Definition reg_ok (r : Z) : bool := (0 <=? r) && (r <? 32).
Definition creg_ok (r : Z) : bool := (8 <=? r) && (r <? 16).
(** [u] is an unsigned multiple of [k] below [n]. *)
Definition uimm_ok (u k n : Z) : bool := (0 <=? u) && (u <? n) && (u mod k =? 0).

Definition load_wf (i : LoadInstr) : bool :=
  match i with
  | LOAD w z rd rs1 imm =>
      reg_ok rd && reg_ok rs1 && (-2048 <=? imm) && (imm <? 2048)
      && negb (bool_decide (w = MAW_64BIT) && z)
  | C_LW rd rs1 u => creg_ok rd && creg_ok rs1 && uimm_ok u 4 128
  | C_LD rd rs1 u => creg_ok rd && creg_ok rs1 && uimm_ok u 8 256
  | C_LWSP rd u => reg_ok rd && uimm_ok u 4 256
  | C_LDSP rd u => reg_ok rd && uimm_ok u 8 512
  end.

Definition store_wf (i : StoreInstr) : bool :=
  match i with
  | STORE w rs2 rs1 imm => reg_ok rs2 && reg_ok rs1 && (-2048 <=? imm) && (imm <? 2048)
  | C_SW rs2 rs1 u => creg_ok rs2 && creg_ok rs1 && uimm_ok u 4 128
  | C_SD rs2 rs1 u => creg_ok rs2 && creg_ok rs1 && uimm_ok u 8 256
  | C_SWSP rs2 u => reg_ok rs2 && uimm_ok u 4 256
  | C_SDSP rs2 u => reg_ok rs2 && uimm_ok u 8 512
  end.

(** The operands of an instruction.  The manual sign-extends the word loaded
    by C.LWSP; [lwsp_signed] is what the decoder makes of it. *)
Definition load_operands (lwsp_signed : bool) (i : LoadInstr) : AccessOperands :=
  match i with
  | LOAD w z rd rs1 imm =>
      mkAccess rs1 imm w rd 4 (negb z && negb (bool_decide (w = MAW_64BIT)))
  | C_LW rd rs1 u => mkAccess rs1 u MAW_32BIT rd 2 true
  | C_LD rd rs1 u => mkAccess rs1 u MAW_64BIT rd 2 false
  | C_LWSP rd u => mkAccess 2 u MAW_32BIT rd 2 lwsp_signed
  | C_LDSP rd u => mkAccess 2 u MAW_64BIT rd 2 false
  end.

Definition store_operands (i : StoreInstr) : AccessOperands :=
  match i with
  | STORE w rs2 rs1 imm => mkAccess rs1 imm w rs2 4 false
  | C_SW rs2 rs1 u => mkAccess rs1 u MAW_32BIT rs2 2 false
  | C_SD rs2 rs1 u => mkAccess rs1 u MAW_64BIT rs2 2 false
  | C_SWSP rs2 u => mkAccess 2 u MAW_32BIT rs2 2 false
  | C_SDSP rs2 u => mkAccess 2 u MAW_64BIT rs2 2 false
  end.

(** ** Fields *)

#[export] Instance AccessOperands_eq_dec : EqDecision AccessOperands.
Proof. solve_decision. Defined.

Lemma EXTRACT_BITS_arith p lo n :
  0 <= lo -> 0 <= n -> EXTRACT_BITS p lo n = p / 2 ^ lo mod 2 ^ n.
Proof.
  intros. unfold EXTRACT_BITS. rewrite Z.shiftr_div_pow2, Z.shiftl_1_l by done.
  by apply land_low.
Qed.

Lemma land3_arith p : Z.land p 3 = p mod 4.
Proof. change 3 with (2 ^ 2 - 1). by apply land_low. Qed.

(** Every five-bit field names one of the 32 registers. *)
Lemma unpack_instruction_regs p :
  let u := unpack_instruction p in
  0 <= rd u < 32 /\ 0 <= rs1 u < 32 /\ 0 <= rs2 u < 32.
Proof. simpl. rewrite !EXTRACT_BITS_arith by lia. change (2 ^ 5) with 32.
  split_and!; apply Z.mod_pos_bound; lia. Qed.

(** The immediate of the I and S formats is sign-extended. *)
Lemma imm12_spec hi lo :
  0 <= hi < 128 -> 0 <= lo < 32 -> imm12 hi lo = sext 12 (hi * 32 + lo).
Proof.
  intros Hhi Hlo. unfold imm12. rewrite Z.shiftl_mul_pow2 by lia.
  rewrite lor_disjoint_add by lia. change (2 ^ 5) with 32.
  set (x := hi * 32 + lo). assert (0 <= x < 4096) as Hx by lia. clearbody x.
  unfold EXTEND_SIGN. change (12 - 1) with 11. rewrite !Z.shiftl_1_l.
  rewrite land_bit_nonzero by lia.
  assert (Z.testbit x 11 = negb (x <? 2048)) as ->.
  { rewrite Z.testbit_eqb by lia. change (2 ^ 11) with 2048.
    destruct (Z.ltb_spec x 2048); simpl; apply Z.eqb_neq || apply Z.eqb_eq;
      Z.div_mod_to_equations; lia. }
  unfold s32, sext, u64.
  change (2 ^ 12) with 4096. change (2 ^ (12 - 1)) with 2048. change (2 ^ 32) with 4294967296.
  change (2 ^ (32 - 1)) with 2147483648. change (2 ^ 64) with 18446744073709551616.
  rewrite (Z.mod_small x 4096) by lia.
  destruct (Z.ltb_spec x 2048); simpl.
  - rewrite Z.mod_small by lia. destruct (Z.ltb_spec x 2147483648); lia.
  - replace ((x - 4096) mod 18446744073709551616) with (x - 4096 + 18446744073709551616)
      by (Z.div_mod_to_equations; lia).
    replace ((x - 4096 + 18446744073709551616) mod 4294967296) with (x - 4096 + 4294967296)
      by (Z.div_mod_to_equations; lia).
    destruct (Z.ltb_spec (x - 4096 + 4294967296) 2147483648); lia.
Qed.

Lemma sext12_id imm : -2048 <= imm < 2048 -> sext 12 (imm mod 4096) = imm.
Proof.
  intros. unfold sext. change (2 ^ 12) with 4096. change (2 ^ (12 - 1)) with 2048.
  rewrite Z.mod_mod by lia. destruct (Z.ltb_spec (imm mod 4096) 2048);
    Z.div_mod_to_equations; lia.
Qed.

(** The six fields of a word assembled from them. *)
Lemma unpack_assembled op d f a b g :
  0 <= op < 128 -> 0 <= d < 32 -> 0 <= f < 8 -> 0 <= a < 32 -> 0 <= b < 32 -> 0 <= g < 128 ->
  unpack_instruction (g * 2 ^ 25 + b * 2 ^ 20 + a * 2 ^ 15 + f * 2 ^ 12 + d * 2 ^ 7 + op)
  = mkInstr op d f a b g.
Proof.
  intros. unfold unpack_instruction. rewrite !EXTRACT_BITS_arith by lia.
  change (2 ^ 0) with 1. change (2 ^ 3) with 8. change (2 ^ 5) with 32.
  change (2 ^ 7) with 128. change (2 ^ 12) with 4096. change (2 ^ 15) with 32768.
  change (2 ^ 20) with 1048576. change (2 ^ 25) with 33554432.
  f_equal; Z.div_mod_to_equations; lia.
Qed.

(** ** Decoding inverts encoding *)

Lemma decode_source_full op d f a b g :
  op = 3 -> 0 <= d < 32 -> 0 <= f < 8 -> 0 <= a < 32 -> 0 <= b < 32 -> 0 <= g < 128 ->
  decode_source (g * 2 ^ 25 + b * 2 ^ 20 + a * 2 ^ 15 + f * 2 ^ 12 + d * 2 ^ 7 + op) =
    (let acc w signed := Some (mkAccess a (sext 12 (g * 32 + b)) w d 4 signed) in
     match f with
     | 0 => acc MAW_8BIT true   | 4 => acc MAW_8BIT false
     | 1 => acc MAW_16BIT true  | 5 => acc MAW_16BIT false
     | 2 => acc MAW_32BIT true  | 6 => acc MAW_32BIT false
     | 3 => acc MAW_64BIT false
     | _ => None
     end).
Proof.
  intros -> ?????. unfold decode_source. rewrite land3_arith, unpack_assembled by lia.
  rewrite (proj2 (Z.eqb_eq _ 3)) by (Z.div_mod_to_equations; lia).
  simpl opcode. rewrite Z.eqb_refl. cbn [funct7 rs2 rs1 rd funct3]. by rewrite imm12_spec by lia.
Qed.

Lemma decode_destination_full op d f a b g :
  op = 0x23 -> 0 <= d < 32 -> 0 <= f < 8 -> 0 <= a < 32 -> 0 <= b < 32 -> 0 <= g < 128 ->
  decode_destination (g * 2 ^ 25 + b * 2 ^ 20 + a * 2 ^ 15 + f * 2 ^ 12 + d * 2 ^ 7 + op) =
    (let acc w := Some (mkAccess a (sext 12 (g * 32 + d)) w b 4 false) in
     match f with
     | 0 => acc MAW_8BIT | 1 => acc MAW_16BIT | 2 => acc MAW_32BIT | 3 => acc MAW_64BIT
     | _ => None
     end).
Proof.
  intros -> ?????. unfold decode_destination. rewrite land3_arith, unpack_assembled by lia.
  rewrite (proj2 (Z.eqb_eq _ 3)) by (Z.div_mod_to_equations; lia).
  simpl opcode. rewrite Z.eqb_refl. cbn [funct7 rs2 rs1 rd funct3]. by rewrite imm12_spec by lia.
Qed.

Lemma andb_and (a b : bool) : a && b = true -> a = true /\ b = true.
Proof. apply andb_true_iff. Qed.

Ltac wf_bounds :=
  repeat match goal with
  | H : (_ && _) = true |- _ => apply andb_and in H; destruct H
  | H : reg_ok _ = true |- _ => unfold reg_ok in H
  | H : (_ <=? _) = true |- _ => apply Z.leb_le in H
  | H : (_ <? _) = true |- _ => apply Z.ltb_lt in H
  end.

Lemma decode_source_load w z d a imm :
  load_wf (LOAD w z d a imm) = true ->
  decode_source (encode_load (LOAD w z d a imm)) = Some (load_operands false (LOAD w z d a imm)).
Proof.
  intros Hwf. cbn [load_wf] in Hwf. wf_bounds.
  cbn [encode_load]. unfold place. change (2 ^ 0) with 1. rewrite Z.div_1_r.
  set (v := imm mod 2 ^ 12).
  replace (v * 2 ^ 20) with (v / 32 * 2 ^ 25 + v mod 32 * 2 ^ 20)
    by (change (2 ^ 25) with 33554432; change (2 ^ 20) with 1048576; Z.div_mod_to_equations; lia).
  assert (0 <= v < 4096) as Hv by (apply Z.mod_pos_bound; lia).
  assert (0 <= width_code w + (if z then 4 else 0) < 8) by (destruct w, z; simpl; lia).
  rewrite decode_source_full;
    [|done|lia|lia|lia|apply Z.mod_pos_bound; lia|Z.div_mod_to_equations; lia].
  replace (v / 32 * 32 + v mod 32) with v by (Z.div_mod_to_equations; lia).
  unfold v. change (2 ^ 12) with 4096. rewrite sext12_id by lia.
  destruct w, z; simpl in *; done.
Qed.

Lemma decode_destination_store w b a imm :
  store_wf (STORE w b a imm) = true ->
  decode_destination (encode_store (STORE w b a imm)) = Some (store_operands (STORE w b a imm)).
Proof.
  intros Hwf. cbn [store_wf] in Hwf. wf_bounds.
  cbn [encode_store]. unfold place. change (2 ^ 0) with 1. rewrite Z.div_1_r.
  assert (0 <= width_code w < 8) by (destruct w; simpl; lia).
  rewrite decode_destination_full;
    [|done|apply Z.mod_pos_bound; lia|lia|lia|lia|apply Z.mod_pos_bound; lia].
  replace (imm / 2 ^ 5 mod 2 ^ 7 * 32 + imm mod 2 ^ 5) with (imm mod 4096).
  2: { change (2 ^ 5) with 32. change (2 ^ 7) with 128. Z.div_mod_to_equations; lia. }
  rewrite sext12_id by lia. destruct w; done.
Qed.

(** The compressed forms have few operands: each is checked by evaluation. *)
Definition check2 (P : Z -> Z -> bool) (n1 n2 : Z) : bool :=
  forallb (fun a => forallb (P a) (seqZ 0 n2)) (seqZ 0 n1).
Definition check3 (P : Z -> Z -> Z -> bool) (n1 n2 n3 : Z) : bool :=
  forallb (fun a => check2 (P a) n2 n3) (seqZ 0 n1).

Lemma forallb_seqZ (P : Z -> bool) n : forallb P (seqZ 0 n) = true ->
  forall x, 0 <= x < n -> P x = true.
Proof. intros H x Hx. eapply forallb_forall; [done|]. apply list_elem_of_In, elem_of_seqZ. lia. Qed.

Lemma check2_spec P n1 n2 : check2 P n1 n2 = true ->
  forall a b, 0 <= a < n1 -> 0 <= b < n2 -> P a b = true.
Proof. intros H a b Ha Hb. eapply forallb_seqZ in H; [|done]. by eapply forallb_seqZ in H. Qed.
Lemma check3_spec P n1 n2 n3 : check3 P n1 n2 n3 = true ->
  forall a b c, 0 <= a < n1 -> 0 <= b < n2 -> 0 <= c < n3 -> P a b c = true.
Proof. intros H a b c Ha. eapply forallb_seqZ in H; [|done]. by eapply check2_spec. Qed.

Definition access_eqb (a b : AccessOperands) : bool :=
  (acc_base a =? acc_base b) && (acc_imm a =? acc_imm b)
  && (width_code (acc_width a) =? width_code (acc_width b)) && (acc_reg a =? acc_reg b)
  && (acc_pc_advance a =? acc_pc_advance b) && Bool.eqb (acc_signed a) (acc_signed b).
Definition decodes_to (o : option AccessOperands) (a : AccessOperands) : bool :=
  match o with Some b => access_eqb b a | None => false end.

Lemma decodes_to_eq o a : decodes_to o a = true -> o = Some a.
Proof.
  destruct o as [[]|], a; [|done]. simpl. unfold access_eqb; simpl.
  rewrite !andb_true_iff, !Z.eqb_eq, eqb_true_iff. intros (((((-> & ->) & Hw) & ->) & ->) & ->).
  by destruct acc_width0, acc_width1.
Qed.

Definition load_decodes (i : LoadInstr) : bool :=
  implb (load_wf i) (decodes_to (decode_source (encode_load i)) (load_operands false i)).
Definition store_decodes (i : StoreInstr) : bool :=
  implb (store_wf i) (decodes_to (decode_destination (encode_store i)) (store_operands i)).

Lemma load_compressed_checked :
  check3 (fun d a k => load_decodes (C_LW (8 + d) (8 + a) (4 * k))) 8 8 32
  && check3 (fun d a k => load_decodes (C_LD (8 + d) (8 + a) (8 * k))) 8 8 32
  && check2 (fun d k => load_decodes (C_LWSP d (4 * k))) 32 64
  && check2 (fun d k => load_decodes (C_LDSP d (8 * k))) 32 64 = true.
Proof. by vm_compute. Qed.

Lemma store_compressed_checked :
  check3 (fun d a k => store_decodes (C_SW (8 + d) (8 + a) (4 * k))) 8 8 32
  && check3 (fun d a k => store_decodes (C_SD (8 + d) (8 + a) (8 * k))) 8 8 32
  && check2 (fun d k => store_decodes (C_SWSP d (4 * k))) 32 64
  && check2 (fun d k => store_decodes (C_SDSP d (8 * k))) 32 64 = true.
Proof. by vm_compute. Qed.

Lemma uimm_split u k n : 0 < k -> uimm_ok u k n = true -> exists j, u = k * j /\ 0 <= k * j < n.
Proof.
  unfold uimm_ok. intros Hk H. wf_bounds.
  match goal with H : (_ =? _) = true |- _ => apply Z.eqb_eq in H end.
  assert (u = k * (u / k)) as Hu by (apply Z.div_exact; lia).
  exists (u / k). rewrite <- Hu. lia.
Qed.
Lemma creg_split r : creg_ok r = true -> exists j, r = 8 + j /\ 0 <= j < 8.
Proof. unfold creg_ok. intros H. wf_bounds. exists (r - 8). lia. Qed.
Lemma reg_ok_bounds r : reg_ok r = true -> 0 <= r < 32.
Proof. unfold reg_ok. intros H. wf_bounds. lia. Qed.

Lemma load_decodes_elim i : load_decodes i = true -> load_wf i = true ->
  decode_source (encode_load i) = Some (load_operands false i).
Proof. unfold load_decodes. intros H Hwf. rewrite Hwf in H. by apply decodes_to_eq in H. Qed.
Lemma store_decodes_elim i : store_decodes i = true -> store_wf i = true ->
  decode_destination (encode_store i) = Some (store_operands i).
Proof. unfold store_decodes. intros H Hwf. rewrite Hwf in H. by apply decodes_to_eq in H. Qed.

(** The three shapes of compressed operands, read off a well-formedness test. *)
Ltac compressed_case k Hwf :=
  cbn [load_wf store_wf] in Hwf; rewrite ?andb_true_iff in Hwf; destruct_and? Hwf;
  repeat match goal with
  | H : uimm_ok _ k _ = true |- _ => apply uimm_split in H as (? & -> & ?); [|lia]
  | H : creg_ok _ = true |- _ => apply creg_split in H as (? & -> & ?)
  | H : reg_ok _ = true |- _ => apply reg_ok_bounds in H
  end.

Lemma decode_source_encode i :
  load_wf i = true -> decode_source (encode_load i) = Some (load_operands false i).
Proof.
  intros Hwf. pose proof load_compressed_checked as Hc.
  apply andb_and in Hc as [Hc H4]. apply andb_and in Hc as [Hc H3]. apply andb_and in Hc as [H1 H2].
  destruct i as [w z d a imm|d a u|d a u|d u|d u]; [exact (decode_source_load _ _ _ _ _ Hwf)|..];
    (apply load_decodes_elim; [|exact Hwf]).
  - compressed_case 4 Hwf. apply (check3_spec _ _ _ _ H1); lia.
  - compressed_case 8 Hwf. apply (check3_spec _ _ _ _ H2); lia.
  - compressed_case 4 Hwf. apply (check2_spec _ _ _ H3); lia.
  - compressed_case 8 Hwf. apply (check2_spec _ _ _ H4); lia.
Qed.

Lemma decode_destination_encode i :
  store_wf i = true -> decode_destination (encode_store i) = Some (store_operands i).
Proof.
  intros Hwf. pose proof store_compressed_checked as Hc.
  apply andb_and in Hc as [Hc H4]. apply andb_and in Hc as [Hc H3]. apply andb_and in Hc as [H1 H2].
  destruct i as [w d a imm|d a u|d a u|d u|d u]; [exact (decode_destination_store _ _ _ _ Hwf)|..];
    (apply store_decodes_elim; [|exact Hwf]).
  - compressed_case 4 Hwf. apply (check3_spec _ _ _ _ H1); lia.
  - compressed_case 8 Hwf. apply (check3_spec _ _ _ _ H2); lia.
  - compressed_case 4 Hwf. apply (check2_spec _ _ _ H3); lia.
  - compressed_case 8 Hwf. apply (check2_spec _ _ _ H4); lia.
Qed.

(** ** Properties *)

(** The operands with the value loaded zero-extended. *)
Definition zero_extended (a : AccessOperands) : AccessOperands :=
  mkAccess (acc_base a) (acc_imm a) (acc_width a) (acc_reg a) (acc_pc_advance a) false.

(** [C28] Every integer load of RV64I and its compressed extension is decoded to
    its operands in the manual, that is to its base register, displacement,
    width, destination, length and extension, with one exception: C.LWSP is
    decoded to the same operands but for the extension, which is to zeros. *)
Theorem decode_source_correct i :
  load_wf i = true ->
  decode_source (encode_load i) =
    Some (match i with
          | C_LWSP _ _ => zero_extended (load_operands true i)
          | _ => load_operands true i
          end).
Proof. intros Hwf. rewrite decode_source_encode by done. by destruct i. Qed.

Lemma decode_source_correct_witness :
  decode_source (encode_load (C_LWSP 10 16)) = Some (mkAccess 2 16 MAW_32BIT 10 2 false) /\
  decode_source (encode_load (C_LW 10 11 64)) = Some (mkAccess 11 64 MAW_32BIT 10 2 true).
Proof.
  split; [exact (decode_source_correct (C_LWSP 10 16) eq_refl)|exact (decode_source_correct (C_LW 10 11 64) eq_refl)].
Defined.

(** [C29] Every integer store of RV64I and its compressed extension is decoded to
    its operands. *)
Theorem decode_destination_correct i :
  store_wf i = true -> decode_destination (encode_store i) = Some (store_operands i).
Proof. apply decode_destination_encode. Qed.

Lemma decode_destination_correct_witness :
  decode_destination (encode_store (STORE MAW_32BIT 10 11 (-8)))
  = Some (store_operands (STORE MAW_32BIT 10 11 (-8))).
Proof. apply (decode_destination_correct (STORE MAW_32BIT 10 11 (-8))). reflexivity. Defined.
