(* ===== verification/Vmem.v ===== *)
(** vmem.c and vmem.h: page-table pages, the lazily built guest-physical to
    host-physical tables, the shadow tables of guests that enable paging, the
    walk of a guest's own tables and the iterator over guest memory.  The page
    fault handler that combines them is in PageFault.v. *)
From S2P Require Import Prelude Machine Wp Print Pte PageAlloc.

(** ** vmem.h *)

Inductive PageFaultHandlerResult :=
  | PFHR_SUCCESS | PFHR_NOT_CHANGED | PFHR_TOO_LOW | PFHR_TOO_HIGH.

Record GuestSlice := mkGuestSlice {
  virtual_ptr : Z; gs_byte_length : Z; thid : GuestThreadId }.
Record HostSlice := mkHostSlice { hs_address : Z; hs_byte_length : Z }.
Record GuestSliceIterator := mkIter {
  it_guest : GuestSlice; it_success : bool; it_required_perm : Z; it_offset : Z;
  it_host : HostSlice }.

Section vmem.
Context {plat : Platform}.

(** [&machine_pagetable_roots[machine]] *)
Definition machine_root (machine : Z) : Z := machine_pagetable_roots_addr + PGSIZE * machine.

(** ** Page-table pages *)

Definition allocate_pagepable : M Z :=
  let! page := allocate_page in
  if page =? 0 then ret 0
  else
    for_each (seqZ 0 512) (fun i => store_pte (entry_addr page i) 0) ;;
    ret page.

(** One unit of fuel per nested call. *)
Fixpoint clear_pagetable (fuel : nat) (subtree : Z) {struct fuel} : M unit :=
  match fuel with
  | O => diverge
  | S fuel' =>
      if subtree =? 0 then ret tt
      else for_each (seqZ 0 512) (fun i =>
        let! packed := load_mem64 (entry_addr subtree i) in
        let unpacked := unpack_pt_entry packed in
        store_pte (entry_addr subtree i) 0 ;;
        if negb (has_perm (permissions unpacked) PERMIDX_V) then ret tt
        else if has_rwx (permissions unpacked) then ret tt
        else deallocate_pagepable fuel' (numeric_address unpacked))
  end
with deallocate_pagepable (fuel : nat) (subtree : Z) {struct fuel} : M unit :=
  match fuel with
  | O => diverge
  | S fuel' =>
      if subtree =? 0 then ret tt
      else
        clear_pagetable fuel' subtree ;;
        deallocate_page subtree
  end.

(** Three table levels nest six calls. *)
Definition TABLE_FUEL : nat := 6.

Definition flush_shadow_pagetable : M unit :=
  let! (_, guest_thr) := get_current_guest in
  let shadow_pt_root := shadow_page_table guest_thr in
  if shadow_pt_root =? 0 then ret tt
  else
    clear_pagetable TABLE_FUEL shadow_pt_root ;;
    vmem_fence None None.

(** ** Guest-physical to host-physical *)

(** [&resolved_range_start[(gm_addr >> 12) & 0x1FF][gm_addr & 0xFFF]] *)
Definition range_index (start gm_addr : Z) : Z :=
  u64 (start + PGSIZE * Z.land (Z.shiftr gm_addr 12) 0x1FF + Z.land gm_addr 0xFFF).

Definition MACHINE_LEAF_PERMS : Z :=
  Z.lor (Z.lor (Z.lor (Z.lor (PERMBIT PERMIDX_V) (PERMBIT PERMIDX_U)) (PERMBIT PERMIDX_R))
    (PERMBIT PERMIDX_W)) (PERMBIT PERMIDX_X).

(** The top-level entry's child table, allocated on first use. *)
Definition ensure_level3 (root_entry lvl3 : Z) : M UnpackedPagetableEntry :=
  let! packed := load_mem64 root_entry in
  let unpacked := unpack_pt_entry packed in
  if negb (has_perm (permissions unpacked) PERMIDX_V) then
    let! child_table := allocate_pagepable in
    if child_table =? 0 then panic_msg (nl +:+ "Failed to allocate a page")
    else
      let unpacked := mkUnpacked child_table (perm_field (PERMBIT PERMIDX_V)) in
      store_pte root_entry (pack_pt_entry unpacked) ;;
      print_string (Some "[Lazy-initializing level 3 page of "%string) ;;
      print_addr (Z.shiftl lvl3 30) ;;
      print_string (Some "]"%string) ;;
      ret unpacked
  else ret unpacked.

(** The 2 MiB leaf in that child table, written on first use. *)
Definition ensure_level2 (packed_ptr lvl3 lvl2 gm_addr : Z) : M (PageFaultHandlerResult * option Z) :=
  let! packed := load_mem64 packed_ptr in
  let unpacked := unpack_pt_entry packed in
  if has_perm (permissions unpacked) PERMIDX_V then
    ret (PFHR_NOT_CHANGED, Some (range_index (numeric_address unpacked) gm_addr))
  else
    let base := u64 (Z.lor (Z.shiftl lvl3 30) (Z.shiftl lvl2 21) + GUEST_MEMORY_OFFSET) in
    let unpacked := mkUnpacked base (perm_field MACHINE_LEAF_PERMS) in
    store_pte packed_ptr (pack_pt_entry unpacked) ;;
    print_string (Some "[Lazy-initializing level 2 page of "%string) ;;
    print_addr (Z.lor (Z.shiftl lvl3 30) (Z.shiftl lvl2 21)) ;;
    print_string (Some "]"%string) ;;
    vmem_fence None None ;;
    ret (PFHR_SUCCESS, Some (range_index (numeric_address unpacked) gm_addr)).

(** The result and, where the code writes it, [*hm_addr_out]. *)
Definition ensure_guest_machine_mapped (ctx : HostThreadData) (gm_addr : Z)
    : M (PageFaultHandlerResult * option Z) :=
  if gm_addr <? 0x80000000 then ret (PFHR_TOO_LOW, None)
  else
    let lvl3 := Z.shiftr gm_addr 30 in
    if 512 <=? lvl3 then ret (PFHR_TOO_HIGH, None)
    else
      let lvl2 := Z.land (Z.shiftr gm_addr 21) 0x1FF in
      let! upper := ensure_level3 (entry_addr (machine_root (fst (current_guest ctx))) lvl3) lvl3 in
      ensure_level2 (entry_addr (numeric_address upper) lvl2) lvl3 lvl2 gm_addr.

(** ** Shadow tables *)

(** [vpn[i]] *)
Definition gu_vpn (gu_addr : Z) (i : nat) : Z :=
  match i with
  | O => Z.land (Z.shiftr gu_addr 12) 0x1FF
  | S O => Z.land (Z.shiftr gu_addr 21) 0x1FF
  | _ => Z.shiftr gu_addr 30
  end.

(** The body of the loop over [i]: the child of [parent] on the path. *)
Definition shadow_descend (parent vpn_i : Z) : M Z :=
  let! packed := load_mem64 (entry_addr parent vpn_i) in
  let unpacked := unpack_pt_entry packed in
  if negb (has_perm (permissions unpacked) PERMIDX_V) then
    let! child_table := allocate_pagepable in
    if child_table =? 0 then panic_msg (nl +:+ "Failed to allocate a shadow table page")
    else
      store_pte (entry_addr parent vpn_i)
        (pack_pt_entry (mkUnpacked child_table (perm_field (PERMBIT PERMIDX_V)))) ;;
      ret child_table
  else ret (numeric_address unpacked).

(** [for (int i = 2; i > 0; --i)] *)
Fixpoint shadow_levels (i : nat) (gu_addr parent : Z) : M Z :=
  match i with
  | O => ret parent
  | S i' =>
      let! child := shadow_descend parent (gu_vpn gu_addr i) in
      shadow_levels i' gu_addr child
  end.

(** The leaf entry after an access of type [access_type] to [hm_page] faulted,
    or [None] when the access was permitted already. *)
Definition shadow_leaf_update (packed hm_page : Z) (access_type : MempermIndex)
    : option UnpackedPagetableEntry :=
  let leaf := unpack_pt_entry packed in
  let leaf :=
    if negb (numeric_address leaf =? hm_page) then
      mkUnpacked hm_page (perm_field (Z.lor (PERMBIT PERMIDX_V) (PERMBIT PERMIDX_U)))
    else leaf in
  let add_mask := permbit_from_index access_type in
  if nonzero (Z.land (permissions leaf) add_mask) then None
  else Some (mkUnpacked (numeric_address leaf)
    (perm_field (Z.lor (permissions leaf) (Z.lor add_mask (PERMBIT PERMIDX_R))))).

Definition update_shadow_pt (shadow_pt_root gu_addr hm_addr : Z) (access_type : MempermIndex)
    : M PageFaultHandlerResult :=
  if negb (Z.land gu_addr 0xFFF =? Z.land hm_addr 0xFFF) then
    panic_msg (nl +:+ "Unmatched gu and hm lower bits")
  else
    let hm_page := Z.land hm_addr (not64 PGOFFSET_MASK) in
    if 512 <=? gu_vpn gu_addr 2 then ret PFHR_TOO_HIGH
    else
      let! parent := shadow_levels 2 gu_addr shadow_pt_root in
      let! packed := load_mem64 (entry_addr parent (gu_vpn gu_addr 0)) in
      match shadow_leaf_update packed hm_page access_type with
      | None => ret PFHR_NOT_CHANGED
      | Some leaf =>
          store_pte (entry_addr parent (gu_vpn gu_addr 0)) (pack_pt_entry leaf) ;;
          vmem_fence None None ;;
          ret PFHR_SUCCESS
      end.

(** ** Walking the guest's own tables *)

(** [1 << n] in type [int] widened to 64 bits; undefined from [n = 31] on. *)
Definition int_shift (n : Z) : M Z := if 31 <=? n then undef else ret (Z.shiftl 1 n).

(** [while (true)] of try_resolve_gu_to_gm; [Some gm] for [true] with
    [*gm_addr_out = gm].  [next_ptr] is read uninitialised when the next table
    lies outside guest memory. *)
Fixpoint try_resolve_loop (fuel : nat) (host_ctx : HostThreadData) (gu_addr : Z)
    (component_offset : Z) (entry_guest : UnpackedPagetableEntry) : M (option Z) :=
  match fuel with
  | O => diverge
  | S fuel' =>
      if negb (has_perm (permissions entry_guest) PERMIDX_V) then
        print_string (Some (nl +:+ "Unmapped page by the guest")) ;; ret None
      else if has_rwx (permissions entry_guest) then
        if negb (has_perm (permissions entry_guest) PERMIDX_U) then
          print_string (Some (nl +:+ "Non-GU page")) ;; ret None
        else
          let! pgsize := int_shift (component_offset + 9) in
          let pgoffset := Z.land gu_addr (pgsize - 1) in
          ret (Some (add64 (numeric_address entry_guest) pgoffset))
      else if component_offset <=? PGSHIFT then
        print_string (Some (nl +:+ "No RWX bits at the third-level guest pagetable entry")) ;;
        ret None
      else
        let! r := ensure_guest_machine_mapped host_ctx (numeric_address entry_guest) in
        let! next_ptr :=
          match r with
          | (PFHR_SUCCESS, Some p) | (PFHR_NOT_CHANGED, Some p) => ret p
          | (PFHR_TOO_LOW, _) =>
              print_string (Some (nl +:+ "Guest placed the page table level below RAM")) ;; undef
          | (PFHR_TOO_HIGH, _) =>
              print_string (Some (nl +:+
                "Guest placed the page table level above the usable address space")) ;; undef
          | _ => undef
          end in
        let vpn_i := Z.land 511 (Z.shiftr gu_addr component_offset) in
        let! packed := load_mem64 (entry_addr next_ptr vpn_i) in
        try_resolve_loop fuel' host_ctx gu_addr (component_offset - 9) (unpack_pt_entry packed)
  end.

(** The loop runs at most three times. *)
Definition WALK_FUEL : nat := 4.

Definition try_resolve_gu_to_gm (guest_ctx : GuestThreadContext) (host_ctx : HostThreadData)
    (access_type : MempermIndex) (gu_addr : Z) : M (option Z) :=
  let guest_pt_root_guest := u64 (Z.shiftl (g_satp_ppn (gcsr guest_ctx)) PGSHIFT) in
  try_resolve_loop WALK_FUEL host_ctx gu_addr (PGSHIFT + 9 + 9)
    (mkUnpacked guest_pt_root_guest (perm_field (PERMBIT PERMIDX_V))).

(** ** Iterating over guest memory *)

(** [while (true)] of resolve_guestmem_slice. *)
Fixpoint resolve_loop (fuel : nat) (virtaddr remaining_length component_offset : Z)
    (entry : UnpackedPagetableEntry) : M HostSlice :=
  match fuel with
  | O => diverge
  | S fuel' =>
      if negb (has_perm (permissions entry) PERMIDX_V) then panic_msg (nl +:+ "Unmapped page")
      else if has_rwx (permissions entry) then
        if negb (has_perm (permissions entry) PERMIDX_U) then panic_msg (nl +:+ "Non-guest page")
        else
          let! pgsize := int_shift (component_offset + 9) in
          let pgoffset := Z.land virtaddr (pgsize - 1) in
          let provided_length := pgsize - pgoffset in
          let provided_length :=
            if remaining_length <? provided_length then remaining_length else provided_length in
          ret (mkHostSlice (add64 (numeric_address entry) pgoffset) provided_length)
      else if component_offset + 9 <=? PGSHIFT then
        panic_msg (nl +:+ "No RWX bits at the third-level pagetable entry")
      else
        let vpn_i := Z.land 511 (Z.shiftr virtaddr component_offset) in
        let! packed := load_mem64 (entry_addr (numeric_address entry) vpn_i) in
        resolve_loop fuel' virtaddr remaining_length (component_offset - 9) (unpack_pt_entry packed)
  end.

Definition RESOLVE_FUEL : nat := 5.

Definition resolve_guestmem_slice (it : GuestSliceIterator) : M GuestSliceIterator :=
  let guest := it_guest it in
  let! guest_ctx := get_guest_thread (thid guest) in
  let active_pt :=
    if shadow_pt_active guest_ctx then shadow_page_table guest_ctx
    else machine_root (fst (thid guest)) in
  if active_pt =? 0 then panic_msg (nl +:+ "Null page table")
  else
    let virtaddr := add64 (virtual_ptr guest) (it_offset it) in
    let remaining_length := sub64 (gs_byte_length guest) (it_offset it) in
    if remaining_length =? 0 then
      ret (mkIter guest true (it_required_perm it) (it_offset it) (mkHostSlice 0 0))
    else if gs_byte_length guest <? remaining_length then
      print_string (Some (nl +:+ "Virtual memory iterator out of range, size = ")) ;;
      print_addr (gs_byte_length guest) ;;
      panic_msg_addr ", offset = " (it_offset it)
    else
      let! host := resolve_loop RESOLVE_FUEL virtaddr remaining_length (PGSHIFT + 9 + 9)
        (mkUnpacked active_pt (perm_field (PERMBIT PERMIDX_V))) in
      ret (mkIter guest true (it_required_perm it) (it_offset it) host).

Definition begin_iter_guestmem (slice : GuestSlice) (mask : Z) : M GuestSliceIterator :=
  resolve_guestmem_slice (mkIter slice false mask 0 (mkHostSlice 0 0)).

Definition advance_iter_guestmem (it : GuestSliceIterator) : M GuestSliceIterator :=
  resolve_guestmem_slice
    (mkIter (it_guest it) (it_success it) (it_required_perm it)
       (add64 (it_offset it) (hs_byte_length (it_host it))) (it_host it)).

Definition ended_iter_guestmem (it : GuestSliceIterator) : bool :=
  if negb (it_success it) then true else hs_byte_length (it_host it) =? 0.

End vmem.
