(* ===== verification/Tables.v ===== *)
(** The shape of the page tables the hypervisor builds, as a predicate on
    memory, and what the memory-management unit makes of tables of that shape.

    A ghost map [G] gives every page taken from the allocator its place: a
    second-level table of the guest's machine table, or the node of the shadow
    tree reached from the shadow root by a path of indices.  Since a page has
    one place and a place has one page, no page is shared between two tables
    and none is lost. *)
From S2P Require Import Prelude Machine Wp Print Pte PageAlloc Vmem.

Inductive PageRole :=
  | RMachine (lvl3 : Z)
  | RShadow (path : list Z).

#[export] Instance PageRole_eq_dec : EqDecision PageRole.
Proof. solve_decision. Defined.

(** The entry that points to the table [c]. *)
Definition table_entry (c : Z) : Z := pack_pt_entry (mkUnpacked c 1).

(** The entry of the machine table for the 2 MiB at [lvl3], [lvl2]. *)
Definition machine_base (lvl3 lvl2 : Z) : Z :=
  lvl3 * 2 ^ 30 + lvl2 * 2 ^ 21 + GUEST_MEMORY_OFFSET.
Definition machine_leaf (lvl3 lvl2 : Z) : Z :=
  pack_pt_entry (mkUnpacked (machine_base lvl3 lvl2) 31).

(** The permissions a shadow leaf can have: V, U, R and possibly W and X. *)
Definition shadow_perms : list Z := [19; 23; 27; 31].

(** One past the highest host-physical address the guest can be given. *)
Definition HOST_END : Z := 2 ^ 39 + GUEST_MEMORY_OFFSET.

Definition shadow_leaf_ok (e : Z) : Prop :=
  exists a p, e = pack_pt_entry (mkUnpacked a p) /\ a mod 4096 = 0 /\
    HYPERVISOR_END <= a < HOST_END /\ p ∈ shadow_perms.

Section tables.
Context {plat : Platform}.

Definition root : Z := machine_root 0.

(** A page that holds a table. *)
Definition is_table (t : Z) : Prop := is_pool_page t \/ t = root.

Definition entry (m : mem_t) (t i : Z) : Z := load64 m (entry_addr t i).

(** Entry [k] of the shadow node at [path]. *)
Definition shadow_entry_ok (G : gmap Z PageRole) (path : list Z) (k e : Z) : Prop :=
  e = 0 \/
  ((length path < 2)%nat /\ exists c, e = table_entry c /\ G !! c = Some (RShadow (path ++ [k]))) \/
  (length path = 2%nat /\ shadow_leaf_ok e).

Record tables_ok (sp : Z) (G : gmap Z PageRole) (m : mem_t) : Prop := {
  tk_pool c r : G !! c = Some r -> is_pool_page c;
  tk_root i : 0 <= i < 512 ->
    entry m root i = 0 \/ exists c, entry m root i = table_entry c /\ G !! c = Some (RMachine i);
  tk_machine c i : G !! c = Some (RMachine i) ->
    2 <= i < 512 /\ entry m root i = table_entry c /\
    forall j, 0 <= j < 512 -> entry m c j = 0 \/ entry m c j = machine_leaf i j;
  tk_shadow_root c : G !! c = Some (RShadow []) <-> c = sp /\ c <> 0;
  tk_shadow c path : G !! c = Some (RShadow path) ->
    (length path <= 2)%nat /\ forall k, 0 <= k < 512 -> shadow_entry_ok G path k (entry m c k);
  tk_link c path k : G !! c = Some (RShadow (path ++ [k])) ->
    0 <= k < 512 /\ exists t, G !! t = Some (RShadow path) /\ entry m t k = table_entry c }.

(** The entry at the end of a path of indices from the table [t], 0 where the
    path stops early. *)
Fixpoint path_entry (m : mem_t) (t : Z) (ks : list Z) : Z :=
  match ks with
  | [] => 0
  | [k] => entry m t k
  | k :: ks' => if entry m t k =? 0 then 0
                else path_entry m (numeric_address (unpack_pt_entry (entry m t k))) ks'
  end.

(** The indices of [va] from level [lvl] down. *)
Fixpoint vpns (lvl : nat) (va : Z) : list Z :=
  vpn lvl va :: match lvl with O => [] | S lvl' => vpns lvl' va end.

(** The shadow leaf entry of [va]. *)
Definition shadow_entry (m : mem_t) (sp va : Z) : Z := path_entry m sp (vpns 2 va).

(** ** Entries *)

Context {plat_ok : PlatformOk}.

Lemma root_bounds : root mod 4096 = 0 /\ RAM_START <= root /\ root + 4096 <= HYPERVISOR_END.
Proof.
  pose proof roots_aligned. pose proof roots_in_image. unfold root, machine_root, MAX_GUESTS in *.
  rewrite PGSIZE_eq, Z.mul_0_r, Z.add_0_r. lia.
Qed.

Lemma is_table_bounds t : is_table t ->
  t mod 4096 = 0 /\ RAM_START <= t /\ t + 4096 <= HYPERVISOR_END.
Proof. intros [H%is_pool_page_bounds| ->]; [lia|apply root_bounds]. Qed.

Lemma root_not_pool : ~ is_pool_page root.
Proof.
  intros H%is_pool_page_bounds. pose proof roots_pool_disjoint.
  unfold root, machine_root, MAX_GUESTS in *. rewrite PGSIZE_eq in *. lia.
Qed.

Lemma is_table_disjoint t t' : is_table t -> is_table t' -> t <> t' ->
  t + 4096 <= t' \/ t' + 4096 <= t.
Proof.
  intros [H| ->] [H'| ->] Hne; [by apply is_pool_page_disjoint|..|done].
  all: pose proof (is_pool_page_bounds _ ltac:(eassumption)); pose proof roots_pool_disjoint;
    unfold root, machine_root, MAX_GUESTS in *; rewrite PGSIZE_eq in *; lia.
Qed.

(** Reading an entry after a store to an entry. *)
Lemma entry_store m t i t' j v :
  is_table t -> is_table t' -> 0 <= i < 512 -> 0 <= j < 512 -> 0 <= v < 2 ^ 64 ->
  entry (store64 m (entry_addr t i) v) t' j = if decide (t' = t /\ j = i) then v else entry m t' j.
Proof.
  intros Ht Ht' Hi Hj Hv. unfold entry, entry_addr. case_decide as H.
  - destruct H as [-> ->]. rewrite load64_store64_same. by apply u64_id.
  - rewrite load64_store64_other; [done|].
    destruct (decide (t' = t)) as [->|Hne]; [assert (j <> i) by tauto; lia|].
    destruct (is_table_disjoint t t' Ht Ht'); [done|lia..].
Qed.

Lemma entry_agree m m' t i :
  mem_agree t 4096 m m' -> 0 <= i < 512 -> entry m t i = entry m' t i.
Proof. intros H Hi. apply load64_agree. eapply mem_agree_sub; [done|unfold entry_addr; lia..]. Qed.

Lemma table_addr_small c : is_pool_page c -> 0 <= c < 2 ^ 32.
Proof.
  intros H%is_pool_page_bounds. unfold HYPERVISOR_END, RAM_START, GUEST_MEMORY_OFFSET in *. lia.
Qed.

Lemma table_entry_arith c : is_pool_page c -> table_entry c = c / 4096 * 1024 + 1.
Proof. intros H%table_addr_small. apply pack_arith; lia. Qed.

Lemma table_entry_unpack c : is_pool_page c -> unpack_pt_entry (table_entry c) = mkUnpacked c 1.
Proof.
  intros H. apply unpack_pack_aligned; [apply table_addr_small in H; lia| |lia].
  apply is_pool_page_bounds in H. lia.
Qed.

Lemma table_entry_range c : is_pool_page c -> 0 < table_entry c < 2 ^ 54.
Proof.
  intros H. rewrite table_entry_arith by done. apply table_addr_small in H.
  Z.div_mod_to_equations; lia.
Qed.

Lemma table_entry_inj c c' :
  is_pool_page c -> is_pool_page c' -> table_entry c = table_entry c' -> c = c'.
Proof.
  intros H H' E. pose proof (table_entry_unpack c H) as Hu. rewrite E in Hu.
  rewrite table_entry_unpack in Hu by done. congruence.
Qed.

Lemma machine_base_bounds i j :
  0 <= i < 512 -> 0 <= j < 512 ->
  GUEST_MEMORY_OFFSET <= machine_base i j /\ machine_base i j + 2 ^ 21 <= HOST_END /\
  machine_base i j mod 2 ^ 21 = 0.
Proof.
  intros. unfold machine_base, HOST_END, GUEST_MEMORY_OFFSET.
  change (2 ^ 30) with 1073741824. change (2 ^ 21) with 2097152. change (2 ^ 39) with 549755813888.
  Z.div_mod_to_equations; lia.
Qed.

Lemma machine_leaf_unpack i j : 0 <= i < 512 -> 0 <= j < 512 ->
  unpack_pt_entry (machine_leaf i j) = mkUnpacked (machine_base i j) 31.
Proof.
  intros Hi Hj. destruct (machine_base_bounds i j Hi Hj) as (H1 & H2 & H3).
  unfold HOST_END, GUEST_MEMORY_OFFSET in *. change (2 ^ 39) with 549755813888 in *.
  change (2 ^ 21) with 2097152 in *.
  apply unpack_pack_aligned; Z.div_mod_to_equations; lia.
Qed.

Lemma machine_leaf_range i j : 0 <= i < 512 -> 0 <= j < 512 -> 0 < machine_leaf i j < 2 ^ 54.
Proof.
  intros Hi Hj. destruct (machine_base_bounds i j Hi Hj) as (H1 & H2 & H3).
  unfold HOST_END, GUEST_MEMORY_OFFSET in *. change (2 ^ 39) with 549755813888 in *.
  unfold machine_leaf. rewrite pack_arith by (change (2 ^ 21) with 2097152 in *; lia).
  change (2 ^ 21) with 2097152 in *. Z.div_mod_to_equations; lia.
Qed.

Lemma shadow_perms_no_ad p : p ∈ shadow_perms -> has_perm p PERMIDX_U = true /\ has_perm p PERMIDX_A = false.
Proof. unfold shadow_perms. set_unfold. intros. by destruct_or!; subst. Qed.

Lemma shadow_perms_range p : p ∈ shadow_perms -> 0 < p < 1024.
Proof. unfold shadow_perms. set_unfold. intros. destruct_or!; subst; lia. Qed.

Lemma shadow_leaf_spec e a p :
  e = pack_pt_entry (mkUnpacked a p) -> a mod 4096 = 0 -> HYPERVISOR_END <= a < HOST_END ->
  p ∈ shadow_perms -> unpack_pt_entry e = mkUnpacked a p /\ 0 < e < 2 ^ 54.
Proof.
  intros -> Ha Hr Hp%shadow_perms_range.
  unfold HOST_END, HYPERVISOR_END, RAM_START, GUEST_MEMORY_OFFSET in *.
  change (2 ^ 39) with 549755813888 in *. split; [apply unpack_pack_aligned; lia|].
  rewrite pack_arith by lia. Z.div_mod_to_equations; lia.
Qed.

(** ** The walk of the memory-management unit, entry by entry *)

Lemma sv39_leaf_zero m lvl t va : entry m t (vpn lvl va) = 0 -> sv39_leaf m lvl t va = None.
Proof. unfold entry. intros H. destruct lvl; cbn [sv39_leaf]; by rewrite H. Qed.

Lemma sv39_leaf_table m lvl t va c :
  is_pool_page c -> entry m t (vpn (S lvl) va) = table_entry c ->
  sv39_leaf m (S lvl) t va = sv39_leaf m lvl c va.
Proof.
  unfold entry. intros Hc H. cbn [sv39_leaf]. rewrite H. unfold sv39_invalid.
  rewrite (table_entry_unpack c Hc). pose proof (table_entry_range c Hc).
  rewrite (proj2 (Z.leb_gt _ _)) by lia. done.
Qed.

Lemma sv39_leaf_found m lvl t va a p :
  let e := entry m t (vpn lvl va) in
  unpack_pt_entry e = mkUnpacked a p -> 0 < e < 2 ^ 54 ->
  p ∈ shadow_perms -> a mod sv39_span lvl = 0 ->
  sv39_leaf m lvl t va = Some (lvl, mkUnpacked a p).
Proof.
  intros e Hu He Hp Ha. unfold entry in e.
  assert (sv39_invalid e = false) as Hi.
  { unfold sv39_invalid. rewrite Hu, (proj2 (Z.leb_gt _ _)) by lia.
    unfold shadow_perms in Hp. set_unfold in Hp. destruct_or!; by subst. }
  assert (has_rwx p = true) as Hx by (unfold shadow_perms in Hp; set_unfold in Hp; destruct_or!; by subst).
  destruct lvl; cbn [sv39_leaf]; fold e; rewrite Hi, Hu; cbn [permissions numeric_address];
    rewrite Hx, Ha; done.
Qed.

(** ** The guest's machine table *)

Lemma va_split va : 0 <= va < 2 ^ 39 ->
  va = vpn 2 va * 2 ^ 30 + vpn 1 va * 2 ^ 21 + va mod 2 ^ 21.
Proof.
  unfold vpn. simpl Z.of_nat. change (12 + 9 * 2) with 30. change (12 + 9 * 1) with 21.
  change (2 ^ 30) with 1073741824. change (2 ^ 21) with 2097152. change (2 ^ 39) with 549755813888.
  intros. Z.div_mod_to_equations; lia.
Qed.

Lemma machine_translate_hit m c va :
  0 <= va < 2 ^ 39 -> is_pool_page c ->
  entry m root (vpn 2 va) = table_entry c ->
  entry m c (vpn 1 va) = machine_leaf (vpn 2 va) (vpn 1 va) ->
  sv39_translate m root va = Some (va + GUEST_MEMORY_OFFSET, 31).
Proof.
  intros Hva Hc H2 H1. unfold sv39_translate. rewrite (sv39_leaf_table _ _ _ _ _ Hc H2).
  destruct (machine_base_bounds (vpn 2 va) (vpn 1 va) (vpn_range _ _) (vpn_range _ _))
    as (_ & _ & Hal).
  rewrite (sv39_leaf_found _ _ _ _ (machine_base (vpn 2 va) (vpn 1 va)) 31).
  - change (sv39_span 1) with (2 ^ 21). cbn [numeric_address permissions].
    f_equal. f_equal. unfold machine_base. pose proof (va_split va Hva). lia.
  - rewrite H1. apply machine_leaf_unpack; apply vpn_range.
  - rewrite H1. apply machine_leaf_range; apply vpn_range.
  - unfold shadow_perms. set_solver.
  - done.
Qed.

Lemma machine_translate_miss m va : entry m root (vpn 2 va) = 0 -> sv39_translate m root va = None.
Proof. intros H. unfold sv39_translate. by rewrite sv39_leaf_zero. Qed.

Lemma machine_translate_miss2 m c va :
  is_pool_page c -> entry m root (vpn 2 va) = table_entry c -> entry m c (vpn 1 va) = 0 ->
  sv39_translate m root va = None.
Proof.
  intros Hc H2 H1. unfold sv39_translate. rewrite (sv39_leaf_table _ _ _ _ _ Hc H2).
  by rewrite sv39_leaf_zero.
Qed.

(** ** The shadow tree *)

(** What a final entry of a path translates to. *)
Definition leaf_of (e : Z) : option (nat * UnpackedPagetableEntry) :=
  if e =? 0 then None else Some (O, unpack_pt_entry e).

Lemma sv39_leaf_shadow sp G m lvl t q va :
  tables_ok sp G m -> G !! t = Some (RShadow q) -> (length q + lvl = 2)%nat ->
  sv39_leaf m lvl t va = leaf_of (path_entry m t (vpns lvl va)).
Proof.
  intros Hok. revert t q. induction lvl as [|lvl IH]; intros t q Ht Hq;
    destruct (tk_shadow _ _ _ Hok _ _ Ht) as [_ Hent]; cbn [vpns];
    match goal with |- context [vpn ?l va :: _] => specialize (Hent (vpn l va) (vpn_range _ _)) end.
  - change (path_entry m t [vpn 0 va]) with (entry m t (vpn 0 va)).
    destruct Hent as [H0|[[? _]|[_ (a & p & He & Ha & Hr & Hp)]]]; [|lia|].
    + rewrite sv39_leaf_zero by done. by rewrite H0.
    + destruct (shadow_leaf_spec _ _ _ He Ha Hr Hp) as [Hu Hrange].
      rewrite (sv39_leaf_found _ _ _ _ a p); [|done..].
      unfold leaf_of. by rewrite (proj2 (Z.eqb_neq _ _)), Hu by lia.
  - destruct Hent as [H0|[(_ & c & Hc & HG)|[? _]]]; [| |lia].
    + rewrite sv39_leaf_zero by done. destruct lvl; cbn [vpns path_entry]; by rewrite H0.
    + pose proof (tk_pool _ _ _ Hok _ _ HG) as Hpool.
      rewrite (sv39_leaf_table _ _ _ _ c Hpool Hc).
      rewrite (IH c _ HG) by (rewrite length_app; simpl; lia).
      pose proof (table_entry_range c Hpool).
      destruct lvl; cbn [vpns path_entry]; rewrite Hc, (proj2 (Z.eqb_neq (table_entry c) 0)) by lia;
        by rewrite table_entry_unpack.
Qed.

(** Translation through the shadow table, read off the leaf entry. *)
Lemma shadow_translate sp G m va :
  tables_ok sp G m -> sp <> 0 ->
  sv39_translate m sp va =
    let e := shadow_entry m sp va in
    if e =? 0 then None
    else Some (numeric_address (unpack_pt_entry e) + va mod 4096,
               permissions (unpack_pt_entry e)).
Proof.
  intros Hok Hsp. unfold sv39_translate.
  rewrite (sv39_leaf_shadow sp G m 2 sp [] va Hok); [|by apply Hok|done].
  unfold leaf_of, shadow_entry. by destruct (path_entry m sp (vpns 2 va) =? 0).
Qed.

(** A full path ends in nothing or in a leaf the hypervisor may install. *)
Lemma path_entry_leaf sp G m lvl t q va :
  tables_ok sp G m -> G !! t = Some (RShadow q) -> (length q + lvl = 2)%nat ->
  path_entry m t (vpns lvl va) = 0 \/ shadow_leaf_ok (path_entry m t (vpns lvl va)).
Proof.
  intros Hok. revert t q. induction lvl as [|lvl IH]; intros t q Ht Hq;
    destruct (tk_shadow _ _ _ Hok _ _ Ht) as [_ Hent]; cbn [vpns];
    match goal with |- context [vpn ?l va :: _] => specialize (Hent (vpn l va) (vpn_range _ _)) end.
  - change (path_entry m t [vpn 0 va]) with (entry m t (vpn 0 va)).
    destruct Hent as [H0|[[? _]|[_ H]]]; [by left|lia|by right].
  - destruct Hent as [H0|[(_ & c & Hc & HG)|[? _]]]; [| |lia].
    + left. destruct lvl; cbn [vpns path_entry]; by rewrite H0.
    + pose proof (tk_pool _ _ _ Hok _ _ HG) as Hpool. pose proof (table_entry_range c Hpool).
      specialize (IH c _ HG ltac:(rewrite length_app; simpl; lia)).
      destruct lvl; cbn [vpns path_entry] in *; rewrite Hc, (proj2 (Z.eqb_neq (table_entry c) 0)) by lia;
        by rewrite table_entry_unpack.
Qed.

(** No translation through a table of the hypervisor reaches its own memory,
    and its leaves carry the permissions the code gives, never A or D. *)
Lemma shadow_translate_isolated sp G m va pa p :
  tables_ok sp G m -> sp <> 0 -> sv39_translate m sp va = Some (pa, p) ->
  HYPERVISOR_END <= pa < HOST_END + 4096 /\ p ∈ shadow_perms.
Proof.
  intros Hok Hsp. rewrite (shadow_translate sp G m va Hok Hsp). cbn zeta.
  destruct (Z.eqb_spec (shadow_entry m sp va) 0) as [|Hne]; [done|].
  destruct (path_entry_leaf sp G m 2 sp [] va Hok) as [|(a & q & He & Ha & Hr & Hp)];
    [by apply Hok|done|done|].
  fold (shadow_entry m sp va) in He. rewrite He.
  destruct (shadow_leaf_spec _ _ _ eq_refl Ha Hr Hp) as [-> _]. cbn [numeric_address permissions].
  intros [= <- <-]. pose proof (Z.mod_pos_bound va 4096). split; [lia|done].
Qed.

Lemma tables_ok_is_table sp G m c r : tables_ok sp G m -> G !! c = Some r -> is_table c.
Proof. intros H Hc. left. by eapply tk_pool. Qed.

(** ** Changing the tables *)

Definition zero_table (m : mem_t) (c : Z) : Prop := forall k, 0 <= k < 512 -> entry m c k = 0.

(** Only the entries of the tables matter. *)
Lemma tables_ok_agree sp G m m' :
  tables_ok sp G m -> mem_agree root 4096 m m' ->
  (forall c r, G !! c = Some r -> mem_agree c 4096 m m') -> tables_ok sp G m'.
Proof.
  intros Hok Hr Hc.
  assert (forall k, 0 <= k < 512 -> entry m' root k = entry m root k) as Er
    by (intros; symmetry; by apply entry_agree).
  assert (forall c r k, G !! c = Some r -> 0 <= k < 512 -> entry m' c k = entry m c k) as Ec
    by (intros; symmetry; apply entry_agree; eauto).
  split; [apply Hok|..].
  - intros i Hi. rewrite Er by (done || lia). by apply Hok.
  - intros c i HG. destruct (tk_machine _ _ _ Hok _ _ HG) as (Hi & He & Hj).
    split; [done|]. rewrite Er by (done || lia). split; [done|]. intros j Hj'.
    rewrite (Ec _ _ _ HG) by done. by apply Hj.
  - apply Hok.
  - intros c path HG. destruct (tk_shadow _ _ _ Hok _ _ HG) as (Hl & Hk).
    split; [done|]. intros k Hk'. rewrite (Ec _ _ _ HG) by done. by apply Hk.
  - intros c path k HG. destruct (tk_link _ _ _ Hok _ _ _ HG) as (Hk & t & Ht & He).
    split; [done|]. exists t. split; [done|]. by rewrite (Ec _ _ _ Ht) by done.
Qed.

Section update.
Context (sp : Z) (G : gmap Z PageRole) (m : mem_t) (Hok : tables_ok sp G m).

Lemma known_is_table c r : G !! c = Some r -> is_table c.
Proof. intros H. left. by eapply tk_pool. Qed.
Lemma known_not_root c r : G !! c = Some r -> c <> root.
Proof. intros H ->. apply root_not_pool. by eapply tk_pool. Qed.
Lemma root_ne t r : G !! t = Some r -> root <> t.
Proof. intros H Hr. by apply (known_not_root t r H). Qed.

(** Linking a zeroed page below entry [i] of the machine root. *)
Lemma tables_ok_add_machine c i :
  G !! c = None -> is_pool_page c -> zero_table m c -> 2 <= i < 512 -> entry m root i = 0 ->
  tables_ok sp (<[c := RMachine i]> G) (store64 m (entry_addr root i) (table_entry c)).
Proof.
  intros HGc Hpc Hz Hi H0. pose proof (table_entry_range c Hpc) as Hr.
  assert (is_table c) as Htc by (by left).
  assert (forall t j, is_table t -> 0 <= j < 512 ->
    entry (store64 m (entry_addr root i) (table_entry c)) t j =
    if decide (t = root /\ j = i) then table_entry c else entry m t j) as E
    by (intros; apply entry_store; [by right|done|lia|done|lia]).
  assert (forall t r j, G !! t = Some r -> 0 <= j < 512 ->
    entry (store64 m (entry_addr root i) (table_entry c)) t j = entry m t j) as Ek.
  { intros t r j Ht Hj. rewrite E by eauto using known_is_table. case_decide as Hd; [|done].
    by destruct (known_not_root _ _ Ht), Hd. }
  assert (forall t r, G !! t = Some r -> t <> c) as Hne by (intros t r Ht ->; congruence).
  split.
  - intros t r [[-> <-]|[_ Ht]]%lookup_insert_Some; [done|by eapply tk_pool].
  - intros j Hj. rewrite E by (done || (by right) || lia). case_decide as Hd.
    + right. exists c. destruct Hd as [_ ->]. by rewrite lookup_insert_eq.
    + destruct (tk_root _ _ _ Hok j Hj) as [|(t & He & Ht)]; [by left|right; exists t].
      rewrite lookup_insert_ne by (symmetry; eauto). done.
  - intros t j [[-> [= ->]]|[_ Ht]]%lookup_insert_Some.
    + split; [done|]. rewrite E by (done || (by right) || lia). rewrite decide_True by done.
      split; [done|]. intros k Hk. left. rewrite E by done.
      rewrite decide_False; [by apply Hz|]. intros [-> _]. by apply root_not_pool.
    + destruct (tk_machine _ _ _ Hok _ _ Ht) as (Hj & He & Hk). split; [done|].
      rewrite E by (done || (by right) || lia). rewrite decide_False by (intros [_ ->]; pose proof (table_entry_range t ltac:(by eapply tk_pool)); lia).
      split; [done|]. intros k Hk'. rewrite (Ek _ _ _ Ht Hk'). by apply Hk.
  - intros t. rewrite <- (tk_shadow_root _ _ _ Hok t), lookup_insert_Some. split.
    + intros [[_ [=]]|[_ ?]]; done.
    + intros Ht. right. split; [symmetry; eauto|done].
  - intros t path [[_ [=]]|[_ Ht]]%lookup_insert_Some.
    destruct (tk_shadow _ _ _ Hok _ _ Ht) as (Hl & Hk). split; [done|]. intros k Hk'.
    rewrite (Ek _ _ _ Ht Hk').
    destruct (Hk k Hk') as [|[(? & d & ? & Hd)|?]]; [by left| |by right; right].
    right; left. split; [done|]. exists d. rewrite lookup_insert_ne by (symmetry; eauto). done.
  - intros t path k [[_ [=]]|[_ Ht]]%lookup_insert_Some.
    destruct (tk_link _ _ _ Hok _ _ _ Ht) as (Hk & d & Hd & He). split; [done|].
    exists d. rewrite lookup_insert_ne by (symmetry; eauto). by rewrite (Ek _ _ _ Hd Hk).
Qed.

(** Filling entry [j] of a second-level machine table. *)
Lemma tables_ok_set_machine c i j :
  G !! c = Some (RMachine i) -> 0 <= j < 512 ->
  tables_ok sp G (store64 m (entry_addr c j) (machine_leaf i j)).
Proof.
  intros HG Hj. destruct (tk_machine _ _ _ Hok _ _ HG) as (Hi & Hroot & Hent).
  pose proof (machine_leaf_range i j ltac:(lia) Hj) as Hr.
  assert (forall t k, is_table t -> 0 <= k < 512 ->
    entry (store64 m (entry_addr c j) (machine_leaf i j)) t k =
    if decide (t = c /\ k = j) then machine_leaf i j else entry m t k) as E
    by (intros; apply entry_store; [eauto using known_is_table|done..|lia]).
  assert (forall t r k, G !! t = Some r -> r <> RMachine i -> 0 <= k < 512 ->
    entry (store64 m (entry_addr c j) (machine_leaf i j)) t k = entry m t k) as Ek.
  { intros t r k Ht Hne Hk. rewrite E by eauto using known_is_table.
    rewrite decide_False; [done|]. intros [-> _]. congruence. }
  assert (forall k, 0 <= k < 512 ->
    entry (store64 m (entry_addr c j) (machine_leaf i j)) root k = entry m root k) as Er.
  { intros k Hk. rewrite E by (done || by right). rewrite decide_False; [done|].
    intros [<- _]. by eapply known_not_root. }
  split; try apply Hok.
  - intros k Hk. rewrite Er by (done || lia). by apply Hok.
  - intros t i' Ht. destruct (tk_machine _ _ _ Hok _ _ Ht) as (Hi' & He & Hk).
    rewrite Er by (done || lia). do 2 (split; [done|]). intros k Hk'.
    rewrite E by eauto using known_is_table. case_decide as Hd; [|by apply Hk].
    destruct Hd as [-> ->]. right. rewrite HG in Ht. by injection Ht as [= ->].
  - intros t path Ht. destruct (tk_shadow _ _ _ Hok _ _ Ht) as (Hl & Hk). split; [done|].
    intros k Hk'. rewrite (Ek _ _ _ Ht) by done. by apply Hk.
  - intros t path k Ht. destruct (tk_link _ _ _ Hok _ _ _ Ht) as (Hk & d & Hd & He).
    split; [done|]. exists d. split; [done|]. by rewrite (Ek _ _ _ Hd).
Qed.

(** Linking a zeroed page below entry [k] of a shadow node. *)
Lemma tables_ok_add_shadow c t path k :
  G !! t = Some (RShadow path) -> (length path < 2)%nat -> 0 <= k < 512 -> entry m t k = 0 ->
  G !! c = None -> is_pool_page c -> zero_table m c ->
  tables_ok sp (<[c := RShadow (path ++ [k])]> G) (store64 m (entry_addr t k) (table_entry c)).
Proof.
  intros HGt Hlen Hk H0 HGc Hpc Hz. pose proof (table_entry_range c Hpc) as Hr.
  assert (is_table c) as Htc by (by left).
  assert (forall d j, is_table d -> 0 <= j < 512 ->
    entry (store64 m (entry_addr t k) (table_entry c)) d j =
    if decide (d = t /\ j = k) then table_entry c else entry m d j) as E
    by (intros; apply entry_store; [eauto using known_is_table|done..|lia]).
  assert (forall d r, G !! d = Some r -> c <> d) as Hne by (intros d r Hd ->; congruence).
  split.
  - intros d r [[-> <-]|[_ Hd]]%lookup_insert_Some; [done|by eapply tk_pool].
  - intros j Hj. rewrite E by (done || by right).
    rewrite decide_False by (intros [Hrt _]; by apply (root_ne _ _ HGt)).
    destruct (tk_root _ _ _ Hok j Hj) as [|(d & He & Hd)]; [by left|right; exists d].
    rewrite lookup_insert_ne by eauto. done.
  - intros d i [[_ [=]]|[_ Hd]]%lookup_insert_Some.
    destruct (tk_machine _ _ _ Hok _ _ Hd) as (Hi & He & Hj). split; [done|].
    rewrite E by ((by right) || lia).
    rewrite decide_False by (intros [Hrt _]; by apply (root_ne _ _ HGt)).
    split; [done|]. intros j Hj'. rewrite E by eauto using known_is_table.
    rewrite decide_False; [by apply Hj|]. intros [-> _]. congruence.
  - intros d. rewrite <- (tk_shadow_root _ _ _ Hok d), lookup_insert_Some. split.
    + intros [[_ [= Hp]]|[_ ?]]; [by destruct path|done].
    + intros Hd. right. eauto.
  - intros d path' [[-> [= <-]]|[_ Hd]]%lookup_insert_Some.
    + split; [rewrite length_app; simpl; lia|]. intros j Hj. left. rewrite E by done.
      rewrite decide_False; [by apply Hz|]. intros [-> _]. by eapply Hne.
    + destruct (tk_shadow _ _ _ Hok _ _ Hd) as (Hl & Hj). split; [done|]. intros j Hj'.
      rewrite E by eauto using known_is_table. case_decide as Hdj.
      * destruct Hdj as [-> ->]. rewrite HGt in Hd. injection Hd as [= ->].
        right; left. split; [done|]. exists c. by rewrite lookup_insert_eq.
      * destruct (Hj j Hj') as [|[(? & b & ? & Hb)|?]]; [by left| |by right; right].
        right; left. split; [done|]. exists b. rewrite lookup_insert_ne by eauto. done.
  - intros d path' j [[-> [= Hp]]|[_ Hd]]%lookup_insert_Some.
    + apply app_inj_tail in Hp as [-> ->]. split; [done|]. exists t.
      rewrite lookup_insert_ne by eauto. split; [done|].
      rewrite E by eauto using known_is_table. by rewrite decide_True.
    + destruct (tk_link _ _ _ Hok _ _ _ Hd) as (Hj & b & Hb & He). split; [done|].
      exists b. rewrite lookup_insert_ne by eauto. split; [done|].
      rewrite E by eauto using known_is_table. rewrite decide_False; [done|].
      intros [-> ->]. pose proof (table_entry_range d ltac:(by eapply tk_pool)). lia.
Qed.

(** Filling entry [k] of a last-level shadow table. *)
Lemma tables_ok_set_leaf t path k e :
  G !! t = Some (RShadow path) -> length path = 2%nat -> 0 <= k < 512 -> shadow_leaf_ok e ->
  tables_ok sp G (store64 m (entry_addr t k) e).
Proof.
  intros HGt Hlen Hk He.
  assert (0 <= e < 2 ^ 64) as Hr.
  { destruct He as (a & p & -> & Ha & Hra & Hp).
    destruct (shadow_leaf_spec _ _ _ eq_refl Ha Hra Hp). lia. }
  assert (forall d j, is_table d -> 0 <= j < 512 ->
    entry (store64 m (entry_addr t k) e) d j =
    if decide (d = t /\ j = k) then e else entry m d j) as E
    by (intros; apply entry_store; [eauto using known_is_table|done..|lia]).
  assert (forall j, 0 <= j < 512 ->
    entry (store64 m (entry_addr t k) e) root j = entry m root j) as Er.
  { intros j Hj. rewrite E by (done || by right). rewrite decide_False; [done|].
    intros [Hrt _]. by apply (root_ne _ _ HGt). }
  split; try apply Hok.
  - intros j Hj. rewrite Er by (done || lia). by apply Hok.
  - intros d i Hd. destruct (tk_machine _ _ _ Hok _ _ Hd) as (Hi & Hde & Hj).
    rewrite Er by (done || lia). do 2 (split; [done|]). intros j Hj'.
    rewrite E by eauto using known_is_table. rewrite decide_False; [by apply Hj|].
    intros [-> _]. congruence.
  - intros d path' Hd. destruct (tk_shadow _ _ _ Hok _ _ Hd) as (Hl & Hj). split; [done|].
    intros j Hj'. rewrite E by eauto using known_is_table. case_decide as Hdj; [|by apply Hj].
    destruct Hdj as [-> ->]. rewrite HGt in Hd. injection Hd as [= ->]. by right; right.
  - intros d path' j Hd. destruct (tk_link _ _ _ Hok _ _ _ Hd) as (Hj & b & Hb & Hbe).
    split; [done|]. exists b. split; [done|].
    rewrite E by eauto using known_is_table. rewrite decide_False; [done|].
    intros [-> ->]. rewrite HGt in Hb. injection Hb as [= ->].
    destruct (tk_shadow _ _ _ Hok _ _ Hd) as [Hd' _]. rewrite length_app in Hd'. simpl in Hd'. lia.
Qed.

(** Installing a zeroed page as the shadow root. *)
Lemma tables_ok_add_root c :
  sp = 0 -> G !! c = None -> is_pool_page c -> zero_table m c ->
  tables_ok c (<[c := RShadow []]> G) m.
Proof.
  intros Hsp HGc Hpc Hz.
  assert (forall d r, G !! d = Some r -> c <> d) as Hne by (intros d r Hd ->; congruence).
  split.
  - intros d r [[-> <-]|[_ Hd]]%lookup_insert_Some; [done|by eapply tk_pool].
  - intros j Hj. destruct (tk_root _ _ _ Hok j Hj) as [|(d & He & Hd)]; [by left|right; exists d].
    rewrite lookup_insert_ne by eauto. done.
  - intros d i [[_ [=]]|[_ Hd]]%lookup_insert_Some. by apply Hok.
  - intros d. rewrite lookup_insert_Some. split.
    + intros [[-> _]|[_ Hd]]; [split; [done|by apply is_pool_page_nonzero]|].
      apply (tk_shadow_root _ _ _ Hok) in Hd. lia.
    + intros [-> _]. by left.
  - intros d path [[-> [= <-]]|[_ Hd]]%lookup_insert_Some.
    + split; [simpl; lia|]. intros k Hk. left. by apply Hz.
    + destruct (tk_shadow _ _ _ Hok _ _ Hd) as (Hl & Hj). split; [done|]. intros j Hj'.
      destruct (Hj j Hj') as [|[(? & b & ? & Hb)|?]]; [by left| |by right; right].
      right; left. split; [done|]. exists b. rewrite lookup_insert_ne by eauto. done.
  - intros d path j [[_ [= Hp]]|[_ Hd]]%lookup_insert_Some; [by destruct path|].
    destruct (tk_link _ _ _ Hok _ _ _ Hd) as (Hj & b & Hb & He). split; [done|].
    exists b. rewrite lookup_insert_ne by eauto. done.
Qed.

End update.

(** ** Paths through the shadow tree *)

Section paths.
Context (sp : Z) (G : gmap Z PageRole) (m : mem_t) (Hok : tables_ok sp G m).

(** One page per place. *)
Lemma role_inj path c d :
  G !! c = Some (RShadow path) -> G !! d = Some (RShadow path) -> c = d.
Proof.
  revert c d. induction path as [|k path IH] using rev_ind; intros c d Hc Hd.
  - apply (tk_shadow_root _ _ _ Hok) in Hc, Hd. lia.
  - destruct (tk_link _ _ _ Hok _ _ _ Hc) as (_ & t & Ht & He).
    destruct (tk_link _ _ _ Hok _ _ _ Hd) as (_ & u & Hu & He').
    rewrite (IH _ _ Ht Hu) in He. rewrite He in He'.
    eapply table_entry_inj; [by eapply tk_pool..|done].
Qed.

(** Every node's ancestors are there. *)
Lemma role_prefix q r c : G !! c = Some (RShadow (q ++ r)) -> exists d, G !! d = Some (RShadow q).
Proof.
  revert c. induction r as [|k r IH] using rev_ind; intros c Hc.
  - rewrite app_nil_r in Hc. eauto.
  - rewrite app_assoc in Hc. destruct (tk_link _ _ _ Hok _ _ _ Hc) as (_ & t & Ht & _). eauto.
Qed.

Lemma path_entry_cons t k ks c :
  ks <> [] -> is_pool_page c -> entry m t k = table_entry c ->
  path_entry m t (k :: ks) = path_entry m c ks.
Proof.
  intros Hks Hc He. pose proof (table_entry_range c Hc).
  destruct ks as [|k' ks]; [done|]. cbn [path_entry].
  rewrite He, (proj2 (Z.eqb_neq (table_entry c) 0)) by lia. by rewrite table_entry_unpack.
Qed.

Lemma path_entry_zero t k ks : entry m t k = 0 -> path_entry m t (k :: ks) = 0.
Proof. intros He. destruct ks; cbn [path_entry]; by rewrite He. Qed.

(** Following the path of a node arrives at the node. *)
Lemma path_entry_app t u q r ks :
  G !! t = Some (RShadow q) -> G !! u = Some (RShadow (q ++ r)) -> ks <> [] ->
  path_entry m t (r ++ ks) = path_entry m u ks.
Proof.
  intros Ht Hu Hks. revert t q Ht Hu. induction r as [|k r IH]; intros t q Ht Hu.
  - rewrite app_nil_r in Hu. by rewrite (role_inj _ _ _ Ht Hu).
  - assert (q ++ k :: r = (q ++ [k]) ++ r) as E by (by rewrite <- app_assoc).
    rewrite E in Hu. destruct (role_prefix _ _ _ Hu) as [d Hd].
    destruct (tk_link _ _ _ Hok _ _ _ Hd) as (_ & t' & Ht' & He).
    rewrite (role_inj _ _ _ Ht' Ht) in He. cbn [app].
    rewrite (path_entry_cons _ _ _ d); [by apply (IH d (q ++ [k]))| |by eapply tk_pool|done].
    by destruct r, ks.
Qed.

(** The entry at a node [t] is the one every walk along its path finds. *)
Lemma path_entry_node t path k :
  G !! t = Some (RShadow path) -> path_entry m sp (path ++ [k]) = entry m t k.
Proof.
  intros Ht. assert (exists d, G !! d = Some (RShadow [])) as [d Hd]
    by (by apply (role_prefix [] path t)).
  pose proof (proj1 (tk_shadow_root _ _ _ Hok d) Hd) as [-> _].
  by rewrite (path_entry_app sp t [] path [k] Hd Ht).
Qed.

(** Memories that agree on the nodes agree on every walk. *)
Lemma path_entry_same m' t q ks :
  G !! t = Some (RShadow q) -> length (q ++ ks) = 3%nat -> Forall (fun k => 0 <= k < 512) ks ->
  (forall t' q' k, G !! t' = Some (RShadow q') -> 0 <= k < 512 ->
     (q' ++ [k] = take (length q' + 1) (q ++ ks)) ->
     entry m' t' k = entry m t' k \/
     (length q' < 2)%nat /\ entry m t' k = 0 /\
       exists c, is_pool_page c /\ zero_table m' c /\ entry m' t' k = table_entry c) ->
  path_entry m' t ks = path_entry m t ks.
Proof.
  revert t q. induction ks as [|k ks IH]; intros t q Ht Hlen Hks Hsame; [done|].
  apply Forall_cons in Hks as [Hk Hks].
  assert (q ++ [k] = take (length q + 1) (q ++ k :: ks)) as Hpre.
  { rewrite take_app_add'. by rewrite firstn_cons, take_0. done. }
  destruct (Hsame t q k Ht Hk Hpre) as [He|(Hl & He & c & Hc & Hz & He')].
  - destruct ks as [|k' ks]; [by cbn [path_entry]|].
    destruct (tk_shadow _ _ _ Hok _ _ Ht) as [_ Hent].
    destruct (Hent k Hk) as [H0|[(Hl & d & Hd & Hgd)|[Hl _]]].
    + cbn [path_entry]. by rewrite He, H0.
    + assert (is_pool_page d) as Hpd by (by eapply tk_pool).
      rewrite (path_entry_cons t k (k' :: ks) d) by done.
      pose proof (table_entry_range d Hpd).
      transitivity (path_entry m' d (k' :: ks)).
      { cbn [path_entry]. rewrite He, Hd, (proj2 (Z.eqb_neq (table_entry d) 0)) by lia.
        by rewrite table_entry_unpack. }
      apply (IH d (q ++ [k]) Hgd); [rewrite <- app_assoc; done|done|].
      rewrite <- app_assoc. cbn [app]. done.
    + rewrite length_app in Hlen. simpl in Hlen. lia.
  - destruct ks as [|k' ks]; [rewrite length_app in Hlen; simpl in Hlen; lia|].
    rewrite (path_entry_zero t k _ He). pose proof (table_entry_range c Hc).
    cbn [path_entry]. rewrite He', (proj2 (Z.eqb_neq (table_entry c) 0)) by lia.
    rewrite table_entry_unpack by done. cbn [numeric_address].
    apply Forall_cons in Hks as [Hk' _].
    destruct ks; cbn [path_entry]; by rewrite (Hz k' Hk').
Qed.

End paths.

Lemma vpns_range lvl va : Forall (fun k => 0 <= k < 512) (vpns lvl va).
Proof. induction lvl; cbn [vpns]; repeat constructor; try apply vpn_range; done. Qed.

Lemma length_vpns lvl va : length (vpns lvl va) = S lvl.
Proof. induction lvl; simpl; [done|by rewrite IHlvl]. Qed.

(** Addresses below 2^39 with the same indices are in the same page. *)
Lemma vpns_same_page va va' :
  0 <= va < 2 ^ 39 -> 0 <= va' < 2 ^ 39 -> vpns 2 va = vpns 2 va' -> va / 4096 = va' / 4096.
Proof.
  unfold vpns, vpn. simpl Z.of_nat. change (12 + 9 * 2) with 30. change (12 + 9 * 1) with 21.
  change (12 + 9 * 0) with 12. change (2 ^ 30) with 1073741824. change (2 ^ 21) with 2097152.
  change (2 ^ 12) with 4096. change (2 ^ 39) with 549755813888.
  intros ?? [= H1 H2 H3]. Z.div_mod_to_equations; lia.
Qed.

(** No table but the machine root, empty. *)
Lemma tables_ok_empty m : zero_table m root -> tables_ok 0 ∅ m.
Proof.
  intros Hz. split.
  - intros c r H. by rewrite lookup_empty in H.
  - intros i Hi. left. by apply Hz.
  - intros c i H. by rewrite lookup_empty in H.
  - intros c. rewrite lookup_empty. naive_solver.
  - intros c path H. by rewrite lookup_empty in H.
  - intros c path k H. by rewrite lookup_empty in H.
Qed.

End tables.
