(* ===== verification/VmemSpec.v ===== *)
(** The operations of vmem.c preserve the shape of the page tables and change
    translation exactly as intended.  The proofs use only the allocator's
    contract (PageAlloc.AllocatorContract). *)
From S2P Require Import Prelude Machine Wp Print Pte PageAlloc Vmem Tables.

(** ** What the virtual-memory code may change *)

(** Memory below the guest's, the allocator's variables, the device and the
    trace; never a register, a context or a byte of guest memory. *)
Record vm_ext (s s' : State) : Prop := {
  ve_csr : csr s' = csr s;
  ve_host : host_thread s' = host_thread s;
  ve_guests : guest_threads s' = guest_threads s;
  ve_target : interrupt_target s' = interrupt_target s;
  ve_mtimecmp : clint_mtimecmp s' = clint_mtimecmp s;
  ve_guest_mem x : HYPERVISOR_END <= x -> mem s' !! x = mem s !! x }.

#[export] Instance vm_ext_preorder : PreOrder vm_ext.
Proof.
  split; [by split|]. intros s1 s2 s3 [] []. split; try congruence.
  intros x Hx. by rewrite ve_guest_mem1, ve_guest_mem0.
Qed.

(** The device and the trace are free, everything else is as before. *)
Definition quiet (s s' : State) : Prop :=
  exists t c tr, s' = set_trace tr (with_io t c s).

#[export] Instance quiet_preorder : PreOrder quiet.
Proof.
  split.
  - intros s. exists (tick s), (console s), (trace s). by destruct s.
  - intros s1 s2 s3 (t & c & tr & ->) (t' & c' & tr' & ->). exists t', c', tr'. by destruct s1.
Qed.

Lemma quiet_set_trace tr s : quiet s (set_trace tr s).
Proof. exists (tick s), (console s), tr. by destruct s. Qed.

Section spec.
Context {plat : Platform} {plat_ok : PlatformOk}.
Context {ai : gset Z -> State -> Prop} {ai_ok : AllocatorContract ai}.

(** The hart is in the hypervisor on behalf of guest thread (0, 0), whose
    context is [g], and the page tables are well formed. *)
Record vm_inv (g : GuestThreadContext) (G : gmap Z PageRole) (s : State) : Prop := {
  vi_scratch : mscratch_ok s;
  vi_current : current_guest (host_thread s) = (0, 0);
  vi_guest : guest_threads s !! (0, 0) = Some g;
  vi_alloc : ai (dom G) s;
  vi_tables : tables_ok (shadow_page_table g) G (mem s) }.

Lemma io_ext_quiet s s' : io_ext s s' -> quiet s s'.
Proof. intros (t & c & ->). eexists t, _, (trace s). by destruct s. Qed.

Lemma quiet_vm_ext s s' : quiet s s' -> vm_ext s s'.
Proof. intros (t & c & tr & ->). by split. Qed.

Lemma ai_quiet own s s' : ai own s -> quiet s s' -> ai own s'.
Proof.
  intros H (t & c & tr & ->). eapply ai_frame; [done|]. split_and!; try done.
Qed.

Lemma vm_inv_quiet g G s s' : vm_inv g G s -> quiet s s' -> vm_inv g G s'.
Proof.
  intros [] Hq. pose proof (ai_quiet _ _ _ vi_alloc0 Hq) as Ha.
  destruct Hq as (t & c & tr & ->). by split.
Qed.

Lemma quiet_mem s s' : quiet s s' -> mem s' = mem s.
Proof. by intros (t & c & tr & ->). Qed.

Lemma io_ext_trace s s' : io_ext s s' -> trace s' = trace s.
Proof. by intros (t & c & ->). Qed.

(** A store to an entry of a table known to the invariant, or to a fresh one,
    leaves the allocator's own pages alone. *)
Lemma alloc_untouched_store own s t i v :
  is_table t -> (t = root \/ t ∈ own) -> 0 <= i < 512 ->
  alloc_untouched own s (set_mem (store64 (mem s) (entry_addr t i) v) s).
Proof.
  intros Ht Hown Hi. split_and!; try done. intros p Hp Hpo. apply store64_agree.
  unfold entry_addr. destruct (is_table_disjoint t p Ht ltac:(by left)); [|lia..].
  intros ->. destruct Hown as [->|]; [by apply root_not_pool|done].
Qed.

Lemma ai_store own s t i v :
  ai own s -> is_table t -> (t = root \/ t ∈ own) -> 0 <= i < 512 ->
  ai own (set_mem (store64 (mem s) (entry_addr t i) v) s).
Proof. intros. eapply ai_frame; [done|]. by apply alloc_untouched_store. Qed.

Lemma vm_ext_store s t i v :
  is_table t -> 0 <= i < 512 ->
  vm_ext s (set_mem (store64 (mem s) (entry_addr t i) v) s).
Proof.
  intros Ht%is_table_bounds Hi. split; try done. intros x Hx. simpl.
  symmetry. apply (store64_agree _ _ _ HYPERVISOR_END (x - HYPERVISOR_END + 1)); [|lia].
  unfold entry_addr. lia.
Qed.

(** ** allocate_pagepable *)

Lemma allocate_pagepable_spec own s :
  ai own s ->
  wp no_panic allocate_pagepable (fun c s' =>
    (c = 0 /\ s' = s /\ forall q, is_pool_page q -> q ∈ own) \/
    ((c ∉ own) /\ is_pool_page c /\ ai ({[c]} ∪ own) s' /\ zero_table (mem s') c /\
     vm_ext s s' /\ (forall a n, a + n <= c \/ c + 4096 <= a -> mem_agree a n (mem s) (mem s')))) s.
Proof.
  intros Hai. unfold allocate_pagepable. wp_step. wp_apply (ai_allocate own s Hai).
  intros c s1 [(-> & -> & Hfull)|(Hc & Hpool & Hai1 & top & idx & Hs1)].
  { apply wp_ret. by left. }
  rewrite (proj2 (Z.eqb_neq _ _) (is_pool_page_nonzero _ Hpool)). wp_step.
  apply wp_for_range with (I := fun i s2 =>
    ai ({[c]} ∪ own) s2 /\ (forall k, 0 <= k < i -> entry (mem s2) c k = 0) /\
    vm_ext s1 s2 /\ forall a n, a + n <= c \/ c + 4096 <= a -> mem_agree a n (mem s1) (mem s2)).
  - lia.
  - split; [done|]. split; [lia|]. by split.
  - intros i s2 Hi (H1 & H2 & H3 & H4). wp_step. split; [|split; [|split]].
    + eapply ai_quiet; [apply (ai_store _ s2 c i 0 H1); [by left|set_solver|lia]|].
      apply quiet_set_trace.
    + simpl. intros k Hk. rewrite entry_store by (lia || by left).
      case_decide; [done|]. apply H2. destruct (decide (k = i)); [naive_solver|lia].
    + etrans; [done|]. etrans; [apply (vm_ext_store s2 c i 0); [by left|lia]|].
      apply quiet_vm_ext. apply quiet_set_trace.
    + simpl. intros a n Ha. eapply mem_agree_trans; [by apply H4|]. apply store64_agree.
      unfold entry_addr. lia.
  - intros s2 (H1 & H2 & H3 & H4). apply wp_ret. right.
    assert (vm_ext s s1) by (by rewrite Hs1).
    assert (mem s1 = mem s) as <- by (by rewrite Hs1).
    split_and!; try done. by etrans.
Qed.

(** Entries of the tables in use before. *)
Definition same_entries (G : gmap Z PageRole) (m m' : mem_t) : Prop :=
  forall t i, (t = root \/ is_Some (G !! t)) -> 0 <= i < 512 -> entry m' t i = entry m t i.

(** The same, in a state that satisfies the invariant. *)
Lemma allocate_pagepable_inv g G s :
  vm_inv g G s ->
  wp no_panic allocate_pagepable (fun c s' =>
    (c = 0 /\ s' = s /\ forall q, is_pool_page q -> is_Some (G !! q)) \/
    (G !! c = None /\ is_pool_page c /\ zero_table (mem s') c /\ vm_ext s s' /\
     ai ({[c]} ∪ dom G) s' /\ tables_ok (shadow_page_table g) G (mem s') /\
     same_entries G (mem s) (mem s'))) s.
Proof.
  intros [Hsc Hcur Hg Hal Htab]. wp_apply (allocate_pagepable_spec _ _ Hal).
  intros c s' [(-> & -> & Hfull)|(Hc & Hpool & Hai & Hz & Hext & Hmem)].
  { left. split_and!; try done. intros q Hq. by apply elem_of_dom, Hfull. }
  right. apply not_elem_of_dom in Hc.
  assert (forall t, is_table t -> t <> c -> mem_agree t 4096 (mem s) (mem s')) as Hag.
  { intros t Ht Hne. apply Hmem.
    destruct (is_table_disjoint t c Ht ltac:(by left) Hne); lia. }
  assert (root <> c) as Hrc by (intros <-; by apply root_not_pool).
  split_and!; try done.
  - eapply tables_ok_agree; [done| |].
    + apply Hag; [by right|done].
    + intros d r Hd. apply Hag; [by eapply tables_ok_is_table|]. intros ->. congruence.
  - intros t i Ht Hi. symmetry. apply entry_agree; [|done].
    destruct Ht as [->|[r Hr]]; apply Hag; [by right|done|by eapply tables_ok_is_table|].
    intros ->. congruence.
Qed.

(** Re-establishing the invariant after a store to a table entry. *)
Lemma vm_inv_store g G G' s0 s t i v :
  vm_inv g G s0 -> vm_ext s0 s -> ai (dom G') s ->
  is_table t -> (t = root \/ is_Some (G' !! t)) -> 0 <= i < 512 ->
  tables_ok (shadow_page_table g) G' (store64 (mem s) (entry_addr t i) v) ->
  let s' := set_trace (EvPteWrite (entry_addr t i) v :: trace s)
              (set_mem (store64 (mem s) (entry_addr t i) v) s) in
  vm_inv g G' s' /\ vm_ext s0 s'.
Proof.
  intros [Hsc Hcur Hg Hal Htab] Hext Hai Ht Htown Hi Hok. cbn zeta.
  set (s1 := set_mem (store64 (mem s) (entry_addr t i) v) s).
  assert (quiet s1 (set_trace (EvPteWrite (entry_addr t i) v :: trace s) s1)) as Hq
    by apply quiet_set_trace.
  assert (vm_ext s0 s1) as Hext1 by (etrans; [done|by apply vm_ext_store]).
  split; [|etrans; [done|by apply quiet_vm_ext]].
  eapply vm_inv_quiet; [|done]. destruct Hext1. split.
  - unfold mscratch_ok in *. by rewrite ve_csr0.
  - by rewrite ve_host0.
  - by rewrite ve_guests0.
  - apply ai_store; try done. destruct Htown as [|Hin]; [by left|right].
    by apply elem_of_dom.
  - done.
Qed.

(** ** The machine table *)

(** The entry that maps [va] in the machine table. *)
Definition machine_entry (m : mem_t) (va : Z) : Z := path_entry m root [vpn 2 va; vpn 1 va].

Lemma machine_translate_entry sp G m va :
  tables_ok sp G m -> 0 <= va < 2 ^ 39 ->
  sv39_translate m root va =
    if machine_entry m va =? 0 then None else Some (va + GUEST_MEMORY_OFFSET, 31).
Proof.
  intros Hok Hva. unfold machine_entry.
  destruct (tk_root _ _ _ Hok (vpn 2 va) (vpn_range _ _)) as [H2|(c & H2 & Hc)].
  { rewrite path_entry_zero by done. by apply machine_translate_miss. }
  pose proof (tk_pool _ _ _ Hok _ _ Hc) as Hpool.
  destruct (tk_machine _ _ _ Hok _ _ Hc) as (_ & _ & Hc').
  rewrite (path_entry_cons _ _ _ _ c) by done. cbn [path_entry].
  destruct (Hc' (vpn 1 va) (vpn_range _ _)) as [H1|H1]; rewrite H1.
  - by eapply machine_translate_miss2.
  - rewrite (proj2 (Z.eqb_neq _ _)); [by eapply machine_translate_hit|].
    pose proof (machine_leaf_range (vpn 2 va) (vpn 1 va) (vpn_range _ _) (vpn_range _ _)). lia.
Qed.

(** Translation through the machine table away from [region] and through the
    shadow table is unchanged. *)
Definition same_views (sp : Z) (region : Z -> Prop) (m m' : mem_t) : Prop :=
  (forall va, ~ region va -> machine_entry m' va = machine_entry m va) /\
  (sp <> 0 -> forall va, shadow_entry m' sp va = shadow_entry m sp va).

Lemma same_views_trans sp region m1 m2 m3 :
  same_views sp region m1 m2 -> same_views sp region m2 m3 -> same_views sp region m1 m3.
Proof.
  intros [H1 H2] [H3 H4]. split.
  - intros va Hva. by rewrite H3, H1.
  - intros Hsp va. by rewrite H4, H2.
Qed.

Lemma same_views_weaken sp (r r' : Z -> Prop) m m' :
  same_views sp r m m' -> (forall va, r va -> r' va) -> same_views sp r' m m'.
Proof. intros [H1 H2] Hr. split; [|done]. intros va Hva. apply H1. eauto. Qed.

(** A walk from the shadow root sees only shadow nodes. *)
Lemma shadow_entry_same sp G m m' va :
  tables_ok sp G m -> sp <> 0 ->
  (forall t q k, G !! t = Some (RShadow q) -> 0 <= k < 512 ->
     entry m' t k = entry m t k \/
     (length q < 2)%nat /\ entry m t k = 0 /\
       exists c, is_pool_page c /\ zero_table m' c /\ entry m' t k = table_entry c) ->
  shadow_entry m' sp va = shadow_entry m sp va.
Proof.
  intros Hok Hsp Hsame. unfold shadow_entry.
  apply (path_entry_same sp G m Hok m' sp []).
  - by apply Hok.
  - apply length_vpns.
  - apply vpns_range.
  - intros. eauto.
Qed.

Lemma same_entries_views sp G m m' :
  tables_ok sp G m -> same_entries G m m' -> same_views sp (fun _ => False) m m'.
Proof.
  intros Hok Hsame. split.
  - intros va _. unfold machine_entry. pose proof (vpn_range 2 va) as H2. cbn [path_entry].
    rewrite (Hsame root (vpn 2 va)) by (done || by left).
    destruct (tk_root _ _ _ Hok (vpn 2 va) H2) as [H0|(c & He & Hc)]; [by rewrite H0|].
    case_match; [done|]. rewrite He, table_entry_unpack by (by eapply tk_pool).
    apply Hsame; [right; eauto|apply vpn_range].
  - intros Hsp va. eapply shadow_entry_same; [done..|]. intros t q k Ht Hk. left.
    apply Hsame; [right; eauto|done].
Qed.

Lemma add_machine_views sp G m c i :
  tables_ok sp G m -> G !! c = None -> is_pool_page c -> zero_table m c -> 0 <= i < 512 ->
  entry m root i = 0 ->
  same_views sp (fun _ => False) m (store64 m (entry_addr root i) (table_entry c)).
Proof.
  intros Hok HGc Hpc Hz Hi H0. set (m' := store64 _ _ _).
  pose proof (table_entry_range c Hpc) as Hr.
  assert (forall t j, is_table t -> 0 <= j < 512 ->
    entry m' t j = if decide (t = root /\ j = i) then table_entry c else entry m t j) as E
    by (intros; apply entry_store; [by right|done..|lia]).
  assert (forall t r j, G !! t = Some r -> 0 <= j < 512 -> entry m' t j = entry m t j) as Ek.
  { intros t r j Ht Hj. rewrite E by (done || by eapply tables_ok_is_table).
    rewrite decide_False; [done|]. intros [-> _].
    apply root_not_pool. by eapply tk_pool. }
  split.
  - intros va _. unfold machine_entry. cbn [path_entry]. pose proof (vpn_range 2 va) as H2.
    rewrite (E root (vpn 2 va)) by (done || by right). case_decide as Hd.
    + destruct Hd as [_ ->]. rewrite H0, (proj2 (Z.eqb_neq (table_entry c) 0)) by lia.
      rewrite table_entry_unpack by done. cbn [numeric_address Z.eqb].
      pose proof (vpn_range 1 va). rewrite E by (done || by left).
      rewrite decide_False; [by apply Hz|]. intros [-> _]. by apply root_not_pool.
    + destruct (tk_root _ _ _ Hok (vpn 2 va) H2) as [H|(d & He & Hd')]; [by rewrite H|].
      case_match; [done|]. rewrite He, table_entry_unpack by (by eapply tk_pool).
      eapply Ek; [done|apply vpn_range].
  - intros Hsp va. eapply shadow_entry_same; [done..|]. intros t q k Ht Hk. left. by eapply Ek.
Qed.

Lemma set_machine_views sp G m c i j :
  tables_ok sp G m -> G !! c = Some (RMachine i) -> 0 <= j < 512 ->
  let m' := store64 m (entry_addr c j) (machine_leaf i j) in
  same_views sp (fun va => vpn 2 va = i /\ vpn 1 va = j) m m' /\
  (forall va, vpn 2 va = i -> vpn 1 va = j -> machine_entry m' va = machine_leaf i j).
Proof.
  intros Hok HG Hj m'. destruct (tk_machine _ _ _ Hok _ _ HG) as (Hi & Hroot & _).
  pose proof (machine_leaf_range i j ltac:(lia) Hj) as Hr.
  assert (is_pool_page c) as Hpc by (by eapply tk_pool).
  pose proof (table_entry_range c Hpc) as Hte.
  assert (forall t k, is_table t -> 0 <= k < 512 ->
    entry m' t k = if decide (t = c /\ k = j) then machine_leaf i j else entry m t k) as E
    by (intros; apply entry_store; [by left|done..|lia]).
  assert (forall k, 0 <= k < 512 -> entry m' root k = entry m root k) as Er.
  { intros k Hk. rewrite E by (done || by right). rewrite decide_False; [done|].
    intros [Hrc _]. rewrite <- Hrc in Hpc. by apply root_not_pool. }
  split; [split|].
  - intros va Hva. unfold machine_entry. cbn [path_entry]. rewrite Er by apply vpn_range.
    destruct (tk_root _ _ _ Hok (vpn 2 va) (vpn_range _ _)) as [H|(d & He & Hd)]; [by rewrite H|].
    case_match; [done|]. rewrite He, table_entry_unpack by (by eapply tk_pool).
    cbn [numeric_address]. rewrite E; [|by eapply tables_ok_is_table|apply vpn_range].
    rewrite decide_False; [done|]. intros [-> Hv]. apply Hva. split; [|done].
    rewrite HG in Hd. by injection Hd as [= ->].
  - intros Hsp va. eapply shadow_entry_same; [done..|]. intros t q k Ht Hk. left.
    rewrite E; [|by eapply tables_ok_is_table|done]. rewrite decide_False; [done|].
    intros [-> _]. congruence.
  - intros va <- <-. unfold machine_entry. cbn [path_entry]. rewrite Er, Hroot by (done || lia).
    rewrite (proj2 (Z.eqb_neq (table_entry c) 0)) by lia.
    rewrite table_entry_unpack by done. cbn [numeric_address].
    rewrite E by (done || by left). by rewrite decide_True.
Qed.

(** ** ensure_guest_machine_mapped *)

(** The test for addresses beyond Sv39. *)
Lemma beyond_sv39 va : 0 <= va -> (512 <=? Z.shiftr va 30) = (2 ^ 39 <=? va).
Proof.
  intros. rewrite Z.shiftr_div_pow2 by lia. change (2 ^ 39) with 549755813888. change (2 ^ 30) with 1073741824.
  destruct (Z.leb_spec 549755813888 va); [apply Z.leb_le|apply Z.leb_gt]; Z.div_mod_to_equations; lia.
Qed.

Lemma lvl3_vpn gm : 0 <= gm < 2 ^ 39 -> Z.shiftr gm 30 = vpn 2 gm.
Proof.
  intros. rewrite Z.shiftr_div_pow2 by lia. unfold vpn. change (12 + 9 * Z.of_nat 2) with 30.
  rewrite Z.mod_small; [done|]. change (2 ^ 39) with 549755813888 in *.
  change (2 ^ 30) with 1073741824. Z.div_mod_to_equations; lia.
Qed.

Lemma shift_mask_vpn gm lvl : Z.land (Z.shiftr gm (12 + 9 * Z.of_nat lvl)) 0x1FF = vpn lvl gm.
Proof.
  rewrite Z.shiftr_div_pow2 by lia. change 0x1FF with (2 ^ 9 - 1). by rewrite land_low by lia.
Qed.

Lemma lvl_bits_add i j : 0 <= i -> 0 <= j < 512 ->
  Z.lor (Z.shiftl i 30) (Z.shiftl j 21) = i * 2 ^ 30 + j * 2 ^ 21.
Proof.
  intros. rewrite !Z.shiftl_mul_pow2 by lia. apply lor_disjoint_add; [lia|].
  change (2 ^ 21) with 2097152. change (2 ^ 30) with 1073741824. lia.
Qed.

Lemma machine_base_small i j : 0 <= i < 512 -> 0 <= j < 512 -> 0 <= machine_base i j < 2 ^ 40.
Proof.
  intros Hi Hj. destruct (machine_base_bounds i j Hi Hj) as (H1 & H2 & _).
  unfold HOST_END, GUEST_MEMORY_OFFSET in *.
  change (2 ^ 39) with 549755813888 in *. change (2 ^ 40) with 1099511627776.
  change (2 ^ 21) with 2097152 in *. lia.
Qed.

Lemma range_index_machine gm : 0 <= gm < 2 ^ 39 ->
  range_index (machine_base (vpn 2 gm) (vpn 1 gm)) gm = gm + GUEST_MEMORY_OFFSET.
Proof.
  intros Hgm. unfold range_index. rewrite PGSIZE_eq.
  change 12 with (12 + 9 * Z.of_nat 0). rewrite shift_mask_vpn.
  change 0xFFF with (2 ^ 12 - 1). rewrite land_low by lia.
  unfold machine_base. pose proof (va_split gm Hgm) as Hs.
  replace (vpn 2 gm * 2 ^ 30 + vpn 1 gm * 2 ^ 21 + GUEST_MEMORY_OFFSET + 4096 * vpn 0 gm
    + gm mod 2 ^ 12) with (gm + GUEST_MEMORY_OFFSET).
  - apply u64_id. unfold GUEST_MEMORY_OFFSET. change (2 ^ 39) with 549755813888 in *. lia.
  - unfold vpn at 3. change (12 + 9 * Z.of_nat 0) with 12. change (2 ^ 12) with 4096.
    change (2 ^ 21) with 2097152 in *. change (2 ^ 30) with 1073741824 in *.
    revert Hs. generalize (vpn 2 gm) (vpn 1 gm). intros a b Hs. Z.div_mod_to_equations; lia.
Qed.

Lemma wp_print_string_quiet Pn str (Q : unit -> State -> Prop) s :
  (forall s', quiet s s' -> trace s' = trace s -> Q tt s') -> wp Pn (print_string str) Q s.
Proof.
  intros H. apply wp_print_string. intros s' Hs'. apply H; [by apply io_ext_quiet|].
  by apply io_ext_trace.
Qed.
Lemma wp_print_addr_quiet Pn v (Q : unit -> State -> Prop) s :
  (forall s', quiet s s' -> trace s' = trace s -> Q tt s') -> wp Pn (print_addr v) Q s.
Proof.
  intros H. apply wp_print_addr. intros s' Hs'. apply H; [by apply io_ext_quiet|].
  by apply io_ext_trace.
Qed.

(** The three prints that announce a lazily initialised entry. *)
Lemma wp_announce {A} Pn a v b (k : M A) (Q : A -> State -> Prop) s :
  (forall s', quiet s s' -> wp Pn k Q s') ->
  wp Pn (print_string a ;; print_addr v ;; print_string b ;; k) Q s.
Proof.
  intros H. apply wp_bind, wp_print_string_quiet. intros s1 H1 _.
  apply wp_bind, wp_print_addr_quiet. intros s2 H2 _.
  apply wp_bind, wp_print_string_quiet. intros s3 H3 _. apply H. by do 2 (etrans; [done|]).
Qed.

(** Fewer than [n] pages of the pool are free: the only reason to panic. *)
Definition pool_lacks (n : Z) (G : gmap Z PageRole) : State -> Prop :=
  fun _ => MAX_ALLOCATEABLE_PAGES < Z.of_nat (size G) + n.

Lemma pool_full_lacks (G : gmap Z PageRole) s :
  (forall q, is_pool_page q -> is_Some (G !! q)) -> pool_lacks 1 G s.
Proof.
  intros Hfull. unfold pool_lacks.
  assert (NoDup (pool_page <$> seqZ 0 MAX_ALLOCATEABLE_PAGES)) as Hnd.
  { apply NoDup_fmap_2; [intros x y; apply pool_page_inj|apply NoDup_seqZ]. }
  assert (length (pool_page <$> seqZ 0 MAX_ALLOCATEABLE_PAGES) <= length (elements (dom G)))%nat as Hle.
  { apply submseteq_length, NoDup_submseteq; [done|]. intros x (i & -> & Hi)%list_elem_of_fmap.
    apply elem_of_seqZ in Hi. apply elem_of_elements, elem_of_dom, Hfull. by exists i. }
  change (length (elements (dom G))) with (size (dom G)) in Hle.
  rewrite length_fmap, length_seqZ, size_dom in Hle. lia.
Qed.

(** At most [n] pages more. *)
Record grows (n : nat) (G G' : gmap Z PageRole) : Prop := {
  gr_sub : G ⊆ G';
  gr_size : (size G' <= size G + n)%nat }.

Lemma grows_refl n G : grows n G G.
Proof. split; [done|lia]. Qed.
Lemma grows_trans n m G G1 G2 : grows n G G1 -> grows m G1 G2 -> grows (n + m) G G2.
Proof. intros [] []. split; [by etrans|lia]. Qed.
Lemma grows_weaken n m G G' : grows n G G' -> (n <= m)%nat -> grows m G G'.
Proof. intros [] ?. split; [done|lia]. Qed.
Lemma grows_insert G p r : G !! p = None -> grows 1 G (<[p := r]> G).
Proof. intros H. split; [by apply insert_subseteq|]. rewrite map_size_insert_None by done. lia. Qed.

(** Pages that are lacking later were lacking at the start. *)
Lemma pool_lacks_grown n m k G G' s :
  grows n G G' -> pool_lacks m G' s -> Z.of_nat n + m <= k -> pool_lacks k G s.
Proof. unfold pool_lacks. intros [_ Hs]. lia. Qed.

#[local] Hint Resolve grows_refl grows_insert : core.

Lemma ensure_level3_spec g G s i :
  vm_inv g G s -> 2 <= i < 512 ->
  wp (pool_lacks 1 G) (ensure_level3 (entry_addr root i) i) (fun u s' =>
    exists c G', u = mkUnpacked c 1 /\ G' !! c = Some (RMachine i) /\ grows 1 G G' /\
      vm_inv g G' s' /\ vm_ext s s' /\
      same_views (shadow_page_table g) (fun _ => False) (mem s) (mem s') /\
      (s' = s \/ zero_table (mem s') c)) s.
Proof.
  intros Hinv Hi2. assert (0 <= i < 512) as Hi by lia. pose proof (vi_tables _ _ _ Hinv) as Htab.
  unfold ensure_level3. wp_step. apply wp_gets. cbv beta zeta.
  fold (entry (mem s) root i). destruct (tk_root _ _ _ Htab i Hi) as [H0|(c & He & Hc)].
  - rewrite H0. change (negb (has_perm (permissions (unpack_pt_entry 0)) PERMIDX_V)) with true.
    cbv iota. wp_step. apply (wp_total (pool_lacks 1 G)).
    eapply wp_post; [apply (allocate_pagepable_inv g G s Hinv)|].
    intros c s1 [(-> & -> & Hfull)|(HGc & Hpc & Hz & Hext & Hai & Htab1 & Hsame)].
    { apply wp_panic_msg; [apply Hinv|]. intros s'. by apply pool_full_lacks. }
    rewrite (proj2 (Z.eqb_neq _ _) (is_pool_page_nonzero _ Hpc)).
    change (pack_pt_entry (mkUnpacked c (perm_field (PERMBIT PERMIDX_V)))) with (table_entry c).
    assert (entry (mem s1) root i = 0) as H0' by (rewrite Hsame; [done|by left|done]).
    pose proof (tables_ok_add_machine _ _ _ Htab1 c i HGc Hpc Hz Hi2 H0') as Htab2.
    pose proof (add_machine_views _ _ _ c i Htab1 HGc Hpc Hz Hi H0') as Hviews.
    rewrite <- dom_insert_L with (x := RMachine i) in Hai.
    wp_step. wp_step.
    destruct (vm_inv_store g G _ s s1 root i (table_entry c) Hinv Hext Hai ltac:(by right)
      ltac:(by left) Hi Htab2) as [Hinv2 Hext2]. cbv zeta in *.
    set (s2 := set_trace _ _) in *. apply wp_announce. intros s3 Hq. apply wp_ret.
    exists c, (<[c := RMachine i]> G). rewrite (quiet_mem _ _ Hq).
    split_and!; try done.
    + by rewrite lookup_insert_eq.
    + by apply grows_insert.
    + by eapply vm_inv_quiet.
    + etrans; [done|by apply quiet_vm_ext].
    + eapply same_views_trans; [by eapply same_entries_views|done].
    + right. intros k Hk. simpl. rewrite entry_store; [|by right|by left|done..|].
      * rewrite decide_False; [by apply Hz|]. intros [-> _]. by apply root_not_pool.
      * pose proof (table_entry_range c Hpc). lia.
  - assert (is_pool_page c) as Hpc by (by eapply tk_pool).
    rewrite He, table_entry_unpack by done.
    change (negb (has_perm (permissions (mkUnpacked c 1)) PERMIDX_V)) with false. cbv iota.
    apply wp_ret. exists c, G. split_and!; try done. by left.
Qed.

(** The three outcomes by address range; inside guest memory the address is
    mapped at the fixed offset afterwards. *)
Definition ensure_post (g : GuestThreadContext) (gm : Z) (s : State)
    (r : PageFaultHandlerResult * option Z) (s' : State) : Prop :=
  if gm <? 0x80000000 then r = (PFHR_TOO_LOW, None) /\ s' = s
  else if 2 ^ 39 <=? gm then r = (PFHR_TOO_HIGH, None) /\ s' = s
  else
    r.2 = Some (gm + GUEST_MEMORY_OFFSET) /\
    ((r.1 = PFHR_NOT_CHANGED /\ s' = s) \/
     (r.1 = PFHR_SUCCESS /\ machine_entry (mem s) gm = 0 /\ tlb_synced (trace s') = true)) /\
    machine_entry (mem s') gm <> 0 /\
    same_views (shadow_page_table g) (fun va => vpn 2 va = vpn 2 gm /\ vpn 1 va = vpn 1 gm)
      (mem s) (mem s').

(** The machine address of [gm] goes through the entry of its level-2 table. *)
Lemma machine_entry_through m gm c : is_pool_page c -> entry m root (vpn 2 gm) = table_entry c ->
  machine_entry m gm = entry m c (vpn 1 gm).
Proof. intros Hpc Hm. unfold machine_entry. by rewrite (path_entry_cons _ _ _ _ c). Qed.

(** The state after that entry has been written. *)
Lemma machine_leaf_written g G s c gm :
  vm_inv g G s -> G !! c = Some (RMachine (vpn 2 gm)) -> is_pool_page c ->
  entry (mem s) root (vpn 2 gm) = table_entry c -> entry (mem s) c (vpn 1 gm) = 0 ->
  (let v := machine_leaf (vpn 2 gm) (vpn 1 gm) in
   let a := entry_addr c (vpn 1 gm) in
   let s' := set_trace (EvPteWrite a v :: trace s) (set_mem (store64 (mem s) a v) s) in
   vm_inv g G s' /\ vm_ext s s' /\ machine_entry (mem s') gm <> 0 /\
   same_views (shadow_page_table g) (fun va => vpn 2 va = vpn 2 gm /\ vpn 1 va = vpn 1 gm) (mem s) (mem s')).
Proof.
  intros Hinv Hc Hpc Hroot Hz. cbv zeta. pose proof (vi_tables _ _ _ Hinv) as Htab.
  pose proof (vpn_range 2 gm) as Hi. pose proof (vpn_range 1 gm) as Hj.
  pose proof (tables_ok_set_machine _ _ _ Htab c _ _ Hc Hj) as Htab2.
  destruct (set_machine_views _ _ _ c _ _ Htab Hc Hj) as [Hviews Hnewent].
  destruct (vm_inv_store g G G s s c (vpn 1 gm) _ Hinv ltac:(done) (vi_alloc _ _ _ Hinv)
    ltac:(by left) ltac:(right; eauto) Hj Htab2) as [Hinv2 Hext2]. cbv zeta in *.
  split; [exact Hinv2|]. split; [exact Hext2|]. split; [|exact Hviews].
  simpl. rewrite Hnewent by done. pose proof (machine_leaf_range _ _ Hi Hj). lia.
Qed.

(** Guest memory starts at the third gigabyte. *)
Lemma ram_index gm : 0x80000000 <= gm < 2 ^ 39 -> 2 <= vpn 2 gm < 512.
Proof.
  intros Hgm. rewrite <- (lvl3_vpn gm) by lia. rewrite Z.shiftr_div_pow2 by lia.
  change (2 ^ 39) with 549755813888 in *. change (2 ^ 30) with 1073741824. Z.div_mod_to_equations; lia.
Qed.

(** What ensure_level2 does to the entry of [gm] in its machine table [c]. *)
Definition level2_post (g : GuestThreadContext) (c gm : Z) (s : State)
    (r : PageFaultHandlerResult * option Z) (s' : State) : Prop :=
  r.2 = Some (gm + GUEST_MEMORY_OFFSET) /\ machine_entry (mem s') gm <> 0 /\
  same_views (shadow_page_table g) (fun va => vpn 2 va = vpn 2 gm /\ vpn 1 va = vpn 1 gm) (mem s) (mem s') /\
  ((r.1 = PFHR_NOT_CHANGED /\ s' = s /\ entry (mem s) c (vpn 1 gm) <> 0) \/
   (r.1 = PFHR_SUCCESS /\ entry (mem s) c (vpn 1 gm) = 0 /\ tlb_synced (trace s') = true)).

Lemma ensure_level2_spec g G s c gm :
  vm_inv g G s -> G !! c = Some (RMachine (vpn 2 gm)) -> 0x80000000 <= gm < 2 ^ 39 ->
  wp no_panic (ensure_level2 (entry_addr c (vpn 1 gm)) (vpn 2 gm) (vpn 1 gm) gm) (fun r s' =>
    vm_inv g G s' /\ vm_ext s s' /\ level2_post g c gm s r s') s.
Proof.
  intros Hinv Hc Hgm. pose proof (vi_tables _ _ _ Hinv) as Htab. unfold ensure_level2.
  pose proof (vpn_range 2 gm) as Hi. pose proof (vpn_range 1 gm) as Hj.
  wp_step. apply wp_gets. cbv beta zeta. fold (entry (mem s) c (vpn 1 gm)).
  destruct (tk_machine _ _ _ Htab _ _ Hc) as (_ & Hroot & Hent).
  assert (is_pool_page c) as Hpc by (by eapply tk_pool).
  destruct (Hent _ Hj) as [Hz0|Hl].
  - rewrite Hz0. change (has_perm (permissions (unpack_pt_entry 0)) PERMIDX_V) with false. cbv iota.
    rewrite lvl_bits_add by lia. fold (machine_base (vpn 2 gm) (vpn 1 gm)).
    pose proof (machine_base_small _ _ Hi Hj) as Hmb.
    rewrite u64_id by (change (2 ^ 40) with 1099511627776 in *; lia).
    change (perm_field MACHINE_LEAF_PERMS) with 31.
    change (pack_pt_entry (mkUnpacked (machine_base (vpn 2 gm) (vpn 1 gm)) 31))
      with (machine_leaf (vpn 2 gm) (vpn 1 gm)).
    destruct (machine_leaf_written g G s c gm Hinv Hc Hpc Hroot Hz0) as (Hinv2 & Hext2 & Hne & Hviews2).
    cbv zeta in *.
    wp_step. wp_step. apply wp_announce. intros s3 Hq.
    wp_step. wp_step. apply wp_ret. cbn [numeric_address]. set (s2 := set_trace _ _) in *.
    assert (quiet s2 (set_trace (EvSfence None None :: trace s3) s3)) as Hq'.
    { etrans; [done|apply quiet_set_trace]. }
    split; [by eapply vm_inv_quiet|]. split; [etrans; [done|by apply quiet_vm_ext]|].
    unfold level2_post. cbn [fst snd]. rewrite (quiet_mem _ _ Hq'), range_index_machine by lia.
    split_and!; try done. by right.
  - pose proof (machine_leaf_range _ _ Hi Hj) as Hlr. rewrite Hl, machine_leaf_unpack by done.
    change (has_perm (permissions (mkUnpacked (machine_base (vpn 2 gm) (vpn 1 gm)) 31)) PERMIDX_V)
      with true. cbv iota. apply wp_ret. cbn [numeric_address]. rewrite range_index_machine by lia.
    split; [done|]. split; [done|]. unfold level2_post. cbn [fst snd].
    rewrite (machine_entry_through _ _ c), Hl by done. split_and!; try done; [lia|left; split_and!; try done; lia].
Qed.

Lemma ensure_spec_total g G s ctx gm :
  vm_inv g G s -> current_guest ctx = (0, 0) ->
  wp (pool_lacks 1 G) (ensure_guest_machine_mapped ctx gm) (fun r s' =>
    exists G', grows 1 G G' /\ vm_inv g G' s' /\ vm_ext s s' /\ ensure_post g gm s r s') s.
Proof.
  intros Hinv Hctx. unfold ensure_guest_machine_mapped, ensure_post.
  destruct (Z.ltb_spec gm 0x80000000); [apply wp_ret; exists G; by split_and!; auto|].
  rewrite beyond_sv39 by lia.
  destruct (Z.leb_spec (2 ^ 39) gm); [apply wp_ret; exists G; by split_and!; auto|].
  assert (0 <= gm < 2 ^ 39) as Hr by lia.
  change (Z.land (Z.shiftr gm 21) 0x1FF) with (Z.land (Z.shiftr gm (12 + 9 * Z.of_nat 1)) 0x1FF).
  rewrite shift_mask_vpn, (lvl3_vpn gm Hr), Hctx. cbn [fst]. pose proof (ram_index gm ltac:(lia)) as Hi2.
  change (machine_root 0) with root. wp_step.
  eapply wp_post; [by apply (ensure_level3_spec g G s (vpn 2 gm))|].
  intros u s1 (c & G1 & -> & Hc & Hsub & Hinv1 & Hext1 & Hviews1 & Hnew). cbn [numeric_address].
  apply wp_total. eapply wp_post; [apply (ensure_level2_spec g G1 s1 c gm Hinv1 Hc); lia|].
  intros [r o] s2 (Hinv2 & Hext2 & Ho & Hne & Hviews2 & Hr2). cbn [fst snd] in *. exists G1.
  destruct (tk_machine _ _ _ (vi_tables _ _ _ Hinv1) _ _ Hc) as (_ & Hroot & _).
  assert (is_pool_page c) as Hpc by (by eapply tk_pool; [apply Hinv1|]).
  split_and!; try done; [by etrans| |eapply same_views_trans; [|exact Hviews2]; eapply same_views_weaken; [done|tauto]].
  destruct Hr2 as [(-> & -> & Hl)|(-> & Hz0 & Hsync)]; [left|right]; split; try done.
  - destruct Hnew as [|Hz]; [done|]. by destruct Hl; apply Hz, vpn_range.
  - split; [|done]. destruct Hviews1 as [Hv _]. rewrite <- Hv by tauto. by rewrite (machine_entry_through _ _ c).
Qed.

Lemma ensure_spec g G s ctx gm :
  vm_inv g G s -> current_guest ctx = (0, 0) ->
  wp any_panic (ensure_guest_machine_mapped ctx gm) (fun r s' =>
    exists G', grows 1 G G' /\ vm_inv g G' s' /\ vm_ext s s' /\ ensure_post g gm s r s') s.
Proof. intros. eapply wp_any. by apply ensure_spec_total. Qed.

End spec.
