(* ===== verification/ShadowSpec.v ===== *)
(** The shadow page tables: building them on demand (update_shadow_pt) and
    tearing them down (clear_pagetable, flush_shadow_pagetable). *)
From S2P Require Import Prelude Machine Wp Print Pte PageAlloc Vmem Tables VmemSpec.

(** The accesses that fault. *)
Definition is_access (a : MempermIndex) : bool :=
  match a with PERMIDX_R | PERMIDX_W | PERMIDX_X => true | _ => false end.

Section shadow.
Context {plat : Platform} {plat_ok : PlatformOk}.
Context {ai : gset Z -> State -> Prop} {ai_ok : AllocatorContract ai}.

(** What update_shadow_pt establishes for an address below 2^39. *)
(** The permissions after the access [a] to [hm] faulted, where the table had the
    translation [old]: those it had for the same page, and the access; every
    mapping is a user mapping and readable. *)
Definition permit (old : option (Z * Z)) (hm : Z) (a : MempermIndex) : Z :=
  Z.lor (match old with Some (pa, q) => if pa =? hm then q else 17 | None => 17 end)
    (Z.lor (permbit_from_index a) 2).

Definition update_post (g : GuestThreadContext) (gu hm : Z) (access_type : MempermIndex)
    (s : State) (r : PageFaultHandlerResult) (s' : State) : Prop :=
  let sp := shadow_page_table g in
  exists p, sv39_translate (mem s') sp gu = Some (hm, p) /\ p ∈ shadow_perms /\
    p = permit (sv39_translate (mem s) sp gu) hm access_type /\ has_perm p access_type = true /\
    ((r = PFHR_NOT_CHANGED /\ s' = s) \/
     (r = PFHR_SUCCESS /\ tlb_synced (trace s') = true /\
      (forall pa q, sv39_translate (mem s) sp gu = Some (pa, q) -> has_perm q access_type = true ->
         pa <> hm))) /\
    (forall va, vpns 2 va <> vpns 2 gu -> shadow_entry (mem s') sp va = shadow_entry (mem s) sp va) /\
    (forall va, machine_entry (mem s') va = machine_entry (mem s) va).

(** ** One level *)

(** A store to a shadow table is invisible to the machine table. *)
Lemma shadow_store_machine_entry sp G m t path k v va :
  tables_ok sp G m -> G !! t = Some (RShadow path) -> 0 <= k < 512 -> 0 <= v < 2 ^ 64 ->
  machine_entry (store64 m (entry_addr t k) v) va = machine_entry m va.
Proof.
  intros Hok Ht Hk Hv. unfold machine_entry. cbn [path_entry].
  assert (forall j, 0 <= j < 512 -> entry (store64 m (entry_addr t k) v) root j = entry m root j) as Er.
  { intros j Hj. rewrite entry_store;
      [|by eapply tables_ok_is_table|by right|done..]. rewrite decide_False; [done|].
    intros [Hr _]. by eapply root_ne. }
  rewrite Er by apply vpn_range.
  destruct (tk_root _ _ _ Hok (vpn 2 va) (vpn_range _ _)) as [H|(d & He & Hd)]; [by rewrite H|].
  case_match; [done|]. rewrite He, table_entry_unpack by (by eapply tk_pool).
  cbn [numeric_address].
  rewrite entry_store; [|by eapply tables_ok_is_table..|done|apply vpn_range|done].
  rewrite decide_False; [done|]. intros [-> _]. congruence.
Qed.

Lemma add_shadow_views sp G m c t path k :
  tables_ok sp G m -> G !! t = Some (RShadow path) -> (length path < 2)%nat -> 0 <= k < 512 ->
  entry m t k = 0 -> G !! c = None -> is_pool_page c -> zero_table m c ->
  same_views sp (fun _ => False) m (store64 m (entry_addr t k) (table_entry c)).
Proof.
  intros Hok Ht Hlen Hk H0 HGc Hpc Hz. pose proof (table_entry_range c Hpc) as Hr.
  assert (forall d j, is_table d -> 0 <= j < 512 ->
    entry (store64 m (entry_addr t k) (table_entry c)) d j =
    if decide (d = t /\ j = k) then table_entry c else entry m d j) as E
    by (intros; apply entry_store; [by eapply tables_ok_is_table|done..|lia]).
  split.
  - intros va _. by eapply shadow_store_machine_entry; [..|lia].
  - intros Hsp va. eapply shadow_entry_same; [done..|]. intros d q j Hd Hj.
    rewrite E; [|by eapply tables_ok_is_table|done]. case_decide as Hdj; [|by left].
    destruct Hdj as [-> ->]. right. rewrite Ht in Hd. injection Hd as [= ->].
    split; [done|]. split; [done|]. exists c. split_and!; try done.
    intros i Hi. rewrite E by (done || by left). rewrite decide_False; [by apply Hz|].
    intros [-> _]. congruence.
Qed.

Lemma shadow_descend_spec g G s t path k :
  vm_inv (ai := ai) g G s -> G !! t = Some (RShadow path) -> (length path < 2)%nat -> 0 <= k < 512 ->
  wp (pool_lacks 1 G) (shadow_descend t k) (fun c s' => exists G',
    G' !! c = Some (RShadow (path ++ [k])) /\ grows 1 G G' /\ vm_inv (ai := ai) g G' s' /\ vm_ext s s' /\
    same_views (shadow_page_table g) (fun _ => False) (mem s) (mem s') /\
    (s' = s \/ zero_table (mem s') c) /\ (entry (mem s) t k = 0 -> zero_table (mem s') c)) s.
Proof.
  intros Hinv Ht Hlen Hk. pose proof (vi_tables _ _ _ Hinv) as Htab.
  unfold shadow_descend. wp_step. apply wp_gets. cbv beta zeta. fold (entry (mem s) t k).
  destruct (tk_shadow _ _ _ Htab _ _ Ht) as [_ Hent].
  destruct (Hent k Hk) as [H0|[(_ & c & He & Hc)|[? _]]]; [| |lia].
  - rewrite H0. change (negb (has_perm (permissions (unpack_pt_entry 0)) PERMIDX_V)) with true.
    cbv iota. wp_step. apply (wp_total (pool_lacks 1 G)).
    eapply wp_post; [apply (allocate_pagepable_inv g G s Hinv)|].
    intros c s1 [(-> & -> & Hfull)|(HGc & Hpc & Hz & Hext & Hai & Htab1 & Hsame)].
    { apply wp_panic_msg; [apply Hinv|]. intros s'. by apply pool_full_lacks. }
    rewrite (proj2 (Z.eqb_neq _ _) (is_pool_page_nonzero _ Hpc)).
    change (pack_pt_entry (mkUnpacked c (perm_field (PERMBIT PERMIDX_V)))) with (table_entry c).
    assert (entry (mem s1) t k = 0) as H0' by (rewrite Hsame; [done|right; eauto|done]).
    pose proof (tables_ok_add_shadow _ _ _ Htab1 c t path k Ht Hlen Hk H0' HGc Hpc Hz) as Htab2.
    pose proof (add_shadow_views _ _ _ c t path k Htab1 Ht Hlen Hk H0' HGc Hpc Hz) as Hviews.
    rewrite <- dom_insert_L with (x := RShadow (path ++ [k])) in Hai.
    assert (c <> t) as Hne by (intros ->; congruence).
    pose proof (tables_ok_is_table _ _ _ _ _ Htab Ht) as Htt.
    destruct (vm_inv_store g G _ s s1 t k (table_entry c) Hinv Hext Hai Htt
      ltac:(right; rewrite lookup_insert_ne by done; eauto) Hk Htab2) as [Hinv2 Hext2].
    wp_step. wp_step. apply wp_ret. exists (<[c := RShadow (path ++ [k])]> G).
    assert (zero_table (store64 (mem s1) (entry_addr t k) (table_entry c)) c) as Hz2.
    { intros j Hj. pose proof (table_entry_range c Hpc).
      rewrite entry_store; [|done|by left|done..|lia].
      rewrite decide_False; [by apply Hz|]. by intros [-> _]. }
    split_and!; try done.
    + by rewrite lookup_insert_eq.
    + by apply grows_insert.
    + eapply same_views_trans; [by eapply same_entries_views|done].
    + by right.
  - assert (is_pool_page c) as Hpc by (by eapply tk_pool).
    pose proof (table_entry_range c Hpc).
    rewrite He, table_entry_unpack by done.
    change (negb (has_perm (permissions (mkUnpacked c 1)) PERMIDX_V)) with false. cbv iota.
    apply wp_ret. exists G. split_and!; try done; [apply grows_refl|by left|lia].
Qed.

Lemma gu_vpn_low gu i : (i < 2)%nat -> gu_vpn gu i = vpn i gu.
Proof.
  intros Hi. destruct i as [|[|i]]; [| |lia]; cbn [gu_vpn].
  - change 12 with (12 + 9 * Z.of_nat 0). apply shift_mask_vpn.
  - change 21 with (12 + 9 * Z.of_nat 1). apply shift_mask_vpn.
Qed.

Lemma shadow_levels_spec g G s gu :
  vm_inv (ai := ai) g G s -> shadow_page_table g <> 0 -> 0 <= gu < 2 ^ 39 ->
  wp (pool_lacks 2 G) (shadow_levels 2 gu (shadow_page_table g)) (fun c s' => exists G',
    G' !! c = Some (RShadow [vpn 2 gu; vpn 1 gu]) /\ grows 2 G G' /\ vm_inv (ai := ai) g G' s' /\
    vm_ext s s' /\ same_views (shadow_page_table g) (fun _ => False) (mem s) (mem s') /\
    (s' = s \/ zero_table (mem s') c)) s.
Proof.
  intros Hinv Hsp Hgu. pose proof (vi_tables _ _ _ Hinv) as Htab. cbn [shadow_levels].
  rewrite (gu_vpn_low gu 1) by lia. change (gu_vpn gu 2) with (Z.shiftr gu 30). rewrite lvl3_vpn by done.
  assert (G !! shadow_page_table g = Some (RShadow [])) as Hroot by (by apply Htab).
  wp_step. eapply wp_mono; [by apply (shadow_descend_spec g G s _ [] (vpn 2 gu) Hinv Hroot
    ltac:(simpl; lia) (vpn_range _ _))| |unfold pool_lacks; intros; lia].
  intros c1 s1 (G1 & Hc1 & Hs1 & Hi1 & He1 & Hv1 & Hn1 & _). wp_step.
  eapply wp_mono; [by apply (shadow_descend_spec g G1 s1 c1 _ (vpn 1 gu) Hi1 Hc1
    ltac:(simpl; lia) (vpn_range _ _))| |intros; by eapply pool_lacks_grown].
  intros c0 s2 (G2 & Hc0 & Hs2 & Hi2 & He2 & Hv2 & Hn2 & Hz2). apply wp_ret.
  exists G2. split_and!; try done; [by eapply (grows_trans 1 1)|by etrans| |].
  - by eapply same_views_trans.
  - destruct Hn2 as [->|]; [|by right]. destruct Hn1 as [->|Hz]; [by left|].
    right. apply Hz2, Hz, vpn_range.
Qed.

(** ** The leaf *)

Lemma page_of_land hm : 0 <= hm < 2 ^ 64 -> Z.land hm (not64 PGOFFSET_MASK) = hm - hm mod 4096.
Proof.
  intros Hhm.
  assert (Z.land hm (not64 PGOFFSET_MASK) = Z.land hm (Z.lnot (2 ^ 12 - 1))) as ->.
  { apply Z.bits_inj'. intros i Hi. rewrite !Z.land_spec.
    destruct (decide (i < 64)).
    - f_equal. change (not64 PGOFFSET_MASK) with (Z.lnot (2 ^ 12 - 1) mod 2 ^ 64).
      by rewrite Z.mod_pow2_bits_low.
    - rewrite <- (Z.mod_small hm (2 ^ 64)) by lia. by rewrite Z.mod_pow2_bits_high by lia. }
  assert (Z.land hm (2 ^ 12 - 1) = hm mod 4096) as H1 by (by rewrite land_low).
  assert (Z.land hm (Z.lnot (2 ^ 12 - 1)) + Z.land hm (2 ^ 12 - 1) = hm) as H2.
  { rewrite Z.add_nocarry_lxor.
    - apply Z.bits_inj'. intros i Hi. rewrite Z.lxor_spec, !Z.land_spec, Z.lnot_spec by done.
      by destruct (Z.testbit hm i), (Z.testbit (2 ^ 12 - 1) i).
    - apply Z.bits_inj'. intros i Hi. rewrite !Z.land_spec, Z.lnot_spec, Z.bits_0 by done.
      by destruct (Z.testbit hm i), (Z.testbit (2 ^ 12 - 1) i). }
  lia.
Qed.

(** The entry a fault leaves behind is one the tables may hold, and permits
    the access; no entry is written only if the old one permitted it. *)
Lemma shadow_leaf_update_spec e hm_page a :
  e = 0 \/ shadow_leaf_ok e -> hm_page mod 4096 = 0 -> HYPERVISOR_END <= hm_page < HOST_END ->
  is_access a = true ->
  match shadow_leaf_update e hm_page a with
  | None => exists p, unpack_pt_entry e = mkUnpacked hm_page p /\ e <> 0 /\
      p ∈ shadow_perms /\ has_perm p a = true
  | Some leaf => exists p, leaf = mkUnpacked hm_page p /\ p ∈ shadow_perms /\ has_perm p a = true /\
      ~ (numeric_address (unpack_pt_entry e) = hm_page /\
         has_perm (permissions (unpack_pt_entry e)) a = true)
  end.
Proof.
  intros He Hal Hr Ha.
  assert (exists b p, unpack_pt_entry e = mkUnpacked b p /\
    (b = hm_page -> e <> 0 /\ p ∈ shadow_perms)) as (b & p & Hu & Hp).
  { destruct He as [->|(b & p & He & Hb & Hbr & Hp)].
    - exists 0, 0. split; [done|]. intros <-. unfold HYPERVISOR_END, RAM_START in Hr.
      unfold GUEST_MEMORY_OFFSET in Hr. lia.
    - destruct (shadow_leaf_spec _ _ _ He Hb Hbr Hp) as [Hu Hpos]. exists b, p.
      split; [done|]. intros _. split; [lia|done]. }
  unfold shadow_leaf_update. rewrite Hu. cbn [numeric_address permissions].
  destruct (Z.eqb_spec b hm_page) as [->|Hne]; cbn [negb numeric_address permissions].
  - destruct (Hp eq_refl) as [Hnz Hps]. fold (has_perm p a).
    destruct (has_perm p a) eqn:Ep; [by exists p|].
    eexists. split; [done|]. unfold shadow_perms in Hps. set_unfold in Hps.
    destruct_or!; subst; destruct a; try done; (split; [unfold shadow_perms; set_solver|]);
      (split; [done|]); naive_solver.
  - destruct a; try done; (eexists; split; [done|]); (split; [unfold shadow_perms; set_solver|]);
      (split; [done|]); naive_solver.
Qed.

(** The permissions it leaves are those of [permit]. *)
Lemma shadow_leaf_update_permit e hm_page off a :
  e = 0 \/ shadow_leaf_ok e -> HYPERVISOR_END <= hm_page < HOST_END -> is_access a = true ->
  permit (if e =? 0 then None
          else Some (numeric_address (unpack_pt_entry e) + off, permissions (unpack_pt_entry e))) (hm_page + off) a
  = permissions (default (unpack_pt_entry e) (shadow_leaf_update e hm_page a)).
Proof.
  intros He Hr Ha. unfold shadow_leaf_update, permit.
  destruct He as [->|(b & p & He & Hb & Hbr & Hp)].
  - change (numeric_address (unpack_pt_entry 0)) with 0.
    rewrite (proj2 (Z.eqb_neq 0 hm_page)) by (unfold HYPERVISOR_END, RAM_START, GUEST_MEMORY_OFFSET in *; lia).
    by destruct a.
  - destruct (shadow_leaf_spec _ _ _ He Hb Hbr Hp) as [Hu Hpos]. rewrite Hu. cbn [numeric_address permissions].
    rewrite (proj2 (Z.eqb_neq e 0)) by lia.
    destruct (Z.eqb_spec b hm_page) as [->|Hne]; cbn [negb numeric_address permissions].
    + rewrite Z.eqb_refl. unfold shadow_perms in Hp. set_unfold in Hp. by destruct_or!; subst; destruct a.
    + rewrite (proj2 (Z.eqb_neq _ _)) by lia. by destruct a.
Qed.

(** Walks other than the one to the updated leaf are unchanged. *)
Lemma set_leaf_shadow_entry sp G m t va' k e va :
  tables_ok sp G m -> sp <> 0 -> 0 <= e < 2 ^ 64 ->
  G !! t = Some (RShadow [vpn 2 va'; vpn 1 va']) -> k = vpn 0 va' -> vpns 2 va <> vpns 2 va' ->
  shadow_entry (store64 m (entry_addr t k) e) sp va = shadow_entry m sp va.
Proof.
  intros Hok Hsp He Ht -> Hne. unfold shadow_entry.
  apply (path_entry_same sp G m Hok _ sp []).
  - by apply Hok.
  - apply length_vpns.
  - apply vpns_range.
  - intros d q j Hd Hj Hpre. left.
    rewrite entry_store; [|by eapply tables_ok_is_table|by eapply tables_ok_is_table|apply vpn_range|done|done].
    rewrite decide_False; [done|]. intros [-> ->]. rewrite Ht in Hd. injection Hd as [= <-].
    apply Hne. cbn [app length vpns] in *. by injection Hpre as [= -> -> ->].
Qed.

(** The state after the leaf entry of [gu] in the table [c] has been written. *)
Lemma shadow_leaf_written g G s c gu page p :
  vm_inv (ai := ai) g G s -> shadow_page_table g <> 0 -> G !! c = Some (RShadow [vpn 2 gu; vpn 1 gu]) ->
  page mod 4096 = 0 -> HYPERVISOR_END <= page < HOST_END -> p ∈ shadow_perms ->
  (let v := pack_pt_entry (mkUnpacked page p) in
   let a := entry_addr c (vpn 0 gu) in
   let s' := set_trace (EvPteWrite a v :: trace s) (set_mem (store64 (mem s) a v) s) in
   vm_inv (ai := ai) g G s' /\ vm_ext s s' /\
   sv39_translate (mem s') (shadow_page_table g) gu = Some (page + gu mod 4096, p) /\
   (forall va, vpns 2 va <> vpns 2 gu ->
      shadow_entry (mem s') (shadow_page_table g) va = shadow_entry (mem s) (shadow_page_table g) va) /\
   (forall va, machine_entry (mem s') va = machine_entry (mem s) va)).
Proof.
  intros Hinv Hsp Hc Hpal Hpr Hp. cbv zeta. pose proof (vi_tables _ _ _ Hinv) as Htab.
  set (v := pack_pt_entry (mkUnpacked page p)).
  assert (shadow_leaf_ok v) as Hleaf by (by exists page, p).
  destruct (shadow_leaf_spec v _ _ eq_refl Hpal Hpr Hp) as [Hun Hrange].
  pose proof (tables_ok_set_leaf _ _ _ Htab c _ (vpn 0 gu) _ Hc eq_refl (vpn_range _ _) Hleaf) as Htab2.
  pose proof (tables_ok_is_table _ _ _ _ _ Htab Hc) as Hct.
  destruct (vm_inv_store g G G s s c (vpn 0 gu) v Hinv ltac:(done) (vi_alloc _ _ _ Hinv)
    Hct ltac:(right; eauto) (vpn_range _ _) Htab2) as [Hinv2 Hext2]. cbv zeta in *.
  set (s2 := set_trace _ _) in *. split; [exact Hinv2|]. split; [exact Hext2|].
  assert (shadow_entry (mem s2) (shadow_page_table g) gu = v) as Hse.
  { change (shadow_entry (mem s2) (shadow_page_table g) gu) with
      (path_entry (mem s2) (shadow_page_table g) ([vpn 2 gu; vpn 1 gu] ++ [vpn 0 gu])).
    change (mem s2) with (store64 (mem s) (entry_addr c (vpn 0 gu)) v).
    rewrite (path_entry_node _ G _ Htab2 c _ (vpn 0 gu) Hc).
    rewrite entry_store; [|done|done|apply vpn_range|apply vpn_range|lia]. by rewrite decide_True. }
  split; [|split].
  - change (tables_ok (shadow_page_table g) G (mem s2)) in Htab2.
    rewrite (shadow_translate _ G _ gu Htab2 Hsp). cbv zeta. rewrite Hse.
    rewrite (proj2 (Z.eqb_neq _ _)) by lia. by rewrite Hun.
  - intros va Hva. eapply set_leaf_shadow_entry; [done..|lia|done|done|done].
  - intros va. eapply shadow_store_machine_entry; [done..|apply vpn_range|lia].
Qed.

(** What the entry found says about the translation before. *)
Lemma shadow_translate_found g G s m1 gu e :
  vm_inv (ai := ai) g G s -> shadow_page_table g <> 0 -> shadow_entry m1 (shadow_page_table g) gu = e ->
  same_views (shadow_page_table g) (fun _ => False) (mem s) m1 ->
  sv39_translate (mem s) (shadow_page_table g) gu =
    if e =? 0 then None
    else Some (numeric_address (unpack_pt_entry e) + gu mod 4096, permissions (unpack_pt_entry e)).
Proof.
  intros Hinv Hsp <- [_ Hv]. rewrite (shadow_translate _ G _ _ (vi_tables _ _ _ Hinv) Hsp). cbv zeta.
  by rewrite Hv.
Qed.

(** The entry of [gu] in the last table of its path. *)
Lemma shadow_entry_found g G s c gu :
  vm_inv (ai := ai) g G s -> G !! c = Some (RShadow [vpn 2 gu; vpn 1 gu]) ->
  (let e := entry (mem s) c (vpn 0 gu) in
   shadow_entry (mem s) (shadow_page_table g) gu = e /\ (e = 0 \/ shadow_leaf_ok e)).
Proof.
  intros Hinv Hc. pose proof (vi_tables _ _ _ Hinv) as Htab. cbv zeta. split.
  - exact (path_entry_node _ _ _ Htab c _ (vpn 0 gu) Hc).
  - destruct (tk_shadow _ _ _ Htab _ _ Hc) as [_ Hent].
    destruct (Hent (vpn 0 gu) (vpn_range _ _)) as [|[[Hl _]|[_ ?]]]; [by left| |by right].
    simpl in Hl. lia.
Qed.

(** The page of a host address. *)
Lemma host_page hm : HYPERVISOR_END <= hm < HOST_END ->
  Z.land hm (not64 PGOFFSET_MASK) = hm - hm mod 4096 /\
  (hm - hm mod 4096) mod 4096 = 0 /\ HYPERVISOR_END <= hm - hm mod 4096 < HOST_END.
Proof.
  unfold HOST_END, HYPERVISOR_END, RAM_START, GUEST_MEMORY_OFFSET. change (2 ^ 39) with 549755813888.
  intros Hhm. split; [apply page_of_land; lia|]. split; [|split]; Z.div_mod_to_equations; lia.
Qed.

Lemma update_shadow_pt_total g G s gu hm a :
  vm_inv (ai := ai) g G s -> shadow_page_table g <> 0 -> 0 <= gu ->
  HYPERVISOR_END <= hm < HOST_END -> gu mod 4096 = hm mod 4096 -> is_access a = true ->
  wp (pool_lacks 2 G) (update_shadow_pt (shadow_page_table g) gu hm a) (fun r s' =>
    if 2 ^ 39 <=? gu then r = PFHR_TOO_HIGH /\ s' = s
    else exists G', grows 2 G G' /\ vm_inv (ai := ai) g G' s' /\ vm_ext s s' /\ update_post g gu hm a s r s') s.
Proof.
  intros Hinv Hsp Hgu Hhm Hoff Ha. unfold update_shadow_pt.
  change 0xFFF with (2 ^ 12 - 1). rewrite !land_low by lia.
  change (2 ^ 12) with 4096. rewrite Hoff, Z.eqb_refl. cbn [negb].
  destruct (host_page hm Hhm) as (-> & Hpal & Hpr).
  change (gu_vpn gu 2) with (Z.shiftr gu 30). rewrite beyond_sv39 by done.
  destruct (Z.leb_spec (2 ^ 39) gu) as [|Hlt]; [by apply wp_ret|].
  set (page := hm - hm mod 4096) in *.
  wp_step. eapply wp_post; [by apply shadow_levels_spec|].
  intros c s1 (G1 & Hc & Hsub & Hinv1 & Hext1 & Hviews1 & Hnew).
  pose proof (vi_tables _ _ _ Hinv1) as Htab1. rewrite gu_vpn_low by lia.
  wp_step. apply wp_gets. cbv beta. fold (entry (mem s1) c (vpn 0 gu)).
  destruct (shadow_entry_found g G1 s1 c gu Hinv1 Hc) as [Hnode Heok].
  set (e := entry (mem s1) c (vpn 0 gu)) in *.
  pose proof (shadow_leaf_update_spec e page a Heok Hpal Hpr Ha) as Hupd.
  assert (page + gu mod 4096 = hm) as Hback by (unfold page; lia).
  pose proof (shadow_translate_found g G s (mem s1) gu e Hinv Hsp Hnode Hviews1) as Hold.
  pose proof (shadow_leaf_update_permit e page (gu mod 4096) a Heok Hpr Ha) as Hpermit.
  rewrite <- Hold, Hback in Hpermit.
  destruct (shadow_leaf_update e page a) as [leaf|]; cbn [default] in Hpermit.
  - destruct Hupd as (p & -> & Hp & Hpa & Hnot). cbn [permissions] in Hpermit.
    destruct (shadow_leaf_written g G1 s1 c gu page p Hinv1 Hsp Hc Hpal Hpr Hp)
      as (Hinv2 & Hext2 & Htr2 & Hsh2 & Hma2). cbv zeta in *.
    wp_step. wp_step. wp_step. wp_step. apply wp_ret. set (s2 := set_trace (EvPteWrite _ _ :: _) _) in *.
    exists G1. split; [done|]. split; [by eapply vm_inv_quiet; [|apply quiet_set_trace]|].
    split; [etrans; [done|etrans; [done|apply quiet_vm_ext, quiet_set_trace]]|].
    exists p. cbn [mem set_trace trace]. change (mem (set_mem _ _)) with (mem s2). split_and!; try done.
    + by rewrite Htr2, Hback.
    + right. split_and!; try done. intros pa q Htr Hq ->. apply Hnot. rewrite Hold in Htr.
      revert Htr. generalize (unpack_pt_entry e). intros u Htr. destruct (e =? 0); [done|].
      injection Htr as Hpa' <-. split; [lia|exact Hq].
    + intros va Hva. destruct Hviews1 as [_ Hv]. rewrite <- Hv by done. by apply Hsh2.
    + intros va. destruct Hviews1 as [Hv _]. rewrite <- Hv by tauto. apply Hma2.
  - destruct Hupd as (p & Hun & Hnz & Hp & Hpa). apply wp_ret.
    assert (s1 = s) as ->.
    { destruct Hnew as [|Hz]; [done|]. by destruct Hnz; apply Hz, vpn_range. }
    exists G1. split_and!; try done. exists p. split_and!; try done.
    + rewrite Hold, (proj2 (Z.eqb_neq _ _)) by done. rewrite Hun. cbn [numeric_address permissions].
      by rewrite Hback.
    + rewrite Hpermit, Hun. done.
    + by left.
Qed.

Lemma update_shadow_pt_spec g G s gu hm a :
  vm_inv (ai := ai) g G s -> shadow_page_table g <> 0 -> 0 <= gu ->
  HYPERVISOR_END <= hm < HOST_END -> gu mod 4096 = hm mod 4096 -> is_access a = true ->
  wp any_panic (update_shadow_pt (shadow_page_table g) gu hm a) (fun r s' =>
    if 2 ^ 39 <=? gu then r = PFHR_TOO_HIGH /\ s' = s
    else exists G', grows 2 G G' /\ vm_inv (ai := ai) g G' s' /\ vm_ext s s' /\ update_post g gu hm a s r s') s.
Proof. intros. eapply wp_any. by apply update_shadow_pt_total. Qed.

End shadow.
