(* ===== verification/FlushSpec.v ===== *)
(** Tearing a shadow tree down: clear_pagetable, deallocate_pagepable and
    flush_shadow_pagetable return every page below the node to the allocator,
    zero the node and change nothing else. *)
From S2P Require Import Prelude Machine Wp Print Pte PageAlloc Vmem Tables VmemSpec ShadowSpec.

Section flush.
Context {plat : Platform} {plat_ok : PlatformOk}.
Context {ai : gset Z -> State -> Prop} {ai_ok : AllocatorContract ai}.

(** [c] is a node strictly below the node at [q], through an index in [K]. *)
Definition below (G : gmap Z PageRole) (q : list Z) (K : Z -> Prop) (c : Z) : Prop :=
  exists k r, K k /\ G !! c = Some (RShadow (q ++ k :: r)).

(** The part of tables_ok that concerns the tree below [q]. *)
Record tree_ok (G : gmap Z PageRole) (m : mem_t) (q : list Z) : Prop := {
  tr_pool c r : G !! c = Some r -> is_pool_page c;
  tr_entry c r : G !! c = Some (RShadow (q ++ r)) -> (length (q ++ r) <= 2)%nat /\
    forall k, 0 <= k < 512 -> shadow_entry_ok G (q ++ r) k (entry m c k);
  tr_link c r k : G !! c = Some (RShadow (q ++ r ++ [k])) ->
    0 <= k < 512 /\ exists t, G !! t = Some (RShadow (q ++ r)) /\ entry m t k = table_entry c;
  tr_inj c d r : G !! c = Some (RShadow (q ++ r)) -> G !! d = Some (RShadow (q ++ r)) -> c = d }.

Lemma tables_ok_tree sp G m : tables_ok sp G m -> tree_ok G m [].
Proof.
  intros Hok. split.
  - apply Hok.
  - intros c r Hc. by apply (tk_shadow _ _ _ Hok).
  - intros c r k Hc. by apply (tk_link _ _ _ Hok).
  - intros c d r Hc Hd. by eapply role_inj.
Qed.

Lemma tree_ok_child G m q k : tree_ok G m q -> tree_ok G m (q ++ [k]).
Proof.
  intros Hok. split; [apply Hok|..].
  - intros c r. rewrite <- app_assoc. apply Hok.
  - intros c r j. rewrite <- !app_assoc. intros Hc.
    destruct (tr_link _ _ _ Hok c ([k] ++ r) j) as (Hj & t & Ht & He).
    { exact Hc. }
    split; [done|]. exists t. done.
  - intros c d r. rewrite <- !app_assoc. apply Hok.
Qed.

(** Only the pages of the tree matter. *)
Lemma tree_ok_agree G m m' q :
  tree_ok G m q -> (forall c r, G !! c = Some (RShadow (q ++ r)) -> mem_agree c 4096 m m') ->
  tree_ok G m' q.
Proof.
  intros Hok Hag. split; [apply Hok|..|apply Hok].
  - intros c r Hc. destruct (tr_entry _ _ _ Hok _ _ Hc) as [Hl Hk]. split; [done|].
    intros k Hk'. rewrite <- (entry_agree _ _ _ _ (Hag c r Hc) Hk'). by apply Hk.
  - intros c r k Hc. destruct (tr_link _ _ _ Hok _ _ _ Hc) as (Hk & t & Ht & He).
    split; [done|]. exists t. split; [done|]. by rewrite <- (entry_agree _ _ _ _ (Hag t r Ht) Hk).
Qed.

(** What a teardown that removed the pages in [freed] and wrote to those in
    [dirty] did. *)
Record torn (own : gset Z) (freed dirty : Z -> Prop) (s s' : State) : Prop := {
  to_own : exists own', (forall c, c ∈ own' <-> c ∈ own /\ ~ freed c) /\ ai own' s';
  to_ext : vm_ext s s';
  to_mem a n : (forall p, dirty p -> a + n <= p \/ p + 4096 <= a) -> mem_agree a n (mem s) (mem s') }.

Lemma torn_page own freed dirty s s' t :
  torn own freed dirty s s' -> is_table t -> (forall p, dirty p -> is_pool_page p) -> ~ dirty t ->
  mem_agree t 4096 (mem s) (mem s').
Proof.
  intros H Ht Hd Hnt. apply (to_mem _ _ _ _ _ H). intros p Hp.
  apply is_table_disjoint; [done|by left; apply Hd|]. by intros ->.
Qed.

(** Deallocating the child of a node after its own tree has gone. *)
Lemma torn_dealloc own freed dirty s s1 c :
  torn own freed dirty s s1 -> c ∈ own -> ~ freed c -> dirty c ->
  wp no_panic (deallocate_page c) (fun _ s2 => torn own (fun d => freed d \/ d = c) dirty s s2) s1.
Proof.
  intros [(own1 & Hown1 & Hai1) Hext1 Hmem1] Hc Hnf Hd.
  assert (c ∈ own1) as Hc1 by (by apply Hown1).
  pose proof (ai_pool_page _ _ _ Hai1 Hc1) as Hpc.
  wp_apply (ai_deallocate own1 s1 c Hai1 Hc1). intros [] s2 [Hai2 (m & Hs2 & Hm)]. split.
  - eexists. split; [|exact Hai2]. intros d. rewrite elem_of_difference, elem_of_singleton, Hown1. tauto.
  - etrans; [done|]. rewrite Hs2. split; try done. intros x Hx. simpl. symmetry.
    apply (Hm x 1); [|lia]. apply is_pool_page_bounds in Hpc. lia.
  - intros a n Ha. eapply mem_agree_trans; [by apply Hmem1|]. rewrite Hs2. simpl. apply Hm.
    destruct (Ha c Hd); lia.
Qed.

(** Zeroing one entry of the node [t]. *)
Lemma torn_zero own freed dirty s s1 t i :
  torn own freed dirty s s1 -> t ∈ own -> ~ freed t -> dirty t -> is_table t -> 0 <= i < 512 ->
  torn own freed dirty s (set_trace (EvPteWrite (entry_addr t i) 0 :: trace s1)
    (set_mem (store64 (mem s1) (entry_addr t i) 0) s1)).
Proof.
  intros [(own1 & Hown1 & Hai1) Hext1 Hmem1] Ht Hnf Hd Htt Hi. split.
  - exists own1. split; [done|]. eapply ai_quiet; [apply (ai_store _ s1 t i 0 Hai1)|].
    all: first [done | apply quiet_set_trace | right; by apply Hown1].
  - etrans; [done|]. etrans; [by apply (vm_ext_store s1 t i 0)|]. apply quiet_vm_ext, quiet_set_trace.
  - intros a n Ha. eapply mem_agree_trans; [by apply Hmem1|]. simpl. apply store64_agree.
    unfold entry_addr. destruct (Ha t Hd); lia.
Qed.

(** Sequencing, and forgetting. *)
Lemma torn_weaken own (f f' d d' : Z -> Prop) s s' :
  torn own f d s s' -> (forall c, c ∈ own -> f c <-> f' c) -> (forall c, d c -> d' c) -> torn own f' d' s s'.
Proof.
  intros [(own1 & Hown1 & Hai1) Hext Hmem] Hf Hd. split; [|done|].
  - exists own1. split; [|done]. intros c. rewrite Hown1. specialize (Hf c). naive_solver.
  - intros a n Ha. apply Hmem. eauto.
Qed.

Lemma torn_seq own own1 f1 f2 d1 d2 s s1 s2 :
  torn own f1 d1 s s1 -> (forall c, c ∈ own1 <-> c ∈ own /\ ~ f1 c) -> torn own1 f2 d2 s1 s2 ->
  torn own (fun c => f1 c \/ f2 c) (fun c => d1 c \/ d2 c) s s2.
Proof.
  intros [_ Hext1 Hmem1] Hown1 [(own2 & Hown2 & Hai2) Hext2 Hmem2]. split.
  - exists own2. split; [|done]. intros c. rewrite Hown2, Hown1. tauto.
  - by etrans.
  - intros a n Ha. eapply mem_agree_trans; [apply Hmem1|apply Hmem2]; eauto.
Qed.

(** The node at [q] is [t], and its tree is handed out. *)
Record owned (G : gmap Z PageRole) (q : list Z) (own : gset Z) (t : Z) : Prop := {
  ow_node : G !! t = Some (RShadow q);
  ow_below c r : G !! c = Some (RShadow (q ++ r)) -> c ∈ own }.

Lemma owned_self G q own t : owned G q own t -> t ∈ own.
Proof. intros [Ht Hb]. apply (Hb t []). by rewrite app_nil_r. Qed.

Lemma below_not_self G q K t : G !! t = Some (RShadow q) -> ~ below G q K t.
Proof.
  intros Ht (k & r & _ & Hr). rewrite Ht in Hr. injection Hr as [= Hr].
  apply (f_equal length) in Hr. rewrite length_app in Hr. simpl in Hr. lia.
Qed.

(** The tree below index [k] of [q] is the child and what is below it. *)
Lemma below_child G q k c d :
  G !! c = Some (RShadow (q ++ [k])) -> (forall d', G !! d' = Some (RShadow (q ++ [k])) -> d' = c) ->
  (below G q (fun j => j = k) d <-> below G (q ++ [k]) (fun _ => True) d \/ d = c).
Proof.
  intros Hc Hinj. unfold below. split.
  - intros (? & r & -> & Hd). destruct r as [|j r]; [right; by apply Hinj|left].
    exists j, r. split; [done|]. by rewrite <- app_assoc.
  - intros [(j & r & _ & Hd)| ->]; [|by exists k, []].
    exists k, (j :: r). split; [done|]. by rewrite <- app_assoc in Hd.
Qed.

(** What clear_pagetable is to do, for a fuel. *)
Definition clear_spec (fuel : nat) (q : list Z) : Prop := forall G own s t,
  ai own s -> owned G q own t -> tree_ok G (mem s) q ->
  wp no_panic (clear_pagetable fuel t) (fun _ s' =>
    torn own (below G q (fun _ => True)) (fun p => p = t \/ below G q (fun _ => True) p) s s' /\
    zero_table (mem s') t) s.

(** A child and everything below it. *)
Lemma deallocate_pagepable_spec fuel q k G own s c :
  clear_spec fuel (q ++ [k]) -> ai own s -> owned G (q ++ [k]) own c ->
  tree_ok G (mem s) (q ++ [k]) ->
  wp no_panic (deallocate_pagepable (S fuel) c) (fun _ s' =>
    torn own (below G q (fun j => j = k)) (below G q (fun j => j = k)) s s') s.
Proof.
  intros Hclear Hai Hown Htree.
  pose proof (ow_node _ _ _ _ Hown) as Hc.
  assert (is_pool_page c) as Hpc by (by eapply tr_pool).
  assert (forall d, below G q (fun j => j = k) d <->
    below G (q ++ [k]) (fun _ => True) d \/ d = c) as Hb.
  { intros d. apply below_child; [done|]. intros d' Hd'.
    apply (tr_inj _ _ _ Htree d' c []); by rewrite app_nil_r. }
  cbn [deallocate_pagepable]. rewrite (proj2 (Z.eqb_neq _ _) (is_pool_page_nonzero _ Hpc)).
  wp_step. eapply wp_post; [by apply (Hclear G own s c)|]. intros [] s1 [Htorn _].
  eapply wp_post; [apply (torn_dealloc _ _ _ _ _ c Htorn)|].
  - by eapply owned_self.
  - by apply below_not_self.
  - by left.
  - intros [] s2 H. eapply torn_weaken; [exact H|..]; intros d.
    + intros _. rewrite Hb. tauto.
    + rewrite Hb. tauto.
Qed.

(** Without a child at index [i] there is nothing below it. *)
Lemma tree_child G m q t i r d :
  tree_ok G m q -> G !! t = Some (RShadow q) -> G !! d = Some (RShadow (q ++ i :: r)) ->
  0 <= i < 512 /\ exists c, is_pool_page c /\ entry m t i = table_entry c /\
    G !! c = Some (RShadow (q ++ [i])).
Proof.
  intros Hok Ht. revert d. induction r as [|k r IH] using rev_ind; intros d Hd.
  - destruct (tr_link _ _ _ Hok d [] i Hd) as (Hi & t' & Ht' & He). rewrite app_nil_r in Ht'.
    split; [done|]. exists d. split; [by eapply tr_pool|]. split; [|done].
    rewrite (tr_inj _ _ _ Hok t t' []); [done|by rewrite app_nil_r..].
  - destruct (tr_link _ _ _ Hok d (i :: r) k Hd) as (_ & t' & Ht' & _). eauto.
Qed.

Lemma below_snoc G q i c :
  below G q (fun k => k < i + 1) c <-> below G q (fun k => k < i) c \/ below G q (fun k => k = i) c.
Proof.
  unfold below. split.
  - intros (k & r & Hk & Hr). destruct (decide (k = i)); [right|left]; exists k, r; split; auto; lia.
  - intros [(k & r & Hk & Hr)|(k & r & -> & Hr)]; eexists _, r; (split; [|exact Hr]); lia.
Qed.

Lemma leaf_not_table e c : shadow_leaf_ok e -> is_pool_page c -> e <> table_entry c.
Proof.
  intros (a & p & He & Ha & Hr & Hp) Hc Heq.
  destruct (shadow_leaf_spec _ _ _ He Ha Hr Hp) as [Hu _].
  rewrite Heq, table_entry_unpack in Hu by done. injection Hu as [= _ <-].
  unfold shadow_perms in Hp. set_solver.
Qed.

(** What the loop of clear_pagetable has done before index [i]. *)
Record cleared (G : gmap Z PageRole) (q : list Z) (own : gset Z) (t : Z) (s : State)
    (i : Z) (s1 : State) : Prop := {
  cl_torn : torn own (below G q (fun k => k < i)) (fun p => p = t \/ below G q (fun k => k < i) p) s s1;
  cl_done k : 0 <= k < i -> entry (mem s1) t k = 0;
  cl_rest k : i <= k < 512 -> entry (mem s1) t k = entry (mem s) t k }.

(** The entry at [i] is zeroed; what it pointed to is still to be returned. *)
Lemma cleared_zero G q own t s i s1 :
  cleared G q own t s i s1 -> owned G q own t -> is_table t -> 0 <= i < 512 ->
  let s2 := set_trace (EvPteWrite (entry_addr t i) 0 :: trace s1)
    (set_mem (store64 (mem s1) (entry_addr t i) 0) s1) in
  torn own (below G q (fun k => k < i)) (fun p => p = t \/ below G q (fun k => k < i) p) s s2 /\
  (forall k, 0 <= k < i + 1 -> entry (mem s2) t k = 0) /\
  (forall k, i + 1 <= k < 512 -> entry (mem s2) t k = entry (mem s) t k).
Proof.
  intros [Htorn Hdone Hrest] Hown Ht Hi s2. split; [|split].
  - apply torn_zero; try done; [by eapply owned_self|apply below_not_self, Hown|by left].
  - intros k Hk. simpl. rewrite entry_store by (done || lia). case_decide as Hd; [done|].
    apply Hdone. destruct (decide (k = i)); [tauto|lia].
  - intros k Hk. simpl. rewrite entry_store by (done || lia).
    rewrite decide_False by lia. apply Hrest. lia.
Qed.

(** A child's tree is untouched while the loop is at its index. *)
Lemma child_owned G q own own2 c i m m2 t :
  G !! c = Some (RShadow (q ++ [i])) -> owned G q own t -> tree_ok G m q ->
  (forall d, d ∈ own2 <-> d ∈ own /\ ~ below G q (fun k => k < i) d) ->
  (forall d, is_table d -> d <> t -> ~ below G q (fun k => k < i) d -> mem_agree d 4096 m m2) ->
  owned G (q ++ [i]) own2 c /\ tree_ok G m2 (q ++ [i]).
Proof.
  intros Hc [Ht Hown] Htree Hown2 Hmem.
  assert (forall d r, G !! d = Some (RShadow ((q ++ [i]) ++ r)) ->
    d <> t /\ ~ below G q (fun k => k < i) d) as Hfar.
  { intros d r Hd. rewrite <- app_assoc in Hd. split.
    - intros ->. rewrite Ht in Hd. injection Hd as [= Hd]. apply (f_equal length) in Hd.
      rewrite !length_app in Hd. simpl in Hd. lia.
    - intros (k & r' & Hk & Hd'). rewrite Hd in Hd'. injection Hd' as [= Hd'].
      apply app_inv_head in Hd'. simplify_eq. lia. }
  split.
  - split; [done|]. intros d r Hd. apply Hown2. split; [|by eapply Hfar].
    rewrite <- app_assoc in Hd. eauto.
  - eapply tree_ok_agree; [by apply tree_ok_child|]. intros d r Hd.
    destruct (Hfar _ _ Hd). apply Hmem; [left; by eapply tr_pool|done..].
Qed.

Lemma below_pool G m q K c : tree_ok G m q -> below G q K c -> is_pool_page c.
Proof. intros Hok (k & r & _ & Hr). by eapply tr_pool. Qed.

(** One iteration whose entry is empty or a leaf. *)
Lemma cleared_skip G q own t s i s1 s2 :
  torn own (below G q (fun k => k < i)) (fun p => p = t \/ below G q (fun k => k < i) p) s s2 ->
  (forall k, 0 <= k < i + 1 -> entry (mem s2) t k = 0) ->
  (forall k, i + 1 <= k < 512 -> entry (mem s2) t k = entry (mem s) t k) ->
  tree_ok G (mem s) q -> G !! t = Some (RShadow q) -> cleared G q own t s i s1 ->
  (forall c, is_pool_page c -> entry (mem s) t i <> table_entry c) ->
  cleared G q own t s (i + 1) s2.
Proof.
  intros Htorn Hz Hrest Htree Ht _ Hno. split; [|done..].
  assert (forall d, ~ below G q (fun k => k = i) d) as Hnone.
  { intros d (k & r & -> & Hd). destruct (tree_child _ _ _ _ _ _ _ Htree Ht Hd) as (_ & c & Hc & He & _).
    by eapply Hno. }
  eapply torn_weaken; [done|..].
  - intros c _. rewrite below_snoc. specialize (Hnone c). tauto.
  - intros c. rewrite below_snoc. tauto.
Qed.

(** One iteration of the loop, on the state with the entry zeroed. *)
Lemma cleared_child fuel G q own t s i s2 c :
  clear_spec fuel (q ++ [i]) -> owned G q own t -> tree_ok G (mem s) q -> 0 <= i < 512 ->
  torn own (below G q (fun k => k < i)) (fun p => p = t \/ below G q (fun k => k < i) p) s s2 ->
  (forall k, 0 <= k < i + 1 -> entry (mem s2) t k = 0) ->
  (forall k, i + 1 <= k < 512 -> entry (mem s2) t k = entry (mem s) t k) ->
  G !! c = Some (RShadow (q ++ [i])) ->
  wp no_panic (deallocate_pagepable (S fuel) c) (fun _ => cleared G q own t s (i + 1)) s2.
Proof.
  intros Hclear Hown Htree Hi Htorn Hz Hrest Hc.
  pose proof (ow_node _ _ _ _ Hown) as Ht.
  assert (is_pool_page t) as Hpt by (by eapply tr_pool).
  destruct (to_own _ _ _ _ _ Htorn) as (own2 & Hown2 & Hai2).
  destruct (child_owned G q own own2 c i (mem s) (mem s2) t Hc Hown Htree Hown2) as [Hco Hct].
  { intros d Hd Hdt Hb. eapply torn_page; [exact Htorn|done| |tauto].
    intros p [->|Hp]; [done|exact (below_pool _ _ _ _ _ Htree Hp)]. }
  eapply wp_post; [by apply (deallocate_pagepable_spec fuel q i G own2 s2 c)|].
  intros [] s3 H3. pose proof (torn_seq _ _ _ _ _ _ _ _ _ Htorn Hown2 H3) as Hseq.
  assert (mem_agree t 4096 (mem s2) (mem s3)) as Hag.
  { eapply torn_page; [exact H3|by left| |].
    - intros p Hp. exact (below_pool _ _ _ _ _ Htree Hp).
    - by apply below_not_self. }
  split.
  - eapply torn_weaken; [exact Hseq|..]; intros d; rewrite below_snoc; tauto.
  - intros k Hk. rewrite <- (entry_agree _ _ _ _ Hag) by lia. auto.
  - intros k Hk. rewrite <- (entry_agree _ _ _ _ Hag) by lia. auto.
Qed.

Lemma leaf_flags e : shadow_leaf_ok e ->
  has_perm (permissions (unpack_pt_entry e)) PERMIDX_V = true /\
  has_rwx (permissions (unpack_pt_entry e)) = true.
Proof.
  intros (a & p & He & Ha & Hr & Hp). destruct (shadow_leaf_spec _ _ _ He Ha Hr Hp) as [-> _].
  cbn [permissions]. unfold shadow_perms in Hp. set_unfold in Hp. destruct_or!; by subst.
Qed.

Lemma cleared_init G q own t s :
  ai own s -> tree_ok G (mem s) q -> G !! t = Some (RShadow q) -> cleared G q own t s 0 s.
Proof.
  intros Hai Htree Ht. split; [split|lia|done]; [|done|done].
  exists own. split; [|done]. intros c. split; [|tauto]. intros Hc. split; [done|].
  intros (k & r & Hk & Hr). destruct (tree_child _ _ _ _ _ _ _ Htree Ht Hr). lia.
Qed.

Lemma cleared_end G q own t s s' :
  tree_ok G (mem s) q -> G !! t = Some (RShadow q) -> cleared G q own t s 512 s' ->
  torn own (below G q (fun _ => True)) (fun p => p = t \/ below G q (fun _ => True) p) s s' /\
  zero_table (mem s') t.
Proof.
  intros Htree Ht [Htorn Hz _]. split; [|done].
  assert (forall d, below G q (fun k => k < 512) d <-> below G q (fun _ => True) d) as Hb.
  { intros d. split; intros (k & r & _ & Hr); exists k, r; (split; [|done]); [done|].
    destruct (tree_child _ _ _ _ _ _ _ Htree Ht Hr). lia. }
  eapply torn_weaken; [done|..]; intros c; [intros _|]; cbv beta; specialize (Hb c); tauto.
Qed.

Lemma clear_pagetable_spec n fuel q :
  (length q + n = 2)%nat -> (2 * n + 1 <= fuel)%nat -> clear_spec fuel q.
Proof.
  revert fuel q. induction n as [n IH] using lt_wf_ind; intros fuel q Hq Hfuel G own s t Hai Hown Htree.
  pose proof (ow_node _ _ _ _ Hown) as Ht.
  assert (is_pool_page t) as Hpt by (by eapply tr_pool).
  destruct fuel as [|fuel]; [lia|]. cbn [clear_pagetable].
  rewrite (proj2 (Z.eqb_neq _ _) (is_pool_page_nonzero _ Hpt)).
  apply wp_for_range with (I := cleared G q own t s); [lia|by apply cleared_init| |].
  2: { intros s'. by apply cleared_end. }
  intros i s1 Hi Hcl. wp_step. apply wp_gets. cbv beta zeta. fold (entry (mem s1) t i).
  wp_step. wp_step.
  destruct (cleared_zero _ _ _ _ _ _ _ Hcl Hown ltac:(by left) ltac:(lia)) as (Htorn & Hz & Hrest).
  cbv zeta in *. rewrite (cl_rest _ _ _ _ _ _ _ Hcl) by lia.
  set (s2 := set_trace _ _) in *.
  assert (tree_ok G (mem s) (q ++ [])) as _ by (by rewrite app_nil_r).
  destruct (tr_entry _ _ _ Htree t [] ltac:(by rewrite app_nil_r)) as [_ Hent].
  rewrite app_nil_r in Hent.
  destruct (Hent i ltac:(lia)) as [H0|[(Hl & c & He & Hc)|[_ Hleaf]]].
  - rewrite H0. change (negb (has_perm (permissions (unpack_pt_entry 0)) PERMIDX_V)) with true.
    cbv iota. apply wp_ret. apply (cleared_skip G q own t s i s1 s2); try done.
    intros c Hc. pose proof (table_entry_range c Hc). lia.
  - assert (is_pool_page c) as Hpc by (by eapply tr_pool).
    rewrite He, table_entry_unpack by done.
    change (negb (has_perm (permissions (mkUnpacked c 1)) PERMIDX_V)) with false.
    change (has_rwx (permissions (mkUnpacked c 1))) with false. cbv iota. cbn [numeric_address].
    destruct fuel as [|fuel]; [lia|]. eapply cleared_child; try done.
    apply (IH (n - 1)%nat); [lia|rewrite length_app; simpl; lia|lia].
  - destruct (leaf_flags _ Hleaf) as [-> ->]. cbn [negb]. cbv iota. apply wp_ret.
    apply (cleared_skip G q own t s i s1 s2); try done. intros c. by apply leaf_not_table.
Qed.

(** ** flush_shadow_pagetable *)

(** The roles that remain: the machine tables and the empty shadow root. *)
Definition kept (r : PageRole) : Prop := match r with RShadow (_ :: _) => False | _ => True end.
#[export] Instance kept_dec r : Decision (kept r).
Proof. destruct r as [|[|]]; simpl; apply _. Defined.

Definition pruned (G : gmap Z PageRole) : gmap Z PageRole := filter (fun x => kept x.2) G.

Lemma lookup_pruned G c r : pruned G !! c = Some r <-> G !! c = Some r /\ kept r.
Proof. unfold pruned. by rewrite map_lookup_filter_Some. Qed.

Lemma not_below_kept G c r : G !! c = Some r -> ~ below G [] (fun _ => True) c -> kept r.
Proof.
  intros Hc Hb. destruct r as [|[|k path]]; [done..|]. destruct Hb. by exists k, path.
Qed.

Lemma tables_ok_pruned sp G m m' :
  tables_ok sp G m -> (sp <> 0 -> zero_table m' sp) ->
  (forall t, is_table t -> t <> sp -> ~ below G [] (fun _ => True) t -> mem_agree t 4096 m m') ->
  tables_ok sp (pruned G) m'.
Proof.
  intros Hok Hz Hag.
  assert (forall c i, G !! c = Some (RMachine i) -> c <> sp /\ ~ below G [] (fun _ => True) c) as Hm.
  { intros c i Hc. split; [|intros (k & r & _ & Hr); congruence]. intros ->.
    pose proof (is_pool_page_nonzero _ (tk_pool _ _ _ Hok _ _ Hc)).
    assert (G !! sp = Some (RShadow [])) by (by apply Hok). congruence. }
  assert (forall k, 0 <= k < 512 -> entry m' root k = entry m root k) as Er.
  { intros k Hk. symmetry. apply entry_agree; [|done]. apply Hag; [by right| |].
    - intros Hr. destruct (decide (sp = 0)) as [E|E].
      + pose proof root_bounds. unfold RAM_START in *. lia.
      + apply root_not_pool. rewrite Hr. eapply (tk_pool _ _ _ Hok). by apply Hok.
    - intros (j & r & _ & Hr). apply root_not_pool. by eapply tk_pool. }
  assert (forall c i k, G !! c = Some (RMachine i) -> 0 <= k < 512 -> entry m' c k = entry m c k) as Ec.
  { intros c i k Hc Hk. symmetry. apply entry_agree; [|done].
    destruct (Hm _ _ Hc). apply Hag; [by eapply tables_ok_is_table|done..]. }
  split.
  - intros c r [Hc _]%lookup_pruned. by eapply tk_pool.
  - intros i Hi. rewrite Er by (done || lia). destruct (tk_root _ _ _ Hok i Hi) as [|(c & He & Hc)]; [by left|].
    right. exists c. by rewrite lookup_pruned.
  - intros c i [Hc _]%lookup_pruned. destruct (tk_machine _ _ _ Hok _ _ Hc) as (Hi & He & Hj).
    split; [done|]. rewrite Er by (done || lia). split; [done|]. intros j Hj'.
    rewrite (Ec _ _ _ Hc) by done. by apply Hj.
  - intros c. rewrite lookup_pruned, <- (tk_shadow_root _ _ _ Hok c). simpl. tauto.
  - intros c [|k path] [Hc Hk]%lookup_pruned; [|done]. split; [simpl; lia|]. intros k Hk'. left.
    apply (tk_shadow_root _ _ _ Hok) in Hc as [-> Hne]. by apply Hz.
  - intros c path k [Hc Hk]%lookup_pruned. by destruct path.
Qed.

(** The pages the allocator considers handed out afterwards. *)
Lemma dom_pruned G own' :
  (forall c, c ∈ own' <-> c ∈ dom G /\ ~ below G [] (fun _ => True) c) -> own' = dom (pruned G).
Proof.
  intros Hown. apply set_eq. intros c. rewrite Hown, !elem_of_dom. split.
  - intros [[r Hr] Hb]. exists r. apply lookup_pruned. split; [done|]. by eapply not_below_kept.
  - intros [r [Hr Hk]%lookup_pruned]. split; [eauto|]. intros (k & q & _ & Hc). simpl in Hc.
    rewrite Hr in Hc. injection Hc as [= ->]. done.
Qed.

Lemma flush_spec g G s :
  vm_inv (ai := ai) g G s ->
  wp no_panic flush_shadow_pagetable (fun _ s' =>
    if shadow_page_table g =? 0 then s' = s
    else vm_inv (ai := ai) g (pruned G) s' /\ vm_ext s s' /\ tlb_synced (trace s') = true /\
      zero_table (mem s') (shadow_page_table g) /\
      (forall va, machine_entry (mem s') va = machine_entry (mem s) va)) s.
Proof.
  intros [Hsc Hcur Hg Hal Htab]. unfold flush_shadow_pagetable. wp_step.
  eapply wp_ok; [apply (get_current_guest_ok s g Hsc); by rewrite Hcur|].
  cbv beta iota zeta. destruct (Z.eqb_spec (shadow_page_table g) 0) as [H0|Hsp]; [by apply wp_ret|].
  set (sp := shadow_page_table g) in *.
  assert (G !! sp = Some (RShadow [])) as Hroot by (by apply Htab).
  assert (is_pool_page sp) as Hpsp by (by eapply tk_pool).
  pose proof (tables_ok_tree _ _ _ Htab) as Htree.
  wp_step. eapply wp_post.
  { apply (clear_pagetable_spec 2 TABLE_FUEL [] eq_refl ltac:(unfold TABLE_FUEL; lia) G (dom G) s sp); try done.
    split; [done|]. intros c r Hc. apply elem_of_dom. eauto. }
  intros [] s1 [Htorn Hz]. apply wp_modify.
  set (s2 := set_trace _ s1). assert (quiet s1 s2) as Hq by apply quiet_set_trace.
  pose proof (to_ext _ _ _ _ _ Htorn) as Hext.
  assert (forall t, is_table t -> t <> sp -> ~ below G [] (fun _ => True) t ->
    mem_agree t 4096 (mem s) (mem s1)) as Hag.
  { intros t Ht Hne Hb. eapply torn_page; [exact Htorn|done| |tauto].
    intros p [->|Hp]; [done|exact (below_pool _ _ _ _ _ Htree Hp)]. }
  pose proof (tables_ok_pruned sp G _ _ Htab ltac:(done) Hag) as Htab1.
  destruct (to_own _ _ _ _ _ Htorn) as (own' & Hown' & Hai').
  rewrite (dom_pruned _ _ Hown') in Hai'.
  assert (vm_inv (ai := ai) g (pruned G) s1) as Hinv1.
  { pose proof Hext as [Ecsr Eh Eg _ _ _]. split; try done.
    - unfold mscratch_ok in *. by rewrite Ecsr.
    - by rewrite Eh.
    - by rewrite Eg. }
  split; [by eapply vm_inv_quiet|]. split; [etrans; [done|by apply quiet_vm_ext]|].
  split; [done|]. split; [done|]. intros va. change (mem s2) with (mem s1).
  unfold machine_entry. cbn [path_entry].
  assert (forall t k, is_table t -> t <> sp -> ~ below G [] (fun _ => True) t -> 0 <= k < 512 ->
    entry (mem s1) t k = entry (mem s) t k) as E.
  { intros t k Ht Hne Hb Hk. symmetry. apply entry_agree; [by apply Hag|done]. }
  rewrite E; [|by right| | |apply vpn_range].
  - destruct (tk_root _ _ _ Htab (vpn 2 va) (vpn_range _ _)) as [H|(d & He & Hd)]; [by rewrite H|].
    case_match; [done|]. rewrite He, (table_entry_unpack d (tk_pool _ _ _ Htab _ _ Hd)). cbn [numeric_address].
    apply E; [exact (tables_ok_is_table _ _ _ _ _ Htab Hd)| | |apply vpn_range].
    + intros ->. congruence.
    + intros (k & r & _ & Hr). congruence.
  - intros Hr. apply root_not_pool. by rewrite Hr.
  - intros (k & r & _ & Hr). apply root_not_pool. exact (tk_pool _ _ _ Htab _ _ Hr).
Qed.

End flush.
