(* ===== verification/WalkSpec.v ===== *)
(** Walks in software: resolve_guestmem_slice follows the hypervisor's own
    tables the way the memory-management unit does, and try_resolve_gu_to_gm
    follows the guest's. *)
From S2P Require Import Prelude Machine Wp Print Pte PageAlloc Vmem Tables VmemSpec ShadowSpec.

(** ** Bit operations of the walks *)

Lemma vpn_of_shift va lvl : Z.land 511 (Z.shiftr va (12 + 9 * Z.of_nat lvl)) = vpn lvl va.
Proof. rewrite Z.land_comm. apply (shift_mask_vpn va lvl). Qed.

Lemma int_shift_ok lvl s : (lvl <= 2)%nat ->
  int_shift (12 + 9 * Z.of_nat lvl) s = Ok (sv39_span lvl) s.
Proof.
  intros H. unfold int_shift. rewrite (proj2 (Z.leb_gt _ _)) by lia.
  unfold ret, sv39_span. by rewrite Z.shiftl_1_l.
Qed.

Lemma span_mask va lvl : Z.land va (sv39_span lvl - 1) = va mod sv39_span lvl.
Proof. unfold sv39_span. apply land_low. lia. Qed.

Lemma span_pos lvl : 0 < sv39_span lvl.
Proof. unfold sv39_span. lia. Qed.

(** ** resolve_guestmem_slice on any tables *)

(** The slice a leaf entry provides. *)
Definition leaf_slice (lvl : nat) (e : UnpackedPagetableEntry) (va remaining : Z) : HostSlice :=
  let off := va mod sv39_span lvl in
  let len := sv39_span lvl - off in
  mkHostSlice (add64 (numeric_address e) off) (if remaining <? len then remaining else len).

Section walks.
Context {plat : Platform} {plat_ok : PlatformOk}.

Lemma has_V_of_valid pte : sv39_invalid pte = false ->
  has_perm (permissions (unpack_pt_entry pte)) PERMIDX_V = true.
Proof. unfold sv39_invalid. by destruct (has_perm _ PERMIDX_V). Qed.

Lemma resolve_loop_leaf fuel lvl e va remaining s :
  (lvl <= 2)%nat -> has_perm (permissions e) PERMIDX_V = true -> has_rwx (permissions e) = true ->
  has_perm (permissions e) PERMIDX_U = true ->
  resolve_loop (S fuel) va remaining (12 + 9 * Z.of_nat lvl - 9) e s =
    Ok (leaf_slice lvl e va remaining) s.
Proof.
  intros Hlvl HV HX HU. cbn [resolve_loop]. rewrite HV, HX, HU. cbn [negb].
  replace (12 + 9 * Z.of_nat lvl - 9 + 9) with (12 + 9 * Z.of_nat lvl) by lia.
  unfold bind. rewrite int_shift_ok by lia. by rewrite span_mask.
Qed.

(** A pointer entry leads to the entry of the next table. *)
Lemma resolve_loop_next fuel lvl p t va remaining s :
  has_perm p PERMIDX_V = true -> has_rwx p = false ->
  resolve_loop (S fuel) va remaining (12 + 9 * Z.of_nat lvl) (mkUnpacked t p) s =
    resolve_loop fuel va remaining (12 + 9 * Z.of_nat lvl - 9)
      (unpack_pt_entry (load64 (mem s) (entry_addr t (vpn lvl va)))) s.
Proof.
  intros HV HX. cbn [resolve_loop permissions]. rewrite HV, HX. cbn [negb].
  rewrite (proj2 (Z.leb_gt _ _)) by (unfold PGSHIFT; lia). by rewrite vpn_of_shift.
Qed.

(** Where the specification finds a user leaf, the code returns its slice. *)
Lemma resolve_loop_found lvl fuel t p va remaining s l e :
  (lvl <= 2)%nat -> (lvl + 2 <= fuel)%nat ->
  has_perm p PERMIDX_V = true -> has_rwx p = false ->
  sv39_leaf (mem s) lvl t va = Some (l, e) -> has_perm (permissions e) PERMIDX_U = true ->
  resolve_loop fuel va remaining (12 + 9 * Z.of_nat lvl) (mkUnpacked t p) s =
    Ok (leaf_slice l e va remaining) s.
Proof.
  revert fuel t p. induction lvl as [|lvl IH]; intros [|[|fuel]] t p Hlvl Hfuel HV HX Hleaf HU; try lia.
  all: rewrite resolve_loop_next by done; cbn [sv39_leaf] in Hleaf.
  all: set (pte := load64 _ _) in *; destruct (sv39_invalid pte) eqn:Einv; [done|];
    apply has_V_of_valid in Einv; destruct (has_rwx (permissions (unpack_pt_entry pte))) eqn:EX; [|try done].
  1,2: destruct (_ =? 0); [|done]; injection Hleaf as [= <- <-]; by apply resolve_loop_leaf.
  replace (12 + 9 * Z.of_nat (S lvl) - 9) with (12 + 9 * Z.of_nat lvl) by lia.
  destruct (unpack_pt_entry pte) as [a q] eqn:Eu. cbn [permissions numeric_address] in *.
  apply IH; (done || lia).
Qed.

(** The tables of the hypervisor hold nothing but zeros, pointers to tables
    and well-formed user leaves along the path of [va]. *)
Fixpoint walkable (m : mem_t) (lvl : nat) (t va : Z) : Prop :=
  let pte := load64 m (entry_addr t (vpn lvl va)) in
  pte = 0 \/
  (exists e, sv39_leaf m lvl t va = Some (lvl, e) /\ has_perm (permissions e) PERMIDX_U = true) \/
  match lvl with
  | O => False
  | S lvl' => exists c, is_pool_page c /\ pte = table_entry c /\ walkable m lvl' c va
  end.

Lemma walkable_leaf_user m lvl t va l e :
  walkable m lvl t va -> sv39_leaf m lvl t va = Some (l, e) ->
  has_perm (permissions e) PERMIDX_U = true.
Proof.
  revert t. induction lvl as [|lvl IH]; intros t [H0|[(e' & He & HU)|H]] Hl.
  1,4: rewrite sv39_leaf_zero in Hl; done.
  1,3: rewrite He in Hl; by injection Hl as [= <- <-].
  - done.
  - destruct H as (c & Hc & Hpte & Hw). rewrite (sv39_leaf_table m lvl t va c Hc Hpte) in Hl. eauto.
Qed.

(** On such tables the code panics exactly where nothing is mapped. *)
Lemma resolve_loop_unmapped lvl fuel t p va remaining s (Q : HostSlice -> State -> Prop) :
  mscratch_ok s -> (lvl <= 2)%nat -> (lvl + 2 <= fuel)%nat ->
  has_perm p PERMIDX_V = true -> has_rwx p = false ->
  walkable (mem s) lvl t va -> sv39_leaf (mem s) lvl t va = None ->
  wp any_panic (resolve_loop fuel va remaining (12 + 9 * Z.of_nat lvl) (mkUnpacked t p)) Q s.
Proof.
  intros Hsc. revert fuel t p. induction lvl as [|lvl IH];
    intros [|[|fuel]] t p Hlvl Hfuel HV HX Hw Hleaf; try lia; unfold wp.
  all: rewrite resolve_loop_next by done; destruct Hw as [H0|[(e & He & _)|H]]; [|congruence|].
  1,3: rewrite H0; by apply wp_panic_msg_any.
  - done.
  - destruct H as (c & Hc & Hpte & Hw). rewrite Hpte, table_entry_unpack by done.
    replace (12 + 9 * Z.of_nat (S lvl) - 9) with (12 + 9 * Z.of_nat lvl) by lia.
    apply IH; try (done || lia). by rewrite (sv39_leaf_table _ _ _ _ _ Hc Hpte) in Hleaf.
Qed.

Lemma walkable_machine sp G m va : tables_ok sp G m -> walkable m 2 root va.
Proof.
  intros Hok. cbn [walkable]. fold (entry m root (vpn 2 va)).
  destruct (tk_root _ _ _ Hok (vpn 2 va) (vpn_range _ _)) as [|(c & He & Hc)]; [by left|].
  right; right. exists c. split; [by eapply tk_pool|]. split; [done|].
  destruct (tk_machine _ _ _ Hok _ _ Hc) as (Hi & _ & Hj). fold (entry m c (vpn 1 va)).
  destruct (Hj (vpn 1 va) (vpn_range _ _)) as [|Hl]; [by left|]. right; left.
  exists (mkUnpacked (machine_base (vpn 2 va) (vpn 1 va)) 31). split; [|done].
  apply sv39_leaf_found; rewrite ?Hl.
  - apply machine_leaf_unpack; apply vpn_range.
  - apply machine_leaf_range; apply vpn_range.
  - unfold shadow_perms. set_solver.
  - apply machine_base_bounds; apply vpn_range.
Qed.

Lemma walkable_shadow sp G m lvl t q va :
  tables_ok sp G m -> G !! t = Some (RShadow q) -> (length q + lvl = 2)%nat -> walkable m lvl t va.
Proof.
  intros Hok. revert t q. induction lvl as [|lvl IH]; intros t q Ht Hq;
    destruct (tk_shadow _ _ _ Hok _ _ Ht) as [_ Hent]; cbn [walkable];
    match goal with |- context [vpn ?l va] => specialize (Hent (vpn l va) (vpn_range _ _)) end;
    match goal with |- context [load64 m (entry_addr t ?k)] => fold (entry m t k) end.
  - destruct Hent as [H0|[[? _]|[_ (a & p & He & Ha & Hr & Hp)]]]; [by left|lia|].
    destruct (shadow_leaf_spec _ _ _ He Ha Hr Hp) as [Hu Hrange].
    right; left. exists (mkUnpacked a p). split; [by apply sv39_leaf_found|].
    unfold shadow_perms in Hp. set_unfold in Hp. destruct_or!; by subst.
  - destruct Hent as [H0|[(_ & c & Hc & HG)|[? _]]]; [by left| |lia].
    right; right. exists c. split; [by eapply tk_pool|]. split; [done|].
    apply (IH c _ HG). rewrite length_app. simpl. lia.
Qed.

(** ** Every byte of the slice is the translation of its address *)

Lemma vpn_same_span va d l i :
  0 <= va -> 0 <= d -> va mod sv39_span l + d < sv39_span l -> (l <= i)%nat -> vpn i (va + d) = vpn i va.
Proof.
  intros Hva Hd Hlt Hi. unfold vpn, sv39_span in *. f_equal.
  set (k := 12 + 9 * Z.of_nat l) in *. set (j := 12 + 9 * Z.of_nat i).
  assert (2 ^ j = 2 ^ k * 2 ^ (j - k)) as -> by (rewrite <- Z.pow_add_r by lia; f_equal; lia).
  rewrite <- !Z.div_div by lia. f_equal.
  assert (0 < 2 ^ k) by lia. pose proof (Z.mod_pos_bound va (2 ^ k)).
  pose proof (Z.div_mod va (2 ^ k)). symmetry.
  apply (Z.div_unique (va + d) (2 ^ k) (va / 2 ^ k) (va mod 2 ^ k + d)); lia.
Qed.

Lemma sv39_leaf_same_span m lvl t va d l e :
  0 <= va -> 0 <= d -> sv39_leaf m lvl t va = Some (l, e) -> va mod sv39_span l + d < sv39_span l ->
  (l <= lvl)%nat /\ sv39_leaf m lvl t (va + d) = Some (l, e).
Proof.
  intros Hva Hd. revert t. induction lvl as [|lvl IH]; intros t Hl Hlt.
  - assert (l = 0%nat) as ->.
    { cbn [sv39_leaf] in Hl. repeat case_match; congruence. }
    split; [done|]. cbn [sv39_leaf] in *. by rewrite (vpn_same_span va d 0 0).
  - cbn [sv39_leaf] in *. destruct (sv39_invalid _) eqn:Ei in Hl; [done|].
    destruct (has_rwx _) eqn:Ex in Hl.
    + assert (l = S lvl) as -> by (case_match; congruence). split; [done|].
      rewrite (vpn_same_span va d (S lvl) (S lvl)) by (done || lia). by rewrite Ei, Ex.
    + destruct (IH _ Hl Hlt) as [Hle Hl']. split; [lia|].
      rewrite (vpn_same_span va d l (S lvl)) by (done || lia). by rewrite Ei, Ex.
Qed.

Lemma sv39_leaf_address m lvl t va l e :
  sv39_leaf m lvl t va = Some (l, e) -> 0 <= numeric_address e < 2 ^ 56.
Proof.
  revert t. induction lvl as [|lvl IH]; intros t; cbn [sv39_leaf];
    pose proof (load64_range m (entry_addr t (vpn 0 va))) as H0;
    try pose proof (load64_range m (entry_addr t (vpn (S lvl) va))) as H1;
    (destruct (sv39_invalid _) eqn:Ei; [done|]); (destruct (has_rwx _); [|try done; apply IH]);
    (destruct (_ =? 0); [|done]); intros [= <- <-];
    unfold sv39_invalid in Ei; apply orb_false_elim in Ei as [_ Ei]; apply Z.leb_gt in Ei;
    rewrite unpack_arith by done; cbn [numeric_address]; word_lia.
Qed.

(** A leaf is an entry of one of the levels. *)
Lemma sv39_leaf_unpacked m lvl t va l e :
  sv39_leaf m lvl t va = Some (l, e) -> (l <= lvl)%nat /\ numeric_address e mod 4096 = 0.
Proof.
  revert t. induction lvl as [|lvl IH]; intros t; cbn [sv39_leaf];
    (destruct (sv39_invalid _); [done|]); (destruct (has_rwx _); [|try done]);
    [..|intros H; destruct (IH _ H); split; [lia|done]];
    (destruct (_ =? 0); [|done]); intros [= <- <-]; split; try lia; apply unpack_address_aligned.
Qed.

(** Adding the offset to the address of a leaf does not wrap around. *)
Lemma leaf_address m t va l e : sv39_leaf m 2 t va = Some (l, e) ->
  add64 (numeric_address e) (va mod sv39_span l) = numeric_address e + va mod sv39_span l.
Proof.
  intros Hl. pose proof (sv39_leaf_address _ _ _ _ _ _ Hl). pose proof (sv39_leaf_level _ _ _ _ _ _ Hl) as Hle.
  pose proof (Z.mod_pos_bound va _ (span_pos l)).
  assert (sv39_span l <= 2 ^ 30) by (unfold sv39_span; apply Z.pow_le_mono_r; lia).
  apply u64_id. change (2 ^ 56) with 72057594037927936 in *. change (2 ^ 30) with 1073741824 in *. lia.
Qed.

(** The translation of the bytes of a slice. *)
Definition slice_translates (m : mem_t) (table va : Z) (h : HostSlice) : Prop :=
  exists p, forall d, 0 <= d < hs_byte_length h ->
    sv39_translate m table (va + d) = Some (hs_address h + d, p).

Lemma leaf_slice_translates m t va remaining l e :
  0 <= va -> sv39_leaf m 2 t va = Some (l, e) -> 0 < remaining ->
  slice_translates m t va (leaf_slice l e va remaining) /\
  0 < hs_byte_length (leaf_slice l e va remaining) <= remaining /\
  hs_byte_length (leaf_slice l e va remaining) <= sv39_span l - va mod sv39_span l.
Proof.
  intros Hva Hl Hrem. pose proof (span_pos l) as Hspan.
  pose proof (Z.mod_pos_bound va _ Hspan) as Hoff. pose proof (sv39_leaf_address _ _ _ _ _ _ Hl) as Ha.
  unfold leaf_slice. cbv zeta. cbn [hs_byte_length].
  set (len := if _ <? _ then _ else _).
  assert (0 < len <= remaining /\ len <= sv39_span l - va mod sv39_span l) as [Hlen1 Hlen2].
  { unfold len. destruct (Z.ltb_spec remaining (sv39_span l - va mod sv39_span l)); lia. }
  split; [|split; lia]. exists (permissions e). cbn [hs_byte_length hs_address]. intros d Hd.
  destruct (sv39_leaf_same_span m 2 t va d l e Hva ltac:(lia) Hl ltac:(lia)) as [Hle Hl'].
  unfold sv39_translate. rewrite Hl'. f_equal. f_equal. unfold add64. rewrite u64_id.
  - rewrite <- Z.add_assoc. f_equal. symmetry.
    apply (Z.mod_unique_pos _ _ (va / sv39_span l)); [lia|].
    pose proof (Z.div_mod va (sv39_span l)). lia.
  - assert (sv39_span l <= 2 ^ 30) by (unfold sv39_span; apply Z.pow_le_mono_r; lia).
    change (2 ^ 56) with 72057594037927936 in *. change (2 ^ 30) with 1073741824 in *. lia.
Qed.

(** ** resolve_guestmem_slice *)

Context {ai : gset Z -> State -> Prop}.

(** The table in use for the guest. *)
Definition active_table (g : GuestThreadContext) : Z :=
  if shadow_pt_active g then shadow_page_table g else root.

Lemma active_walkable g G m va :
  tables_ok (shadow_page_table g) G m -> active_table g <> 0 -> walkable m 2 (active_table g) va.
Proof.
  intros Hok. unfold active_table. destruct (shadow_pt_active g); intros Hne.
  - eapply (walkable_shadow _ G m 2 _ []); [done|by apply Hok|done].
  - by eapply walkable_machine.
Qed.

Definition resolve_post (g : GuestThreadContext) (it : GuestSliceIterator) (s : State)
    (it' : GuestSliceIterator) (s' : State) : Prop :=
  let va := add64 (virtual_ptr (it_guest it)) (it_offset it) in
  let remaining := sub64 (gs_byte_length (it_guest it)) (it_offset it) in
  s' = s /\ it_success it' = true /\ it_guest it' = it_guest it /\ it_offset it' = it_offset it /\
  slice_translates (mem s) (active_table g) va (it_host it') /\
  0 <= hs_byte_length (it_host it') <= remaining /\
  (hs_byte_length (it_host it') = 0 <-> remaining = 0).

Lemma resolve_guestmem_slice_spec g G s it :
  vm_inv (ai := ai) g G s -> thid (it_guest it) = (0, 0) ->
  wp any_panic (resolve_guestmem_slice it) (resolve_post g it s) s.
Proof.
  intros Hinv Hth. pose proof (vi_scratch _ _ _ Hinv) as Hsc. unfold resolve_guestmem_slice.
  rewrite Hth. wp_step. eapply wp_ok; [apply get_guest_thread_ok, Hinv|]. cbv beta. cbn [fst].
  change (machine_root 0) with root. fold (active_table g).
  destruct (Z.eqb_spec (active_table g) 0) as [|Hne]; [by apply wp_panic_msg_any|].
  unfold resolve_post.
  set (va := add64 _ _) in *. set (rem := sub64 _ _) in *.
  destruct (Z.eqb_spec rem 0) as [H0|H0].
  { apply wp_ret. cbn [it_success it_guest it_offset it_host hs_byte_length]. rewrite H0.
    split_and!; try done. exists 0. cbn [hs_byte_length]. lia. }
  destruct (_ <? rem).
  { apply wp_bind, wp_print_string. intros s1 H1. apply wp_bind, wp_print_addr. intros s2 H2.
    apply wp_panic_msg_addr_any. by do 2 (eapply mscratch_ok_io; [done|]). }
  wp_step. pose proof (active_walkable g G (mem s) va (vi_tables _ _ _ Hinv) Hne) as Hw.
  change (PGSHIFT + 9 + 9) with (12 + 9 * Z.of_nat 2).
  assert (0 <= rem) by apply u64_range. assert (0 <= va) by apply u64_range.
  destruct (sv39_leaf (mem s) 2 (active_table g) va) as [[l e]|] eqn:Hl.
  - eapply wp_ok.
    { apply (resolve_loop_found 2 RESOLVE_FUEL (active_table g) 1 va rem s l e); try done; [unfold RESOLVE_FUEL; lia|].
      by eapply walkable_leaf_user. }
    apply wp_ret. cbn [it_success it_guest it_offset it_host].
    destruct (leaf_slice_translates (mem s) (active_table g) va rem l e) as (Hs1 & Hs2 & _); try done; [lia|].
    split_and!; try done; lia.
  - apply resolve_loop_unmapped; try done. unfold RESOLVE_FUEL. lia.
Qed.

(** A mapped range yields the slice of its leaf entry. *)
Lemma resolve_guestmem_slice_leaf g G s it l e :
  vm_inv (ai := ai) g G s -> thid (it_guest it) = (0, 0) -> active_table g <> 0 ->
  0 <= it_offset it < gs_byte_length (it_guest it) -> gs_byte_length (it_guest it) < 2 ^ 64 ->
  (let va := add64 (virtual_ptr (it_guest it)) (it_offset it) in
   sv39_leaf (mem s) 2 (active_table g) va = Some (l, e) ->
   resolve_guestmem_slice it s = Ok (mkIter (it_guest it) true (it_required_perm it) (it_offset it)
     (leaf_slice l e va (gs_byte_length (it_guest it) - it_offset it))) s).
Proof.
  intros Hinv Hth Hne Hoff Hlen. cbv zeta. set (va := add64 _ _). intros Hl.
  unfold resolve_guestmem_slice. rewrite Hth.
  erewrite bind_ok by (apply get_guest_thread_ok, Hinv). cbn [fst].
  change (machine_root 0) with root. fold (active_table g). rewrite (proj2 (Z.eqb_neq _ _) Hne).
  assert (sub64 (gs_byte_length (it_guest it)) (it_offset it) =
    gs_byte_length (it_guest it) - it_offset it) as -> by (apply u64_id; lia).
  rewrite (proj2 (Z.eqb_neq _ _)) by lia. rewrite (proj2 (Z.ltb_ge _ _)) by lia. fold va.
  change (PGSHIFT + 9 + 9) with (12 + 9 * Z.of_nat 2).
  erewrite bind_ok; [done|].
  apply (resolve_loop_found 2 RESOLVE_FUEL (active_table g) 1); try done; [unfold RESOLVE_FUEL; lia|].
  eapply walkable_leaf_user; [|done]. by apply (active_walkable g G), Hne; apply Hinv.
Qed.

(** The walk stops for want of a mapping only. *)
Lemma resolve_guestmem_slice_mapped g G s it :
  vm_inv (ai := ai) g G s -> thid (it_guest it) = (0, 0) -> active_table g <> 0 ->
  0 <= it_offset it < gs_byte_length (it_guest it) -> gs_byte_length (it_guest it) < 2 ^ 64 ->
  sv39_translate (mem s) (active_table g) (add64 (virtual_ptr (it_guest it)) (it_offset it)) <> None ->
  wp no_panic (resolve_guestmem_slice it) (fun _ s' => s' = s) s.
Proof.
  intros Hinv Hth Hne Hoff Hlen. unfold sv39_translate.
  destruct (sv39_leaf _ _ _ _) as [[l e]|] eqn:Hl; [|done]. intros _.
  eapply wp_ok; [by eapply (resolve_guestmem_slice_leaf g G)|done].
Qed.

(** The bytes of a slice that the table in use does not map. *)
Definition slice_unmapped (g : GuestThreadContext) (m : mem_t) (slice : GuestSlice) : Prop :=
  active_table g = 0 \/ exists k, 0 <= k < gs_byte_length slice /\
    sv39_translate m (active_table g) (add64 (virtual_ptr slice) k) = None.

Lemma resolve_guestmem_slice_total g G s it :
  vm_inv (ai := ai) g G s -> thid (it_guest it) = (0, 0) ->
  0 <= it_offset it <= gs_byte_length (it_guest it) -> gs_byte_length (it_guest it) < 2 ^ 64 ->
  wp (fun _ => slice_unmapped g (mem s) (it_guest it)) (resolve_guestmem_slice it) (resolve_post g it s) s.
Proof.
  intros Hinv Hth Hoff Hlen. pose proof (resolve_guestmem_slice_spec g G s it Hinv Hth) as Hany.
  destruct (decide (active_table g = 0)) as [H0|Hne].
  { eapply wp_mono; [exact Hany|done|]. intros _ _. by left. }
  destruct (decide (it_offset it = gs_byte_length (it_guest it))) as [He|Hlt].
  { apply wp_total. eapply wp_not_panicking; [exact Hany|].
    unfold resolve_guestmem_slice. rewrite Hth. wp_step. eapply wp_ok; [apply get_guest_thread_ok, Hinv|].
    cbv beta. cbn [fst]. change (machine_root 0) with root. fold (active_table g).
    rewrite (proj2 (Z.eqb_neq _ _) Hne), He. unfold sub64. rewrite Z.sub_diag. by apply (wp_ret _ _ (fun _ _ => True)). }
  destruct (sv39_translate (mem s) (active_table g) (add64 (virtual_ptr (it_guest it)) (it_offset it))) eqn:Htr.
  - apply wp_total. eapply wp_not_panicking; [exact Hany|].
    apply (resolve_guestmem_slice_mapped g G s it); try done; [lia|by rewrite Htr].
  - eapply wp_mono; [exact Hany|done|]. intros _ _. right. exists (it_offset it). split; [lia|done].
Qed.

(** ** The guest's own tables *)

(** Guest-physical memory as the guest sees it. *)
Definition guest_view (m : mem_t) : mem_t := kmap (fun x => x - GUEST_MEMORY_OFFSET) m.

#[local] Instance guest_shift_inj : Inj (=) (=) (fun x => x - GUEST_MEMORY_OFFSET).
Proof. intros x y H. lia. Qed.

Lemma guest_view_lookup m a : guest_view m !! a = m !! (a + GUEST_MEMORY_OFFSET).
Proof.
  unfold guest_view. replace a with ((a + GUEST_MEMORY_OFFSET) - GUEST_MEMORY_OFFSET) at 1 by lia.
  apply (lookup_kmap (fun x => x - GUEST_MEMORY_OFFSET) m (a + GUEST_MEMORY_OFFSET)).
Qed.

Lemma load_le_guest_view n m a : load_le n (guest_view m) a = load_le n m (a + GUEST_MEMORY_OFFSET).
Proof.
  revert a. induction n as [|n IH]; intros a; [done|]. cbn [load_le].
  unfold load8. rewrite guest_view_lookup, IH. do 3 f_equal. lia.
Qed.

Lemma load64_guest_view m a : load64 (guest_view m) a = load64 m (a + GUEST_MEMORY_OFFSET).
Proof. apply (load_le_guest_view 8). Qed.

(** The tables met on the way lie in the memory the guest was given. *)
Fixpoint tables_in_ram (m : mem_t) (lvl : nat) (t va : Z) : Prop :=
  0x80000000 <= t < 2 ^ 39 /\
  match lvl with
  | O => True
  | S lvl' =>
      let e := unpack_pt_entry (load64 m (entry_addr t (vpn lvl va))) in
      has_rwx (permissions e) = false -> has_perm (permissions e) PERMIDX_V = true ->
      tables_in_ram m lvl' (numeric_address e) va
  end.

(** What the walk makes of the leaf the specification finds: superpages are
    resolved, pages of 4 KiB are not. *)
Definition resolved_leaf (l : nat) (e : UnpackedPagetableEntry) (gu : Z) : option Z :=
  match l with
  | O => None
  | S _ => Some (add64 (numeric_address e) (gu mod sv39_span l))
  end.

Context {ai_ok : AllocatorContract ai}.

(** What a walk over the guest's tables may do: at most [n] pages are taken
    from the pool for machine tables, and the shadow mappings stay. *)
Record walked (n : nat) (g : GuestThreadContext) (G : gmap Z PageRole) (s s' : State) : Prop := {
  wk_synced : tlb_synced (trace s) = true -> tlb_synced (trace s') = true;
  wk_shadow : shadow_page_table g <> 0 ->
    forall va, shadow_entry (mem s') (shadow_page_table g) va = shadow_entry (mem s) (shadow_page_table g) va;
  wk_tables : exists G', grows n G G' /\ vm_inv (ai := ai) g G' s' /\ vm_ext s s' }.

Lemma walked_quiet n g G s s' :
  vm_inv (ai := ai) g G s -> quiet s s' -> trace s' = trace s -> walked n g G s s'.
Proof.
  intros Hinv Hq Ht. split; [by rewrite Ht|by rewrite (quiet_mem _ _ Hq)|]. exists G.
  split; [apply grows_refl|]. split; [by eapply vm_inv_quiet|by apply quiet_vm_ext].
Qed.

Lemma walked_self n g G s : vm_inv (ai := ai) g G s -> walked n g G s s.
Proof. intros H. split; [done..|]. exists G. split; [apply grows_refl|done]. Qed.

(** The walk goes on from the tables [G1] reached so far. *)
Lemma walked_trans n m g G G1 s s1 s2 :
  walked n g G s s1 -> grows n G G1 -> vm_ext s s1 -> walked m g G1 s1 s2 -> walked (n + m) g G s s2.
Proof.
  intros [Hsync Hsh _] Hg Hext [Hsync' Hsh' (G2 & Hg2 & Hinv2 & Hext2)].
  split; [auto|intros Hne va; by rewrite Hsh', Hsh|]. exists G2.
  split; [by eapply grows_trans|]. split; [done|by etrans].
Qed.

Lemma walked_weaken n m g G s s' : walked n g G s s' -> (n <= m)%nat -> walked m g G s s'.
Proof.
  intros [Hsync Hsh (G1 & Hg & H)] Hle. split; [done..|]. exists G1. split; [by eapply grows_weaken|done].
Qed.

Lemma walked_print {A} n g G s (k : M A) Pn Q str :
  vm_inv (ai := ai) g G s -> (forall s', walked n g G s s' -> wp Pn k Q s') ->
  wp Pn (print_string str ;; k) Q s.
Proof.
  intros Hinv H. apply wp_bind, wp_print_string_quiet. intros s' Hq Ht. apply H. by apply walked_quiet.
Qed.

(** An address mapped for the walk. *)
Lemma ensure_walked g G s ctx t :
  vm_inv (ai := ai) g G s -> current_guest ctx = (0, 0) ->
  wp (pool_lacks 1 G) (ensure_guest_machine_mapped ctx t) (fun r s' =>
    walked 1 g G s s' /\
    r = (if t <? 0x80000000 then (PFHR_TOO_LOW, None)
         else if 2 ^ 39 <=? t then (PFHR_TOO_HIGH, None)
         else (r.1, Some (t + GUEST_MEMORY_OFFSET))) /\
    (0x80000000 <= t < 2 ^ 39 -> r.1 = PFHR_SUCCESS \/ r.1 = PFHR_NOT_CHANGED)) s.
Proof.
  intros Hinv Hctx. eapply wp_post; [by apply (ensure_spec_total g G s ctx t Hinv Hctx)|].
  intros [r o] s' (G' & Hg & Hinv' & Hext & Hpost). unfold ensure_post in Hpost. cbn [fst snd] in *.
  destruct (Z.ltb_spec t 0x80000000); [|destruct (Z.leb_spec (2 ^ 39) t)].
  1-2: destruct Hpost as [[= -> ->] ->]; (split; [by apply walked_self|]); (split; [done|lia]).
  destruct Hpost as (Ho & Hr & _ & _ & Hsh). split; [|split; [by rewrite Ho|intros _; naive_solver]].
  split; [naive_solver|done|by exists G'].
Qed.

(** The pointer to the next table, after ensure_guest_machine_mapped. *)
Definition next_table (r : PageFaultHandlerResult * option Z) : M Z :=
  match r with
  | (PFHR_SUCCESS, Some p) | (PFHR_NOT_CHANGED, Some p) => ret p
  | (PFHR_TOO_LOW, _) =>
      print_string (Some (nl +:+ "Guest placed the page table level below RAM")) ;; undef
  | (PFHR_TOO_HIGH, _) =>
      print_string (Some (nl +:+
        "Guest placed the page table level above the usable address space")) ;; undef
  | _ => undef
  end.

Lemma next_table_in_ram g G s ctx t :
  vm_inv (ai := ai) g G s -> current_guest ctx = (0, 0) -> 0x80000000 <= t < 2 ^ 39 ->
  wp (pool_lacks 1 G) (let! r := ensure_guest_machine_mapped ctx t in next_table r) (fun q s' =>
    q = t + GUEST_MEMORY_OFFSET /\ walked 1 g G s s') s.
Proof.
  intros Hinv Hctx Ht. apply wp_bind. eapply wp_post; [by apply ensure_walked|].
  intros [r o] s' (Hw & Hr & Hor). rewrite (proj2 (Z.ltb_ge _ _)), (proj2 (Z.leb_gt _ _)) in Hr by lia.
  cbn [fst] in *. injection Hr as ->. by destruct (Hor Ht) as [-> | ->].
Qed.

Lemma wpx_print_undef {A} (ub : Prop) str (Q : A -> State -> Prop) s :
  ub -> wpx ub (print_string str ;; undef) Q s.
Proof. intros Hub. apply wpx_bind. eapply wpx_wp, (wp_print_string any_panic). by intros s' _. Qed.

Lemma next_table_spec (ub : Prop) g G s ctx t :
  vm_inv (ai := ai) g G s -> current_guest ctx = (0, 0) -> ub \/ 0x80000000 <= t < 2 ^ 39 ->
  wpx ub (let! r := ensure_guest_machine_mapped ctx t in next_table r) (fun q s' =>
    q = t + GUEST_MEMORY_OFFSET /\ 0x80000000 <= t < 2 ^ 39 /\ walked 1 g G s s') s.
Proof.
  intros Hinv Hctx Ht. destruct (decide (0x80000000 <= t < 2 ^ 39)) as [Hr|Hr].
  { eapply wpx_post; [by eapply wpx_wp, (next_table_in_ram g G)|]. by intros q s' [-> ?]. }
  destruct Ht as [Hub|]; [|done]. apply wpx_bind.
  eapply wpx_post; [by eapply wpx_wp, (ensure_walked g G)|]. intros [r o] s' (_ & Ho & _).
  destruct (Z.ltb_spec t 0x80000000); [|destruct (Z.leb_spec (2 ^ 39) t); [|lia]];
    injection Ho as -> ->; by apply wpx_print_undef.
Qed.

(** The entry read through the pointer is the one the guest sees. *)
Lemma guest_entry m0 m t i :
  (forall x, HYPERVISOR_END <= x -> m !! x = m0 !! x) -> 0x80000000 <= t -> 0 <= i < 512 ->
  load64 m (entry_addr (t + GUEST_MEMORY_OFFSET) i) = load64 (guest_view m0) (entry_addr t i).
Proof.
  intros Hm Ht Hi. rewrite load64_guest_view. unfold entry_addr.
  replace (t + 8 * i + GUEST_MEMORY_OFFSET) with (t + GUEST_MEMORY_OFFSET + 8 * i) by lia.
  apply load64_agree. intros x Hx. apply Hm. unfold HYPERVISOR_END, RAM_START; lia.
Qed.

Lemma walked_guest_mem n g G s s1 (m0 : mem_t) :
  walked n g G s s1 -> (forall x, HYPERVISOR_END <= x -> mem s !! x = m0 !! x) ->
  forall x, HYPERVISOR_END <= x -> mem s1 !! x = m0 !! x.
Proof. intros [_ _ (G1 & _ & _ & Hext)] Hm x Hx. rewrite <- Hm by done. by apply Hext. Qed.

Lemma try_resolve_leaf fuel ctx gu lvl e s :
  (lvl <= 2)%nat ->
  has_perm (permissions e) PERMIDX_V = true -> has_rwx (permissions e) = true ->
  has_perm (permissions e) PERMIDX_U = true ->
  try_resolve_loop (S fuel) ctx gu (12 + 9 * Z.of_nat lvl - 9) e s =
    Ok (Some (add64 (numeric_address e) (gu mod sv39_span lvl))) s.
Proof.
  intros Hlvl HV HX HU. cbn [try_resolve_loop]. rewrite HV, HX, HU. cbn [negb].
  replace (12 + 9 * Z.of_nat lvl - 9 + 9) with (12 + 9 * Z.of_nat lvl) by lia.
  unfold bind. rewrite int_shift_ok by lia. by rewrite span_mask.
Qed.

(** The walk masks what it takes of the address: bits 63:39 play no part. *)
Lemma land_low39 x m k : 0 <= k -> 0 <= m < 2 ^ (39 - k) ->
  Z.land m (Z.shiftr (x mod 2 ^ 39) k) = Z.land m (Z.shiftr x k).
Proof.
  intros Hk Hm. apply Z.bits_inj'. intros i Hi. rewrite !Z.land_spec, !Z.shiftr_spec by done.
  destruct (Z.ltb_spec (i + k) 39); [by rewrite Z.mod_pow2_bits_low by lia|].
  assert (0 <= 39 - k) by (destruct (Z.neg_nonneg_cases (39 - k)); [rewrite Z.pow_neg_r in Hm|]; lia).
  rewrite <- (Z.mod_small m (2 ^ (39 - k))) by done. by rewrite Z.mod_pow2_bits_high by lia.
Qed.

Lemma try_resolve_low39 fuel ctx gu off e s :
  0 <= off <= 30 -> (off = 30 -> has_rwx (permissions e) = false) ->
  try_resolve_loop fuel ctx (gu mod 2 ^ 39) off e s = try_resolve_loop fuel ctx gu off e s.
Proof.
  revert off e s. induction fuel as [|fuel IH]; intros off e s Hoff H30; cbn [try_resolve_loop]; [done|].
  destruct (negb _); [done|]. destruct (has_rwx _) eqn:EX.
  { destruct (negb _); [done|]. unfold bind, int_shift. destruct (Z.leb_spec 31 (off + 9)); [done|].
    unfold ret. rewrite (Z.land_comm (gu mod _)), (Z.land_comm gu), Z.shiftl_1_l.
    rewrite <- (Z.shiftr_0_r (gu mod 2 ^ 39)), <- (Z.shiftr_0_r gu), land_low39, Z.shiftr_0_r; [done|done|].
    pose proof (Z.pow_lt_mono_r 2 (off + 9) 39). lia. }
  destruct (Z.leb_spec off PGSHIFT) as [|Hlt]; [done|]. unfold PGSHIFT in Hlt.
  rewrite land_low39; [|lia|].
  2: { split; [done|]. pose proof (Z.pow_le_mono_r 2 9 (39 - off)). lia. }
  unfold bind. destruct (ensure_guest_machine_mapped _ _ s) as [q s1|s1| |]; try done.
  match goal with |- match ?x with _ => _ end = _ => destruct x as [p s2|s2| |]; try done end.
  destruct (load_mem64 _ s2) as [v s3|s3| |]; try done. apply IH; lia.
Qed.

Lemma try_resolve_loop_spec lvl fuel g G s m0 ctx gu t p l e :
  vm_inv (ai := ai) g G s -> current_guest ctx = (0, 0) ->
  (forall x, HYPERVISOR_END <= x -> mem s !! x = m0 !! x) ->
  (lvl <= 2)%nat -> (lvl + 2 <= fuel)%nat -> has_perm p PERMIDX_V = true -> has_rwx p = false ->
  tables_in_ram (guest_view m0) lvl t gu ->
  sv39_leaf (guest_view m0) lvl t gu = Some (l, e) -> has_perm (permissions e) PERMIDX_U = true ->
  wp (pool_lacks (Z.of_nat lvl) G) (try_resolve_loop fuel ctx gu (12 + 9 * Z.of_nat lvl) (mkUnpacked t p))
    (fun r s' => r = resolved_leaf l e gu /\ walked lvl g G s s') s.
Proof.
  intros Hinv Hctx. revert fuel t p G s Hinv.
  induction lvl as [|lvl IH]; intros [|fuel] t p G s Hinv Hm0 Hlvl Hfuel HV HX [Ht Hram] Hl HU;
    try lia; cbn [try_resolve_loop permissions]; rewrite HV, HX; cbn [negb].
  - assert (l = 0%nat) as -> by (cbn [sv39_leaf] in Hl; repeat case_match; congruence).
    change (12 + 9 * Z.of_nat 0 <=? PGSHIFT) with true. cbv iota.
    eapply walked_print; [done|]. intros s1 Hw. by apply wp_ret.
  - rewrite (proj2 (Z.leb_gt _ _)) by (unfold PGSHIFT; lia). cbn [numeric_address].
    apply (wp_bind2 _ _ next_table).
    eapply wp_mono; [by apply (next_table_in_ram g G s ctx t)| |unfold pool_lacks; intros; lia].
    intros q s1 (-> & Hw1). pose proof (walked_guest_mem _ _ _ _ _ _ Hw1 Hm0) as Hm1.
    wp_step. apply wp_gets. cbv beta. rewrite vpn_of_shift. cbn [sv39_leaf] in Hl.
    rewrite (guest_entry m0) by (done || lia || apply vpn_range).
    set (pte := load64 _ _) in *. destruct (sv39_invalid pte) eqn:Ei; [done|].
    apply has_V_of_valid in Ei.
    destruct (has_rwx (permissions (unpack_pt_entry pte))) eqn:EX.
    + destruct (_ =? 0) in Hl; [|done]. injection Hl as [= <- <-].
      destruct fuel as [|fuel]; [lia|]. eapply wp_ok; [by apply try_resolve_leaf|].
      split; [done|]. eapply walked_weaken; [done|lia].
    + replace (12 + 9 * Z.of_nat (S lvl) - 9) with (12 + 9 * Z.of_nat lvl) by lia.
      specialize (Hram EX Ei). cbv zeta in Hram. fold pte in Hram.
      destruct (unpack_pt_entry pte) as [a q] eqn:Eu. cbn [permissions numeric_address] in *.
      pose proof (wk_tables _ _ _ _ _ Hw1) as (G1 & Hg1 & Hinv1 & Hext1).
      eapply wp_mono; [apply (IH fuel a q G1 s1 Hinv1); try (done || lia)| |intros; eapply pool_lacks_grown; [done..|lia]].
      intros r' s2 [-> Hw2]. split; [done|]. by apply (walked_trans 1 lvl g G G1 s s1).
Qed.

(** Over whatever the guest's memory holds: the walk ends, keeps the tables,
    and what it finds has the page offset of the address; it is undefined only
    when it meets a table outside guest memory. *)
Definition found_ok (gu : Z) (r : option Z) : Prop :=
  forall gm, r = Some gm -> in_u64 gm /\ gm mod 4096 = gu mod 4096.

Lemma resolved_offset lvl a gu :
  (lvl <= 2)%nat -> a mod 4096 = 0 -> found_ok gu (Some (add64 a (gu mod sv39_span lvl))).
Proof.
  intros Hlvl Ha gm [= <-]. split; [apply u64_range|]. unfold add64, u64.
  assert (exists j, sv39_span lvl = 4096 * j /\ 0 < j) as (j & -> & Hj).
  { exists (2 ^ (9 * Z.of_nat lvl)). unfold sv39_span. rewrite Z.pow_add_r by lia. lia. }
  assert (exists b, a = 4096 * b) as [b ->] by (exists (a / 4096); Z.div_mod_to_equations; lia).
  rewrite (Z.rem_mul_r gu 4096 j) by lia.
  replace (4096 * b + (gu mod 4096 + 4096 * ((gu / 4096) mod j)))
    with (gu mod 4096 + (b + (gu / 4096) mod j) * 4096) by lia.
  rewrite Z.mod_mod_divide by (by exists (2 ^ 52)). rewrite Z.mod_add, Z.mod_mod by lia. done.
Qed.

(** The last iteration: an invalid entry or a leaf. *)
Lemma try_resolve_stop (ub : Prop) n fuel g G s ctx gu lvl e :
  vm_inv (ai := ai) g G s -> (lvl <= 2)%nat -> (1 <= fuel)%nat ->
  numeric_address e mod 4096 = 0 ->
  has_perm (permissions e) PERMIDX_V = false \/ has_rwx (permissions e) = true ->
  wpx ub (try_resolve_loop fuel ctx gu (12 + 9 * Z.of_nat lvl - 9) e)
    (fun r s' => found_ok gu r /\ walked n g G s s') s.
Proof.
  intros Hinv Hlvl Hfuel Hal Hstop. destruct fuel as [|fuel]; [lia|]. cbn [try_resolve_loop].
  assert (forall str, wpx ub (print_string str ;; ret None) (fun r s' => found_ok gu r /\ walked n g G s s') s)
    as Hnone.
  { intros str. eapply wpx_wp. eapply (walked_print n g G s (ret None) any_panic); [done|].
    intros s1 Hw. by apply wp_ret. }
  destruct (has_perm (permissions e) PERMIDX_V); cbn [negb]; [|apply Hnone].
  destruct Hstop as [|HX]; [done|]. rewrite HX.
  destruct (has_perm (permissions e) PERMIDX_U); cbn [negb]; [|apply Hnone].
  replace (12 + 9 * Z.of_nat lvl - 9 + 9) with (12 + 9 * Z.of_nat lvl) by lia.
  apply wpx_bind. eapply wpx_ok; [by apply int_shift_ok|]. rewrite span_mask. apply wpx_ret.
  split; [by apply resolved_offset|by apply walked_self].
Qed.

Lemma try_resolve_any (ub : Prop) lvl fuel g G s m0 ctx gu t p :
  vm_inv (ai := ai) g G s -> current_guest ctx = (0, 0) ->
  (forall x, HYPERVISOR_END <= x -> mem s !! x = m0 !! x) ->
  (lvl <= 2)%nat -> (lvl + 1 <= fuel)%nat -> has_perm p PERMIDX_V = true -> has_rwx p = false ->
  ub \/ tables_in_ram (guest_view m0) lvl t gu ->
  wpx ub (try_resolve_loop fuel ctx gu (12 + 9 * Z.of_nat lvl) (mkUnpacked t p))
    (fun r s' => found_ok gu r /\ walked lvl g G s s') s.
Proof.
  intros Hinv Hctx. revert fuel t p G s Hinv.
  induction lvl as [|lvl IH]; intros [|fuel] t p G s Hinv Hm0 Hlvl Hfuel HV HX Hram;
    try lia; cbn [try_resolve_loop permissions]; rewrite HV, HX; cbn [negb].
  - change (12 + 9 * Z.of_nat 0 <=? PGSHIFT) with true. cbv iota. eapply wpx_wp.
    eapply (walked_print 0 g G s (ret None) any_panic); [done|]. intros s1 Hw. by apply wp_ret.
  - rewrite (proj2 (Z.leb_gt _ _)) by (unfold PGSHIFT; lia). cbn [numeric_address].
    assert (ub \/ 0x80000000 <= t < 2 ^ 39) as Ht by (destruct Hram as [|[? _]]; [by left|by right]).
    apply (wpx_bind2 ub _ next_table).
    eapply wpx_post; [by apply (next_table_spec ub g G s ctx t Hinv Hctx)|].
    intros q s1 (-> & Hr & Hw1). pose proof (wk_tables _ _ _ _ _ Hw1) as (G1 & Hg1 & Hinv1 & Hext1).
    apply wpx_bind. eapply wpx_ok; [done|]. cbv beta. rewrite vpn_of_shift.
    pose proof (walked_guest_mem _ _ _ _ _ _ Hw1 Hm0) as Hm1.
    rewrite (guest_entry m0) by (done || lia || apply vpn_range).
    set (pte := load64 _ _).
    apply wpx_post with (Q := fun r s2 => found_ok gu r /\ walked lvl g G1 s1 s2);
      [|intros r s2 [Hf Hw]; split; [exact Hf|by apply (walked_trans 1 lvl g G G1 s s1)]].
    destruct (has_perm (permissions (unpack_pt_entry pte)) PERMIDX_V) eqn:HV1.
    2: { apply (try_resolve_stop ub); try done; [lia|apply unpack_address_aligned|by left]. }
    destruct (has_rwx (permissions (unpack_pt_entry pte))) eqn:HX1.
    1: { apply (try_resolve_stop ub); try done; [lia|apply unpack_address_aligned|by right]. }
    replace (12 + 9 * Z.of_nat (S lvl) - 9) with (12 + 9 * Z.of_nat lvl) by lia.
    assert (ub \/ tables_in_ram (guest_view m0) lvl (numeric_address (unpack_pt_entry pte)) gu) as Hram1.
    { destruct Hram as [|Hram']; [by left|right]. by apply (proj2 Hram'). }
    destruct (unpack_pt_entry pte) as [a q]. apply (IH fuel a q G1 s1); try done; lia.
Qed.

(** A walk through tables outside guest memory reads an indeterminate pointer. *)
Lemma try_resolve_too_low fuel ctx gu t p s :
  t < 0x80000000 -> has_perm p PERMIDX_V = true -> has_rwx p = false ->
  try_resolve_loop (S fuel) ctx gu (PGSHIFT + 9 + 9) (mkUnpacked t p) s = Undef.
Proof.
  intros Ht HV HX. cbn [try_resolve_loop permissions]. rewrite HV, HX. cbn [negb].
  change (PGSHIFT + 9 + 9 <=? PGSHIFT) with false. cbv iota. cbn [numeric_address].
  unfold ensure_guest_machine_mapped. rewrite (proj2 (Z.ltb_lt _ _)) by done.
  unfold bind at 1, ret at 1. unfold bind at 1.
  pose proof (wp_print_string no_panic (Some (nl +:+ "Guest placed the page table level below RAM"))
    (fun _ _ => True) s ltac:(done)) as Hp.
  unfold bind. unfold wp in Hp. by destruct (print_string _ s).
Qed.

End walks.
