(* ===== verification/Invariant.v ===== *)
(** The invariant of the whole hypervisor between and during traps, and the
    operations that keep it.  [keeps ub m] is a specification closed under
    sequencing, so that the larger handlers follow from their parts. *)
From S2P Require Import Prelude Machine Wp Print Pte PageAlloc Vmem Tables VmemSpec ShadowSpec.
From S2P Require Import FlushSpec WalkSpec Contexts.

Section invariant.
Context {plat : Platform} {plat_ok : PlatformOk}.
Context {ai : gset Z -> State -> Prop} {ai_ok : AllocatorContract ai}.

(** What relates the fields of the guest's record. *)
Record guest_wf (g : GuestThreadContext) : Prop := {
  (* the shadow tables are in use in guest-user mode only, and then exist *)
  gw_shadow : shadow_pt_active g = true -> user_mode g = true /\ shadow_page_table g <> 0;
  (* guest-machine mode runs with traps disabled *)
  gw_mdt : user_mode g = false -> g_mstatus_mdt (gcsr g) = true;
  (* satp_mode is a field of four bits *)
  gw_mode : 0 <= g_satp_mode (gcsr g) < 16 }.

Record hyp_inv (g : GuestThreadContext) (G : gmap Z PageRole) (s : State) : Prop := {
  hi_vm : vm_inv (ai := ai) g G s;
  hi_wf : guest_wf g;
  (* the hart translates through the table of the guest's mode *)
  hi_satp : default 0 (csr s !! CSR_satp) = u64 (MAKE_SATP (active_table g));
  (* and sees the table as it is in memory *)
  hi_synced : tlb_synced (trace s) = true;
  hi_mepc : in_u64 (default 0 (csr s !! CSR_mepc)) }.

Definition hyp_ok (s : State) : Prop := exists g G, hyp_inv g G s.

(** A trap leaves the guest's memory alone. *)
Definition guest_mem_same (s s' : State) : Prop :=
  forall x, HYPERVISOR_END <= x -> mem s' !! x = mem s !! x.

#[export] Instance guest_mem_same_preorder : PreOrder guest_mem_same.
Proof. split; [done|]. intros s1 s2 s3 H1 H2 x Hx. by rewrite H2, H1. Qed.

(** [m] keeps the invariant and the guest's memory; undefined only if [ub]. *)
Definition keeps (ub : Prop) {A} (m : M A) : Prop :=
  forall s, hyp_ok s -> wpx ub m (fun _ s' => hyp_ok s' /\ guest_mem_same s s') s.

(** ** Changes that do not touch the tables *)

(** Same memory and allocator. *)
Definition same_store (s s' : State) : Prop :=
  mem s' = mem s /\ free_list_top s' = free_list_top s /\
  next_unallocated_idx s' = next_unallocated_idx s /\ allocator_lock s' = allocator_lock s.

Lemma vm_inv_same g g' G s s' :
  vm_inv (ai := ai) g G s -> same_store s s' -> serving g' s' ->
  shadow_page_table g' = shadow_page_table g -> vm_inv (ai := ai) g' G s'.
Proof.
  intros [Hsc Hcur Hg Hal Htab] (Hm & Hf & Hn & Hl) (Hsc' & Hcur' & Hg') Hsp. split; try done.
  - eapply ai_frame; [done|]. split_and!; try done. intros p _ _. by rewrite Hm.
  - by rewrite Hsp, Hm.
Qed.

Lemma hyp_inv_same g g' G s s' :
  hyp_inv g G s -> same_store s s' -> serving g' s' -> guest_wf g' ->
  shadow_page_table g' = shadow_page_table g -> shadow_pt_active g' = shadow_pt_active g ->
  csr s' !! CSR_satp = csr s !! CSR_satp -> tlb_synced (trace s') = true ->
  in_u64 (default 0 (csr s' !! CSR_mepc)) -> hyp_inv g' G s'.
Proof.
  intros [Hvm Hwf Hsatp Hsync Hpc] Hst Hsv Hwf' Hsp Hact Hcsr Htr Hpc'. split; try done.
  - by eapply vm_inv_same.
  - rewrite Hcsr, Hsatp. unfold active_table. by rewrite Hact, Hsp.
Qed.

Lemma hyp_inv_serving g G s : hyp_inv g G s -> serving g s.
Proof. intros [[] _ _ _ _]. by split_and!. Qed.

Lemma hyp_inv_mscratch g G s : hyp_inv g G s -> default 0 (csr s !! CSR_mscratch) = host_threads_addr.
Proof. intros [[] _ _ _ _]. done. Qed.

Lemma hyp_inv_current g G s : hyp_inv g G s -> current_guest (host_thread s) = (0, 0).
Proof. intros [[] _ _ _ _]. done. Qed.

(** A change of the record that concerns neither mode nor tables. *)
Definition same_mode (g g' : GuestThreadContext) : Prop :=
  shadow_page_table g' = shadow_page_table g /\ shadow_pt_active g' = shadow_pt_active g /\
  user_mode g' = user_mode g /\
  (g_mstatus_mdt (gcsr g) = true -> g_mstatus_mdt (gcsr g') = true) /\
  (0 <= g_satp_mode (gcsr g) < 16 -> 0 <= g_satp_mode (gcsr g') < 16).

Lemma guest_wf_same g g' : guest_wf g -> same_mode g g' -> guest_wf g'.
Proof.
  intros [H1 H2 H3] (Hsp & Ha & Hu & Hm & Hmode). split.
  - by rewrite Ha, Hu, Hsp.
  - rewrite Hu. auto.
  - auto.
Qed.

Lemma hyp_inv_with_guest g g' G s :
  hyp_inv g G s -> same_mode g g' -> hyp_inv g' G (with_guest g' s).
Proof.
  intros Hinv Hmode. pose proof (hyp_inv_serving _ _ _ Hinv) as Hs.
  eapply (hyp_inv_same g g' G s); try apply Hmode; try done.
  - by eapply serving_with_guest.
  - eapply guest_wf_same; [apply Hinv|done].
  - apply Hinv.
  - apply Hinv.
Qed.

Lemma hyp_inv_csr g G s n v :
  hyp_inv g G s -> n <> CSR_satp -> n <> CSR_mscratch -> in_u64 v ->
  hyp_inv g G (set_csr (<[n := v]> (csr s)) s).
Proof.
  intros Hinv H1 H2 Hv. pose proof (hyp_inv_serving _ _ _ Hinv) as (Hsc & Hcur & Hg).
  eapply (hyp_inv_same g g G s); try done; try apply Hinv.
  - split_and!; try done. unfold mscratch_ok in *. simpl. by rewrite lookup_insert_ne.
  - simpl. by rewrite lookup_insert_ne.
  - simpl. destruct (decide (n = CSR_mepc)) as [->|]; [by rewrite lookup_insert_eq|].
    rewrite lookup_insert_ne by done. apply Hinv.
Qed.

Lemma hyp_inv_host g G s h :
  hyp_inv g G s -> current_guest h = (0, 0) -> hyp_inv g G (set_host_thread h s).
Proof.
  intros Hinv Hh. pose proof (hyp_inv_serving _ _ _ Hinv) as (Hsc & Hcur & Hg).
  eapply (hyp_inv_same g g G s); try done; try apply Hinv.
Qed.

(** Same in all the invariant speaks of. *)
Lemma hyp_inv_frame g G s s' :
  hyp_inv g G s -> same_store s s' -> csr s' = csr s -> host_thread s' = host_thread s ->
  guest_threads s' = guest_threads s -> trace s' = trace s -> hyp_inv g G s'.
Proof.
  intros Hinv Hst Hc Hh Hg Ht. pose proof (hyp_inv_serving _ _ _ Hinv) as (Hsc & Hcur & Hgt).
  eapply (hyp_inv_same g g G s); try done; try apply Hinv.
  - split_and!; [unfold mscratch_ok; by rewrite Hc|by rewrite Hh|by rewrite Hg].
  - by rewrite Hc.
  - rewrite Ht. apply Hinv.
  - rewrite Hc. apply Hinv.
Qed.

Lemma hyp_inv_io g G s s' : hyp_inv g G s -> io_ext s s' -> hyp_inv g G s'.
Proof. intros Hinv (t & c & ->). by eapply hyp_inv_frame. Qed.

Lemma hyp_inv_tick g G s t : hyp_inv g G s -> hyp_inv g G (set_tick t s).
Proof. intros. by eapply hyp_inv_frame. Qed.

(** The guest may write its own memory as it likes. *)
Lemma hyp_inv_guest_mem g G s m :
  hyp_inv g G s -> (forall x, x < HYPERVISOR_END -> m !! x = mem s !! x) -> hyp_inv g G (set_mem m s).
Proof.
  intros [[Hsc Hcur Hg Hal Htab] Hwf Hsatp Hsync Hpc] Hm.
  assert (forall t, is_table t -> mem_agree t 4096 (mem s) m) as Hag.
  { intros t Ht x Hx. apply is_table_bounds in Ht. by rewrite Hm by lia. }
  split; try done. split; try done.
  - eapply ai_frame; [done|]. split_and!; try done. intros q Hq _.
    eapply mem_agree_sub; [apply Hag; by left|lia..].
  - eapply tables_ok_agree; [done|apply Hag; by right|]. intros c r Hc. apply Hag.
    by eapply tables_ok_is_table.
Qed.

(** The virtual-memory operations, which fence what they write. *)
Lemma hyp_inv_ext g G G' s s' :
  hyp_inv g G s -> vm_inv (ai := ai) g G' s' -> vm_ext s s' -> tlb_synced (trace s') = true -> hyp_inv g G' s'.
Proof.
  intros [Hvm Hwf Hsatp Hsync Hpc] Hvm' Hext Htr. by split; rewrite ?(ve_csr _ _ Hext).
Qed.

(** ** Composition *)

Context {ub : Prop}.

Lemma keeps_ret {A} (a : A) : keeps ub (ret a).
Proof. intros s Hs. by apply wpx_ret. Qed.

Lemma keeps_bind {A B} (m : M A) (k : A -> M B) :
  keeps ub m -> (forall a, keeps ub (k a)) -> keeps ub (bind m k).
Proof.
  intros Hm Hk s Hs. apply wpx_bind. eapply wpx_post; [by apply Hm|]. intros a s1 [Hs1 H1].
  eapply wpx_post; [by apply Hk|]. intros b s2 [Hs2 H2]. split; [done|by etrans].
Qed.

Lemma keeps_gets {A} (f : State -> A) : keeps ub (gets f).
Proof. by intros s Hs. Qed.

Lemma keeps_if {A} (b : bool) (m n : M A) : keeps ub m -> keeps ub n -> keeps ub (if b then m else n).
Proof. by destruct b. Qed.

(** From a run that ends in a state with the invariant. *)
Lemma keeps_ok {A} (m : M A) :
  (forall g G s, hyp_inv g G s -> exists a s' g' G', m s = Ok a s' /\ hyp_inv g' G' s' /\ guest_mem_same s s') ->
  keeps ub m.
Proof.
  intros H s (g & G & Hs). destruct (H _ _ _ Hs) as (a & s' & g' & G' & Hrun & Hinv & Hmem).
  eapply wpx_ok; [done|]. split; [by exists g', G'|done].
Qed.

Lemma keeps_wp {A} Pn (m : M A) :
  (forall g G s, hyp_inv g G s -> wp Pn m (fun _ s' => (exists g' G', hyp_inv g' G' s') /\ guest_mem_same s s') s) ->
  keeps ub m.
Proof. intros H s (g & G & Hs). by eapply wpx_wp, H. Qed.

Lemma keeps_for_each {A} (l : list A) (f : A -> M unit) :
  (forall x, x ∈ l -> keeps ub (f x)) -> keeps ub (for_each l f).
Proof.
  induction l as [|x l IH]; intros H; simpl; [apply keeps_ret|].
  apply keeps_bind; [apply H; left|]. intros []. apply IH. intros y Hy. apply H. by right.
Qed.

(** ** Output and panics *)

Lemma keeps_io (m : M unit) :
  (forall (Q : unit -> State -> Prop) s, (forall s', io_ext s s' -> Q tt s') -> wp any_panic m Q s) -> keeps ub m.
Proof.
  intros H. apply (keeps_wp any_panic). intros g G s Hs. apply H. intros s' Hio.
  split; [exists g, G; by eapply hyp_inv_io|]. by destruct Hio as (t & c & ->).
Qed.

Lemma keeps_print_string str : keeps ub (print_string str).
Proof. apply keeps_io. intros. by apply wp_print_string. Qed.
Lemma keeps_print_addr v : keeps ub (print_addr v).
Proof. apply keeps_io. intros. by apply wp_print_addr. Qed.
Lemma keeps_print_slice l : keeps ub (print_string_slice l).
Proof. apply keeps_io. intros. by apply wp_print_slice. Qed.

Lemma hyp_ok_mscratch s : hyp_ok s -> mscratch_ok s.
Proof. intros (g & G & H). exact (hyp_inv_mscratch _ _ _ H). Qed.

Lemma keeps_panic {A} : keeps ub (A := A) panic.
Proof. intros s Hs. eapply wpx_wp, wp_panic_any. by apply hyp_ok_mscratch. Qed.
Lemma keeps_panic_msg {A} msg : keeps ub (A := A) (panic_msg msg).
Proof. apply keeps_bind; [apply keeps_print_string|intros; apply keeps_panic]. Qed.
Lemma keeps_panic_msg_addr {A} msg v : keeps ub (A := A) (panic_msg_addr msg v).
Proof.
  apply keeps_bind; [apply keeps_print_string|]. intros. apply keeps_bind; [apply keeps_print_addr|].
  intros. apply keeps_panic.
Qed.

(** ** State access *)

Lemma keeps_w_csr n v : n <> CSR_satp -> n <> CSR_mscratch -> keeps ub (w_csr n v).
Proof.
  intros H1 H2. apply keeps_ok. intros g G s Hs. eexists tt, _, g, G.
  unfold w_csr, modify. rewrite (proj2 (Z.eqb_neq n CSR_satp)) by done. split; [done|].
  split; [|done]. apply hyp_inv_csr; [done..|apply u64_range].
Qed.

Lemma keeps_get_host_thread : keeps ub get_host_thread.
Proof.
  apply keeps_ok. intros g G s Hs. exists (host_thread s), s, g, G.
  split; [|done]. exact (get_host_thread_ok s (hyp_inv_mscratch _ _ _ Hs)).
Qed.

(** The value read first, for operations that depend on it. *)
Lemma keeps_bind_guest {A} (k : GuestThreadId * GuestThreadContext -> M A) :
  (forall g, keeps ub (k ((0, 0), g))) -> keeps ub (bind get_current_guest k).
Proof.
  intros Hk s (g & G & Hs). apply wpx_bind.
  eapply wpx_ok; [exact (get_current_guest_serving g s (hyp_inv_serving _ _ _ Hs))|].
  apply Hk. by exists g, G.
Qed.

Lemma keeps_bind_host {A} (k : HostThreadData -> M A) :
  (forall h, current_guest h = (0, 0) -> keeps ub (k h)) -> keeps ub (bind get_host_thread k).
Proof.
  intros Hk s (g & G & Hs). apply wpx_bind. eapply wpx_ok; [exact (get_host_thread_ok s (hyp_inv_mscratch _ _ _ Hs))|].
  apply Hk; [by eapply hyp_inv_current|]. by exists g, G.
Qed.

Lemma keeps_put_host_thread h : current_guest h = (0, 0) -> keeps ub (put_host_thread h).
Proof.
  intros Hh. apply keeps_ok. intros g G s Hs. eexists tt, _, g, G.
  split; [exact (put_host_thread_ok s _ (hyp_inv_mscratch _ _ _ Hs))|]. split; [by apply hyp_inv_host|done].
Qed.

Lemma keeps_update_guest f :
  (forall g, same_mode g (f g)) -> keeps ub (update_guest (0, 0) f).
Proof.
  intros Hf. apply keeps_ok. intros g G s Hs. eexists tt, _, (f g), G.
  split; [exact (update_guest_serving g s f (hyp_inv_serving _ _ _ Hs))|].
  split; [by apply (hyp_inv_with_guest g)|done].
Qed.

Lemma keeps_read_mtime : keeps ub read_mtime.
Proof.
  apply keeps_ok. intros g G s Hs. eexists _, _, g, G. split; [done|].
  split; [by apply hyp_inv_tick|done].
Qed.
Lemma keeps_read_uart_lsr : keeps ub read_uart_lsr.
Proof.
  apply keeps_ok. intros g G s Hs. eexists _, _, g, G. split; [done|].
  split; [by apply hyp_inv_tick|done].
Qed.
Lemma keeps_read_uart_rbr : keeps ub read_uart_rbr.
Proof.
  apply keeps_ok. intros g G s Hs. eexists _, _, g, G. split; [done|].
  split; [by apply hyp_inv_tick|done].
Qed.

Lemma keeps_modify f :
  (forall s, same_store s (f s) /\ csr (f s) = csr s /\ host_thread (f s) = host_thread s /\
     guest_threads (f s) = guest_threads s /\ trace (f s) = trace s) -> keeps ub (modify f).
Proof.
  intros Hf. apply keeps_ok. intros g G s Hs. eexists tt, (f s), g, G. split; [done|].
  destruct (Hf s) as (H1 & H2 & H3 & H4 & H5). split; [by eapply hyp_inv_frame|].
  destruct H1 as [Hm _]. intros x _. by rewrite Hm.
Qed.

Lemma keeps_wfi : keeps ub wfi.
Proof.
  apply keeps_ok. intros g G s Hs. eexists tt, _, g, G. split; [done|]. split; [|done].
  apply (hyp_inv_same g g G s); try done.
  - exact (hyp_inv_serving _ _ _ Hs).
  - apply Hs.
  - exact (hi_synced _ _ _ Hs).
  - apply Hs.
Qed.

End invariant.

Create HintDb keeps discriminated.
#[export] Hint Constants Opaque : keeps.
#[export] Hint Resolve keeps_ret keeps_gets keeps_print_string keeps_print_addr keeps_print_slice
  keeps_panic keeps_panic_msg keeps_panic_msg_addr keeps_get_host_thread keeps_read_mtime
  keeps_read_uart_lsr keeps_read_uart_rbr keeps_wfi : keeps.

(** One step of a proof that a composite operation keeps the invariant. *)
Ltac keeps_step :=
  lazymatch goal with
  | |- keeps _ (bind get_current_guest _) => apply keeps_bind_guest; intros ?
  | |- keeps _ (bind get_host_thread _) => apply keeps_bind_host; intros ? ?
  | |- keeps _ (bind _ _) => apply keeps_bind; [|intros ?]
  | |- keeps _ (if _ then _ else _) => apply keeps_if
  | |- keeps _ (w_csr _ _) => apply keeps_w_csr; discriminate
  | |- keeps _ (r_csr _) => apply keeps_gets
  | |- keeps _ (load_mem16 _) => apply keeps_gets
  | |- keeps _ (load_mem64 _) => apply keeps_gets
  | |- keeps _ (put_host_thread _) => apply keeps_put_host_thread; done
  | |- keeps _ (update_guest _ _) => apply keeps_update_guest; intros ?; by split_and!
  | |- keeps _ (modify _) => apply keeps_modify; intros ?; by split_and!
  | |- keeps _ (for_each _ _) => apply keeps_for_each; intros ? _
  | |- keeps _ _ => solve [eauto with keeps]
  end.
Ltac keeps_steps := repeat (keeps_step; cbv beta iota).
