(* ===== verification/SampleTables.v ===== *)
(** Concrete states that satisfy the invariants: a hart in guest-machine mode
    before anything is mapped, and one in guest-user mode with an empty shadow
    table and a page table of the guest's own in guest memory. *)
From S2P Require Import Prelude Machine Sample Wp Print Contexts Pte PageAlloc Vmem Tables.
From S2P Require Import VmemSpec ShadowSpec FlushSpec WalkSpec Invariant.

(** The invariants with the allocator of pagealloc.c. *)
Abbreviation vm_ok := (vm_inv (ai := alloc_inv)).
Abbreviation trap_inv := (hyp_inv (ai := alloc_inv)).

(** ** Guest-machine mode *)

Lemma zero_table_empty t : zero_table ∅ t.
Proof. intros k Hk. reflexivity. Qed.

Lemma sample_vm_ok : vm_ok GUEST_THREAD_CONTEXT_INIT ∅ sample_state.
Proof.
  split; [reflexivity|reflexivity|reflexivity|exists []; apply alloc_refines_reset|].
  apply tables_ok_empty, zero_table_empty.
Defined.

Definition sample_machine_state : State :=
  set_csr {[ CSR_mscratch := host_threads_addr; CSR_satp := u64 (MAKE_SATP root) ]} sample_state.

Lemma sample_machine_inv : trap_inv GUEST_THREAD_CONTEXT_INIT ∅ sample_machine_state.
Proof.
  split; [|split; done|reflexivity|reflexivity|done].
  split; [reflexivity|reflexivity|reflexivity|exists []; apply alloc_refines_reset|].
  apply tables_ok_empty, zero_table_empty.
Defined.

(** ** Guest-user mode *)

(** The first page of the pool. *)
Definition sample_root : Z := 0x80011000.

Definition sample_user_csrs : GuestCsrs :=
  mkGuestCsrs 0x80000400 0 0 0 0 0 true false false true false 8 0x80001.
Definition sample_user : GuestThreadContext :=
  mkGuestThreadContext sample_root true true false false 0 0 0 0 sample_user_csrs.

(** The guest's root table, at guest-physical 0x80001000, maps the gigabyte at
    0x80000000 onto itself with all permissions, as well as the one at 0 with the
    devices, and the one at 0xC0000000 onto a table at guest-physical 0x80002000, which has an entry for a third table
    at 0x80003000, which maps the page 0xC0000000 to 0x80004000. *)
Definition sample_guest_leaf : Z := 0x80000 * 1024 + 0xDF.
Definition sample_mem : mem_t :=
  store64 (store64 (store64 (store64 (store64 ∅
    (0x80001000 + GUEST_MEMORY_OFFSET) 0xDF)
    (0x80001000 + GUEST_MEMORY_OFFSET + 8 * 2) sample_guest_leaf)
    (0x80001000 + GUEST_MEMORY_OFFSET + 8 * 3) (0x80002 * 1024 + 1))
    (0x80002000 + GUEST_MEMORY_OFFSET) (0x80003 * 1024 + 1))
    (0x80003000 + GUEST_MEMORY_OFFSET) (0x80004 * 1024 + 0xDF).

Definition sample_user_state : State :=
  mkState {[ CSR_mscratch := host_threads_addr; CSR_satp := u64 (MAKE_SATP sample_root) ]}
    sample_mem sample_host {[ (0, 0) := sample_user ]} 0 1 false (-1, -1) 0 0 "" [].

Definition sample_roles : gmap Z PageRole := {[ sample_root := RShadow [] ]}.

Lemma sample_mem_zero t : t + 4096 <= HYPERVISOR_END -> zero_table sample_mem t.
Proof.
  intros Ht k Hk. unfold sample_mem, entry, entry_addr.
  unfold HYPERVISOR_END, RAM_START, GUEST_MEMORY_OFFSET in *.
  do 5 (rewrite load64_store64_other by lia). reflexivity.
Qed.

Lemma sample_root_pool : is_pool_page sample_root.
Proof. exists 0. split; [unfold MAX_ALLOCATEABLE_PAGES; lia|reflexivity]. Qed.

Lemma sample_user_vm_ok : vm_ok sample_user sample_roles sample_user_state.
Proof.
  pose proof (is_pool_page_bounds _ sample_root_pool) as (_ & _ & Hb & _).
  split; [reflexivity|reflexivity|reflexivity|exists []|].
  - split; [reflexivity|]. split; [simpl; unfold MAX_ALLOCATEABLE_PAGES; lia|].
    split; [reflexivity|]. split; [constructor|]. split; [intros p Hp; by apply elem_of_nil in Hp|].
    intros p. unfold sample_roles. rewrite dom_singleton_L, elem_of_singleton. split.
    + intros [Hp | ->]; [by apply elem_of_nil in Hp|]. exists 0. split; [simpl; lia|reflexivity].
    + intros (i & Hi & ->). right. simpl in Hi. by replace i with 0 by lia.
  - unfold sample_roles. rewrite <- insert_empty.
    apply (tables_ok_add_root 0 ∅).
    + apply tables_ok_empty, sample_mem_zero. apply root_bounds.
    + done.
    + apply lookup_empty.
    + apply sample_root_pool.
    + by apply sample_mem_zero.
Defined.

Lemma sample_user_inv : trap_inv sample_user sample_roles sample_user_state.
Proof.
  split; [exact sample_user_vm_ok|split; [done|done|simpl; lia]|reflexivity|reflexivity|done].
Defined.

(** The entries of the guest's tables. *)
Lemma sample_guest_entry t i :
  0 <= t mod 8 -> 0x80001000 <= t -> t mod 4096 = 0 -> 0 <= i < 512 ->
  load64 (guest_view sample_mem) (entry_addr t i) =
    if decide (t = 0x80001000 /\ i = 2) then sample_guest_leaf
    else if decide (t = 0x80001000 /\ i = 0) then 0xDF
    else if decide (t = 0x80001000 /\ i = 3) then 0x80002 * 1024 + 1
    else if decide (t = 0x80002000 /\ i = 0) then 0x80003 * 1024 + 1
    else if decide (t = 0x80003000 /\ i = 0) then 0x80004 * 1024 + 0xDF
    else 0.
Proof.
  intros _ Ht Hal Hi. rewrite load64_guest_view. unfold sample_mem, entry_addr, GUEST_MEMORY_OFFSET.
  repeat case_decide; destruct_and?; subst; try reflexivity.
  assert (exists k, t = 4096 * k) as [k ->] by (exists (t / 4096); Z.div_mod_to_equations; lia).
  do 5 (rewrite load64_store64_other by lia). reflexivity.
Qed.

(** They lie in its memory, wherever the walk goes and whatever is stored
    above them. *)
Lemma sample_tables_in_ram_with m gu :
  (forall a, 0x80001000 <= a -> a + 8 <= 0x80004000 -> load64 (guest_view m) a = load64 (guest_view sample_mem) a) ->
  tables_in_ram (guest_view m) 2 0x80001000 gu.
Proof.
  intros Hm. pose proof (vpn_range 2 gu). pose proof (vpn_range 1 gu). cbn [tables_in_ram]. split; [lia|].
  rewrite Hm by (unfold entry_addr; lia). rewrite sample_guest_entry by done.
  case_decide; [discriminate|]. case_decide; [discriminate|]. case_decide; [intros _ _|].
  2: { rewrite !decide_False by lia. discriminate. }
  change (numeric_address (unpack_pt_entry (0x80002 * 1024 + 1))) with 0x80002000. split; [lia|].
  rewrite Hm by (unfold entry_addr; lia). rewrite sample_guest_entry by done.
  rewrite !(decide_False (P := 0x80002000 = 0x80001000 /\ _)) by lia.
  case_decide; [intros _ _; split; [|done]; by vm_compute|].
  rewrite decide_False by lia. discriminate.
Qed.

Lemma sample_tables_in_ram gu :
  tables_in_ram (guest_view sample_mem) 2 (u64 (Z.shiftl (g_satp_ppn sample_user_csrs) PGSHIFT)) gu.
Proof. by apply sample_tables_in_ram_with. Qed.
