(* ===== verification/VmemTheorems.v ===== *)
(** The correctness of vmem.c: what its operations make of the address spaces
    of the guest, in terms of the Sv39 translation of Pte.v, and its walks of
    the guest's and of its own tables. *)
From S2P Require Import Prelude Machine Sample Wp Print Contexts Pte PageAlloc Instructions Vmem.
From S2P Require Import Tables VmemSpec ShadowSpec FlushSpec WalkSpec Invariant SampleTables.

(** ** From entries to translations *)

Section views.
Context {plat : Platform} {plat_ok : PlatformOk}.

(** The addresses that differ in the 39 bits a walk looks at.  A hart takes only
    those below 2^38 among them: bit 38 is the sign bit of Sv39. *)
Definition low_va (va : Z) : Prop := 0 <= va < 2 ^ 39.

Lemma machine_views G G' sp sp' m m' (region : Z -> Prop) va :
  tables_ok sp G m -> tables_ok sp' G' m' -> low_va va -> ~ region va ->
  (forall va, ~ region va -> machine_entry m' va = machine_entry m va) ->
  sv39_translate m' root va = sv39_translate m root va.
Proof.
  intros Hok Hok' Hva Hr Hv. rewrite (machine_translate_entry sp' G' m'), (machine_translate_entry sp G m) by done.
  by rewrite Hv.
Qed.

Lemma shadow_views G G' sp m m' va :
  tables_ok sp G m -> tables_ok sp G' m' -> sp <> 0 ->
  shadow_entry m' sp va = shadow_entry m sp va -> sv39_translate m' sp va = sv39_translate m sp va.
Proof. intros Hok Hok' Hsp Hv. by rewrite (shadow_translate _ G'), (shadow_translate _ G), Hv by done. Qed.

(** Every shadow leaf is a user mapping. *)
Lemma shadow_perms_user p : p ∈ shadow_perms -> has_perm p PERMIDX_U = true.
Proof. unfold shadow_perms. intros Hp. set_unfold in Hp. by destruct Hp as [->|[->|[->|[->|[]]]]]. Qed.

(** Addresses with the two upper indices of [gm] lie in its 2 MiB. *)
Lemma vpn_same_2mib va gm :
  low_va va -> low_va gm -> vpn 2 va = vpn 2 gm /\ vpn 1 va = vpn 1 gm -> va / 2 ^ 21 = gm / 2 ^ 21.
Proof.
  unfold low_va, vpn. simpl Z.of_nat. change (12 + 9 * 2) with 30. change (12 + 9 * 1) with 21.
  change (2 ^ 30) with 1073741824. change (2 ^ 21) with 2097152. change (2 ^ 39) with 549755813888.
  intros ?? [H1 H2]. Z.div_mod_to_equations; lia.
Qed.

End views.

Section theorems.
Context {plat : Platform} {plat_ok : PlatformOk}.

(** [C12] Guest-physical memory is where it should be: ensure_guest_machine_mapped
    refuses addresses below RAM and beyond Sv39 and changes nothing; any other
    address is then mapped in the machine table, with every permission, at its
    fixed offset above the hypervisor, and the offset address is what it
    reports.  No mapping outside the 2 MiB around the address changes, in
    either table; after a change the translation caches are flushed; and the
    only way to panic is that no page is left for a table. *)
Theorem guest_memory_mapped g G s ctx gm :
  vm_ok g G s -> current_guest ctx = (0, 0) ->
  wp (pool_lacks 1 G) (ensure_guest_machine_mapped ctx gm) (fun r s' =>
    if gm <? 0x80000000 then r = (PFHR_TOO_LOW, None) /\ s' = s
    else if 2 ^ 39 <=? gm then r = (PFHR_TOO_HIGH, None) /\ s' = s
    else exists G', grows 1 G G' /\ vm_ok g G' s' /\ vm_ext s s' /\
      r.2 = Some (gm + GUEST_MEMORY_OFFSET) /\
      sv39_translate (mem s') root gm = Some (gm + GUEST_MEMORY_OFFSET, 31) /\
      (r.1 = PFHR_NOT_CHANGED /\ s' = s \/
       r.1 = PFHR_SUCCESS /\ sv39_translate (mem s) root gm = None /\ tlb_synced (trace s') = true) /\
      (forall va, low_va va -> va / 2 ^ 21 <> gm / 2 ^ 21 ->
         sv39_translate (mem s') root va = sv39_translate (mem s) root va) /\
      (forall va, shadow_page_table g <> 0 ->
         sv39_translate (mem s') (shadow_page_table g) va = sv39_translate (mem s) (shadow_page_table g) va)) s.
Proof.
  intros Hinv Hctx. eapply wp_post; [by apply (ensure_spec_total g G s ctx gm)|].
  intros r s' (G' & Hsub & Hinv' & Hext & Hpost). unfold ensure_post in Hpost.
  destruct (Z.ltb_spec gm 0x80000000) as [|Hlow]; [done|].
  destruct (Z.leb_spec (2 ^ 39) gm) as [|Hhigh]; [done|].
  destruct Hpost as (Ho & Hr & Hne & Hv1 & Hv2).
  pose proof (vi_tables _ _ _ Hinv) as Hok. pose proof (vi_tables _ _ _ Hinv') as Hok'.
  assert (low_va gm) as Hgm by (unfold low_va; lia).
  exists G'. split; [done|]. split; [done|]. split; [done|]. split; [done|]. split; [|split; [|split]].
  - rewrite (machine_translate_entry _ _ _ _ Hok' Hgm). by rewrite (proj2 (Z.eqb_neq _ _)).
  - destruct Hr as [?|(Hr & He & Hs)]; [by left|right]. split; [done|]. split; [|done].
    by rewrite (machine_translate_entry _ _ _ _ Hok Hgm), He.
  - intros va Hva Hpg.
    eapply (machine_views _ _ _ _ _ _ (fun va => vpn 2 va = vpn 2 gm /\ vpn 1 va = vpn 1 gm)); try done.
    intros Hreg. by apply Hpg, vpn_same_2mib.
  - intros va Hsp. eapply shadow_views; [done..|]. by apply Hv2.
Qed.

(** [C13] A shadow mapping is what was asked for: update_shadow_pt leaves the
    shadow table translating the guest-virtual address to the given host
    address, for user mode, with the access that faulted added to what the same
    page was permitted before, and nothing else but reading; it reports a
    change exactly when the access was not already permitted, having flushed the
    translation caches; no other page and no machine mapping changes; and the
    only way to panic is that fewer than two pages are left for tables. *)
Theorem shadow_page_mapped g G s gu hm access_type :
  vm_ok g G s -> shadow_page_table g <> 0 -> 0 <= gu ->
  HYPERVISOR_END <= hm < HOST_END -> gu mod 4096 = hm mod 4096 -> is_access access_type = true ->
  wp (pool_lacks 2 G) (update_shadow_pt (shadow_page_table g) gu hm access_type) (fun r s' =>
    if 2 ^ 39 <=? gu then r = PFHR_TOO_HIGH /\ s' = s
    else exists G' p, grows 2 G G' /\ vm_ok g G' s' /\ vm_ext s s' /\
      sv39_translate (mem s') (shadow_page_table g) gu = Some (hm, p) /\
      p = permit (sv39_translate (mem s) (shadow_page_table g) gu) hm access_type /\
      has_perm p PERMIDX_U = true /\ has_perm p access_type = true /\
      (r = PFHR_NOT_CHANGED /\ s' = s \/
       r = PFHR_SUCCESS /\ tlb_synced (trace s') = true /\
       forall pa q, sv39_translate (mem s) (shadow_page_table g) gu = Some (pa, q) ->
         has_perm q access_type = true -> pa <> hm) /\
      (forall va, low_va va -> va / 4096 <> gu / 4096 ->
         sv39_translate (mem s') (shadow_page_table g) va = sv39_translate (mem s) (shadow_page_table g) va) /\
      (forall va, low_va va -> sv39_translate (mem s') root va = sv39_translate (mem s) root va)) s.
Proof.
  intros Hinv Hsp Hgu Hhm Hoff Ha. eapply wp_post; [by apply update_shadow_pt_total|].
  intros r s' Hpost. cbv beta in *. destruct (Z.leb_spec (2 ^ 39) gu) as [|Hlt]; [done|].
  destruct Hpost as (G' & Hsub & Hinv' & Hext & p & Htr & Hp & Hpm & Hpa & Hr & Hvs & Hvm).
  pose proof (vi_tables _ _ _ Hinv) as Hok. pose proof (vi_tables _ _ _ Hinv') as Hok'.
  exists G', p. do 5 (split; [done|]). split; [|split; [done|split; [done|split]]].
  - by apply shadow_perms_user.
  - intros va Hva Hpg. eapply shadow_views; [done..|]. apply Hvs. intros Heq. apply Hpg.
    by apply vpns_same_page.
  - intros va Hva. apply (machine_views G G' (shadow_page_table g) (shadow_page_table g) _ _ (fun _ => False));
      [done|done|done|tauto|intros va' _; apply Hvm].
Qed.

(** [C14] sfence.vma: flush_shadow_pagetable leaves the shadow table translating
    nothing and returns to the allocator every page of the tree but its root;
    the machine mappings are kept and the translation caches flushed.  It
    always succeeds. *)
Theorem shadow_table_flushed g G s :
  vm_ok g G s -> shadow_page_table g <> 0 ->
  exists s', flush_shadow_pagetable s = Ok tt s' /\ vm_ok g (pruned G) s' /\ vm_ext s s' /\
    (forall va, sv39_translate (mem s') (shadow_page_table g) va = None) /\
    (forall va, low_va va -> sv39_translate (mem s') root va = sv39_translate (mem s) root va) /\
    tlb_synced (trace s') = true /\
    (forall c, c ∈ dom G ∖ dom (pruned G) <-> exists k path, G !! c = Some (RShadow (k :: path))).
Proof.
  intros Hinv Hsp. pose proof (flush_spec g G s Hinv) as H.
  apply wp_no_panic_iff in H as ([] & s' & Hrun & H). exists s'. split; [done|].
  rewrite (proj2 (Z.eqb_neq _ _) Hsp) in H. destruct H as (Hinv' & Hext & Hsync & Hz & Hvm).
  pose proof (vi_tables _ _ _ Hinv) as Hok. pose proof (vi_tables _ _ _ Hinv') as Hok'.
  split; [done|]. split; [done|]. split; [|split; [|split; [done|]]].
  - intros va. rewrite (shadow_translate _ _ _ va Hok' Hsp). unfold shadow_entry. cbn [vpns].
    rewrite path_entry_zero by (by apply Hz, vpn_range). done.
  - intros va Hva. apply (machine_views G (pruned G) (shadow_page_table g) (shadow_page_table g) _ _ (fun _ => False));
      [done|done|done|tauto|intros va' _; apply Hvm].
  - intros c. rewrite elem_of_difference, !elem_of_dom. split.
    + intros [[r Hr] Hn]. destruct r as [|[|k path]]; [..|by exists k, path];
        destruct Hn; eexists; by apply lookup_pruned.
    + intros (k & path & Hc). split; [by eexists|]. intros [r Hr]. apply lookup_pruned in Hr as [Hr Hk].
      rewrite Hc in Hr. by injection Hr as <-.
Qed.

(** ** Iterating over guest memory *)

(** [for (it = begin(slice); !ended(it); advance(&it))], collecting the host
    slices. *)
Fixpoint iterate (fuel : nat) (it : GuestSliceIterator) : M (list HostSlice) :=
  if ended_iter_guestmem it then ret []
  else match fuel with
  | O => diverge
  | S fuel' =>
      let! it' := advance_iter_guestmem it in
      let! rest := iterate fuel' it' in
      ret (it_host it :: rest)
  end.

(** The slices [hs] are the images under [tr] of consecutive pieces of the [len]
    bytes from [va]. *)
Definition slice_image (tr : Z -> option (Z * Z)) (va : Z) (h : HostSlice) : Prop :=
  exists p, forall d, 0 <= d < hs_byte_length h -> tr (add64 va d) = Some (hs_address h + d, p).
Fixpoint covers (tr : Z -> option (Z * Z)) (va len : Z) (hs : list HostSlice) : Prop :=
  match hs with
  | [] => len = 0
  | h :: hs' => slice_image tr va h /\ 0 < hs_byte_length h <= len /\
      covers tr (add64 va (hs_byte_length h)) (len - hs_byte_length h) hs'
  end.

Lemma slice_translates_image m table va h :
  slice_translates m table va h -> slice_image (sv39_translate m table) va h.
Proof. intros [p Hp]. exists p. intros d Hd. unfold add64. rewrite sv39_translate_u64. by apply Hp. Qed.

Lemma add64_assoc a b c : add64 (add64 a b) c = add64 a (b + c).
Proof. unfold add64, u64. rewrite Zplus_mod_idemp_l. f_equal. lia. Qed.

(** Translations that agree on the bytes of a range cover it alike. *)
Lemma covers_agree tr tr' va len hs :
  (forall k, 0 <= k < len -> tr' (add64 va k) = tr (add64 va k)) -> covers tr va len hs -> covers tr' va len hs.
Proof.
  revert va len. induction hs as [|h hs IH]; intros va len Htr; cbn [covers]; [done|].
  intros ([p Hp] & Hlen & Hcov). split; [|split; [done|]].
  - exists p. intros d Hd. rewrite Htr by lia. by apply Hp.
  - apply IH; [|done]. intros k Hk. rewrite !add64_assoc. apply Htr. lia.
Qed.

Lemma iterate_spec g G s fuel it :
  vm_ok g G s -> thid (it_guest it) = (0, 0) -> it_success it = true ->
  0 <= it_offset it <= gs_byte_length (it_guest it) -> gs_byte_length (it_guest it) < 2 ^ 64 ->
  resolve_post g it s it s -> gs_byte_length (it_guest it) - it_offset it <= Z.of_nat fuel ->
  wp (fun _ => slice_unmapped g (mem s) (it_guest it)) (iterate fuel it) (fun hs s' => s' = s /\
    covers (sv39_translate (mem s) (active_table g)) (add64 (virtual_ptr (it_guest it)) (it_offset it))
      (gs_byte_length (it_guest it) - it_offset it) hs) s.
Proof.
  intros Hinv. revert it. induction fuel as [|fuel IH]; intros it Hth Hok Hoff Hlen Hpost Hfuel;
    destruct Hpost as (_ & _ & _ & _ & Htr & Hb & Hz);
    (assert (sub64 (gs_byte_length (it_guest it)) (it_offset it) =
      gs_byte_length (it_guest it) - it_offset it) as Hsub by (apply u64_id; lia));
    rewrite Hsub in Hb, Hz; cbn [iterate]; unfold ended_iter_guestmem; rewrite Hok; cbn [negb];
    (destruct (Z.eqb_spec (hs_byte_length (it_host it)) 0) as [H0|H0];
      [apply wp_ret; split; [done|]; simpl; lia|]); [lia|].
  set (h := it_host it) in *. unfold advance_iter_guestmem. fold h.
  assert (add64 (it_offset it) (hs_byte_length h) = it_offset it + hs_byte_length h) as Hadd by (apply u64_id; lia).
  rewrite Hadd. wp_step.
  eapply wp_mono; [by apply (resolve_guestmem_slice_total (ai := alloc_inv) g G s); cbn [it_guest it_offset]; try lia| |done].
  intros it' s' Hpost'. pose proof Hpost' as (-> & Hok' & Hg' & Ho' & _). cbn [it_guest it_offset] in *.
  wp_step. rewrite <- Hg'. eapply wp_post.
  { apply (IH it'); rewrite ?Hg', ?Ho'; try done; [lia| |lia].
    destruct Hpost' as (H1 & H2 & H3 & H4 & H5). unfold resolve_post. rewrite Hg', Ho'. do 4 (split; [done|]). exact H5. }
  intros hs s' [-> Hcov]. rewrite Hg', Ho' in Hcov. rewrite Hg'. apply wp_ret. split; [done|]. cbn [covers].
  split; [by apply slice_translates_image|]. split; [lia|]. rewrite add64_assoc.
  by replace (gs_byte_length (it_guest it) - it_offset it - hs_byte_length h)
    with (gs_byte_length (it_guest it) - (it_offset it + hs_byte_length h)) by lia.
Qed.

Definition iterate_slice (slice : GuestSlice) (mask : Z) : M (list HostSlice) :=
  let! it := begin_iter_guestmem slice mask in
  iterate (Z.to_nat (gs_byte_length slice)) it.

(** Every address of the range is canonical. *)
Definition slice_canonical (slice : GuestSlice) : Prop :=
  forall k, 0 <= k < gs_byte_length slice -> sv39_canonical (add64 (virtual_ptr slice) k) = true.

(** [required_perm] is carried along and nothing else. *)
Definition set_required_perm (mask : Z) (it : GuestSliceIterator) : GuestSliceIterator :=
  mkIter (it_guest it) (it_success it) mask (it_offset it) (it_host it).

Lemma resolve_any_perm mask it s :
  resolve_guestmem_slice (set_required_perm mask it) s =
    bind (resolve_guestmem_slice it) (fun it' => ret (set_required_perm mask it')) s.
Proof.
  unfold resolve_guestmem_slice, set_required_perm. cbn [it_guest it_offset it_required_perm].
  unfold bind, ret. repeat (case_match; simplify_eq; try done).
  all: exfalso; first [by eapply panic_msg_not_ok | by eapply panic_msg_addr_not_ok].
Qed.

Lemma iterate_any_perm mask fuel it s : iterate fuel (set_required_perm mask it) s = iterate fuel it s.
Proof.
  revert it s. induction fuel as [|fuel IH]; intros it s; cbn [iterate]; unfold ended_iter_guestmem; simpl; [done|].
  destruct (negb (it_success it)), (hs_byte_length (it_host it) =? 0); try done.
  unfold advance_iter_guestmem. simpl.
  change (mkIter (it_guest it) (it_success it) mask _ _)
    with (set_required_perm mask (mkIter (it_guest it) (it_success it) (it_required_perm it)
      (add64 (it_offset it) (hs_byte_length (it_host it))) (it_host it))).
  unfold bind at 1 3. rewrite resolve_any_perm. unfold bind at 1.
  destruct (resolve_guestmem_slice _ s); try done. unfold ret at 1. unfold bind. by rewrite IH.
Qed.

(** [C15] Iterating over a range of guest memory visits exactly the host bytes
    that the table of the current mode maps the range to, piece by piece and in
    order, ends after at most one step per byte and changes nothing; the only
    way to panic is that the table does not map one of the bytes, and then it
    does panic instead of reading beyond.  For a range of canonical addresses
    these are the bytes a hart reaches; of any other address, which a hart would
    refuse, only the 39 bits that a walk looks at count.  The permissions asked
    for in [mask] play no part: a byte that the table maps without them is
    visited all the same. *)
Theorem guest_slice_iterated g G s slice mask :
  vm_ok g G s -> thid slice = (0, 0) -> 0 <= gs_byte_length slice < 2 ^ 64 ->
  wp (fun _ => slice_unmapped g (mem s) slice) (iterate_slice slice mask) (fun hs s' => s' = s /\
    covers (sv39_translate (mem s) (active_table g)) (u64 (virtual_ptr slice)) (gs_byte_length slice) hs /\
    (slice_canonical slice ->
     covers (hart_maps (mem s) (active_table g)) (u64 (virtual_ptr slice)) (gs_byte_length slice) hs)) s /\
  forall mask', iterate_slice slice mask' s = iterate_slice slice mask s.
Proof.
  intros Hinv Hth Hlen. split.
  - unfold iterate_slice. wp_step. unfold begin_iter_guestmem.
    eapply wp_mono; [by apply (resolve_guestmem_slice_total (ai := alloc_inv) g G s); cbn [it_guest it_offset]; try lia| |done].
    intros it s' Hpost. pose proof Hpost as (-> & Hok & Hg & Ho & _). cbn [it_guest it_offset] in *.
    rewrite <- Hg in *. eapply wp_post.
    { apply (iterate_spec g G); rewrite ?Ho; try done; [lia|lia| |lia].
      destruct Hpost as (H1 & H2 & H3 & H4 & H5). unfold resolve_post. rewrite Ho. do 4 (split; [done|]). exact H5. }
    intros hs s' [-> Hcov]. split; [done|]. rewrite Ho, Z.sub_0_r in Hcov.
    unfold add64 in Hcov. rewrite Z.add_0_r in Hcov. split; [done|]. intros Hcan.
    eapply covers_agree; [|exact Hcov]. intros k Hk. unfold hart_maps.
    assert (add64 (u64 (virtual_ptr (it_guest it))) k = add64 (virtual_ptr (it_guest it)) k) as ->
      by (unfold add64, u64; by rewrite Zplus_mod_idemp_l).
    by rewrite Hcan.
  - intros mask'. unfold iterate_slice, begin_iter_guestmem.
    change (mkIter slice false mask' 0 _) with (set_required_perm mask' (mkIter slice false mask 0 (mkHostSlice 0 0))).
    unfold bind at 1 2. rewrite resolve_any_perm. unfold bind at 1.
    destruct (resolve_guestmem_slice _ s); try done. apply iterate_any_perm.
Qed.

(** The first piece of a mapped range is always found: when the table of
    the current mode maps the address, begin_iter_guestmem neither panics nor
    changes the state, and the slice it returns starts at the address's image
    and holds at least one byte. *)
Theorem guest_slice_begins g G s slice mask pa p :
  vm_ok g G s -> thid slice = (0, 0) -> active_table g <> 0 -> 0 < gs_byte_length slice < 2 ^ 64 ->
  sv39_translate (mem s) (active_table g) (u64 (virtual_ptr slice)) = Some (pa, p) ->
  exists it, begin_iter_guestmem slice mask s = Ok it s /\ it_success it = true /\
    hs_address (it_host it) = pa /\ 0 < hs_byte_length (it_host it) <= gs_byte_length slice.
Proof.
  intros Hinv Hth Hne Hlen Htr. unfold begin_iter_guestmem. set (it0 := mkIter slice false mask 0 _).
  assert (add64 (virtual_ptr slice) 0 = u64 (virtual_ptr slice)) as Hva by (unfold add64; by rewrite Z.add_0_r).
  assert (wp no_panic (resolve_guestmem_slice it0) (fun _ s' => s' = s) s) as Hrun.
  { apply (resolve_guestmem_slice_mapped (ai := alloc_inv) g G); try done; cbn [it0 it_guest it_offset].
    - lia.
    - lia.
    - by rewrite Hva, Htr. }
  apply wp_no_panic_iff in Hrun as (it & s' & Hrun & ->). exists it. split; [done|].
  pose proof (resolve_guestmem_slice_spec (ai := alloc_inv) g G s it0 Hinv Hth) as Hpost.
  apply (wp_elim _ _ _ _ _ _ Hpost) in Hrun as (_ & Hok & _ & _ & (q & Hsl) & Hb & Hz).
  cbn [it0 it_guest it_offset] in *. rewrite Hva in Hsl.
  assert (sub64 (gs_byte_length slice) 0 = gs_byte_length slice) as Hs by (unfold sub64; rewrite Z.sub_0_r; apply u64_id; lia).
  rewrite Hs in Hb, Hz. split; [done|].
  assert (0 < hs_byte_length (it_host it)) as Hpos by (destruct (Z.eq_dec (hs_byte_length (it_host it)) 0); lia).
  split; [|lia]. specialize (Hsl 0 ltac:(lia)). rewrite Z.add_0_r, Htr in Hsl.
  injection Hsl. lia.
Qed.

(** ** The guest's own tables *)

(** The translation of the guest's tables, in the guest's view of memory. *)
Definition guest_root (g : GuestThreadContext) : Z := u64 (Z.shiftl (g_satp_ppn (gcsr g)) PGSHIFT).
Definition guest_leaf (g : GuestThreadContext) (m : mem_t) (gu : Z) : option (nat * UnpackedPagetableEntry) :=
  sv39_leaf (guest_view m) 2 (guest_root g) gu.

(** [C16] What the walk of the guest's tables finds.  For tables in the memory of
    the guest, and an address that they map for user mode by an entry of level
    [l], the walk returns the guest-physical address of the entry and the page
    offset when the entry is a superpage; when it is a page of 4 KiB ([l = 0])
    the walk stops one level early and reports the address as unmapped.  The
    specification gives that guest-physical address for canonical addresses
    only, and faults for all others: the walk does not tell an address from
    its low 39 bits.  The type of the access plays no part.  At most two pages
    are taken for machine tables, the shadow mappings stay as they were, and the
    only way to panic is that fewer than two pages are left. *)
Theorem guest_walk_result g G s ctx access_type gu l e :
  vm_ok g G s -> current_guest ctx = (0, 0) ->
  tables_in_ram (guest_view (mem s)) 2 (guest_root g) gu ->
  guest_leaf g (mem s) gu = Some (l, e) -> has_perm (permissions e) PERMIDX_U = true ->
  (let gm := add64 (numeric_address e) (gu mod sv39_span l) in
   fst <$> hart_maps (guest_view (mem s)) (guest_root g) gu = (if sv39_canonical gu then Some gm else None) /\
   try_resolve_gu_to_gm g ctx access_type (gu mod 2 ^ 39) s = try_resolve_gu_to_gm g ctx access_type gu s /\
   wp (pool_lacks 2 G) (try_resolve_gu_to_gm g ctx access_type gu) (fun r s' =>
     r = (match l with O => None | S _ => Some gm end) /\
     exists G', grows 2 G G' /\ vm_ok g G' s' /\ vm_ext s s' /\
       (shadow_page_table g <> 0 -> forall va,
          sv39_translate (mem s') (shadow_page_table g) va = sv39_translate (mem s) (shadow_page_table g) va)) s).
Proof.
  intros Hinv Hctx Hram Hl HU. cbv zeta. split; [|split].
  - unfold hart_maps. destruct (sv39_canonical gu); [|done]. unfold sv39_translate, guest_leaf in *. rewrite Hl.
    simpl. by rewrite (leaf_address _ _ _ _ _ Hl).
  - by apply try_resolve_low39.
  - unfold try_resolve_gu_to_gm. fold (guest_root g). eapply wp_post.
    { apply (try_resolve_loop_spec (ai := alloc_inv) 2 WALK_FUEL g G s (mem s) ctx gu (guest_root g)
        (perm_field (PERMBIT PERMIDX_V)) l e); try done. }
    intros r s' [-> [_ Hsh (G' & Hg & Hinv' & Hext)]]. split; [by destruct l|]. exists G'.
    split; [done|]. split; [done|]. split; [done|]. intros Hsp va.
    eapply shadow_views; [apply Hinv|apply Hinv'|done|by apply Hsh].
Qed.

(** A guest that places its root table below RAM makes the hypervisor use
    an uninitialised pointer: the message is printed, but the walk goes on. *)
Theorem guest_root_below_ram g s ctx access_type gu :
  guest_root g < 0x80000000 -> try_resolve_gu_to_gm g ctx access_type gu s = Undef.
Proof. intros H. by apply try_resolve_too_low. Qed.

End theorems.

(** ** Witnesses *)

Lemma empty_pages_left s : ~ pool_lacks 1 ∅ s.
Proof. unfold pool_lacks, MAX_ALLOCATEABLE_PAGES. rewrite map_size_empty. lia. Qed.
Lemma sample_pages_left s : ~ pool_lacks 2 sample_roles s.
Proof. unfold pool_lacks, MAX_ALLOCATEABLE_PAGES, sample_roles. rewrite map_size_singleton. lia. Qed.

Lemma guest_memory_mapped_witness :
  exists r s', ensure_guest_machine_mapped sample_host 0x80201234 sample_state = Ok r s' /\
    r.2 = Some 0x85201234 /\ sv39_translate (mem s') root 0x80201234 = Some (0x85201234, 31).
Proof.
  pose proof (guest_memory_mapped _ _ _ sample_host 0x80201234 sample_vm_ok eq_refl) as H.
  destruct (wp_run _ _ _ _ H empty_pages_left) as (r & s' & Hrun & Hpost).
  destruct Hpost as (G' & _ & _ & _ & Hr & Htr & _).
  exists r, s'. split; [exact Hrun|split; [exact Hr|exact Htr]].
Defined.

Lemma shadow_page_mapped_witness :
  exists r s', update_shadow_pt sample_root 0x1234 0x85201234 PERMIDX_R sample_user_state = Ok r s' /\
    exists p, sv39_translate (mem s') sample_root 0x1234 = Some (0x85201234, p) /\ has_perm p PERMIDX_R = true.
Proof.
  pose proof (shadow_page_mapped _ _ _ 0x1234 0x85201234 PERMIDX_R sample_user_vm_ok
    ltac:(done) ltac:(lia) ltac:(by vm_compute) ltac:(done) ltac:(done)) as H.
  destruct (wp_run _ _ _ _ H sample_pages_left) as (r & s' & Hrun & Hpost).
  destruct Hpost as (G' & p & _ & _ & _ & Htr & _ & _ & Hp & _). exists r, s'. split; [exact Hrun|]. exists p. split; [exact Htr|exact Hp].
Defined.

Lemma shadow_table_flushed_witness :
  exists s', flush_shadow_pagetable sample_user_state = Ok tt s' /\
    forall va, sv39_translate (mem s') sample_root va = None.
Proof.
  destruct (shadow_table_flushed _ _ _ sample_user_vm_ok ltac:(done)) as (s' & Hrun & _ & _ & Htr & _).
  exists s'. split; [exact Hrun|exact Htr].
Defined.

(** A state with the first 2 MiB of guest memory mapped in the machine table. *)
Definition sample_mapped_state : State :=
  match ensure_guest_machine_mapped sample_host 0x80000000 sample_state with
  | Ok _ s => s
  | _ => sample_state
  end.

Lemma sample_mapped_ok : exists G, vm_ok GUEST_THREAD_CONTEXT_INIT G sample_mapped_state.
Proof.
  pose proof (ensure_spec_total _ _ _ sample_host 0x80000000 sample_vm_ok eq_refl) as H.
  destruct (wp_run _ _ _ _ H empty_pages_left) as (r & s' & Hrun & Hpost).
  unfold sample_mapped_state. rewrite Hrun. destruct Hpost as (G' & _ & Hok & _). exists G'. exact Hok.
Defined.

Lemma guest_slice_iterated_witness :
  exists hs, iterate_slice (mkGuestSlice 0x800000F0 4 (0, 0)) 0 sample_mapped_state
    = Ok hs sample_mapped_state /\
    covers (sv39_translate (mem sample_mapped_state) root) 0x800000F0 4 hs /\
    covers (hart_maps (mem sample_mapped_state) root) 0x800000F0 4 hs.
Proof.
  destruct sample_mapped_ok as [G Hok].
  pose proof (guest_slice_iterated _ G _ (mkGuestSlice 0x800000F0 4 (0, 0)) 0 Hok eq_refl ltac:(done)) as [H _].
  destruct (wp_returns _ _ _ _ H) as (hs & s' & Hrun & -> & Hcov & Hcan); [vm_compute; reflexivity|].
  exists hs. split; [exact Hrun|split; [exact Hcov|]]. apply Hcan. intros k Hk. cbn in Hk.
  unfold add64. rewrite u64_id by (simpl; lia). rewrite sv39_canonical_low by (simpl; lia). apply Z.ltb_lt. simpl. lia.
Defined.

Lemma guest_slice_begins_witness :
  exists it, begin_iter_guestmem (mkGuestSlice 0x800000F0 4 (0, 0)) 0 sample_mapped_state
    = Ok it sample_mapped_state /\ it_success it = true /\ hs_address (it_host it) = 0x850000F0 /\
    0 < hs_byte_length (it_host it) <= 4.
Proof.
  destruct sample_mapped_ok as [G Hok].
  apply (guest_slice_begins _ G _ (mkGuestSlice 0x800000F0 4 (0, 0)) 0 0x850000F0 31 Hok);
    [reflexivity|discriminate|done|vm_compute; reflexivity].
Defined.

(** The same walk through a superpage, also for an address that is not
    canonical, and through a page of 4 KiB. *)
Lemma guest_walk_result_witness :
  (exists s', try_resolve_gu_to_gm sample_user sample_host PERMIDX_R 0x80301234 sample_user_state
     = Ok (Some 0x80301234) s') /\
  (exists s', try_resolve_gu_to_gm sample_user sample_host PERMIDX_R (2 ^ 63 + 0x80301234) sample_user_state
     = Ok (Some 0x80301234) s') /\
  hart_maps (guest_view (mem sample_user_state)) (guest_root sample_user) (2 ^ 63 + 0x80301234) = None /\
  (exists s', try_resolve_gu_to_gm sample_user sample_host PERMIDX_R 0xC0000234 sample_user_state = Ok None s').
Proof.
  pose proof (guest_walk_result _ _ _ sample_host PERMIDX_R (2 ^ 63 + 0x80301234) 2 (unpack_pt_entry sample_guest_leaf)
    sample_user_vm_ok eq_refl (sample_tables_in_ram _) ltac:(by vm_compute) eq_refl) as (_ & Hlow & H1).
  pose proof (guest_walk_result _ _ _ sample_host PERMIDX_R 0xC0000234 0 (unpack_pt_entry (0x80004 * 1024 + 0xDF))
    sample_user_vm_ok eq_refl (sample_tables_in_ram _) ltac:(by vm_compute) eq_refl) as (_ & _ & H2).
  destruct (wp_returns _ _ _ _ H1) as (r1 & s1 & Hrun1 & -> & _); [vm_compute; reflexivity|].
  destruct (wp_returns _ _ _ _ H2) as (r2 & s2 & Hrun2 & -> & _); [vm_compute; reflexivity|].
  split; [exists s1; exact (eq_trans Hlow Hrun1)|]. split; [exists s1; exact Hrun1|].
  split; [reflexivity|exists s2; exact Hrun2].
Defined.

Lemma guest_root_below_ram_witness :
  try_resolve_gu_to_gm (update_gcsr (set_g_satp 8 0x1000) sample_user) sample_host PERMIDX_R 0 sample_user_state = Undef.
Proof. apply guest_root_below_ram. by vm_compute. Defined.
