(* ===== verification/VmemRefine.v ===== *)
(** The virtual memory of the guest as its clients may think of it: a set of
    mapped regions of guest-physical memory and a finite map of guest-virtual
    pages, without tables, entries and allocated pages; and that vmem.c
    implements it for every sequence of its operations. *)
From S2P Require Import Prelude Machine Sample Wp Print Pte PageAlloc Vmem Tables VmemSpec.
From S2P Require Import ShadowSpec FlushSpec WalkSpec Contexts Invariant SampleTables VmemTheorems.

(** ** The abstract machine *)

(** The mapped regions of 2 MiB, by number, and the mapped pages of 4 KiB: the
    host page and the permissions. *)
Record AbsVm := mkAbsVm { av_machine : gset Z; av_shadow : gmap Z (Z * Z) }.

(** The translations it stands for. *)
Definition abs_machine (A : AbsVm) (va : Z) : option (Z * Z) :=
  if decide (va / 2 ^ 21 ∈ av_machine A) then Some (va + GUEST_MEMORY_OFFSET, 31) else None.
Definition abs_shadow (A : AbsVm) (va : Z) : option (Z * Z) :=
  (fun e => (fst e + va mod 4096, snd e)) <$> av_shadow A !! (va / 4096).

Inductive VmOp := VmEnsure (gm : Z) | VmShadow (gu hm : Z) (a : MempermIndex) | VmFlush.

Definition permitted (old : option (Z * Z)) (hm : Z) (a : MempermIndex) : bool :=
  match old with Some (pa, q) => (pa =? hm) && has_perm q a | None => false end.

Definition abs_step (A : AbsVm) (op : VmOp) : PageFaultHandlerResult * AbsVm :=
  match op with
  | VmEnsure gm =>
      if gm <? 0x80000000 then (PFHR_TOO_LOW, A)
      else if 2 ^ 39 <=? gm then (PFHR_TOO_HIGH, A)
      else if decide (gm / 2 ^ 21 ∈ av_machine A) then (PFHR_NOT_CHANGED, A)
      else (PFHR_SUCCESS, mkAbsVm ({[gm / 2 ^ 21]} ∪ av_machine A) (av_shadow A))
  | VmShadow gu hm a =>
      if 2 ^ 39 <=? gu then (PFHR_TOO_HIGH, A)
      else if permitted (abs_shadow A gu) hm a then (PFHR_NOT_CHANGED, A)
      else (PFHR_SUCCESS, mkAbsVm (av_machine A)
        (<[gu / 4096 := (hm - hm mod 4096, permit (abs_shadow A gu) hm a)]> (av_shadow A)))
  | VmFlush => (PFHR_SUCCESS, mkAbsVm (av_machine A) ∅)
  end.

Fixpoint abs_run (A : AbsVm) (ops : list VmOp) : list PageFaultHandlerResult * AbsVm :=
  match ops with
  | [] => ([], A)
  | op :: ops' => let (r, A1) := abs_step A op in let (rs, A2) := abs_run A1 ops' in (r :: rs, A2)
  end.

Section refine.
Context {plat : Platform} {plat_ok : PlatformOk}.

(** ** The operations of vmem.c *)

Definition vm_step (g : GuestThreadContext) (op : VmOp) : M PageFaultHandlerResult :=
  match op with
  | VmEnsure gm =>
      let! ctx := get_host_thread in
      let! r := ensure_guest_machine_mapped ctx gm in ret (fst r)
  | VmShadow gu hm a => update_shadow_pt (shadow_page_table g) gu hm a
  | VmFlush => flush_shadow_pagetable ;; ret PFHR_SUCCESS
  end.

Fixpoint vm_run (g : GuestThreadContext) (ops : list VmOp) : M (list PageFaultHandlerResult) :=
  match ops with
  | [] => ret []
  | op :: ops' => let! r := vm_step g op in let! rs := vm_run g ops' in ret (r :: rs)
  end.

(** What handle_page_fault passes: a host address in guest memory with the page
    offset of the address. *)
Definition op_ok (op : VmOp) : Prop :=
  match op with
  | VmShadow gu hm a =>
      0 <= gu /\ HYPERVISOR_END <= hm < HOST_END /\ gu mod 4096 = hm mod 4096 /\ is_access a = true
  | _ => True
  end.

(** ** The refinement relation *)

(** The tables translate as the abstract state says, and the hart sees them so. *)
Record vm_refines (g : GuestThreadContext) (s : State) (A : AbsVm) : Prop := {
  vr_machine : forall va, low_va va -> sv39_translate (mem s) root va = abs_machine A va;
  vr_shadow : forall va, low_va va -> sv39_translate (mem s) (shadow_page_table g) va = abs_shadow A va;
  vr_synced : tlb_synced (trace s) = true }.

Definition step_post (g : GuestThreadContext) (A : AbsVm) (op : VmOp) (G : gmap Z PageRole)
    (r : PageFaultHandlerResult) (s' : State) : Prop :=
  exists G', (size G' <= size G + 2)%nat /\ vm_ok g G' s' /\ r = fst (abs_step A op) /\
    vm_refines g s' (snd (abs_step A op)).

(** Addresses of one region, or of one page, share their entry. *)
Lemma vpn_quotient i va : vpn i va = va / 2 ^ 12 / 2 ^ (9 * Z.of_nat i) mod 512.
Proof. unfold vpn. rewrite Z.pow_add_r by lia. by rewrite Z.div_div by lia. Qed.

Lemma machine_entry_region m va gm : va / 2 ^ 21 = gm / 2 ^ 21 -> machine_entry m va = machine_entry m gm.
Proof.
  intros H. assert (forall i, (1 <= i)%nat -> vpn i va = vpn i gm) as Hv.
  { intros i Hi. rewrite !vpn_quotient, !Z.div_div by lia. rewrite <- Z.pow_add_r by lia.
    replace (12 + 9 * Z.of_nat i) with (21 + 9 * Z.of_nat (i - 1)) by lia.
    rewrite Z.pow_add_r, <- !Z.div_div by lia. by rewrite H. }
  unfold machine_entry. by rewrite !Hv by lia.
Qed.

Lemma shadow_entry_page m sp va gu : va / 4096 = gu / 4096 -> shadow_entry m sp va = shadow_entry m sp gu.
Proof.
  intros H. unfold shadow_entry. f_equal. cbn [vpns]. rewrite !vpn_quotient. change (2 ^ 12) with 4096. by rewrite H.
Qed.

Lemma shadow_same_page sp G m va gu hm p : tables_ok sp G m -> sp <> 0 -> va / 4096 = gu / 4096 ->
  sv39_translate m sp gu = Some (hm, p) -> sv39_translate m sp va = Some (hm - gu mod 4096 + va mod 4096, p).
Proof.
  intros Hok Hsp He. rewrite !(shadow_translate sp G m) by done. cbv zeta.
  rewrite (shadow_entry_page _ _ va gu He). generalize (unpack_pt_entry (shadow_entry m sp gu)). intros u.
  destruct (_ =? 0); [done|]. intros [= <- <-]. do 2 f_equal. lia.
Qed.

Lemma size_pruned G : (size (pruned G) <= size G)%nat.
Proof. apply map_subseteq_size, map_filter_subseteq. Qed.

Lemma ensure_refines g G s A gm :
  vm_ok g G s -> shadow_page_table g <> 0 -> vm_refines g s A ->
  wp (pool_lacks 2 G) (vm_step g (VmEnsure gm)) (step_post g A (VmEnsure gm) G) s.
Proof.
  intros Hinv Hsp Href. pose proof Href as [Hma Hsh Hsync]. pose proof (vi_tables _ _ _ Hinv) as Hok.
  cbn [vm_step]. wp_step. eapply wp_ok; [apply get_host_thread_ok, Hinv|]. cbv beta. wp_step.
  eapply wp_mono; [exact (ensure_spec_total g G s _ gm Hinv (vi_current _ _ _ Hinv))| |unfold pool_lacks; intros; lia].
  intros [r o] s' (G' & Hg & Hinv' & Hext & Hpost). apply wp_ret. unfold ensure_post in Hpost. cbn [fst snd] in *.
  exists G'. split; [pose proof (gr_size _ _ _ Hg); lia|]. split; [done|]. cbn [abs_step].
  destruct (gm <? 0x80000000) eqn:Hlow; [by destruct Hpost as [[= -> ->] ->]|].
  destruct (2 ^ 39 <=? gm) eqn:Hhigh; [by destruct Hpost as [[= -> ->] ->]|].
  destruct Hpost as (_ & Hr & Hne & Hviews). assert (low_va gm) as Hgm by (unfold low_va; lia).
  assert (machine_entry (mem s) gm = 0 <-> gm / 2 ^ 21 ∉ av_machine A) as Hin.
  { specialize (Hma gm Hgm). rewrite (machine_translate_entry _ _ _ _ Hok Hgm) in Hma. unfold abs_machine in Hma.
    case_decide; destruct (Z.eqb_spec (machine_entry (mem s) gm) 0); naive_solver. }
  destruct Hr as [[-> ->]|(-> & H0 & Hsync')].
  { rewrite decide_True by (destruct (decide (gm / 2 ^ 21 ∈ av_machine A)); naive_solver). done. }
  rewrite decide_False by naive_solver. split; [done|]. pose proof (vi_tables _ _ _ Hinv') as Hok'.
  destruct Hviews as [Hvm Hvs]. split; [| |done].
  - intros va Hva. unfold abs_machine. cbn [snd av_machine].
    destruct (decide (va / 2 ^ 21 = gm / 2 ^ 21)) as [He|Hd].
    + rewrite decide_True by set_solver.
      rewrite (machine_translate_entry _ _ _ _ Hok' Hva). rewrite (machine_entry_region _ va gm) by done.
      by rewrite (proj2 (Z.eqb_neq _ _)).
    + rewrite (machine_views G G' (shadow_page_table g) (shadow_page_table g) (mem s) (mem s') (fun va => vpn 2 va = vpn 2 gm /\ vpn 1 va = vpn 1 gm) va);
        try done; [|by intros H; apply Hd, vpn_same_2mib].
      rewrite Hma by done. unfold abs_machine. repeat case_decide; set_solver.
  - intros va Hva. rewrite (shadow_views G G' _ (mem s)) by (done || by apply Hvs). by apply Hsh.
Qed.

Lemma permitted_true old hm a : permitted old hm a = true <-> exists q, old = Some (hm, q) /\ has_perm q a = true.
Proof.
  unfold permitted. destruct old as [[pa q]|]; [|naive_solver].
  rewrite andb_true_iff, Z.eqb_eq. naive_solver.
Qed.

Lemma shadow_refines g G s A gu hm a :
  vm_ok g G s -> shadow_page_table g <> 0 -> vm_refines g s A -> op_ok (VmShadow gu hm a) ->
  wp (pool_lacks 2 G) (vm_step g (VmShadow gu hm a)) (step_post g A (VmShadow gu hm a) G) s.
Proof.
  intros Hinv Hsp Href (Hgu & Hhm & Hoff & Ha). pose proof Href as [Hma Hsh Hsync].
  pose proof (vi_tables _ _ _ Hinv) as Hok. cbn [vm_step]. unfold step_post. cbn [abs_step].
  eapply wp_post; [by apply (update_shadow_pt_total g G s gu hm a)|]. intros r s' Hpost. cbv beta in Hpost.
  destruct (2 ^ 39 <=? gu) eqn:Hhigh.
  { destruct Hpost as [-> ->]. exists G. split; [lia|done]. }
  destruct Hpost as (G' & Hg & Hinv' & Hext & p & Htr & _ & Hp & Hpa & Hr & Hvs & Hvm).
  assert (low_va gu) as Hlow by (unfold low_va; lia). rewrite (Hsh gu Hlow) in Hp, Hr.
  exists G'. split; [pose proof (gr_size _ _ _ Hg); lia|]. split; [done|].
  destruct Hr as [[-> ->]|(-> & Hsync' & Hnew)].
  { rewrite (Hsh gu Hlow) in Htr. rewrite (proj2 (permitted_true _ _ _)) by eauto. done. }
  assert (permitted (abs_shadow A gu) hm a = false) as ->.
  { apply not_true_iff_false. rewrite permitted_true. intros (q & Hq & Hqa). by apply (Hnew hm q). }
  split; [done|]. pose proof (vi_tables _ _ _ Hinv') as Hok'. split; [| |done].
  - intros va Hva. rewrite (machine_views G G' (shadow_page_table g) (shadow_page_table g) (mem s) (mem s') (fun _ => False)) by
      (done || tauto || (intros va' _; apply Hvm)). by apply Hma.
  - intros va Hva. unfold abs_shadow at 1. cbn [snd av_shadow].
    destruct (decide (va / 4096 = gu / 4096)) as [He|Hd].
    + rewrite He, lookup_insert_eq. cbn [fmap option_map option_fmap fst snd]. rewrite <- Hp.
      rewrite (shadow_same_page _ G' _ va gu hm p Hok' Hsp He Htr). do 2 f_equal. lia.
    + rewrite lookup_insert_ne by done.
      rewrite (shadow_views G G' _ (mem s)) by (done || (apply Hvs; intros Heq; by apply Hd, vpns_same_page)).
      by apply Hsh.
Qed.

Lemma flush_refines g G s A :
  vm_ok g G s -> shadow_page_table g <> 0 -> vm_refines g s A ->
  wp (pool_lacks 2 G) (vm_step g VmFlush) (step_post g A VmFlush G) s.
Proof.
  intros Hinv Hsp [Hma Hsh Hsync]. pose proof (vi_tables _ _ _ Hinv) as Hok. cbn [vm_step]. wp_step.
  apply wp_total. eapply wp_post; [exact (flush_spec g G s Hinv)|]. intros [] s' H. cbv beta in H.
  rewrite (proj2 (Z.eqb_neq _ _) Hsp) in H. destruct H as (Hinv' & Hext & Hsync' & Hz & Hvm). apply wp_ret.
  pose proof (vi_tables _ _ _ Hinv') as Hok'. exists (pruned G).
  split; [pose proof (size_pruned G); lia|]. split; [done|]. split; [done|]. split; [| |done].
  - intros va Hva. rewrite (machine_views G (pruned G) (shadow_page_table g) (shadow_page_table g) (mem s) (mem s') (fun _ => False)) by
      (done || tauto || (intros va' _; apply Hvm)). by apply Hma.
  - intros va Hva. unfold abs_shadow. cbn [snd abs_step av_shadow]. rewrite lookup_empty.
    rewrite (shadow_translate _ _ _ va Hok' Hsp). unfold shadow_entry. cbn [vpns].
    by rewrite path_entry_zero by (by apply Hz, vpn_range).
Qed.

Lemma step_refines g G s A op :
  vm_ok g G s -> shadow_page_table g <> 0 -> vm_refines g s A -> op_ok op ->
  wp (pool_lacks 2 G) (vm_step g op) (step_post g A op G) s.
Proof. destruct op; [intros; by apply ensure_refines|by apply shadow_refines|intros; by apply flush_refines]. Qed.

(** [C11] vmem.c implements the abstract virtual memory: for every sequence of
    requests to map guest memory, to map guest-virtual pages and to flush, the
    results are those of the abstract machine, and afterwards both tables
    translate every address exactly as its state says, with the translation
    caches in step.  The only way to panic is to run out of the two pages that
    an operation may take. *)
Theorem vmem_refines g G s A ops :
  vm_ok g G s -> shadow_page_table g <> 0 -> vm_refines g s A -> Forall op_ok ops ->
  wp (pool_lacks (2 * Z.of_nat (length ops)) G) (vm_run g ops) (fun rs s' =>
    rs = fst (abs_run A ops) /\ vm_refines g s' (snd (abs_run A ops)) /\ exists G', vm_ok g G' s') s.
Proof.
  intros Hinv Hsp Href Hops. revert G s A Hinv Href.
  induction Hops as [|op ops Hop _ IH]; intros G s A Hinv Href; cbn [vm_run abs_run length].
  { apply wp_ret. split; [done|]. split; [done|by exists G]. }
  wp_step. eapply wp_mono; [by apply (step_refines g G s A op)| |unfold pool_lacks; intros; lia].
  intros r s1 (G1 & Hsize & Hinv1 & -> & Href1). destruct (abs_step A op) as [r A1]. cbn [fst snd] in *.
  wp_step. eapply wp_mono; [by apply (IH G1 s1 A1)| |unfold pool_lacks; intros; lia].
  intros rs s2 (-> & Href2 & H2). destruct (abs_run A1 ops) as [rs A2]. by apply wp_ret.
Qed.

End refine.

(** ** Witness *)

(** Nothing is mapped at first. *)
Lemma sample_vm_refines : vm_refines sample_user sample_user_state (mkAbsVm ∅ ∅).
Proof.
  pose proof (vi_tables _ _ _ sample_user_vm_ok) as Hok.
  pose proof (is_pool_page_bounds _ sample_root_pool) as (_ & _ & Hb & _). split; [| |reflexivity].
  - intros va Hva. rewrite (machine_translate_entry _ _ _ _ Hok Hva). unfold machine_entry, abs_machine.
    rewrite path_entry_zero by (apply sample_mem_zero; [apply root_bounds|apply vpn_range]).
    by rewrite decide_False by set_solver.
  - intros va Hva. unfold abs_shadow. cbn [av_shadow]. rewrite lookup_empty.
    rewrite (shadow_translate _ _ _ va Hok) by done. unfold shadow_entry. cbn [vpns].
    by rewrite path_entry_zero by (apply sample_mem_zero; [exact Hb|apply vpn_range]).
Qed.

(** A page read and written: the second read has nothing to do, nor the second
    request in one region. *)
Definition sample_ops : list VmOp :=
  [VmEnsure 0x80201000; VmShadow 0x1234 0x85201234 PERMIDX_R; VmShadow 0x1234 0x85201234 PERMIDX_R;
   VmShadow 0x1234 0x85201234 PERMIDX_W; VmEnsure 0x80300000].

Lemma vmem_refines_witness :
  exists s', vm_run sample_user sample_ops sample_user_state
    = Ok [PFHR_SUCCESS; PFHR_SUCCESS; PFHR_NOT_CHANGED; PFHR_SUCCESS; PFHR_NOT_CHANGED] s' /\
  sv39_translate (mem s') root 0x80234567 = Some (0x85234567, 31) /\
  sv39_translate (mem s') sample_root 0x1FFF = Some (0x85201FFF, 23).
Proof.
  destruct (wp_run _ _ _ _ (vmem_refines sample_user sample_roles sample_user_state (mkAbsVm ∅ ∅) sample_ops
    sample_user_vm_ok ltac:(done) sample_vm_refines
    ltac:(repeat constructor; unfold HYPERVISOR_END, HOST_END, RAM_START, GUEST_MEMORY_OFFSET; lia)))
    as (rs & s' & Hrun & Hrs & [Hma Hsh _] & _).
  - intros s'. unfold pool_lacks, MAX_ALLOCATEABLE_PAGES, sample_roles. rewrite map_size_singleton.
    cbn [length sample_ops]. lia.
  - exists s'. rewrite Hrun, Hrs. split; [vm_compute; reflexivity|]. split.
    + rewrite Hma by (unfold low_va; lia). vm_compute. reflexivity.
    + change sample_root with (shadow_page_table sample_user). rewrite Hsh by (unfold low_va; lia). vm_compute. reflexivity.
Defined.
