(* ===== verification/VirtCsr.v ===== *)
(** virtcsr.c and csrs.cc: the guest-machine CSRs the hypervisor emulates. *)
From stdpp Require Import pretty.
From S2P Require Import Prelude Machine Sample Wp Print Contexts Instructions.

(** ** csrs.cc *)

Definition csr_table : list (Z * string) :=
  [(0x180, "satp"); (0xF11, "mvendorid"); (0xF12, "marchid"); (0xF13, "mimpid");
   (0xF14, "mhartid"); (0xF15, "mconfigptr"); (0x300, "mstatus"); (0x301, "misa");
   (0x302, "medeleg"); (0x303, "mideleg"); (0x304, "mie"); (0x305, "mtvec");
   (0x306, "mcounteren"); (0x310, "mstatush"); (0x312, "medelegh"); (0x340, "mscratch");
   (0x341, "mepc"); (0x342, "mcause"); (0x343, "mtval"); (0x344, "mip"); (0x34A, "mtinst");
   (0x34B, "mtval2")]%string
  ++ ((fun i => (0x3A0 + i, "pmpcfg" +:+ pretty i)) <$> seqZ 0 16)
  ++ ((fun i => (0x3B0 + i, "pmpaddr" +:+ pretty i)) <$> seqZ 0 64).

(** The switch over [csr_id] that sets [csr_name]. *)
Definition csr_name (csr_id : Z) : string :=
  match list_find (fun x => x.1 = csr_id) csr_table with
  | Some (_, (_, name)) => name
  | None => "unknown"
  end.

(** [case CSR_pmpcfg0 ... CSR_pmpcfg15: case CSR_pmpaddr0 ... CSR_pmpaddr63:] *)
Definition is_pmp (csr_id : Z) : bool :=
  ((CSR_pmpcfg0 <=? csr_id) && (csr_id <=? CSR_pmpcfg15))
  || ((CSR_pmpaddr0 <=? csr_id) && (csr_id <=? CSR_pmpaddr63)).

Section virtcsr.
Context {plat : Platform}.

Definition get_virtual_csr (csr_id : Z) : M Z :=
  let! (_, guest_thr) := get_current_guest in
  let c := gcsr guest_thr in
  if csr_id =? CSR_mstatus then
    let result := Z.lor 0 (Z.shiftl 2 32) in
    let result := Z.lor result (Z.shiftl (g_mstatus_mpp c) 11) in
    let result := if g_mstatus_mie c then Z.lor result MSTATUS_MIE else result in
    let result := if g_mstatus_mdt c then Z.lor result MSTATUS_MDT else result in
    ret result
  else if csr_id =? CSR_mie then
    let result := if g_mie_msie c then Z.lor 0 MIE_MSIE else 0 in
    let result := if g_mie_mtie c then Z.lor result MIE_MTIE else result in
    let result := if g_mie_meie c then Z.lor result MIE_MEIE else result in
    ret result
  else if csr_id =? CSR_mtvec then ret (g_mtvec c)
  else if csr_id =? CSR_satp then
    ret (Z.lor (Z.lor 0 (u64 (Z.shiftl (g_satp_mode c) 60))) (g_satp_ppn c))
  else if is_pmp csr_id then ret 0
  else if csr_id =? CSR_mepc then ret (g_mepc c)
  else if csr_id =? CSR_mscratch then ret (g_mscratch c)
  else if csr_id =? CSR_mcause then ret (g_mcause c)
  else if csr_id =? CSR_mtval then ret (g_mtval c)
  else
    print_string (Some (nl +:+ "Get emulated csr: ")) ;;
    print_string (Some (csr_name csr_id)) ;;
    panic.

Definition MIE_KNOWN : Z := Z.lor (Z.lor MIE_MSIE MIE_MTIE) MIE_MEIE.

Definition set_virtual_csr (csr_id value : Z) : M unit :=
  let! (id, _) := get_current_guest in
  let assign f := update_guest id (update_gcsr f) in
  if csr_id =? CSR_mstatus then
    assign (set_g_mstatus_mpp (Z.land (Z.shiftr value 11) 3)) ;;
    assign (set_g_mstatus_mie (nonzero (Z.land value MSTATUS_MIE))) ;;
    if nonzero (Z.land value MSTATUS_MDT) then assign (set_g_mstatus_mdt true) else ret tt
  else if csr_id =? CSR_mie then
    assign (set_g_mie (nonzero (Z.land value MIE_MSIE)) (nonzero (Z.land value MIE_MTIE))
      (nonzero (Z.land value MIE_MEIE))) ;;
    let value := Z.land value (not64 MIE_KNOWN) in
    if nonzero value then panic_msg_addr (nl +:+ "Unhandled mie fields: ") value else ret tt
  else if csr_id =? CSR_mtvec then assign (set_g_mtvec value)
  else if csr_id =? CSR_satp then
    assign (set_g_satp (EXTRACT_BITS value 60 4) (EXTRACT_BITS value 0 44))
  else if is_pmp csr_id then ret tt
  else if csr_id =? CSR_mepc then assign (set_g_mepc value)
  else if csr_id =? CSR_mscratch then assign (set_g_mscratch value)
  else if csr_id =? CSR_mcause then assign (set_g_mcause value)
  else if csr_id =? CSR_mtval then assign (set_g_mtval value)
  else
    print_string (Some (nl +:+ "Set emulated csr: ")) ;;
    print_string (Some (csr_name csr_id)) ;;
    panic_msg_addr (nl +:+ "value = ") value.

End virtcsr.

(** ** Reference: what a guest may read and write *)

(** The value of mstatus from its fields. *)
Definition mstatus_value (mpp : Z) (mie mdt : bool) : Z :=
  2 * 2 ^ 32 + mpp * 2 ^ 11 + (if mie then 2 ^ 3 else 0) + (if mdt then 2 ^ 42 else 0).

(** The value of a CSR, for the CSRs that are emulated. *)
Definition csr_view (c : GuestCsrs) (csr_id : Z) : option Z :=
  if csr_id =? CSR_mstatus then
    Some (mstatus_value (g_mstatus_mpp c) (g_mstatus_mie c) (g_mstatus_mdt c))
  else if csr_id =? CSR_mie then
    Some ((if g_mie_msie c then 2 ^ 3 else 0) + (if g_mie_mtie c then 2 ^ 7 else 0)
      + (if g_mie_meie c then 2 ^ 11 else 0))
  else if csr_id =? CSR_mtvec then Some (g_mtvec c)
  else if csr_id =? CSR_satp then Some (g_satp_mode c * 2 ^ 60 + g_satp_ppn c)
  else if is_pmp csr_id then Some 0
  else if csr_id =? CSR_mepc then Some (g_mepc c)
  else if csr_id =? CSR_mscratch then Some (g_mscratch c)
  else if csr_id =? CSR_mcause then Some (g_mcause c)
  else if csr_id =? CSR_mtval then Some (g_mtval c)
  else None.

(** The fields hold values of their widths. *)
Record csrs_wf (c : GuestCsrs) : Prop := {
  cw_mpp : 0 <= g_mstatus_mpp c < 4;
  cw_mode : 0 <= g_satp_mode c < 16;
  cw_ppn : 0 <= g_satp_ppn c < 2 ^ 44 }.

(** The bits of mstatus and satp that a write looks at; it ignores the others,
    among them satp.ASID. *)
Definition MSTATUS_KNOWN : Z := Z.lor (Z.lor MSTATUS_MPP_MASK MSTATUS_MIE) MSTATUS_MDT.
Definition SATP_KNOWN : Z := Z.lor (Z.shiftl 0xF 60) (2 ^ 44 - 1).

(** What the emulation shows after a write of [v] over [old]: the known bits of
    the value, UXL reading 2, MDT set but never cleared, the PMP registers
    zero.  This is the code's choice, not the specification's ([csr_arch]). *)
Definition csr_kept (csr_id v old : Z) : Z :=
  if csr_id =? CSR_mstatus then
    Z.lor (Z.lor (Z.land v (Z.lor MSTATUS_MPP_MASK MSTATUS_MIE)) (Z.shiftl 2 32))
      (Z.land (Z.lor v old) MSTATUS_MDT)
  else if csr_id =? CSR_mie then Z.land v MIE_KNOWN
  else if csr_id =? CSR_satp then Z.land v SATP_KNOWN
  else if is_pmp csr_id then 0
  else v.

(** ** Reference: what the specification lets a write leave

    For a hart with the modes M and U, Sv39, instructions of two bytes and
    double traps (Smdbltrp): MPP keeps its value when an unsupported mode is
    written; MDT takes the value written, and MIE is clear while MDT is set; a write to satp with an
    unsupported MODE has no effect; mtvec keeps its value when a reserved MODE
    is written; bit 0 of mepc is zero. *)
Definition mpp_of (v : Z) : Z := Z.land (Z.shiftr v 11) 3.
Definition mpp_supported (v : Z) : bool := (mpp_of v =? 0) || (mpp_of v =? 3).
Definition satp_supported (v : Z) : bool :=
  let mode := Z.land (Z.shiftr v 60) 0xF in (mode =? 0) || (mode =? 8).
Definition csr_arch (csr_id v old : Z) : Z :=
  if csr_id =? CSR_mstatus then
    mstatus_value (mpp_of (if mpp_supported v then v else old))
      (Z.testbit v 3 && negb (Z.testbit v 42)) (Z.testbit v 42)
  else if csr_id =? CSR_mie then Z.land v MIE_KNOWN
  else if csr_id =? CSR_satp then
    if satp_supported v then Z.land v SATP_KNOWN else old
  else if is_pmp csr_id then 0
  else if csr_id =? CSR_mtvec then if v mod 4 <? 2 then v else old
  else if csr_id =? CSR_mepc then v - v mod 2
  else v.

(** The writes on which code and specification agree. *)
Definition csr_exact (csr_id v old : Z) : Prop :=
  (csr_id = CSR_mstatus -> mpp_supported v = true /\
     (Z.testbit old 42 = true -> Z.testbit v 42 = true) /\
     (Z.testbit v 42 = true -> Z.testbit v 3 = false)) /\
  (csr_id = CSR_satp -> satp_supported v = true) /\
  (csr_id = CSR_mtvec -> v mod 4 < 2) /\ (csr_id = CSR_mepc -> v mod 2 = 0).

Section virtcsr_spec.
Context {plat : Platform}.

Lemma get_virtual_csr_view g s csr_id v :
  serving g s -> csrs_wf (gcsr g) -> csr_view (gcsr g) csr_id = Some v ->
  get_virtual_csr csr_id s = Ok v s.
Proof.
  intros Hs [Hmpp Hmode Hppn] Hv. unfold get_virtual_csr.
  erewrite bind_ok by (by apply get_current_guest_serving). cbv beta iota zeta.
  revert Hv. unfold csr_view, mstatus_value. repeat case_match; intros [= <-]; try done; unfold ret; f_equal.
  all: try (assert (g_mstatus_mpp (gcsr g) = 0 \/ g_mstatus_mpp (gcsr g) = 1 \/
    g_mstatus_mpp (gcsr g) = 2 \/ g_mstatus_mpp (gcsr g) = 3) as [E|[E|[E|E]]] by lia; by rewrite E).
  rewrite Z.lor_0_l, Z.shiftl_mul_pow2, u64_id by lia. by apply lor_disjoint_add; lia.
Qed.

(** The assignment each case makes. *)
Definition csr_assign (csr_id v : Z) (c : GuestCsrs) : GuestCsrs :=
  if csr_id =? CSR_mstatus then
    let c := set_g_mstatus_mie (Z.testbit v 3) (set_g_mstatus_mpp (Z.land (Z.shiftr v 11) 3) c) in
    if Z.testbit v 42 then set_g_mstatus_mdt true c else c
  else if csr_id =? CSR_mie then set_g_mie (Z.testbit v 3) (Z.testbit v 7) (Z.testbit v 11) c
  else if csr_id =? CSR_mtvec then set_g_mtvec v c
  else if csr_id =? CSR_satp then set_g_satp (EXTRACT_BITS v 60 4) (EXTRACT_BITS v 0 44) c
  else if is_pmp csr_id then c
  else if csr_id =? CSR_mepc then set_g_mepc v c
  else if csr_id =? CSR_mscratch then set_g_mscratch v c
  else if csr_id =? CSR_mcause then set_g_mcause v c
  else if csr_id =? CSR_mtval then set_g_mtval v c
  else c.

Lemma update_gcsr_update f f' g : update_gcsr f (update_gcsr f' g) = update_gcsr (fun c => f (f' c)) g.
Proof. done. Qed.

Lemma with_guest_same g s : serving g s -> with_guest g s = s.
Proof.
  intros (_ & _ & Hg). unfold with_guest. rewrite insert_id by done. by destruct s.
Qed.

Lemma nonzero_bit v i : 0 <= i -> nonzero (Z.land v (Z.shiftl 1 i)) = Z.testbit v i.
Proof. intros Hi. rewrite Z.shiftl_1_l. by apply land_bit_nonzero. Qed.

Lemma bind_assign {B} (k : unit -> M B) g s f :
  serving g s ->
  bind (update_guest (0, 0) (update_gcsr f)) k s = k tt (with_guest (update_gcsr f g) s).
Proof. intros Hs. by erewrite bind_ok by (by apply update_guest_serving). Qed.

Lemma assign_again g s f f' :
  serving g s ->
  update_guest (0, 0) (update_gcsr f) (with_guest (update_gcsr f' g) s)
  = Ok tt (with_guest (update_gcsr (fun c => f (f' c)) g) s).
Proof.
  intros Hs. apply (serving_with_guest _ (update_gcsr f' g)) in Hs.
  rewrite (update_guest_serving _ _ _ Hs), with_guest_twice. done.
Qed.

(** A case that is one assignment. *)
Ltac direct_field n csr_id :=
  destruct (csr_id =? n); [intros _; by apply update_guest_serving|].

(** No case of set_virtual_csr panics but an unknown CSR and unknown bits of mie. *)
Lemma set_virtual_csr_assign g s csr_id v :
  serving g s -> csr_view (gcsr g) csr_id <> None ->
  (csr_id = CSR_mie -> Z.land v (not64 MIE_KNOWN) = 0) ->
  set_virtual_csr csr_id v s = Ok tt (with_guest (update_gcsr (csr_assign csr_id v) g) s).
Proof.
  intros Hs Hv Hmie. unfold set_virtual_csr.
  erewrite bind_ok by (by apply get_current_guest_serving). cbv beta iota zeta.
  unfold MSTATUS_MIE, MSTATUS_MDT, MIE_MSIE, MIE_MTIE, MIE_MEIE. rewrite !nonzero_bit by lia.
  revert Hv. unfold csr_view, csr_assign.
  destruct (csr_id =? CSR_mstatus).
  { intros _. rewrite (bind_assign _ g) by done.
    pose proof (serving_with_guest _ (update_gcsr (set_g_mstatus_mpp (Z.land (Z.shiftr v 11) 3)) g) _ Hs).
    erewrite bind_assign by done. rewrite with_guest_twice.
    rewrite update_gcsr_update. destruct (Z.testbit v 42); [by apply assign_again|done]. }
  destruct (csr_id =? CSR_mie) eqn:Emie.
  { intros _. rewrite (bind_assign _ g) by done. by rewrite Hmie by lia. }
  direct_field CSR_mtvec csr_id. direct_field CSR_satp csr_id.
  destruct (is_pmp csr_id); [intros _|].
  { unfold ret. f_equal. symmetry. unfold update_gcsr.
    replace (set_gcsr (gcsr g) g) with g by by destruct g. by apply with_guest_same. }
  direct_field CSR_mepc csr_id. direct_field CSR_mscratch csr_id. direct_field CSR_mcause csr_id.
  by direct_field CSR_mtval csr_id.
Qed.

Lemma two_bits x : 0 <= Z.land x 3 < 4.
Proof. change 3 with (2 ^ 2 - 1). rewrite land_low by lia. by apply Z.mod_pos_bound. Qed.

Lemma csrs_wf_assign csr_id v c : csrs_wf c -> csrs_wf (csr_assign csr_id v c).
Proof.
  intros [H1 H2 H3]. unfold csr_assign.
  repeat case_match; split; simpl; first [lia | by apply Z.mod_pos_bound].
Qed.

Lemma mstatus_value_mdt mpp mie mdt : 0 <= mpp < 4 -> Z.testbit (mstatus_value mpp mie mdt) 42 = mdt.
Proof.
  intros H. assert (mpp = 0 \/ mpp = 1 \/ mpp = 2 \/ mpp = 3) as [-> | [-> | [-> | ->]]] by lia;
    by destruct mie, mdt.
Qed.

Lemma mstatus_kept v mpp mie mdt :
  0 <= mpp < 4 ->
  csr_kept CSR_mstatus v (mstatus_value mpp mie mdt)
  = mstatus_value (Z.land (Z.shiftr v 11) 3) (Z.testbit v 3) (Z.testbit v 42 || mdt).
Proof.
  intros H. unfold csr_kept. rewrite Z.eqb_refl. unfold MSTATUS_MPP_MASK, MSTATUS_MIE, MSTATUS_MDT.
  rewrite Z.land_lor_distr_r, land_field, !Z.shiftl_1_l, !land_pow2, Z.lor_spec by lia.
  rewrite mstatus_value_mdt by done. pose proof (two_bits (Z.shiftr v 11)) as Hb.
  revert Hb. generalize (Z.land (Z.shiftr v 11) 3). intros b Hb.
  assert (b = 0 \/ b = 1 \/ b = 2 \/ b = 3) as [-> | [-> | [-> | ->]]] by lia;
    by destruct (Z.testbit v 3), (Z.testbit v 42), mdt.
Qed.

Lemma satp_kept v :
  0 <= v < 2 ^ 64 ->
  EXTRACT_BITS v 60 4 mod 2 ^ 4 * 2 ^ 60 + EXTRACT_BITS v 0 44 mod 2 ^ 44
  = Z.land v SATP_KNOWN.
Proof.
  intros Hv. unfold EXTRACT_BITS, SATP_KNOWN.
  rewrite Z.land_lor_distr_r, land_field, !(land_low _ 44), Z.shiftr_0_r by lia.
  rewrite (Z.shiftl_mul_pow2 _ 60) by lia. change 0xF with (2 ^ 4 - 1).
  rewrite !(land_low _ 4), !Zmod_mod by lia. symmetry. apply lor_disjoint_add; [lia|].
  pose proof (Z.mod_pos_bound v (2 ^ 44)). lia.
Qed.

(** A write shows what is kept of its value at its own CSR, *)
Lemma csr_view_assign csr_id v c old :
  0 <= v < 2 ^ 64 -> csrs_wf c -> csr_view c csr_id = Some old ->
  csr_view (csr_assign csr_id v c) csr_id = Some (csr_kept csr_id v old).
Proof.
  intros Hv [Hmpp _ _]. unfold csr_view, csr_assign.
  destruct (csr_id =? CSR_mstatus) eqn:E0.
  { apply Z.eqb_eq in E0 as ->. intros [= <-]. rewrite mstatus_kept by done.
    pose proof (Z.mod_small _ _ (two_bits (Z.shiftr v 11))) as Hm.
    destruct (Z.testbit v 42); simpl; by rewrite Hm. }
  destruct (csr_id =? CSR_mie) eqn:E1.
  { apply Z.eqb_eq in E1 as ->. intros _. f_equal. unfold csr_kept. simpl (_ =? _). cbv iota.
    unfold MIE_KNOWN, MIE_MSIE, MIE_MTIE, MIE_MEIE.
    rewrite !Z.land_lor_distr_r, !Z.shiftl_1_l, !land_pow2 by lia. cbn [g_mie_msie g_mie_mtie g_mie_meie set_g_mie].
    by destruct (Z.testbit v 3), (Z.testbit v 7), (Z.testbit v 11). }
  unfold csr_kept. rewrite E0, E1.
  destruct (csr_id =? CSR_mtvec) eqn:E2; [apply Z.eqb_eq in E2 as ->; done|].
  destruct (csr_id =? CSR_satp); [intros _; by rewrite <- satp_kept|].
  repeat case_match; done.
Qed.

(** The case of a write to [n], seen at another CSR. *)
Ltac other_field n csr_id csr_id' :=
  let E := fresh "E" in
  destruct (csr_id =? n) eqn:E; [rewrite (proj2 (Z.eqb_neq csr_id' n)) by lia|].

(** and leaves what every other CSR reads as. *)
Lemma csr_view_assign_other csr_id csr_id' v c :
  csr_id' <> csr_id -> csr_view (csr_assign csr_id v c) csr_id' = csr_view c csr_id'.
Proof.
  intros Hne. unfold csr_view, csr_assign.
  other_field CSR_mstatus csr_id csr_id'; [by destruct (Z.testbit v 42)|].
  other_field CSR_mie csr_id csr_id'; [done|].
  other_field CSR_mtvec csr_id csr_id'; [done|].
  other_field CSR_satp csr_id csr_id'; [done|].
  destruct (is_pmp csr_id); [done|].
  other_field CSR_mepc csr_id csr_id'; [done|].
  other_field CSR_mscratch csr_id csr_id'; [done|].
  other_field CSR_mcause csr_id csr_id'; [done|].
  other_field CSR_mtval csr_id csr_id'; done.
Qed.

(** A CSR the guest may name, and that the emulation accepts the value of. *)
Definition csr_writable (g : GuestThreadContext) (csr_id v : Z) : Prop :=
  is_Some (csr_view (gcsr g) csr_id) /\ (csr_id = CSR_mie -> Z.land v (not64 MIE_KNOWN) = 0).

Lemma csr_kept_exact csr_id v mpp mie mdt old :
  0 <= mpp < 4 -> (csr_id = CSR_mstatus -> old = mstatus_value mpp mie mdt) ->
  csr_exact csr_id v old -> csr_kept csr_id v old = csr_arch csr_id v old.
Proof.
  intros Hmpp Hold (Hst & Hsatp & Htvec & Hepc). unfold csr_arch.
  destruct (csr_id =? CSR_mstatus) eqn:E0.
  { apply Z.eqb_eq in E0 as ->. destruct (Hst eq_refl) as (-> & Hmdt & Hmie). rewrite (Hold eq_refl) in *.
    rewrite mstatus_kept by done. rewrite mstatus_value_mdt in Hmdt by done.
    assert (Z.testbit v 42 || mdt = Z.testbit v 42) as -> by (destruct mdt; [by rewrite Hmdt|apply orb_false_r]).
    f_equal. destruct (Z.testbit v 42); [by rewrite Hmie|by rewrite andb_true_r]. }
  unfold csr_kept. rewrite E0.
  destruct (csr_id =? CSR_mie); [done|]. destruct (csr_id =? CSR_satp) eqn:E2.
  { rewrite Hsatp; [done|lia]. }
  destruct (is_pmp csr_id); [done|]. destruct (csr_id =? CSR_mtvec) eqn:E4.
  { rewrite (proj2 (Z.ltb_lt _ _)); [done|]. apply Htvec. lia. }
  destruct (csr_id =? CSR_mepc) eqn:E3; [|done].
  rewrite Hepc by lia. lia.
Qed.


Context {plat_ok : PlatformOk}.

(** Writes look at the known bits only. *)
Lemma land_known v k m : Z.land k m = m -> Z.land (Z.land v k) m = Z.land v m.
Proof. intros Hm. by rewrite <- Z.land_assoc, Hm. Qed.
Lemma field_known v k i m : Z.land (Z.shiftr k i) m = m ->
  Z.land (Z.shiftr (Z.land v k) i) m = Z.land (Z.shiftr v i) m.
Proof. intros Hm. by rewrite Z.shiftr_land, <- Z.land_assoc, Hm. Qed.

Lemma set_virtual_mstatus_known v s :
  set_virtual_csr CSR_mstatus (Z.land v MSTATUS_KNOWN) s = set_virtual_csr CSR_mstatus v s.
Proof.
  unfold set_virtual_csr. change (CSR_mstatus =? CSR_mstatus) with true. cbv iota.
  by rewrite field_known, !land_known by reflexivity.
Qed.

Lemma set_virtual_satp_known v s :
  set_virtual_csr CSR_satp (Z.land v SATP_KNOWN) s = set_virtual_csr CSR_satp v s.
Proof.
  unfold set_virtual_csr, EXTRACT_BITS. change (CSR_satp =? CSR_mstatus) with false.
  change (CSR_satp =? CSR_mie) with false. change (CSR_satp =? CSR_mtvec) with false.
  change (CSR_satp =? CSR_satp) with true. cbv iota.
  by rewrite !field_known by reflexivity.
Qed.

(** [C27] The limits of the emulation.  A write to mie that sets a bit other than
    MSIE, MTIE or MEIE, and an access to a CSR that is not emulated, stop the
    hart with a panic, without undefined behaviour.  Other things the emulation
    does not support pass unnoticed: a write to a PMP register changes nothing,
    and a write to satp or mstatus has the effect of its known bits alone,
    whatever the ASID and the other fields ask for. *)
Theorem virtual_csr_rejects g s csr_id v :
  serving g s ->
  (csr_id = CSR_mie -> Z.land v (not64 MIE_KNOWN) <> 0 ->
   exists s', set_virtual_csr csr_id v s = Panic s') /\
  (csr_view (gcsr g) csr_id = None ->
   (exists s', set_virtual_csr csr_id v s = Panic s') /\
   (exists s', get_virtual_csr csr_id s = Panic s')) /\
  (is_pmp csr_id = true -> set_virtual_csr csr_id v s = Ok tt s) /\
  set_virtual_csr CSR_satp (Z.land v SATP_KNOWN) s = set_virtual_csr CSR_satp v s /\
  set_virtual_csr CSR_mstatus (Z.land v MSTATUS_KNOWN) s = set_virtual_csr CSR_mstatus v s.
Proof.
  intros Hs. split; [|split; [|split; [|split; [apply set_virtual_satp_known|apply set_virtual_mstatus_known]]]].
  - intros -> Hv. apply wp_panics, wp_bind, (wp_current_guest _ g); [done|]. simpl.
    apply wp_bind, (wp_update_guest _ g); [done|]. intros (Hsc & _).
    rewrite (proj2 (negb_true_iff _) (proj2 (Z.eqb_neq _ _) Hv) : nonzero _ = true).
    by apply wp_panic_msg_addr_any.
  - intros Hv. split; apply wp_panics, wp_bind, (wp_current_guest _ g); try done;
      revert Hv; unfold csr_view; destruct Hs as (Hsc & _); cbv beta iota zeta;
      repeat (case_match; [done|]); intros _;
      apply wp_bind, wp_print_string; intros s1 ?; apply wp_bind, wp_print_string; intros s2 ?.
    + by apply wp_panic_msg_addr_any; repeat (eapply mscratch_ok_io; [done|]).
    + by apply wp_panic_any; repeat (eapply mscratch_ok_io; [done|]).
  - intros Hpmp. unfold set_virtual_csr. erewrite bind_ok by (by apply get_current_guest_serving).
    cbv beta iota zeta. rewrite Hpmp. unfold is_pmp in Hpmp.
    unfold CSR_pmpcfg0, CSR_pmpcfg15, CSR_pmpaddr0, CSR_pmpaddr63 in Hpmp.
    assert (0x3A0 <= csr_id) by lia.
    rewrite (proj2 (Z.eqb_neq csr_id CSR_mstatus)), (proj2 (Z.eqb_neq csr_id CSR_mie)),
      (proj2 (Z.eqb_neq csr_id CSR_mtvec)), (proj2 (Z.eqb_neq csr_id CSR_satp)); [done|..];
      unfold CSR_mstatus, CSR_mie, CSR_mtvec, CSR_satp; lia.
Qed.

End virtcsr_spec.


(** Unknown bits of mie; mhartid, which is not emulated; pmpaddr0 and satp.ASID,
    which are ignored. *)
Lemma virtual_csr_rejects_witness :
  (exists s', set_virtual_csr CSR_mie 0x200 sample_state = Panic s') /\
  (exists s', set_virtual_csr 0xF14 1 sample_state = Panic s') /\
  (exists s', get_virtual_csr 0xF14 sample_state = Panic s') /\
  set_virtual_csr CSR_pmpaddr0 (2 ^ 54 - 1) sample_state = Ok tt sample_state /\
  set_virtual_csr CSR_satp (8 * 2 ^ 60 + 0x80123) sample_state =
    set_virtual_csr CSR_satp (8 * 2 ^ 60 + 5 * 2 ^ 44 + 0x80123) sample_state.
Proof.
  destruct (virtual_csr_rejects GUEST_THREAD_CONTEXT_INIT sample_state CSR_mie 0x200 sample_serving) as [H1 _].
  destruct (virtual_csr_rejects GUEST_THREAD_CONTEXT_INIT sample_state 0xF14 1 sample_serving) as (_ & H2 & _).
  destruct (virtual_csr_rejects GUEST_THREAD_CONTEXT_INIT sample_state CSR_pmpaddr0 (2 ^ 54 - 1) sample_serving)
    as (_ & _ & H3 & _).
  destruct (virtual_csr_rejects GUEST_THREAD_CONTEXT_INIT sample_state 0 (8 * 2 ^ 60 + 5 * 2 ^ 44 + 0x80123)
    sample_serving) as (_ & _ & _ & H4 & _).
  split; [apply H1; [reflexivity|by vm_compute]|]. destruct (H2 eq_refl) as [H2w H2r].
  split; [exact H2w|]. split; [exact H2r|]. split; [by apply H3|exact H4].
Defined.
