(* ===== verification/GuestPrivilege.v ===== *)
(** guestprivilege.c: switching between guest-machine and guest-user mode, and
    exceptions that wait until the guest accepts them. *)
From S2P Require Import Prelude Machine Wp Print Pte PageAlloc Vmem Contexts.

Section privilege.
Context {plat : Platform}.

(** [guest_mret] calls forward to [guest_check_deferred], which calls
    [guest_exception]; they are given in the order of the calls. *)

Definition guest_exception (mcause : Z) : M unit :=
  let! (id, guest_thr) := get_current_guest in
  if negb (user_mode guest_thr) then panic_msg (nl +:+ "GM exception")
  else
    (if shadow_pt_active guest_thr then
       update_guest id (set_shadow_pt_active false) ;;
       w_csr CSR_satp (MAKE_SATP (machine_root (fst id))) ;;
       vmem_fence None None
     else ret tt) ;;
    update_guest id (update_gcsr (set_g_mstatus_mdt true)) ;;
    let! mepc := r_csr CSR_mepc in
    update_guest id (update_gcsr (set_g_mepc mepc)) ;;
    let! guest_thr := get_guest_thread id in
    w_csr CSR_mepc (g_mtvec (gcsr guest_thr)) ;;
    update_guest id (set_user_mode false) ;;
    update_guest id (update_gcsr (set_g_mcause mcause)) ;;
    let! mtval := r_csr CSR_mtval in
    update_guest id (update_gcsr (set_g_mtval mtval)).

Definition guest_check_deferred : M bool :=
  let! (id, guest_thr) := get_current_guest in
  if negb (g_mstatus_mie (gcsr guest_thr)) || g_mstatus_mdt (gcsr guest_thr) then ret false
  else if deferred_exception guest_thr then
    update_guest id (set_deferred_exception false) ;;
    guest_exception (deferred_mcause guest_thr) ;;
    ret true
  else ret false.

Definition guest_defer_exception (mcause : Z) : M unit :=
  let! (id, guest_thr) := get_current_guest in
  if deferred_exception guest_thr then ret tt
  else
    update_guest id (set_deferred_exception true) ;;
    update_guest id (set_deferred_mcause mcause) ;;
    let! _ := guest_check_deferred in
    ret tt.

Definition guest_mret : M unit :=
  let! (id, guest_thr) := get_current_guest in
  if user_mode guest_thr then panic_msg (nl +:+ "mret from user mode")
  else
    update_guest id (set_user_mode true) ;;
    w_csr CSR_mepc (g_mepc (gcsr guest_thr)) ;;
    update_guest id (update_gcsr (set_g_mstatus_mdt false)) ;;
    let mode := u64 (Z.shiftl (g_satp_mode (gcsr guest_thr)) SATP_MODE_SHIFT) in
    (if mode =? SATP_MODE_NONE then ret tt
     else if mode =? SATP_MODE_SV39 then
       update_guest id (set_shadow_pt_active true) ;;
       (if shadow_page_table guest_thr =? 0 then
          let! page := allocate_pagepable in
          update_guest id (set_shadow_page_table page)
        else ret tt) ;;
       let! guest_thr := get_guest_thread id in
       w_csr CSR_satp (MAKE_SATP (shadow_page_table guest_thr)) ;;
       vmem_fence None None
     else panic_msg_addr (nl +:+ "Unsupported pagetable mode: ") (g_satp_mode (gcsr guest_thr))) ;;
    let! _ := guest_check_deferred in
    ret tt.

End privilege.
