(* ===== verification/PrivilegeSpec.v ===== *)
(** Mode switches keep the translation table in step with the mode: entering
    guest-machine mode and returning from it. *)
From S2P Require Import Prelude Machine Wp Print Pte PageAlloc Vmem Tables VmemSpec ShadowSpec.
From S2P Require Import FlushSpec WalkSpec Contexts Invariant GuestPrivilege.

(** What an exception makes of the guest's record. *)
Definition exception_record (mcause mepc mtval : Z) (g : GuestThreadContext) : GuestThreadContext :=
  let c := gcsr g in
  mkGuestThreadContext (shadow_page_table g) false false (timer_scheduled g) (deferred_exception g)
    (timer_deadline g) (timer_suspended_at g) (timer_adjustment g) (deferred_mcause g)
    (mkGuestCsrs (g_mtvec c) mepc (g_mscratch c) mcause mtval (g_mstatus_mpp c) (g_mstatus_mie c)
      true (g_mie_msie c) (g_mie_mtie c) (g_mie_meie c) (g_satp_mode c) (g_satp_ppn c)).

Section privilege_spec.
Context {plat : Platform} {plat_ok : PlatformOk}.
Context {ai : gset Z -> State -> Prop} {ai_ok : AllocatorContract ai}.

(** Everything but the guest's record and the named CSRs is as before. *)
Definition only_csrs (ns : list Z) (s s' : State) : Prop :=
  mem s' = mem s /\ host_thread s' = host_thread s /\ interrupt_target s' = interrupt_target s /\
  clint_mtimecmp s' = clint_mtimecmp s /\ forall n, n ∉ ns -> csr s' !! n = csr s !! n.

Lemma serving_trace g s tr : serving g s -> serving g (set_trace tr s).
Proof. done. Qed.

(** Leaving the shadow tables, if they are in use. *)
Lemma leave_shadow g G s (Q : unit -> State -> Prop) :
  hyp_inv (ai := ai) g G s -> user_mode g = true ->
  (forall g1 s1, g1 = set_shadow_pt_active false g -> serving g1 s1 -> same_store s s1 ->
     only_csrs [CSR_satp] s s1 -> default 0 (csr s1 !! CSR_satp) = u64 (MAKE_SATP root) ->
     tlb_synced (trace s1) = true -> Q tt s1) ->
  wp no_panic (if shadow_pt_active g then
     update_guest (0, 0) (set_shadow_pt_active false) ;;
     w_csr CSR_satp (MAKE_SATP (machine_root (fst (0, 0)))) ;;
     vmem_fence None None
   else ret tt) Q s.
Proof.
  intros Hinv Hu HQ. pose proof (hyp_inv_serving _ _ _ Hinv) as Hs.
  destruct (shadow_pt_active g) eqn:Ha.
  - wp_step. apply (wp_update_guest no_panic g); [done|]. intros Hs1. wp_step. wp_step. wp_step.
    eapply HQ; [done| |done| |..|done].
    + apply serving_trace. by apply serving_csr.
    + split_and!; try done. intros n Hn. simpl. apply lookup_insert_ne. set_solver.
    + simpl. by rewrite lookup_insert_eq.
  - apply wp_ret. assert (set_shadow_pt_active false g = g) as Hg.
    { destruct g. simpl in *. by rewrite Ha. }
    apply (HQ (set_shadow_pt_active false g) s); rewrite ?Hg; try done.
    + rewrite (hi_satp _ _ _ Hinv). unfold active_table. by rewrite Ha.
    + apply Hinv.
Qed.

(** An exception enters guest-machine mode at mtvec, on the machine table. *)
Lemma guest_exception_spec g G s mcause :
  hyp_inv (ai := ai) g G s -> user_mode g = true ->
  wp no_panic (guest_exception mcause) (fun _ s' =>
    let g' := exception_record mcause (default 0 (csr s !! CSR_mepc)) (default 0 (csr s !! CSR_mtval)) g in
    hyp_inv (ai := ai) g' G s' /\ same_store s s' /\ only_csrs [CSR_satp; CSR_mepc] s s' /\
    default 0 (csr s' !! CSR_mepc) = u64 (g_mtvec (gcsr g))) s.
Proof.
  intros Hinv Hu. pose proof (hyp_inv_serving _ _ _ Hinv) as Hs. unfold guest_exception.
  wp_step. apply (wp_current_guest no_panic g); [done|]. cbv beta iota. rewrite Hu. cbn [negb]. wp_step.
  apply (leave_shadow g G s); [done..|].
  intros g1 s1 Hg1 Hs1 Hst1 (Hm1 & Hh1 & Hi1 & Ht1 & Hc1) Hsatp1 Hsync1.
  wp_step. apply (wp_update_guest no_panic g1); [done|]. intros Hs2.
  wp_step. apply wp_gets. cbv beta.
  wp_step. eapply (wp_update_guest no_panic); [exact Hs2|]. intros Hs3. wp_step.
  eapply wp_ok; [apply get_guest_thread_ok, Hs3|]. cbv beta.
  wp_step. wp_step. wp_step.
  pose proof (serving_csr _ _ CSR_mepc (u64 (g_mtvec (gcsr g))) Hs3 ltac:(done)) as Hs4.
  assert (g_mtvec (gcsr g1) = g_mtvec (gcsr g)) as Hv by (by rewrite Hg1).
  change (CSR_mepc =? CSR_satp) with false. cbv iota. cbn [gcsr update_gcsr set_gcsr g_mtvec set_g_mepc set_g_mstatus_mdt].
  rewrite Hv.
  eapply (wp_update_guest no_panic); [exact Hs4|]. intros Hs5.
  wp_step. eapply (wp_update_guest no_panic); [exact Hs5|]. intros Hs6.
  wp_step. apply wp_gets. cbv beta. eapply (wp_update_guest no_panic); [exact Hs6|]. intros Hs7.
  cbv zeta.
  lazymatch type of Hs7 with serving ?a ?b => set (s7 := b) in *; set (g7 := a) in Hs7 end.
  assert (g7 = exception_record mcause (default 0 (csr s !! CSR_mepc)) (default 0 (csr s !! CSR_mtval)) g) as Hg7.
  { unfold g7, exception_record, update_gcsr. rewrite Hg1. simpl. rewrite lookup_insert_ne by done.
    rewrite !Hc1 by set_solver. done. }
  rewrite Hg7 in Hs7.
  assert (same_store s s7) as Hst7 by exact Hst1.
  split; [|split; [done|split]].
  - split.
    + apply (vm_inv_same g _ G s); [apply Hinv|exact Hst7|exact Hs7|done].
    + split; [done|done|apply Hinv].
    + unfold s7. simpl. by rewrite lookup_insert_ne.
    + exact Hsync1.
    + unfold s7. simpl. rewrite lookup_insert_eq. apply u64_range.
  - split_and!; try done. intros n Hn. unfold s7. simpl.
    rewrite lookup_insert_ne by set_solver. apply Hc1. set_solver.
  - unfold s7. simpl. by rewrite lookup_insert_eq.
Qed.

(** ** Deferred exceptions *)

(** A pending exception is delivered exactly when the guest enables interrupts
    and has cleared MDT; then the guest is in user mode, and nothing panics. *)
Lemma guest_check_deferred_spec g G s :
  hyp_inv (ai := ai) g G s ->
  wp no_panic guest_check_deferred (fun b s' =>
    b = g_mstatus_mie (gcsr g) && negb (g_mstatus_mdt (gcsr g)) && deferred_exception g /\
    same_store s s' /\
    if b then
      user_mode g = true /\
      (let g' := exception_record (deferred_mcause g) (default 0 (csr s !! CSR_mepc))
         (default 0 (csr s !! CSR_mtval)) (set_deferred_exception false g) in
       hyp_inv (ai := ai) g' G s') /\ default 0 (csr s' !! CSR_mepc) = u64 (g_mtvec (gcsr g)) /\
      only_csrs [CSR_satp; CSR_mepc] s s'
    else s' = s) s.
Proof.
  intros Hinv. pose proof (hyp_inv_serving _ _ _ Hinv) as Hs. unfold guest_check_deferred.
  wp_step. apply (wp_current_guest no_panic g); [done|]. cbv beta iota.
  destruct (g_mstatus_mie (gcsr g)) eqn:Em; [|by apply wp_ret].
  destruct (g_mstatus_mdt (gcsr g)) eqn:Ed; [by apply wp_ret|]. cbn [negb orb andb].
  destruct (deferred_exception g) eqn:Ex; [|by apply wp_ret].
  assert (user_mode g = true) as Hu.
  { destruct (user_mode g) eqn:E; [done|]. pose proof (gw_mdt _ (hi_wf _ _ _ Hinv) E). congruence. }
  wp_step. apply (wp_update_guest no_panic g); [done|]. intros Hs1.
  assert (hyp_inv (ai := ai) (set_deferred_exception false g) G (with_guest (set_deferred_exception false g) s))
    as Hinv1 by (by apply (hyp_inv_with_guest g)).
  wp_step. eapply wp_post; [by apply (guest_exception_spec _ G _ (deferred_mcause g) Hinv1)|].
  intros [] s' (Hinv' & Hst & Hoc & Hpc). apply wp_ret. by split_and!.
Qed.

Lemma guest_defer_exception_spec g G s mcause :
  hyp_inv (ai := ai) g G s ->
  wp no_panic (guest_defer_exception mcause) (fun _ s' =>
    exists g', hyp_inv (ai := ai) g' G s' /\ same_store s s') s.
Proof.
  intros Hinv. pose proof (hyp_inv_serving _ _ _ Hinv) as Hs. unfold guest_defer_exception.
  wp_step. apply (wp_current_guest no_panic g); [done|]. cbv beta iota.
  destruct (deferred_exception g); [apply wp_ret; by exists g|].
  wp_step. apply (wp_update_guest no_panic g); [done|]. intros Hs1.
  wp_step. eapply (wp_update_guest no_panic); [exact Hs1|]. intros Hs2.
  set (g2 := set_deferred_mcause mcause (set_deferred_exception true g)) in *.
  rewrite with_guest_twice. rewrite with_guest_twice in Hs2.
  assert (hyp_inv (ai := ai) g2 G (with_guest g2 s)) as Hinv2 by (by apply (hyp_inv_with_guest g)).
  wp_step. eapply wp_post; [by apply (guest_check_deferred_spec _ G _ Hinv2)|].
  intros b s' (_ & Hst & Hb). apply wp_ret. destruct b.
  - destruct Hb as (_ & Hinv' & _). by eexists.
  - subst s'. by exists g2.
Qed.

(** ** guest_mret *)

(** Before the first return to a guest with paging there are at most 512
    tables in use, so the allocator cannot be exhausted. *)
Lemma shadow_root_available G m :
  tables_ok 0 G m -> exists q, is_pool_page q /\ G !! q = None.
Proof.
  intros Hok.
  assert (forall c r, G !! c = Some r -> exists j, r = RMachine j /\ 0 <= j < 512) as Hm.
  { intros c [j|path] Hc.
    - exists j. split; [done|]. destruct (tk_machine _ _ _ Hok _ _ Hc); lia.
    - destruct (role_prefix _ _ _ Hok [] path c Hc) as [d Hd].
      by apply (tk_shadow_root _ _ _ Hok) in Hd as [-> ?]. }
  destruct (decide (Forall (fun i => is_Some (G !! pool_page i)) (seqZ 0 513))) as [Hall|Hnot].
  2: { apply not_Forall_Exists in Hnot; [|intros; apply _].
       apply Exists_exists in Hnot as (i & Hi & Hn). apply elem_of_seqZ in Hi.
       exists (pool_page i). split; [exists i; unfold MAX_ALLOCATEABLE_PAGES; split; [lia|done]|].
       by apply eq_None_not_Some. }
  exfalso. rewrite Forall_seqZ in Hall.
  set (f := fun i => match G !! pool_page i with Some (RMachine j) => j | _ => 0 end).
  assert (forall i, 0 <= i < 513 -> G !! pool_page i = Some (RMachine (f i)) /\ 0 <= f i < 512) as Hf.
  { intros i Hi. destruct (Hall i ltac:(lia)) as [r Hr]. destruct (Hm _ _ Hr) as (j & -> & Hj).
    unfold f. rewrite Hr. done. }
  assert (NoDup (f <$> seqZ 0 513)) as Hnd.
  { apply NoDup_fmap_2_strong; [|apply NoDup_seqZ]. intros i j Hi Hj Hij.
    apply elem_of_seqZ in Hi, Hj.
    destruct (Hf i ltac:(lia)) as [Hgi Hri]. destruct (Hf j ltac:(lia)) as [Hgj _].
    destruct (tk_machine _ _ _ Hok _ _ Hgi) as (_ & Hei & _).
    destruct (tk_machine _ _ _ Hok _ _ Hgj) as (_ & Hej & _).
    apply pool_page_inj. eapply table_entry_inj; [by eapply tk_pool..|]. congruence. }
  assert (length (f <$> seqZ 0 513) <= length (seqZ 0 512))%nat as Hle.
  { apply submseteq_length, NoDup_submseteq; [done|]. intros x Hx.
    apply list_elem_of_fmap in Hx as (i & -> & Hi). apply elem_of_seqZ in Hi. apply elem_of_seqZ.
    destruct (Hf i ltac:(lia)). lia. }
  rewrite length_fmap, !length_seqZ in Hle. lia.
Qed.

(** The record after mret, but for the shadow table. *)
Definition mret_record (g : GuestThreadContext) : GuestThreadContext :=
  update_gcsr (set_g_mstatus_mdt false) (set_user_mode true g).

Lemma vm_inv_serving g G s : vm_inv (ai := ai) g G s -> serving g s.
Proof. intros []. by split_and!. Qed.

(** Obtaining the shadow root: it exists or is allocated, never refused. *)
Lemma mret_root g G s :
  vm_inv (ai := ai) g G s ->
  wp no_panic (if shadow_page_table g =? 0 then
      let! page := allocate_pagepable in
      update_guest (0, 0) (set_shadow_page_table page)
    else ret tt) (fun _ s' => exists sp G', sp <> 0 /\
      vm_inv (ai := ai) (set_shadow_page_table sp g) G' s' /\ vm_ext (with_guest (set_shadow_page_table sp g) s) s' /\
      (shadow_page_table g <> 0 -> sp = shadow_page_table g /\ s' = s) /\
      (shadow_page_table g = 0 -> zero_table (mem s') sp)) s.
Proof.
  intros Hinv. pose proof (vm_inv_serving _ _ _ Hinv) as Hs.
  destruct (Z.eqb_spec (shadow_page_table g) 0) as [H0|Hne].
  2: { apply wp_ret. exists (shadow_page_table g), G.
       assert (set_shadow_page_table (shadow_page_table g) g = g) as -> by (by destruct g).
       assert (with_guest g s = s) as ->.
       { unfold with_guest. destruct Hs as (_ & _ & Hg). rewrite insert_id by done. by destruct s. }
       by split_and!. }
  wp_step. eapply wp_post; [by apply (allocate_pagepable_inv g G s Hinv)|].
  intros c s1 [(-> & -> & Hfull)|(HGc & Hpc & Hz & Hext & Hai & Htab & _)].
  { exfalso. pose proof (vi_tables _ _ _ Hinv) as Htab. rewrite H0 in Htab.
    destruct (shadow_root_available _ _ Htab) as (q & Hq & HGq). destruct (Hfull q Hq). congruence. }
  assert (serving g s1) as Hs1.
  { destruct Hs as (Hsc & Hcur & Hg). destruct Hext. split_and!.
    - unfold mscratch_ok in *. congruence.
    - congruence.
    - congruence. }
  apply (wp_update_guest no_panic g); [done|]. intros Hs2.
  exists c, (<[c := RShadow []]> G). pose proof (is_pool_page_nonzero _ Hpc).
  split; [done|]. split; [|split; [|split; [done|done]]].
  - destruct Hs2 as (Hsc2 & Hcur2 & Hg2). split; try done.
    + rewrite dom_insert_L. eapply ai_frame; [done|]. by split_and!.
    + apply (tables_ok_add_root (shadow_page_table g) G (mem s1) Htab c); done.
  - destruct Hext. split; try done. simpl. by rewrite ve_guests.
Qed.

(** The switch over satp.MODE, once the guest is in user mode. *)
Definition mret_switch (g : GuestThreadContext) : M unit :=
  let mode := u64 (Z.shiftl (g_satp_mode (gcsr g)) SATP_MODE_SHIFT) in
  if mode =? SATP_MODE_NONE then ret tt
  else if mode =? SATP_MODE_SV39 then
    update_guest (0, 0) (set_shadow_pt_active true) ;;
    (if shadow_page_table g =? 0 then
       let! page := allocate_pagepable in
       update_guest (0, 0) (set_shadow_page_table page)
     else ret tt) ;;
    let! guest_thr := get_guest_thread (0, 0) in
    w_csr CSR_satp (MAKE_SATP (shadow_page_table guest_thr)) ;;
    vmem_fence None None
  else panic_msg_addr (nl +:+ "Unsupported pagetable mode: ") (g_satp_mode (gcsr g)).

Lemma satp_mode_eqb m k : 0 <= m < 16 ->
  (u64 (Z.shiftl m SATP_MODE_SHIFT) =? k * 2 ^ 60) = (m =? k).
Proof.
  intros Hm. unfold SATP_MODE_SHIFT. rewrite Z.shiftl_mul_pow2, u64_id by lia.
  destruct (Z.eqb_spec m k) as [->|]; [apply Z.eqb_refl|]. apply Z.eqb_neq. lia.
Qed.

(** The panics of mret are those of unsupported modes. *)
Definition mode_supported (g : GuestThreadContext) : Prop :=
  g_satp_mode (gcsr g) = 0 \/ g_satp_mode (gcsr g) = 8.

(** The shadow table [sp] of a guest that leaves machine mode: its own, or an
    empty one when it pages for the first time. *)
Definition shadow_root (g : GuestThreadContext) (sp : Z) (m m' : mem_t) : Prop :=
  if (g_satp_mode (gcsr g) =? 8) && (shadow_page_table g =? 0)
  then sp <> 0 /\ forall va, sv39_translate m' sp va = None
  else sp = shadow_page_table g /\ m' = m.

Lemma zero_table_translate m t va : zero_table m t -> sv39_translate m t va = None.
Proof. intros Hz. unfold sv39_translate. rewrite sv39_leaf_zero; [done|]. by apply Hz, vpn_range. Qed.

Lemma mret_switch_spec g G s :
  hyp_inv (ai := ai) g G s -> user_mode g = true -> shadow_pt_active g = false ->
  wp (fun _ => ~ mode_supported g) (mret_switch g) (fun _ s' =>
    exists sp G', (let g' := set_shadow_page_table sp (set_shadow_pt_active (g_satp_mode (gcsr g) =? 8) g) in
      hyp_inv (ai := ai) g' G' s') /\ guest_mem_same s s' /\ mode_supported g /\
    shadow_root g sp (mem s) (mem s') /\ forall n, n <> CSR_satp -> csr s' !! n = csr s !! n) s.
Proof.
  intros Hinv Hu Ha. pose proof (hyp_inv_serving _ _ _ Hinv) as Hs.
  unfold mret_switch, mode_supported, shadow_root. cbv zeta. pose proof (gw_mode _ (hi_wf _ _ _ Hinv)) as Hmode.
  change SATP_MODE_NONE with (0 * 2 ^ 60). change SATP_MODE_SV39 with (8 * 2 ^ 60).
  rewrite !satp_mode_eqb by done.
  destruct (Z.eqb_spec (g_satp_mode (gcsr g)) 0) as [H0|H0].
  { apply wp_ret. exists (shadow_page_table g), G. rewrite H0.
    assert (set_shadow_page_table (shadow_page_table g) (set_shadow_pt_active (0 =? 8) g) = g) as ->.
    { destruct g. simpl in *. by rewrite Ha. }
    split; [done|]. split; [done|]. split; [by left|done]. }
  destruct (Z.eqb_spec (g_satp_mode (gcsr g)) 8) as [H8|H8].
  2: { apply wp_bind, wp_print_string. intros s1 H1. apply wp_bind, wp_print_addr. intros s2 H2.
       apply wp_panic; [|tauto]. do 2 (eapply mscratch_ok_io; [done|]). apply Hs. }
  wp_step. apply (wp_update_guest _ g); [done|]. intros Hs1.
  set (g1 := set_shadow_pt_active true g) in *. set (s1 := with_guest g1 s) in *.
  assert (vm_inv (ai := ai) g1 G s1) as Hvm1 by (apply (vm_inv_same g _ G s); [apply Hinv|done..]).
  wp_step. apply (wp_total (fun _ => ~ _)). eapply wp_post; [apply (mret_root g1 G s1 Hvm1)|].
  intros [] s2 (sp & G2 & Hsp & Hvm2 & Hext2 & Hold & Hnew).
  pose proof (vm_inv_serving _ _ _ Hvm2) as Hs2. wp_step.
  eapply wp_ok; [apply get_guest_thread_ok, Hs2|]. cbv beta. wp_step. wp_step. wp_step.
  change (CSR_satp =? CSR_satp) with true. cbv iota.
  exists sp, G2. split; [|split; [|split; [by right|split]]].
  - split.
    + eapply (vm_inv_same _ _ G2 s2); [exact Hvm2|done| |done].
      apply serving_trace. by apply serving_csr.
    + destruct (hi_wf _ _ _ Hinv). by split.
    + simpl. rewrite lookup_insert_eq. done.
    + done.
    + simpl. rewrite lookup_insert_ne by done. rewrite (ve_csr _ _ Hext2). apply Hinv.
  - intros x Hx. simpl. by rewrite (ve_guest_mem _ _ Hext2).
  - cbn [andb mem set_trace set_csr]. destruct (Z.eqb_spec (shadow_page_table g) 0) as [H|H].
    + split; [done|]. intros va. apply zero_table_translate. by apply Hnew.
    + destruct (Hold H) as [-> ->]. done.
  - intros n Hn. simpl. rewrite lookup_insert_ne by done. by rewrite (ve_csr _ _ Hext2).
Qed.

(** The record in user mode, with the shadow table [sp] if the guest pages. *)
Definition user_record (sp : Z) (g : GuestThreadContext) : GuestThreadContext :=
  set_shadow_page_table sp (set_shadow_pt_active (g_satp_mode (gcsr g) =? 8) (mret_record g)).

(** A deferred exception the guest accepts as soon as it leaves machine mode. *)
Definition pending (g : GuestThreadContext) : bool := g_mstatus_mie (gcsr g) && deferred_exception g.

Lemma guest_mret_spec g G s :
  hyp_inv (ai := ai) g G s -> user_mode g = false ->
  wp (fun _ => ~ mode_supported g) guest_mret (fun _ s' =>
    mode_supported g /\ guest_mem_same s s' /\ exists sp G', shadow_root g sp (mem s) (mem s') /\
      let mepc := u64 (g_mepc (gcsr g)) in
      hyp_inv (ai := ai)
        (if pending g
         then exception_record (deferred_mcause g) mepc (default 0 (csr s !! CSR_mtval))
                (set_deferred_exception false (user_record sp g))
         else user_record sp g) G' s' /\
      default 0 (csr s' !! CSR_mepc) = if pending g then u64 (g_mtvec (gcsr g)) else mepc) s.
Proof.
  intros Hinv Hu. pose proof (hyp_inv_serving _ _ _ Hinv) as Hs.
  assert (shadow_pt_active g = false) as Ha.
  { destruct (shadow_pt_active g) eqn:E; [|done].
    destruct (gw_shadow _ (hi_wf _ _ _ Hinv) E). congruence. }
  unfold guest_mret. wp_step. apply (wp_current_guest _ g); [done|]. cbv beta iota. rewrite Hu. cbv iota.
  wp_step. apply (wp_update_guest _ g); [done|]. intros Hs1.
  wp_step. wp_step. change (CSR_mepc =? CSR_satp) with false. cbv iota.
  wp_step. eapply (wp_update_guest _); [by apply serving_csr; [exact Hs1|]|]. intros Hs3.
  lazymatch type of Hs3 with serving ?a ?b => set (s3 := b) in *; change a with (mret_record g) in Hs3 end.
  assert (hyp_inv (ai := ai) (mret_record g) G s3) as Hinv3.
  { split; [|split; simpl; [by rewrite Ha|done|apply Hinv]| |apply Hinv|].
    - apply (vm_inv_same g _ G s); [apply Hinv|done|exact Hs3|done].
    - unfold s3. simpl. rewrite lookup_insert_ne by done. rewrite (hi_satp _ _ _ Hinv).
      unfold active_table. simpl. by rewrite Ha.
    - unfold s3. simpl. rewrite lookup_insert_eq. apply u64_range. }
  cbv zeta. wp_step. eapply wp_post; [apply (mret_switch_spec (mret_record g) G s3 Hinv3 eq_refl Ha)|].
  intros [] s4 (sp & G4 & Hinv4 & Hmem4 & Hm & Hroot & Hcsr4). wp_step. cbv zeta in Hinv4.
  change (hyp_inv (ai := ai) (user_record sp g) G4 s4) in Hinv4.
  assert (default 0 (csr s4 !! CSR_mepc) = u64 (g_mepc (gcsr g))) as Hpc4.
  { rewrite Hcsr4 by done. unfold s3. simpl. by rewrite lookup_insert_eq. }
  assert (csr s4 !! CSR_mtval = csr s !! CSR_mtval) as Htv4.
  { rewrite Hcsr4 by done. unfold s3. simpl. by rewrite lookup_insert_ne. }
  eapply wp_post; [apply wp_total, (guest_check_deferred_spec _ _ _ Hinv4)|].
  intros b s5 (Eb & Hst5 & Hb). apply wp_ret. rewrite Hpc4, Htv4 in Hb.
  split; [exact Hm|]. split; [etrans; [exact Hmem4|]; intros x _; by destruct Hst5 as [-> _]|].
  exists sp, G4. split; [rewrite (proj1 Hst5); exact Hroot|]. cbv zeta.
  assert (b = pending g) as -> by (rewrite Eb; unfold pending; simpl; by rewrite andb_true_r).
  destruct (pending g); [|by subst s5]. destruct Hb as (_ & Hinv5 & Hpc5 & _). split; [exact Hinv5|exact Hpc5].
Qed.

End privilege_spec.
