(* ===== verification/Timer.v ===== *)
(** timer.c and timer.h: the guest's virtual clock, hidden from the time spent
    in the hypervisor, and the multiplexing of the one hardware comparator. *)
From S2P Require Import Prelude Machine Sample Wp Print Contexts GuestPrivilege.

Inductive CompareResult := CMP_LT | CMP_EQ | CMP_GT.

Definition MILLISECONDS (n : Z) : Z := 100 * n.

(** Comparison of points of a clock that wraps around. *)
Definition timer_compare (lhs rhs : Z) : CompareResult :=
  let diff := sub64 lhs rhs in
  if diff =? 0 then CMP_EQ
  else if s64 diff <? 0 then CMP_LT
  else CMP_GT.

Section timer.
Context {plat : Platform}.

Definition NO_TARGET : GuestThreadId := (-1, -1).

Definition timer_get_time : M Z := read_mtime.

Definition timer_get_time_virtual : M Z :=
  let! (_, guest_thr) := get_current_guest in
  let! mtime := read_mtime in
  ret (sub64 mtime (timer_adjustment guest_thr)).

(** [clint0->mtimecmp = deadline; w_mie(r_mie() | MIE_MTIE);] *)
Definition timer_interrupt_at (deadline : Z) : M unit :=
  modify (set_clint_mtimecmp (u64 deadline)) ;;
  let! mie := r_csr CSR_mie in
  w_csr CSR_mie (Z.lor mie MIE_MTIE).

Definition timer_interrupt_sooner (deadline : Z) : M bool :=
  let! old_deadline := gets clint_mtimecmp in
  match timer_compare deadline old_deadline with
  | CMP_LT =>
      modify (set_clint_mtimecmp (u64 deadline)) ;;
      let! mie := r_csr CSR_mie in
      w_csr CSR_mie (Z.lor mie MIE_MTIE) ;;
      ret true
  | _ => ret false
  end.

(** The body of the two nested loops. *)
Definition timer_consider (i j : Z) : M unit :=
  let! guest_thr := get_guest_thread (i, j) in
  if timer_scheduled guest_thr then
    let! sooner :=
      timer_interrupt_sooner (add64 (timer_deadline guest_thr) (timer_adjustment guest_thr)) in
    if sooner then modify (set_interrupt_target (i, j)) else ret tt
  else ret tt.

Definition timer_reschedule : M unit :=
  modify (set_interrupt_target NO_TARGET) ;;
  let! now := timer_get_time in
  timer_interrupt_at (add64 now (MILLISECONDS 200)) ;;
  for_each (seqZ 0 MAX_GUESTS) (fun i =>
    for_each (seqZ 0 MAX_VIRT_HARTS) (fun j => timer_consider i j)).

Definition timer_on_interrupt : M unit :=
  let! target := gets interrupt_target in
  if fst target <? 0 then ret tt
  else
    let! host_thr := get_host_thread in
    if bool_decide (fst (current_guest host_thr) <> fst target)
       || bool_decide (snd (current_guest host_thr) <> snd target)
    then panic_msg "TODO: Guest machine/thread switch"
    else
      update_guest (current_guest host_thr) (set_timer_scheduled false) ;;
      guest_defer_exception (Z.lor MCAUSE_ASYNC_BIT MCAUSE_ASYNC_TIMER).

Definition timer_suspend_virtual : M unit :=
  let! (id, _) := get_current_guest in
  let! mtime := read_mtime in
  update_guest id (set_timer_suspended_at mtime).

Definition additional_cycles : Z := 50.

Definition timer_resume_virtual : M unit :=
  let! (id, guest_thr) := get_current_guest in
  let! mtime := read_mtime in
  update_guest id (set_timer_adjustment
    (u64 (timer_adjustment guest_thr + (mtime - timer_suspended_at guest_thr + additional_cycles)))).

End timer.

(** ** Properties *)

Definition of_comparison (c : comparison) : CompareResult :=
  match c with Lt => CMP_LT | Eq => CMP_EQ | Gt => CMP_GT end.

(** [C33] Points of the 64-bit clock less than half its period apart are ordered
    as time orders them, across a wrap-around too. *)
Theorem timer_compare_correct t i j :
  Z.abs (i - j) < 2 ^ 63 ->
  timer_compare (u64 (t + i)) (u64 (t + j)) = of_comparison (i ?= j).
Proof.
  intros H. unfold timer_compare.
  assert (sub64 (u64 (t + i)) (u64 (t + j)) = u64 (i - j)) as ->.
  { unfold sub64, u64. rewrite <- Zminus_mod. f_equal. lia. }
  unfold s64, sext, u64. rewrite Zmod_mod. change (2 ^ (64 - 1)) with (2 ^ 63).
  destruct (Z.compare_spec i j) as [->|Hlt|Hgt]; simpl of_comparison.
  - by rewrite Z.sub_diag.
  - replace ((i - j) mod 2 ^ 64) with (i - j + 2 ^ 64) by (Z.div_mod_to_equations; lia).
    rewrite (proj2 (Z.eqb_neq _ _)), (proj2 (Z.ltb_ge _ (2 ^ 63))), (proj2 (Z.ltb_lt _ 0)) by lia. done.
  - rewrite (Z.mod_small (i - j)) by lia.
    rewrite (proj2 (Z.eqb_neq _ _)), (proj2 (Z.ltb_lt _ (2 ^ 63))), (proj2 (Z.ltb_ge _ 0)) by lia. done.
Qed.

Lemma timer_compare_correct_witness :
  timer_compare (u64 (2 ^ 64 - 3 + 1)) (u64 (2 ^ 64 - 3 + 5)) = of_comparison (1 ?= 5).
Proof. apply (timer_compare_correct (2 ^ 64 - 3) 1 5). reflexivity. Defined.

(** [lhs] comes before [rhs]. *)
Definition timer_before (lhs rhs : Z) : bool :=
  match timer_compare lhs rhs with CMP_LT => true | _ => false end.

Section timer_spec.
Context {plat : Platform}.

(** The clock as read next. *)
Definition mtime_now (s : State) : Z := u64 (dev_mtime (tick s)).

(** The deadline of the guest on the machine's clock. *)
Definition guest_deadline (g : GuestThreadContext) : Z :=
  add64 (timer_deadline g) (timer_adjustment g).

(** The enable bit of the timer interrupt. *)
Lemma mtie_set x : Z.testbit (u64 (Z.lor x MIE_MTIE)) 7 = true.
Proof.
  unfold u64, MIE_MTIE. rewrite Z.mod_pow2_bits_low, Z.lor_spec by lia. apply orb_true_r.
Qed.

Lemma timer_interrupt_sooner_run d s :
  timer_interrupt_sooner d s =
    if timer_before d (clint_mtimecmp s)
    then Ok true (set_csr (<[CSR_mie := u64 (Z.lor (default 0 (csr s !! CSR_mie)) MIE_MTIE)]> (csr s))
           (set_clint_mtimecmp (u64 d) s))
    else Ok false s.
Proof.
  unfold timer_interrupt_sooner, timer_before, bind, gets. by destruct (timer_compare d (clint_mtimecmp s)).
Qed.

(** The state with the comparator armed for [d] on behalf of [target]. *)
Definition armed (d : Z) (target : GuestThreadId) (s s' : State) : Prop :=
  clint_mtimecmp s' = d /\ interrupt_target s' = target /\
  Z.testbit (default 0 (csr s' !! CSR_mie)) 7 = true /\
  (forall n, n <> CSR_mie -> csr s' !! n = csr s !! n) /\
  mem s' = mem s /\ guest_threads s' = guest_threads s /\ host_thread s' = host_thread s.

Lemma timer_interrupt_at_armed Pn d s (Q : unit -> State -> Prop) :
  (forall s', armed (u64 d) (interrupt_target s) s s' -> Q tt s') -> wp Pn (timer_interrupt_at d) Q s.
Proof.
  intros HQ. unfold timer_interrupt_at. wp_steps. simpl. apply HQ.
  split; [done|]. split; [done|]. split.
  - simpl. rewrite lookup_insert_eq. apply mtie_set.
  - split; [|done]. intros n Hn. simpl. by rewrite lookup_insert_ne.
Qed.

Lemma timer_reschedule_armed g s (own := add64 (mtime_now s) (MILLISECONDS 200)) :
  serving g s ->
  wp no_panic timer_reschedule (fun _ s' =>
    if timer_scheduled g && timer_before (guest_deadline g) own
    then armed (guest_deadline g) (0, 0) s s' else armed own NO_TARGET s s') s.
Proof.
  intros (Hsc & Hcur & Hg).
  unfold timer_reschedule. wp_step. wp_step. wp_step. eapply wp_ok; [done|]. simpl.
  wp_step. apply timer_interrupt_at_armed. intros s1 (Ht & Hi & Hb & Hc & Hm & Hgs & Hh).
  assert (u64 own = own) as Hown by (apply u64_id, u64_range).
  fold (mtime_now s) in Ht. fold own in Ht. rewrite Hown in Ht.
  do 2 (change (seqZ 0 _) with [0]; cbn [for_each]; wp_step). apply wp_bind.
  eapply wp_ok; [apply get_guest_thread_ok; rewrite Hgs; exact Hg|]. cbv beta.
  destruct (timer_scheduled g); [|wp_steps; by split_and!]. cbn [andb].
  wp_step. unfold wp at 1. rewrite timer_interrupt_sooner_run, Ht. fold (guest_deadline g).
  destruct (timer_before _ _); wp_steps; simpl; split_and!; try done.
  - simpl. apply u64_id, u64_range.
  - simpl. rewrite lookup_insert_eq. apply mtie_set.
  - intros n Hn. simpl. rewrite lookup_insert_ne by done. by apply Hc.
Qed.

(** [C32] timer_reschedule arms the one hardware comparator for whichever comes
    first, the deadline the guest set on its virtual clock or the hypervisor's
    own period, remembers whom the next interrupt is for, and enables the
    timer interrupt; memory and the guest's record are untouched. *)
Theorem timer_reschedule_correct g s :
  serving g s ->
  exists s', timer_reschedule s = Ok tt s' /\
    let own := add64 (mtime_now s) (MILLISECONDS 200) in
    if timer_scheduled g && timer_before (guest_deadline g) own
    then armed (guest_deadline g) (0, 0) s s' else armed own NO_TARGET s s'.
Proof.
  intros Hs. pose proof (timer_reschedule_armed g s Hs) as H.
  apply wp_no_panic_iff in H as ([] & s' & Hrun & H). by exists s'.
Qed.

(** Work that leaves the guest's clock alone. *)
Definition keeps_clock (m : M unit) : Prop := forall g s s', serving g s -> m s = Ok tt s' ->
  exists g', serving g' s' /\ timer_adjustment g' = timer_adjustment g /\
    timer_suspended_at g' = timer_suspended_at g.

Lemma clock_arith (a b c adj : Z) :
  sub64 a (u64 (adj + (b - c + additional_cycles))) = u64 (sub64 c adj + (a - b) - additional_cycles).
Proof.
  unfold sub64, u64. rewrite Zminus_mod_idemp_r.
  rewrite <- (Z.add_sub_assoc ((c - adj) mod 2 ^ 64) (a - b) additional_cycles), Zplus_mod_idemp_l.
  f_equal. lia.
Qed.

(** [C34] The time spent in the hypervisor is hidden from the guest: after
    timer_suspend_virtual, any work [m] that leaves the guest's clock alone, and
    timer_resume_virtual, the guest's clock continues from its value at the
    suspension, less the 50 cycles charged for the exit itself. *)
Theorem virtual_clock_continues g s (m : M unit) s2 :
  serving g s -> keeps_clock m -> (timer_suspend_virtual ;; m) s = Ok tt s2 ->
  exists s3, timer_resume_virtual s2 = Ok tt s3 /\
    timer_get_time_virtual s3 =
      Ok (u64 (sub64 (mtime_now s) (timer_adjustment g) + (mtime_now s3 - mtime_now s2) - additional_cycles))
         (set_tick (S (tick s3)) s3).
Proof.
  intros Hs Hm Hrun.
  set (g1 := set_timer_suspended_at (mtime_now s) g).
  assert (serving g (set_tick (S (tick s)) s)) as Hs0 by exact Hs.
  assert (timer_suspend_virtual s = Ok tt (with_guest g1 (set_tick (S (tick s)) s))) as Hsus.
  { unfold timer_suspend_virtual. erewrite bind_ok by (by apply get_current_guest_serving).
    cbv beta iota. erewrite bind_ok by done. by rewrite (update_guest_serving g). }
  erewrite bind_ok in Hrun by exact Hsus.
  destruct (Hm _ _ _ (serving_with_guest _ g1 _ Hs0) Hrun) as (g2 & Hs2 & Hadj & Hat).
  set (s2' := set_tick (S (tick s2)) s2).
  assert (serving g2 s2') as Hs2' by exact Hs2.
  set (g3 := set_timer_adjustment (u64 (timer_adjustment g2 +
    (mtime_now s2 - timer_suspended_at g2 + additional_cycles))) g2).
  exists (with_guest g3 s2'). split.
  - unfold timer_resume_virtual. erewrite bind_ok by (by apply get_current_guest_serving).
    cbv beta iota. erewrite bind_ok by done. by rewrite (update_guest_serving g2).
  - unfold timer_get_time_virtual.
    erewrite bind_ok by (apply get_current_guest_serving, (serving_with_guest _ _ _ Hs2')).
    cbv beta iota. erewrite bind_ok by done. unfold ret. f_equal.
    change (u64 (dev_mtime (tick (with_guest g3 s2')))) with (mtime_now (with_guest g3 s2')).
    cbn [timer_adjustment g3 set_timer_adjustment]. rewrite Hadj, Hat. apply clock_arith.
Qed.

End timer_spec.

Lemma timer_reschedule_correct_witness :
  let s := with_guest (set_timer_scheduled true (set_timer_deadline 1500 GUEST_THREAD_CONTEXT_INIT)) sample_state in
  exists s', timer_reschedule s = Ok tt s' /\ armed 1500 (0, 0) s s'.
Proof.
  intros s. set (g := set_timer_scheduled true (set_timer_deadline 1500 GUEST_THREAD_CONTEXT_INIT)).
  destruct (timer_reschedule_correct g s) as (s' & Hrun & H); [by split_and!|].
  exists s'. split; [exact Hrun|].
  assert (timer_scheduled g && timer_before (guest_deadline g) (add64 (mtime_now s) (MILLISECONDS 200)) = true)
    as Hc by (vm_compute; reflexivity).
  cbv zeta in H. rewrite Hc in H. exact H.
Defined.

Lemma virtual_clock_continues_witness :
  exists s2 s3, (timer_suspend_virtual ;; ret tt) sample_state = Ok tt s2 /\
    timer_resume_virtual s2 = Ok tt s3 /\
    timer_get_time_virtual s3 = Ok 960 (set_tick (S (tick s3)) s3).
Proof.
  eexists. destruct (virtual_clock_continues GUEST_THREAD_CONTEXT_INIT sample_state (ret tt)
    (with_guest (set_timer_suspended_at 1000 GUEST_THREAD_CONTEXT_INIT) (set_tick 1 sample_state)))
    as (s3 & Hrun & Htime); [exact sample_serving| |reflexivity|].
  - intros g s s' Hs [= <-]. exists g. by split_and!.
  - exists s3. split; [reflexivity|]. split; [exact Hrun|]. rewrite Htime.
    vm_compute in Hrun. injection Hrun as <-. reflexivity.
Defined.

(** The clock read in one trap and then in the next. *)
Definition clock_of_two_traps : M (Z * Z) :=
  timer_suspend_virtual ;;
  let! v1 := timer_get_time_virtual in
  timer_resume_virtual ;;
  timer_reschedule ;;
  timer_suspend_virtual ;;
  let! v2 := timer_get_time_virtual in
  timer_resume_virtual ;;
  ret (v1, v2).

(** The guest's clock is not monotone: a load of mtime is emulated with the
    adjustment of before the trap, and the return from the trap moves the clock
    back by more than the time that passes until the next load, so that on a
    fast guest a later load reads an earlier time. *)
Theorem virtual_clock_runs_backwards :
  exists s v1 v2 s', serving GUEST_THREAD_CONTEXT_INIT s /\
    clock_of_two_traps s = Ok (v1, v2) s' /\ v2 < v1.
Proof.
  exists sample_state. destruct (clock_of_two_traps sample_state) as [[v1 v2] s'| | |] eqn:E;
    vm_compute in E; [|discriminate..].
  injection E as <- <- <-. do 3 eexists. split; [exact sample_serving|]. split; [reflexivity|lia].
Qed.
