(* ===== verification/PrivilegeTheorems.v ===== *)
(** The correctness of guestprivilege.c and of the delivery of timer interrupts:
    what the guest finds when it changes mode. *)
From S2P Require Import Prelude Machine Sample Wp Print Contexts Pte PageAlloc Vmem Tables.
From S2P Require Import VmemSpec ShadowSpec FlushSpec WalkSpec Invariant SampleTables.
From S2P Require Import GuestPrivilege PrivilegeSpec Timer.

Section theorems.
Context {plat : Platform} {plat_ok : PlatformOk}.

(** [C20] An exception taken to guest-machine mode: with the guest in user mode,
    guest_exception saves the program counter, the cause and the trap value in
    the guest's CSRs, sets MDT, leaves the shadow table for the machine table
    (with the translation caches flushed) and resumes at the guest's trap
    vector; memory is untouched and the invariant of the hypervisor holds.  In
    machine mode it panics. *)
Theorem guest_exception_correct g G s mcause :
  trap_inv g G s ->
  if user_mode g then
    exists s', guest_exception mcause s = Ok tt s' /\
      trap_inv (exception_record mcause (default 0 (csr s !! CSR_mepc)) (default 0 (csr s !! CSR_mtval)) g) G s' /\
      default 0 (csr s' !! CSR_mepc) = u64 (g_mtvec (gcsr g)) /\
      default 0 (csr s' !! CSR_satp) = u64 (MAKE_SATP root) /\ mem s' = mem s
  else exists s', guest_exception mcause s = Panic s'.
Proof.
  intros Hinv. destruct (user_mode g) eqn:Hu.
  - pose proof (guest_exception_spec g G s mcause Hinv Hu) as H.
    apply wp_no_panic_iff in H as ([] & s' & Hrun & Hinv' & Hst & _ & Hpc). exists s'.
    split; [exact Hrun|]. split; [exact Hinv'|]. split; [exact Hpc|]. split; [|apply Hst].
    exact (hi_satp _ _ _ Hinv').
  - apply wp_panics. unfold guest_exception. wp_step.
    apply (wp_current_guest _ g); [by eapply hyp_inv_serving|]. cbv beta iota. rewrite Hu.
    apply wp_panic_msg_any. by eapply hyp_inv_mscratch.
Qed.

(** [C21] A deferred exception is delivered exactly when the guest has enabled
    interrupts and is not handling a trap already, at most once, and otherwise
    nothing changes; the delivery never finds the guest in machine mode, so it
    never panics. *)
Theorem deferred_exception_delivered g G s :
  trap_inv g G s ->
  (let deliver := g_mstatus_mie (gcsr g) && negb (g_mstatus_mdt (gcsr g)) && deferred_exception g in
   exists s', guest_check_deferred s = Ok deliver s' /\
     if deliver then
       user_mode g = true /\
       trap_inv (exception_record (deferred_mcause g) (default 0 (csr s !! CSR_mepc))
         (default 0 (csr s !! CSR_mtval)) (set_deferred_exception false g)) G s' /\
       default 0 (csr s' !! CSR_mepc) = u64 (g_mtvec (gcsr g)) /\
       guest_check_deferred s' = Ok false s'
     else s' = s).
Proof.
  intros Hinv. cbv zeta. pose proof (guest_check_deferred_spec g G s Hinv) as H.
  apply wp_no_panic_iff in H as (b & s' & Hrun & -> & _ & H). exists s'. split; [exact Hrun|].
  destruct (_ && _); [|exact H]. destruct H as (Hu & Hinv' & Hpc & _).
  split; [done|]. split; [exact Hinv'|]. split; [exact Hpc|].
  unfold guest_check_deferred.
  erewrite bind_ok by (apply get_current_guest_serving; exact (hyp_inv_serving _ _ _ Hinv')).
  cbv beta iota. cbn [gcsr exception_record g_mstatus_mdt]. by rewrite orb_true_r.
Qed.

(** [C19] A return to guest-user mode: from guest-machine mode guest_mret resumes
    at the guest's mepc, or in its trap handler when an exception was waiting,
    whatever mode its MPP asks for; with Sv39 selected the hart translates
    through the shadow table, allocated on the first return and empty then and
    kept afterwards, and through the machine table with paging off.  It panics
    in exactly two cases, when the guest is in user mode already and when it
    selected another translation mode: running out of pages is impossible at
    that point. *)
Theorem guest_mret_correct g G s :
  trap_inv g G s ->
  (user_mode g = false -> mode_supported g ->
   exists s' sp G', guest_mret s = Ok tt s' /\ guest_mem_same s s' /\ shadow_root g sp (mem s) (mem s') /\
     let mepc := u64 (g_mepc (gcsr g)) in
     trap_inv
       (if pending g
        then exception_record (deferred_mcause g) mepc (default 0 (csr s !! CSR_mtval))
               (set_deferred_exception false (user_record sp g))
        else user_record sp g) G' s' /\
     default 0 (csr s' !! CSR_mepc) = if pending g then u64 (g_mtvec (gcsr g)) else mepc) /\
  (user_mode g = true \/ ~ mode_supported g -> exists s', guest_mret s = Panic s').
Proof.
  intros Hinv. destruct (user_mode g) eqn:Hu.
  { split; [done|]. intros _. apply wp_panics. unfold guest_mret. wp_step.
    apply (wp_current_guest _ g); [by eapply hyp_inv_serving|]. cbv beta iota. rewrite Hu.
    apply wp_panic_msg_any. by eapply hyp_inv_mscratch. }
  pose proof (guest_mret_spec g G s Hinv Hu) as H. split; [intros _ Hm|intros [?|Hm]; [done|]].
  - destruct (wp_run _ _ _ _ H) as ([] & s' & Hrun & _ & Hmem & sp & G' & Hpost).
    { intros s' Hn. exact (Hn Hm). }
    exists s', sp, G'. split; [exact Hrun|]. split; [exact Hmem|exact Hpost].
  - apply wp_panics. eapply wp_mono; [exact H| |done]. intros [] s' [Hm' _]. exact (Hm Hm').
Qed.

Lemma ok_exists {B} (m : M unit) s (Q : B -> State -> Prop) :
  wp no_panic m (fun _ s' => exists b, Q b s') s -> exists b s', m s = Ok tt s' /\ Q b s'.
Proof. intros H. apply wp_no_panic_iff in H as ([] & s' & Hrun & b & H). by exists b, s'. Qed.

(** [C22] A timer interrupt that is the guest's own: its deadline is taken off
    the schedule, and the interrupt either enters the guest's trap handler at
    once, with the program counter at its trap vector and the interrupted one, the
    cause and the trap value in its CSRs, or waits as the deferred exception,
    the program counter unchanged; with one waiting already it is merged into it.
    Whether the guest has enabled the timer interrupt in mie is not consulted. *)
Theorem timer_interrupt_delivered g G s :
  trap_inv g G s -> interrupt_target s = (0, 0) ->
  (let cause := Z.lor MCAUSE_ASYNC_BIT MCAUSE_ASYNC_TIMER in
   let pc := default 0 (csr s !! CSR_mepc) in
   let g1 := set_timer_scheduled false g in
   let enabled := g_mstatus_mie (gcsr g) && negb (g_mstatus_mdt (gcsr g)) in
   exists g' s', timer_on_interrupt s = Ok tt s' /\ trap_inv g' G s' /\ mem s' = mem s /\
     g' = (if deferred_exception g then g1
           else if enabled then
             exception_record cause pc (default 0 (csr s !! CSR_mtval)) (set_deferred_mcause cause g1)
           else set_deferred_mcause cause (set_deferred_exception true g1)) /\
     default 0 (csr s' !! CSR_mepc) =
       if negb (deferred_exception g) && enabled then u64 (g_mtvec (gcsr g)) else pc).
Proof.
  intros Hinv Ht. cbv zeta. set (cause := Z.lor _ _). set (g1 := set_timer_scheduled false g).
  set (pc := default 0 (csr s !! CSR_mepc)).
  pose proof (hyp_inv_serving _ _ _ Hinv) as Hs. pose proof Hs as (Hsc & Hcur & Hg).
  apply (ok_exists timer_on_interrupt s).
  unfold timer_on_interrupt. wp_step. apply wp_gets. cbv beta. rewrite Ht. cbn [fst snd].
  change (0 <? 0) with false. cbv iota. wp_step. eapply wp_ok; [by apply get_host_thread_ok|].
  rewrite Hcur. cbn [fst snd]. change (bool_decide (0 <> 0)) with false. cbn [orb].
  wp_step. apply (wp_update_guest _ g); [done|]. fold g1. intros Hs1.
  assert (trap_inv g1 G (with_guest g1 s)) as Hinv1 by (by apply (hyp_inv_with_guest g)).
  fold cause. unfold guest_defer_exception. wp_step. apply (wp_current_guest _ g1); [done|]. cbv beta iota.
  change (deferred_exception g1) with (deferred_exception g).
  destruct (deferred_exception g) eqn:Ed; [apply wp_ret; by exists g1|].
  wp_step. apply (wp_update_guest _ g1); [done|]. intros Hs2.
  wp_step. eapply (wp_update_guest _); [exact Hs2|]. rewrite !with_guest_twice. intros Hs3.
  set (g3 := set_deferred_mcause cause (set_deferred_exception true g1)) in *.
  assert (trap_inv g3 G (with_guest g3 s)) as Hinv3.
  { rewrite <- (with_guest_twice g3 g1 s). by apply (hyp_inv_with_guest g1). }
  wp_step. eapply wp_post; [by apply (guest_check_deferred_spec _ G _ Hinv3)|].
  intros b s' (Eb & [Hm _] & Hb). apply wp_ret. cbn in Eb. rewrite andb_true_r in Eb. rewrite <- Eb. cbn [negb andb].
  destruct b; [|subst s'; by exists g3]. destruct Hb as (_ & Hinv' & Hpc & _).
  eexists. split; [exact Hinv'|]. split; [exact Hm|]. split; [|exact Hpc].
  unfold exception_record, g3, g1. simpl. by rewrite Ed.
Qed.

End theorems.

(** ** Witnesses *)

Lemma guest_exception_correct_witness :
  exists s', guest_exception 8 sample_user_state = Ok tt s' /\
    trap_inv (exception_record 8 0 0 sample_user) sample_roles s' /\
    default 0 (csr s' !! CSR_mepc) = 0x80000400 /\
    default 0 (csr s' !! CSR_satp) = u64 (MAKE_SATP root) /\ mem s' = sample_mem.
Proof. exact (guest_exception_correct sample_user sample_roles sample_user_state 8 sample_user_inv). Defined.

(** The guest of SampleTables with an exception waiting. *)
Definition sample_waiting : GuestThreadContext := set_deferred_mcause 8 (set_deferred_exception true sample_user).

Lemma sample_waiting_inv : trap_inv sample_waiting sample_roles (with_guest sample_waiting sample_user_state).
Proof. apply (hyp_inv_with_guest sample_user); [exact sample_user_inv|done]. Defined.

Lemma deferred_exception_delivered_witness :
  exists s', guest_check_deferred (with_guest sample_waiting sample_user_state) = Ok true s' /\
    user_mode sample_waiting = true /\
    trap_inv (exception_record 8 0 0 (set_deferred_exception false sample_waiting)) sample_roles s' /\
    default 0 (csr s' !! CSR_mepc) = 0x80000400 /\ guest_check_deferred s' = Ok false s'.
Proof. exact (deferred_exception_delivered _ _ _ sample_waiting_inv). Defined.

Lemma guest_mret_correct_witness :
  (exists s' sp G', guest_mret sample_machine_state = Ok tt s' /\ guest_mem_same sample_machine_state s' /\
     shadow_root GUEST_THREAD_CONTEXT_INIT sp (mem sample_machine_state) (mem s') /\
     trap_inv (user_record sp GUEST_THREAD_CONTEXT_INIT) G' s' /\ default 0 (csr s' !! CSR_mepc) = 0) /\
  exists s', guest_mret sample_user_state = Panic s'.
Proof.
  split.
  - destruct (guest_mret_correct _ _ _ sample_machine_inv) as [H _].
    exact (H eq_refl (or_introl eq_refl)).
  - destruct (guest_mret_correct _ _ _ sample_user_inv) as [_ H]. exact (H (or_introl eq_refl)).
Defined.

Lemma timer_interrupt_delivered_witness :
  exists g' s', timer_on_interrupt (set_interrupt_target (0, 0) sample_user_state) = Ok tt s' /\
    trap_inv g' sample_roles s' /\ mem s' = sample_mem /\
    g' = exception_record (Z.lor MCAUSE_ASYNC_BIT MCAUSE_ASYNC_TIMER) 0 0
      (set_deferred_mcause (Z.lor MCAUSE_ASYNC_BIT MCAUSE_ASYNC_TIMER) (set_timer_scheduled false sample_user)) /\
    default 0 (csr s' !! CSR_mepc) = 0x80000400.
Proof.
  apply (timer_interrupt_delivered sample_user sample_roles (set_interrupt_target (0, 0) sample_user_state));
    [|reflexivity].
  apply (hyp_inv_same sample_user sample_user sample_roles sample_user_state); try reflexivity.
  - exact sample_user_inv.
  - done.
  - done.
  - exact (hi_wf _ _ _ sample_user_inv).
  - done.
Defined.
