(* ===== verification/VirtMmDev.v ===== *)
(** virtmmdev.c: the memory-mapped devices emulated for the guest. *)
From S2P Require Import Prelude Machine Sample Wp Print Contexts Instructions GuestPrivilege.
From S2P Require Import Timer.

Inductive VirtMMAccessResult := VMMAR_SUCCESS | VMMAR_UNKNOWN_ADDR | VMMAR_BAD_ACCESS.

#[export] Instance VirtMMAccessResult_eq_dec : EqDecision VirtMMAccessResult.
Proof. solve_decision. Defined.

(** The number of bits an access of a width moves. *)
Definition width_bits (w : MemoryAccessWidth) : Z :=
  match w with MAW_8BIT => 8 | MAW_16BIT => 16 | MAW_32BIT => 32 | MAW_64BIT => 64 end.

Section virtmmdev.
Context {plat : Platform}.

(** [*(uintN_t* ) reg_ptr = v]: the low bits of a saved register. *)
Definition store_reg (w : MemoryAccessWidth) (reg v : Z) : M unit :=
  let! h := get_host_thread in
  let old := x_plus_one (active_regs h) reg in
  let k := width_bits w in
  put_host_thread (set_active_regs
    (set_x_plus_one (active_regs h) reg (old - old mod 2 ^ k + v mod 2 ^ k)) h).

(** [reg_ptr ? *(uintN_t* ) reg_ptr : 0] *)
Definition load_reg (w : MemoryAccessWidth) (reg : option Z) : M Z :=
  match reg with
  | None => ret 0
  | Some r =>
      let! h := get_host_thread in
      ret (x_plus_one (active_regs h) r mod 2 ^ width_bits w)
  end.

(** [if (reg_ptr) { ... }] *)
Definition if_reg (reg : option Z) (f : Z -> M unit) : M unit :=
  match reg with None => ret tt | Some r => f r end.

(** [if (load_width != W) return VMMAR_BAD_ACCESS; ...; return VMMAR_SUCCESS;] *)
Definition with_width (actual expected : MemoryAccessWidth) (m : M unit) : M VirtMMAccessResult :=
  if bool_decide (actual <> expected) then ret VMMAR_BAD_ACCESS
  else m ;; ret VMMAR_SUCCESS.

(** [reg_ptr] is an index into [x_plus_one]. *)
Definition virtual_mmdev_load (virt_addr : Z) (reg_ptr : option Z) (load_width : MemoryAccessWidth)
    : M VirtMMAccessResult :=
  if virt_addr =? 0x02004000 then
    with_width load_width MAW_64BIT (if_reg reg_ptr (fun r =>
      let! (_, guest_thr) := get_current_guest in
      store_reg MAW_64BIT r (timer_deadline guest_thr)))
  else if virt_addr =? 0x0200BFF8 then
    with_width load_width MAW_64BIT (if_reg reg_ptr (fun r =>
      let! t := timer_get_time_virtual in
      store_reg MAW_64BIT r t))
  else if virt_addr =? 0x10000001 then
    with_width load_width MAW_8BIT (if_reg reg_ptr (fun r => store_reg MAW_8BIT r 0))
  else if virt_addr =? 0x0C002000 then
    with_width load_width MAW_32BIT (if_reg reg_ptr (fun r => store_reg MAW_32BIT r 0))
  else if virt_addr =? 0x10000005 then
    with_width load_width MAW_8BIT (if_reg reg_ptr (fun r =>
      let! actual := read_uart_lsr in
      store_reg MAW_8BIT r (Z.lor (Z.lor UART_LSR_THRE UART_LSR_TEMT) (Z.land actual UART_LSR_DR))))
  else if virt_addr =? 0x10000000 then
    with_width load_width MAW_8BIT (
      let! result := read_uart_rbr in
      if_reg reg_ptr (fun r => store_reg MAW_8BIT r result))
  else ret VMMAR_UNKNOWN_ADDR.

Definition virtual_mmdev_store (virt_addr : Z) (reg_ptr : option Z)
    (store_width : MemoryAccessWidth) : M VirtMMAccessResult :=
  if virt_addr =? 0x02004000 then
    with_width store_width MAW_64BIT (
      let! value := load_reg MAW_64BIT reg_ptr in
      let! (id, _) := get_current_guest in
      update_guest id (set_timer_deadline value) ;;
      update_guest id (set_timer_scheduled true))
  else if virt_addr =? 0x0C000028 then
    with_width store_width MAW_32BIT (let! _ := load_reg MAW_32BIT reg_ptr in ret tt)
  else if virt_addr =? 0x0C002000 then
    with_width store_width MAW_32BIT (let! _ := load_reg MAW_32BIT reg_ptr in ret tt)
  else if virt_addr =? 0x0C200000 then
    with_width store_width MAW_32BIT (let! _ := load_reg MAW_32BIT reg_ptr in ret tt)
  else if virt_addr =? 0x10000001 then
    with_width store_width MAW_8BIT (let! _ := load_reg MAW_8BIT reg_ptr in ret tt)
  else if virt_addr =? 0x10000000 then
    with_width store_width MAW_8BIT (
      let! value := load_reg MAW_8BIT reg_ptr in
      print_string (Some (esc +:+ "[0;92m")) ;;
      print_string_slice [Ascii.ascii_of_N (Z.to_N value)] ;;
      print_string (Some (esc +:+ "[0m")))
  else ret VMMAR_UNKNOWN_ADDR.

End virtmmdev.

(** ** Reference: the device map of the guest *)

(** The registers that can be loaded and stored, with their widths. *)
Definition load_map (addr : Z) : option MemoryAccessWidth :=
  if addr =? 0x02004000 then Some MAW_64BIT        (* clint.harts[0].mtimecmp *)
  else if addr =? 0x0200BFF8 then Some MAW_64BIT   (* clint.mtime *)
  else if addr =? 0x10000001 then Some MAW_8BIT    (* uart.ier *)
  else if addr =? 0x0C002000 then Some MAW_32BIT   (* plic.context_source_enable_bits *)
  else if addr =? 0x10000005 then Some MAW_8BIT    (* uart.lsr *)
  else if addr =? 0x10000000 then Some MAW_8BIT    (* uart.rbr *)
  else None.
Definition store_map (addr : Z) : option MemoryAccessWidth :=
  if addr =? 0x02004000 then Some MAW_64BIT        (* clint.harts[0].mtimecmp *)
  else if addr =? 0x0C000028 then Some MAW_32BIT   (* plic.source_priorities[10] *)
  else if addr =? 0x0C002000 then Some MAW_32BIT   (* plic.context_source_enable_bits *)
  else if addr =? 0x0C200000 then Some MAW_32BIT   (* plic.contexts[0].priority_threshold *)
  else if addr =? 0x10000001 then Some MAW_8BIT    (* uart.ier *)
  else if addr =? 0x10000000 then Some MAW_8BIT    (* uart.thr *)
  else None.

Definition access_result (entry : option MemoryAccessWidth) (w : MemoryAccessWidth) : VirtMMAccessResult :=
  match entry with
  | None => VMMAR_UNKNOWN_ADDR
  | Some w' => if bool_decide (w <> w') then VMMAR_BAD_ACCESS else VMMAR_SUCCESS
  end.

Section virtmmdev_spec.
Context {plat : Platform}.

(** The state with the low bits of a register replaced. *)
Definition low_bits (w : MemoryAccessWidth) (old v : Z) : Z :=
  old - old mod 2 ^ width_bits w + v mod 2 ^ width_bits w.
Definition set_reg (r v : Z) (s : State) : State :=
  set_host_thread (set_active_regs (set_x_plus_one (active_regs (host_thread s)) r v) (host_thread s)) s.
Definition set_reg_low (w : MemoryAccessWidth) (reg : option Z) (v : Z) (s : State) : State :=
  match reg with
  | None => s
  | Some r => set_reg r (low_bits w (x_plus_one (active_regs (host_thread s)) r) v) s
  end.

(** What a register of [load_map] reads as. *)
Definition device_value (g : GuestThreadContext) (addr : Z) (s : State) : Z :=
  if addr =? 0x02004000 then timer_deadline g
  else if addr =? 0x0200BFF8 then sub64 (mtime_now s) (timer_adjustment g)
  else if addr =? 0x10000005 then 96 + dev_uart_lsr (tick s) mod 2
  else if addr =? 0x10000000 then u8 (dev_uart_rbr (tick s))
  else 0.

(** The destination receives the value in its low bits; at most the count of
    device reads differs otherwise. *)
Definition load_effect (g : GuestThreadContext) (addr : Z) (reg : option Z) (w : MemoryAccessWidth)
    (s s' : State) : Prop :=
  exists t, s' = set_tick t (set_reg_low w reg (device_value g addr s) s).

Lemma store_reg_run g s w r v : serving g s ->
  store_reg w r v s = Ok tt (set_reg_low w (Some r) v s).
Proof.
  intros (Hsc & _). unfold store_reg. erewrite bind_ok by (by apply get_host_thread_ok).
  by rewrite put_host_thread_ok.
Qed.

(** A guarded access whose body may change what [R] allows. *)
Lemma with_width_spec (R : State -> State -> Prop) s w w' m :
  (w = w' -> wp no_panic m (fun _ => R s) s) ->
  wp no_panic (with_width w w' m) (fun r s' =>
    r = access_result (Some w') w /\ (if decide (r = VMMAR_SUCCESS) then R s s' else s' = s)) s.
Proof.
  intros Hm. unfold with_width, access_result. case_bool_decide as E; [by apply wp_ret|].
  assert (w = w') as Hw by (destruct w, w'; done || (exfalso; by apply E)).
  wp_step. eapply wp_post; [exact (Hm Hw)|]. intros [] s' HR. apply wp_ret. split; [done|exact HR].
Qed.

(** The store into the destination, at once or after the read of a device. *)
Lemma wp_store_reg g addr s w r v : serving g s -> v = device_value g addr s ->
  wp no_panic (store_reg w r v) (fun _ => load_effect g addr (Some r) w s) s.
Proof.
  intros Hs ->. eapply wp_ok; [by apply (store_reg_run g)|]. exists (tick s). by destruct s.
Qed.

Lemma wp_store_reg_tick g addr s w r v : serving g s -> v = device_value g addr s ->
  wp no_panic (store_reg w r v) (fun _ => load_effect g addr (Some r) w s) (set_tick (S (tick s)) s).
Proof.
  intros Hs ->. assert (serving g (set_tick (S (tick s)) s)) as Hs' by exact Hs.
  eapply wp_ok; [by apply (store_reg_run g)|]. exists (S (tick s)). by destruct s.
Qed.

Lemma if_reg_spec g addr s reg w (f : Z -> M unit) :
  (forall r, reg = Some r -> wp no_panic (f r) (fun _ => load_effect g addr (Some r) w s) s) ->
  wp no_panic (if_reg reg f) (fun _ => load_effect g addr reg w s) s.
Proof.
  intros Hf. destruct reg as [r|]; [by apply Hf|]. apply wp_ret. exists (tick s). by destruct s.
Qed.

Lemma lsr_value x : Z.lor (Z.lor UART_LSR_THRE UART_LSR_TEMT) (Z.land (u8 x) UART_LSR_DR) = 96 + x mod 2.
Proof.
  change (Z.lor UART_LSR_THRE UART_LSR_TEMT) with (3 * 2 ^ 5). change UART_LSR_DR with (2 ^ 1 - 1).
  rewrite land_low by done. change (2 ^ 1) with 2. unfold u8.
  assert ((x mod 2 ^ 8) mod 2 = x mod 2) as ->.
  { change (2 ^ 8) with 256. Z.div_mod_to_equations. lia. }
  rewrite lor_disjoint_add; [done|done|]. pose proof (Z.mod_pos_bound x 2). lia.
Qed.

Lemma wp_virtual_mmdev_load g s addr reg w :
  serving g s -> wp no_panic (virtual_mmdev_load addr reg w) (fun r s' =>
    r = access_result (load_map addr) w /\
    (if decide (r = VMMAR_SUCCESS) then load_effect g addr reg w s s' else s' = s)) s.
Proof.
  intros Hs. unfold virtual_mmdev_load, load_map. repeat case_match; try (by apply wp_ret).
  all: try match goal with H : (?a =? _) = true |- _ => apply Z.eqb_eq in H; subst a end.
  all: apply with_width_spec; intros ->; try (apply if_reg_spec; intros r ->).
  - wp_step. apply (wp_current_guest _ g); [done|]. by apply (wp_store_reg g).
  - wp_step. unfold timer_get_time_virtual. wp_step. apply (wp_current_guest _ g); [done|].
    wp_step. eapply wp_ok; [done|]. apply wp_ret. by apply (wp_store_reg_tick g).
  - by apply (wp_store_reg g).
  - by apply (wp_store_reg g).
  - wp_step. eapply wp_ok; [done|]. apply (wp_store_reg_tick g); [done|]. apply lsr_value.
  - wp_step. eapply wp_ok; [done|]. destruct reg as [r|]; [by apply (wp_store_reg_tick g)|].
    apply wp_ret. exists (S (tick s)). by destruct s.
Qed.

(** [C30] Loads from the guest's devices: an access succeeds exactly at a
    register of [load_map] and with the register's own width; the destination
    then receives the value of the register ([device_value]: the deadline, the
    virtual clock, the line status with an always empty transmitter, the byte
    received) in as many of its low bits and nothing else changes; any other
    access is reported as an unknown address or a bad width and changes
    nothing. *)
Theorem virtual_mmdev_load_map g s addr reg w :
  serving g s ->
  exists s', virtual_mmdev_load addr reg w s = Ok (access_result (load_map addr) w) s' /\
    (if decide (access_result (load_map addr) w = VMMAR_SUCCESS)
     then load_effect g addr reg w s s' else s' = s).
Proof.
  intros Hs. pose proof (wp_virtual_mmdev_load g s addr reg w Hs) as H.
  apply wp_no_panic_iff in H as (r & s' & Hrun & -> & H). by exists s'.
Qed.

Lemma load_reg_run g s w r : serving g s ->
  load_reg w (Some r) s = Ok (x_plus_one (active_regs (host_thread s)) r mod 2 ^ width_bits w) s.
Proof.
  intros (Hsc & _). unfold load_reg. by erewrite bind_ok by (by apply get_host_thread_ok).
Qed.

(** The value of the source operand of a store. *)
Definition reg_value (w : MemoryAccessWidth) (reg : option Z) (s : State) : Z :=
  match reg with
  | Some r => x_plus_one (active_regs (host_thread s)) r mod 2 ^ width_bits w
  | None => 0
  end.

Lemma wp_load_reg Pn g s w reg (Q : Z -> State -> Prop) :
  serving g s -> Q (reg_value w reg s) s -> wp Pn (load_reg w reg) Q s.
Proof.
  intros Hs HQ. destruct reg as [r|]; [|by apply wp_ret]. eapply wp_ok; [by eapply load_reg_run|done].
Qed.

Context {plat_ok : PlatformOk}.

(** What a store to a register does. *)
Definition store_effect (g : GuestThreadContext) (addr : Z) (reg : option Z) (s s' : State) : Prop :=
  if addr =? 0x02004000 then
    s' = with_guest (set_timer_scheduled true (set_timer_deadline (reg_value MAW_64BIT reg s) g)) s
  else if addr =? 0x10000000 then
    exists t, s' = with_io t (console s +:+ esc +:+ "[0;92m"
      +:+ String (Ascii.ascii_of_N (Z.to_N (reg_value MAW_8BIT reg s))) (esc +:+ "[0m")) s
  else s' = s.

(** A write to the UART, coloured. *)
Lemma coloured_write v s : exists t,
  (print_string (Some (esc +:+ "[0;92m")) ;;
   print_string_slice [Ascii.ascii_of_N (Z.to_N v)] ;;
   print_string (Some (esc +:+ "[0m"))) s
  = Ok tt (with_io t (console s +:+ esc +:+ "[0;92m"
      +:+ String (Ascii.ascii_of_N (Z.to_N v)) (esc +:+ "[0m")) s).
Proof.
  destruct (uart_write_blocking_ok (String.list_ascii_of_string (esc +:+ "[0;92m")) s) as [t1 H1].
  erewrite bind_ok by exact H1.
  destruct (uart_write_blocking_ok [Ascii.ascii_of_N (Z.to_N v)]
    (with_io t1 (console s +:+ esc +:+ "[0;92m") s)) as [t2 H2].
  erewrite bind_ok by exact H2.
  match goal with |- context [print_string _ ?s2] =>
    destruct (uart_write_blocking_ok (String.list_ascii_of_string (esc +:+ "[0m")) s2) as [t3 H3] end.
  exists t3. etrans; [exact H3|]. destruct s. unfold with_io. simpl.
  by rewrite !string_app_assoc.
Qed.

Lemma wp_virtual_mmdev_store g s addr reg w :
  serving g s -> wp no_panic (virtual_mmdev_store addr reg w) (fun r s' =>
    r = access_result (store_map addr) w /\
    (if decide (r = VMMAR_SUCCESS) then store_effect g addr reg s s' else s' = s)) s.
Proof.
  intros Hs. unfold virtual_mmdev_store, store_map. repeat case_match; try (by apply wp_ret).
  all: apply (with_width_spec (store_effect g addr reg)); intros ->; wp_step; apply (wp_load_reg _ g); try done.
  all: unfold store_effect; repeat case_match; try lia; try (by apply wp_ret).
  - wp_step. apply (wp_current_guest _ g); [done|]. wp_step.
    apply (wp_update_guest _ g); [done|]. intros Hs1. eapply (wp_update_guest _); [exact Hs1|].
    intros _. by rewrite with_guest_twice.
  - destruct (coloured_write (reg_value MAW_8BIT reg s) s) as [t Ht]. eapply wp_ok; [exact Ht|].
    by exists t.
Qed.

(** [C31] Stores to the guest's devices: an access succeeds exactly at a register
    of [store_map] with the register's width; a store to mtimecmp sets the
    deadline and arms the guest's timer, a store to the UART sends the one byte
    between the escape sequences that colour it, the others do nothing; an
    access that fails changes nothing. *)
Theorem virtual_mmdev_store_map g s addr reg w :
  serving g s ->
  exists s', virtual_mmdev_store addr reg w s = Ok (access_result (store_map addr) w) s' /\
    (if decide (access_result (store_map addr) w = VMMAR_SUCCESS)
     then store_effect g addr reg s s' else s' = s).
Proof.
  intros Hs. pose proof (wp_virtual_mmdev_store g s addr reg w Hs) as H.
  apply wp_no_panic_iff in H as (r & s' & Hrun & -> & H). by exists s'.
Qed.

(** The guest's timer register: after a doubleword store to mtimecmp, a
    doubleword load returns the value stored, into any register. *)
Theorem mtimecmp_store_load g s r r' :
  serving g s -> regs_wf (active_regs (host_thread s)) -> 0 <= r' < 31 ->
  exists s1 s2,
    virtual_mmdev_store 0x02004000 (Some r) MAW_64BIT s = Ok VMMAR_SUCCESS s1 /\
    virtual_mmdev_load 0x02004000 (Some r') MAW_64BIT s1 = Ok VMMAR_SUCCESS s2 /\
    x_plus_one (active_regs (host_thread s2)) r' = x_plus_one (active_regs (host_thread s)) r.
Proof.
  intros Hs Hwf Hr'. pose proof (x_plus_one_range _ r Hwf) as Hv.
  pose proof (x_plus_one_range _ r' Hwf) as Hold. set (v := x_plus_one (active_regs (host_thread s)) r) in *.
  set (g1 := set_timer_scheduled true (set_timer_deadline v g)). set (s1 := with_guest g1 s).
  assert (serving g1 s1) as Hs1 by (by eapply serving_with_guest).
  exists s1. eexists. split; [|split].
  - unfold virtual_mmdev_store, with_width. cbn [Z.eqb Pos.eqb]. change (bool_decide _) with false.
    cbv iota. rewrite (bind_ok _ _ s tt s1); [done|].
    erewrite bind_ok by (by eapply load_reg_run). fold v.
    rewrite (Z.mod_small v (2 ^ width_bits MAW_64BIT)) by exact Hv.
    erewrite bind_ok by (by apply get_current_guest_serving). cbv beta iota.
    erewrite bind_ok by (by apply (update_guest_serving g)).
    rewrite (update_guest_serving (set_timer_deadline v g)) by (by eapply serving_with_guest).
    by rewrite with_guest_twice.
  - unfold virtual_mmdev_load, with_width, if_reg. cbn [Z.eqb Pos.eqb]. change (bool_decide _) with false.
    cbv iota. etrans; [eapply (bind_ok _ _ s1 tt)|done].
    erewrite bind_ok by (by apply get_current_guest_serving). cbv beta iota.
    unfold store_reg. erewrite bind_ok by (apply get_host_thread_ok, Hs1).
    by rewrite put_host_thread_ok by apply Hs1.
  - change (host_thread s1) with (host_thread s).
    cbn [host_thread set_host_thread active_regs set_active_regs]. rewrite x_plus_one_set_same by (destruct Hwf as [-> _]; lia).

    change (timer_deadline g1) with v. rewrite (Z.mod_small v (2 ^ width_bits MAW_64BIT)) by exact Hv.
    change (2 ^ width_bits MAW_64BIT) with (2 ^ 64). rewrite (Z.mod_small _ (2 ^ 64)) by exact Hold. lia.
Qed.

End virtmmdev_spec.

Lemma virtual_mmdev_load_map_witness :
  exists s', virtual_mmdev_load 0x10000005 (Some 9) MAW_8BIT sample_state = Ok VMMAR_SUCCESS s' /\
    load_effect GUEST_THREAD_CONTEXT_INIT 0x10000005 (Some 9) MAW_8BIT sample_state s'.
Proof. exact (virtual_mmdev_load_map GUEST_THREAD_CONTEXT_INIT sample_state 0x10000005 (Some 9) MAW_8BIT sample_serving). Defined.

Lemma virtual_mmdev_store_map_witness :
  exists s', virtual_mmdev_store 0x02004000 None MAW_64BIT sample_state = Ok VMMAR_SUCCESS s' /\
    store_effect GUEST_THREAD_CONTEXT_INIT 0x02004000 None sample_state s'.
Proof.
  exact (virtual_mmdev_store_map GUEST_THREAD_CONTEXT_INIT sample_state 0x02004000 None MAW_64BIT sample_serving).
Defined.

Lemma mtimecmp_store_load_witness :
  exists s1 s2,
    virtual_mmdev_store 0x02004000 (Some 9) MAW_64BIT sample_state = Ok VMMAR_SUCCESS s1 /\
    virtual_mmdev_load 0x02004000 (Some 10) MAW_64BIT s1 = Ok VMMAR_SUCCESS s2 /\
    x_plus_one (active_regs (host_thread s2)) 10 = 0.
Proof.
  apply (mtimecmp_store_load GUEST_THREAD_CONTEXT_INIT sample_state 9 10 sample_serving sample_regs_wf). lia.
Defined.
