(* ===== verification/PageFault.v ===== *)
(** vmem.c, handle_page_fault: a guest access that faulted is mapped, or
    emulated when it falls on a device. *)
From S2P Require Import Prelude Machine Wp Print Pte PageAlloc Instructions Vmem Contexts.
From S2P Require Import GuestPrivilege Timer VirtMmDev.

Section pagefault.
Context {plat : Platform}.

(** The host address of the guest instruction at [guest_addr] and its length;
    handle_guest_exception contains the same statements. *)
Definition resolve_instruction (guest_addr : Z) : M (Z * Z) :=
  let! ctx := get_host_thread in
  let! it := begin_iter_guestmem (mkGuestSlice guest_addr 4 (current_guest ctx)) (PERMBIT PERMIDX_X) in
  if negb (it_success it) then panic_msg (nl +:+ "Failed to resolve instruction actual address")
  else if hs_byte_length (it_host it) <? 2 then panic_msg (nl +:+ "Odd instruction address")
  else
    let! low := load_mem16 (hs_address (it_host it)) in
    let instr_size := if negb (Z.land low 3 =? 3) then 2 else 4 in
    if hs_byte_length (it_host it) <? instr_size then panic_msg (nl +:+ "Multi-page instruction")
    else ret (hs_address (it_host it), instr_size).

(** What the faulting access is: its guest address, width, register, the
    length of the instruction and whether the load sign-extends. *)
Record FaultAccess := mkFault {
  fault_addr : Z; rw_width : MemoryAccessWidth; rw_reg : Z; pc_advance : Z; load_is_signed : bool }.

Definition decode_fault (access_type : MempermIndex) (instr_addr : Z) : M FaultAccess :=
  match access_type with
  | PERMIDX_R =>
      let! (instr_host_addr, _) := resolve_instruction instr_addr in
      let! a := parse_source_address instr_host_addr in
      let! ctx := get_host_thread in
      ret (mkFault (access_addr (active_regs ctx) a) (acc_width a) (acc_reg a) (acc_pc_advance a)
        (acc_signed a))
  | PERMIDX_W =>
      let! (instr_host_addr, _) := resolve_instruction instr_addr in
      let! a := parse_destination_address instr_host_addr in
      let! ctx := get_host_thread in
      ret (mkFault (access_addr (active_regs ctx) a) (acc_width a) (acc_reg a) (acc_pc_advance a) false)
  | PERMIDX_X => ret (mkFault instr_addr MAW_32BIT 0 4 false)
  | _ => panic_msg (nl +:+ "Invalid page fault type")
  end.

(** [rw_reg ? &ctx->active_regs.x_plus_one[rw_reg - 1] : NULL] *)
Definition reg_ptr_of (rw_reg : Z) : option Z := if rw_reg =? 0 then None else Some (rw_reg - 1).

(** [case PFHR_TOO_LOW]: devices are below RAM. *)
Definition emulate_device (access_type : MempermIndex) (instr_addr fault_gm_addr : Z) (f : FaultAccess)
    : M PageFaultHandlerResult :=
  let reg_ptr := reg_ptr_of (rw_reg f) in
  match access_type with
  | PERMIDX_R =>
      let! r := virtual_mmdev_load fault_gm_addr reg_ptr (rw_width f) in
      match r with
      | VMMAR_SUCCESS =>
          match reg_ptr with
          | None => ret tt
          | Some i =>
              let! h := get_host_thread in
              put_host_thread (set_active_regs (set_x_plus_one (active_regs h) i
                (reset_upper_bits (x_plus_one (active_regs h) i) (rw_width f) (load_is_signed f))) h)
          end ;;
          w_csr CSR_mepc (add64 instr_addr (pc_advance f)) ;;
          ret PFHR_SUCCESS
      | _ => ret PFHR_TOO_LOW
      end
  | PERMIDX_W =>
      let! r := virtual_mmdev_store fault_gm_addr reg_ptr (rw_width f) in
      match r with
      | VMMAR_SUCCESS => w_csr CSR_mepc (add64 instr_addr (pc_advance f)) ;; ret PFHR_SUCCESS
      | _ => ret PFHR_TOO_LOW
      end
  | _ => ret PFHR_TOO_LOW
  end.

(** The guest-physical address of the access. *)
Definition fault_gm (access_type : MempermIndex) (ctx : HostThreadData) (guest_ctx : GuestThreadContext)
    (fault_addr : Z) : M Z :=
  if negb (shadow_pt_active guest_ctx) then ret fault_addr
  else
    let! r := try_resolve_gu_to_gm guest_ctx ctx access_type fault_addr in
    match r with
    | Some gm => ret gm
    | None => panic_msg (nl +:+ "Propagate the page fault to GM")
    end.

(** The result, with [*virt_out]. *)
Definition handle_page_fault (access_type : MempermIndex) : M (PageFaultHandlerResult * Z) :=
  let! ctx := get_host_thread in
  let! instr_addr := r_csr CSR_mepc in
  let! f := decode_fault access_type instr_addr in
  let! guest_ctx := get_guest_thread (current_guest ctx) in
  let! fault_gm_addr := fault_gm access_type ctx guest_ctx (fault_addr f) in
  let! r := ensure_guest_machine_mapped ctx fault_gm_addr in
  let! res :=
    match r with
    | (PFHR_TOO_LOW, _) => emulate_device access_type instr_addr fault_gm_addr f
    | (PFHR_TOO_HIGH, _) => ret PFHR_TOO_HIGH
    | (outcome, Some fault_hm_addr) =>
        if shadow_pt_active guest_ctx then
          update_shadow_pt (shadow_page_table guest_ctx) (fault_addr f) fault_hm_addr access_type
        else ret outcome
    | (_, None) => undef
    end in
  ret (res, fault_addr f).

End pagefault.
