(* ===== verification/Fetch.v ===== *)
(** The guest instruction that trapped, as the handlers fetch it: read through
    the table of the guest's mode, two bytes at a time, and, for the loads and
    stores that fault, decoded to the access they make. *)
From S2P Require Import Prelude Machine Wp Print Pte PageAlloc Instructions Vmem Tables VmemSpec.
From S2P Require Import ShadowSpec WalkSpec Contexts GuestPrivilege Timer VirtMmDev PageFault.

(** ** Instructions in memory *)

(** The length of an instruction, from its two low bits. *)
Definition instr_size (p : Z) : Z := if Z.land p 3 =? 3 then 4 else 2.

(** The bytes at [h] are those of the instruction [p]. *)
Definition instr_in (m : mem_t) (h p : Z) : Prop := load_le (Z.to_nat (instr_size p)) m h = p.

Lemma land3_add_high a b : Z.land (a + 2 ^ 16 * b) 3 = Z.land a 3.
Proof. rewrite !land3_arith. change (2 ^ 16) with 65536. Z.div_mod_to_equations. lia. Qed.

Lemma instr_in_low m h p : instr_in m h p -> Z.land (load16 m h) 3 = Z.land p 3.
Proof.
  unfold instr_in, instr_size. destruct (Z.land p 3 =? 3); intros H; rewrite <- H.
  - change (Z.to_nat 4) with 4%nat. by rewrite load_le_halves, land3_add_high.
  - reflexivity.
Qed.

(** [dereference_instruction] reads the instruction, and no byte after it. *)
Lemma dereference_run s h p : instr_in (mem s) h p -> dereference_instruction h s = Ok p s.
Proof.
  intros H. pose proof (instr_in_low _ _ _ H) as Hlow. unfold dereference_instruction.
  erewrite bind_ok by done. rewrite Hlow. unfold instr_in, instr_size in H.
  destruct (Z.land p 3 =? 3).
  - erewrite bind_ok by done. unfold ret. f_equal. rewrite <- H. change (Z.to_nat 4) with 4%nat.
    rewrite load_le_halves, Z.shiftl_mul_pow2, Z.lor_comm by lia.
    rewrite lor_disjoint_add by (lia || apply load16_range). lia.
  - unfold ret. change (Z.to_nat 2) with 2%nat in H. rewrite load_le_two in H. by rewrite H.
Qed.

(** ** Through the tables *)

Section fetch.
Context {plat : Platform} {plat_ok : PlatformOk}.

(** The guest's instruction at [pc] is [p]; it is mapped to [host] in the table
    in use and lies in one page. *)
Record guest_instr (g : GuestThreadContext) (s : State) (pc host p : Z) : Prop := {
  gi_pc : 0 <= pc < 2 ^ 64;
  gi_table : active_table g <> 0;
  gi_mapped : exists perm, sv39_translate (mem s) (active_table g) pc = Some (host, perm);
  gi_page : pc mod 4096 + instr_size p <= 4096;
  gi_bytes : instr_in (mem s) host p }.

Lemma instr_size_cases p : instr_size p = 2 \/ instr_size p = 4.
Proof. unfold instr_size. destruct (_ =? _); auto. Qed.

(** What is left of a leaf's span is no less than what is left of the page. *)
Lemma page_in_span lvl va : 4096 - va mod 4096 <= sv39_span lvl - va mod sv39_span lvl.
Proof.
  assert (exists k, 0 < k /\ sv39_span lvl = 4096 * k) as (k & Hk & ->).
  { exists (2 ^ (9 * Z.of_nat lvl)). split; [lia|]. unfold sv39_span. rewrite Z.pow_add_r by lia. lia. }
  rewrite Z.rem_mul_r by lia. pose proof (Z.mod_pos_bound (va / 4096) k Hk). nia.
Qed.

Context {ai : gset Z -> State -> Prop}.

(** The slice in which the instruction is found. *)
Lemma begin_iter_instr g G s pc l e :
  vm_inv (ai := ai) g G s -> 0 <= pc < 2 ^ 64 -> active_table g <> 0 ->
  sv39_leaf (mem s) 2 (active_table g) pc = Some (l, e) ->
  (let slice := mkGuestSlice pc 4 (0, 0) in
   begin_iter_guestmem slice (PERMBIT PERMIDX_X) s =
     Ok (mkIter slice true (PERMBIT PERMIDX_X) 0 (leaf_slice l e pc 4)) s).
Proof.
  intros Hinv Hpc Hne Hl. cbv zeta. unfold begin_iter_guestmem.
  set (slice := mkGuestSlice pc 4 (0, 0)).
  assert (add64 pc 0 = pc) as Hva by (unfold add64; rewrite Z.add_0_r; by apply u64_id).
  pose proof (resolve_guestmem_slice_leaf (ai := ai) g G s
    (mkIter slice false (PERMBIT PERMIDX_X) 0 (mkHostSlice 0 0)) l e Hinv eq_refl Hne) as Hr.
  cbv zeta in Hr. cbn [it_guest it_offset it_required_perm slice virtual_ptr gs_byte_length] in Hr.
  rewrite Hva in Hr. apply Hr; [lia|lia|exact Hl].
Qed.

Lemma resolve_instruction_run g G s pc host p :
  vm_inv (ai := ai) g G s -> guest_instr g s pc host p ->
  resolve_instruction pc s = Ok (host, instr_size p) s.
Proof.
  intros Hinv [Hpc Hne (perm & Htr) Hpage Hbytes]. pose proof (instr_size_cases p) as Hsz.
  unfold resolve_instruction. erewrite bind_ok by (apply get_host_thread_ok, Hinv).
  rewrite (vi_current _ _ _ Hinv). unfold sv39_translate in Htr.
  destruct (sv39_leaf _ _ _ _) as [[l e]|] eqn:Hl; [|done]. injection Htr as <- _.
  erewrite bind_ok by exact (begin_iter_instr g G s pc l e Hinv Hpc Hne Hl).
  cbn [it_success it_host negb].
  destruct (leaf_slice_translates (mem s) (active_table g) pc 4 l e ltac:(lia) Hl ltac:(lia)) as (Hsl & Hb & _).
  assert (instr_size p <= hs_byte_length (leaf_slice l e pc 4)) as Hlen.
  { pose proof (page_in_span l pc) as Hspan. unfold leaf_slice. cbv zeta. cbn [hs_byte_length].
    destruct (4 <? _) eqn:E; lia. }
  assert (hs_address (leaf_slice l e pc 4) = numeric_address e + pc mod sv39_span l) as Hadd.
  { destruct Hsl as (q & Hsl). specialize (Hsl 0 ltac:(lia)). unfold sv39_translate in Hsl.
    rewrite !Z.add_0_r, Hl in Hsl. by injection Hsl as Hsl _. }
  rewrite Hadd, (proj2 (Z.ltb_ge _ _)) by lia.
  erewrite bind_ok by done. cbv zeta. rewrite (instr_in_low _ _ _ Hbytes).
  unfold instr_size in *. destruct (Z.land p 3 =? 3); cbn [negb];
    rewrite (proj2 (Z.ltb_ge _ _)) by lia; done.
Qed.

(** ** The access that faulted *)

Definition trap_pc (s : State) : Z := default 0 (csr s !! CSR_mepc).

(** What the operands of a load or store access in the current registers. *)
Definition access_of (s : State) (a : AccessOperands) : FaultAccess :=
  mkFault (access_addr (active_regs (host_thread s)) a) (acc_width a) (acc_reg a) (acc_pc_advance a) (acc_signed a).

(** The guest is at a fetch, at a load or at a store, of any integer encoding. *)
Inductive guest_access (g : GuestThreadContext) (s : State) : MempermIndex -> FaultAccess -> Prop :=
  | access_fetch : guest_access g s PERMIDX_X (mkFault (trap_pc s) MAW_32BIT 0 4 false)
  | access_load i host :
      load_wf i = true -> guest_instr g s (trap_pc s) host (encode_load i) ->
      guest_access g s PERMIDX_R (access_of s (load_operands false i))
  | access_store i host :
      store_wf i = true -> guest_instr g s (trap_pc s) host (encode_store i) ->
      guest_access g s PERMIDX_W (access_of s (store_operands i)).

Lemma decode_access_run g G s a f :
  vm_inv (ai := ai) g G s -> guest_access g s a f -> decode_fault a (trap_pc s) s = Ok f s.
Proof.
  intros Hs [|i host Hwf Hi|i host Hwf Hi]; [done| |]; unfold decode_fault;
    erewrite bind_ok by exact (resolve_instruction_run g G s _ host _ Hs Hi).
  - unfold parse_source_address. erewrite bind_ok.
    2: { erewrite bind_ok by (apply dereference_run, Hi). by rewrite (decode_source_encode i Hwf). }
    by erewrite bind_ok by (apply get_host_thread_ok, Hs).
  - unfold parse_destination_address. erewrite bind_ok.
    2: { erewrite bind_ok by (apply dereference_run, Hi). by rewrite (decode_destination_encode i Hwf). }
    erewrite bind_ok by (apply get_host_thread_ok, Hs). unfold access_of, ret. by destruct i.
Qed.

(** The address of an access is a word. *)
Lemma guest_access_addr g s a f : in_u64 (trap_pc s) -> guest_access g s a f -> in_u64 (fault_addr f).
Proof. intros Hpc [| |]; [done|apply u64_range..]. Qed.

Lemma guest_access_kind g s a f : guest_access g s a f -> is_access a = true.
Proof. by intros []. Qed.

End fetch.
