(* ===== verification/ExcHandlers.v ===== *)
(** exchandlers.c: what the hypervisor does on each cause of a trap. *)
From S2P Require Import Prelude Machine Sample Wp Print Pte PageAlloc Instructions Vmem Contexts.
From S2P Require Import VirtCsr GuestPrivilege Timer VirtMmDev PageFault.

Section handlers.
Context {plat : Platform}.

Definition handle_interrupt (mcause : Z) : M unit :=
  let cause := Z.land mcause (not64 MCAUSE_ASYNC_BIT) in
  if cause =? MCAUSE_ASYNC_TIMER then timer_on_interrupt
  else ret tt.

Definition handle_hypervisor_exception {A} (mcause : Z) : M A :=
  panic_msg_addr (nl +:+ "Hypervisor-caused exception" +:+ nl +:+ "mcause = ") mcause.

(** [ctx->active_regs.x_plus_one[r - 1]] as a right-hand side. *)
Definition read_active (r : Z) : M Z :=
  let! ctx := get_host_thread in ret (x_plus_one (active_regs ctx) (r - 1)).

(** [ctx->active_regs.x_plus_one[r - 1] = v] *)
Definition write_active (r v : Z) : M unit :=
  let! ctx := get_host_thread in
  put_host_thread (set_active_regs (set_x_plus_one (active_regs ctx) (r - 1) v) ctx).

(** [w_mepc(guest_addr + 4); guest_check_deferred(); return;] *)
Definition finish_csr (guest_addr : Z) : M unit :=
  w_csr CSR_mepc (add64 guest_addr 4) ;;
  let! _ := guest_check_deferred in
  ret tt.

(** [case 1:] csrrw *)
Definition emulate_csrrw (u : UnpackedInstruction) (guest_addr : Z) : M unit :=
  let csr_id := Z.lor (Z.shiftl (funct7 u) 5) (rs2 u) in
  let! old_value := (if negb (rd u =? 0) then get_virtual_csr csr_id else ret 0) in
  let! value := (if negb (rs1 u =? 0) then read_active (rs1 u) else ret 0) in
  set_virtual_csr csr_id value ;;
  (if negb (rd u =? 0) then write_active (rd u) old_value else ret tt) ;;
  finish_csr guest_addr.

(** [case 2:] csrrs *)
Definition emulate_csrrs (u : UnpackedInstruction) (guest_addr : Z) : M unit :=
  let csr_id := Z.lor (Z.shiftl (funct7 u) 5) (rs2 u) in
  let! value := get_virtual_csr csr_id in
  (if negb (rd u =? 0) then write_active (rd u) value else ret tt) ;;
  (if negb (rs1 u =? 0) then
     let! mask := read_active (rs1 u) in
     set_virtual_csr csr_id (Z.lor value mask)
   else ret tt) ;;
  finish_csr guest_addr.

(** The report after the switch over the opcode. *)
Definition illegal_instruction (packed : Z) (u : UnpackedInstruction) (host_addr : Z) : M unit :=
  for_each
    [(nl +:+ "Guest illegal instruction" +:+ nl +:+ "instruction = ", packed);
     (nl +:+ "opcode = ", opcode u); (nl +:+ "rd = ", rd u); (nl +:+ "funct3 = ", funct3 u);
     (nl +:+ "rs1 = ", rs1 u); (nl +:+ "rs2 = ", rs2 u); (nl +:+ "funct7 = ", funct7 u);
     (nl +:+ "virt2phys(pc) = ", host_addr)]
    print_field ;;
  panic.

(** [if (unpacked.opcode == 0x73)]: what emulates the instruction, if anything. *)
Definition emulate_system (u : UnpackedInstruction) (guest_addr : Z) : option (M unit) :=
  match funct3 u with
  | 0 =>
      match funct7 u with
      | 0 => Some (panic_msg (nl +:+ "Guest ecall/ebreak"))
      | 9 =>
          if rd u =? 0 then
            Some (flush_shadow_pagetable ;; w_csr CSR_mepc (add64 guest_addr 4))
          else None
      | 24 =>
          if (rs2 u =? 2) && (rs1 u =? 0) && (rd u =? 0) then Some guest_mret else None
      | 8 =>
          if (rs2 u =? 5) && (rs1 u =? 0) && (rd u =? 0) then Some wfi else None
      | _ => None
      end
  | 1 => Some (emulate_csrrw u guest_addr)
  | 2 => Some (emulate_csrrs u guest_addr)
  | _ => None
  end.

(** [case 2:] illegal instruction *)
Definition handle_illegal_instruction : M unit :=
  let! guest_addr := r_csr CSR_mepc in
  if (guest_addr <? 0x80000000) || (0x8080000000 <? guest_addr) then
    panic_msg (nl +:+ "Guest illegal instruction not in memory range")
  else
    let! (host_addr, _) := resolve_instruction guest_addr in
    let! packed := dereference_instruction host_addr in
    let unpacked := unpack_instruction packed in
    match (if opcode unpacked =? 0x73 then emulate_system unpacked guest_addr else None) with
    | Some m => m
    | None => illegal_instruction packed unpacked host_addr
    end.

Definition handle_guest_exception (mcause : Z) : M unit :=
  let load_fault :=
    let! (r, virt_addr) := handle_page_fault PERMIDX_R in
    match r with
    | PFHR_SUCCESS => ret tt
    | PFHR_TOO_LOW =>
        panic_msg_addr (nl +:+ "Guest read below RAM" +:+ nl +:+ "source address = ") virt_addr
    | PFHR_TOO_HIGH =>
        panic_msg_addr (nl +:+ "Guest read beyond Sv39" +:+ nl +:+ "source address = ") virt_addr
    | PFHR_NOT_CHANGED =>
        let! mtval := r_csr CSR_mtval in
        panic_msg_addr (nl +:+ "Guest unknown load page fault, mtval = ") mtval
    end in
  let store_fault :=
    let! (r, virt_addr) := handle_page_fault PERMIDX_W in
    match r with
    | PFHR_SUCCESS => ret tt
    | PFHR_TOO_LOW =>
        panic_msg_addr (nl +:+ "Guest store below RAM" +:+ nl +:+ "destination address = ") virt_addr
    | PFHR_TOO_HIGH =>
        panic_msg_addr (nl +:+ "Guest store beyond Sv39" +:+ nl +:+ "destination address = ") virt_addr
    | PFHR_NOT_CHANGED =>
        let! mtval := r_csr CSR_mtval in
        panic_msg_addr (nl +:+ "Guest unknown store page fault, mtval = ") mtval
    end in
  match mcause with
  | 2 => handle_illegal_instruction
  | 8 => guest_exception mcause
  | 12 =>
      let! (r, _) := handle_page_fault PERMIDX_X in
      match r with
      | PFHR_SUCCESS => ret tt
      | PFHR_TOO_LOW => panic_msg (nl +:+ "Guest program counter below RAM")
      | PFHR_TOO_HIGH => panic_msg (nl +:+ "Guest program counter beyond Sv39")
      | PFHR_NOT_CHANGED =>
          print_string (Some (nl +:+ "Guest instruction page fault" +:+ nl
            +:+ "Current mode program counter = ")) ;;
          let! mepc := r_csr CSR_mepc in
          print_addr mepc ;;
          panic
      end
  | 5 =>
      print_string (Some "[Load access fault, trying to interpret as a page fault]"%string) ;; load_fault
  | 13 => load_fault
  | 7 =>
      print_string (Some "[Store access fault, trying to interpret as a page fault]"%string) ;;
      store_fault
  | 15 => store_fault
  | _ => panic_msg_addr (nl +:+ "Unhandled guest-caused exception" +:+ nl +:+ "mcause = ") mcause
  end.

End handlers.

(** ** CSR instructions *)

Section csr_spec.
Context {plat : Platform}.

Lemma read_active_run g s r : serving g s -> 0 < r ->
  read_active r s = Ok (xreg (active_regs (host_thread s)) r) s.
Proof.
  intros (Hsc & _) Hr. unfold read_active, xreg. erewrite bind_ok by (by apply get_host_thread_ok).
  by rewrite (proj2 (Z.eqb_neq _ _)) by lia.
Qed.

(** The state with another value in register [r], the zero register apart. *)
Definition with_reg (r v : Z) (s : State) : State :=
  if r =? 0 then s
  else set_host_thread (set_active_regs (set_x_plus_one (active_regs (host_thread s)) (r - 1) v) (host_thread s)) s.

Lemma write_active_run g s r v : serving g s ->
  (if negb (r =? 0) then write_active r v else ret tt) s = Ok tt (with_reg r v s).
Proof.
  intros (Hsc & _). unfold with_reg. destruct (r =? 0); [done|]. cbn [negb]. unfold write_active.
  erewrite bind_ok by (by apply get_host_thread_ok). by rewrite put_host_thread_ok.
Qed.

Lemma serving_with_reg g s r v : serving g s -> serving g (with_reg r v s).
Proof. intros Hs. unfold with_reg. by destruct (r =? 0). Qed.

Lemma xreg_with_reg s r v n : length (active_regs (host_thread s)) = 31%nat -> 0 <= r < 32 -> 0 <= n < 32 ->
  xreg (active_regs (host_thread (with_reg r v s))) n =
    if (n =? r) && negb (n =? 0) then v else xreg (active_regs (host_thread s)) n.
Proof.
  intros Hl Hr Hn. unfold with_reg, xreg. destruct (Z.eqb_spec r 0) as [->|Hr0].
  { destruct (Z.eqb_spec n 0); [by rewrite andb_false_r|]. done. }
  simpl. destruct (Z.eqb_spec n 0) as [->|Hn0]; [by rewrite andb_false_r|].
  destruct (Z.eqb_spec n r) as [->|Hne]; simpl.
  - apply x_plus_one_set_same. lia.
  - apply x_plus_one_set_other; lia.
Qed.

Lemma with_reg_guest r v g s : with_reg r v (with_guest g s) = with_guest g (with_reg r v s).
Proof. unfold with_reg. by destruct (r =? 0). Qed.

(** Nothing waits to be delivered to the guest as soon as it may be: it is
    handling a trap already, as guest-machine mode always is, or no exception
    was deferred. *)
Definition quiet (g : GuestThreadContext) : Prop :=
  g_mstatus_mdt (gcsr g) = true \/ deferred_exception g = false.

(** The program counter written. *)
Definition with_mepc (pc : Z) (s : State) : State := set_csr (<[CSR_mepc := pc]> (csr s)) s.

Lemma serving_with_mepc g pc s : serving g s -> serving g (with_mepc pc s).
Proof. intros Hs. by apply serving_csr. Qed.

Lemma finish_csr_run g s guest_addr : serving g s -> quiet g ->
  finish_csr guest_addr s = Ok tt (with_mepc (add64 guest_addr 4) s).
Proof.
  intros Hs Hq. unfold finish_csr. apply (serving_with_mepc _ (add64 guest_addr 4)) in Hs.
  rewrite (bind_ok _ _ s tt (with_mepc (add64 guest_addr 4) s)).
  2: { unfold w_csr, modify, with_mepc. do 2 f_equal. cbv zeta. change (CSR_mepc =? CSR_satp) with false. cbv iota.
       unfold add64. by rewrite (u64_id (u64 _)) by apply u64_range. }
  unfold guest_check_deferred.
  erewrite bind_ok; [done|]. erewrite bind_ok by (by apply get_current_guest_serving). cbv beta iota.
  destruct Hq as [Hq|Hq]; rewrite Hq; [by rewrite orb_true_r|by case_match].
Qed.

Lemma set_gcsr_same g : set_gcsr (gcsr g) g = g.
Proof. by destruct g. Qed.

Lemma quiet_assign csr_id v g : quiet g -> quiet (update_gcsr (csr_assign csr_id v) g).
Proof. intros [H|H]; [left|by right]. simpl. unfold csr_assign. repeat case_match; done. Qed.

(** The CSR an instruction names. *)
Definition csr_number (u : UnpackedInstruction) : Z := Z.lor (Z.shiftl (funct7 u) 5) (rs2 u).

(** The state as the instruction leaves it: [old] in the destination register,
    the CSR reading [new], the program counter past the instruction; every
    other register and CSR of the guest, the rest of its record, the other CSRs
    of the hart, and all other state, are as they were. *)
Record csr_done (u : UnpackedInstruction) (pc old new : Z) (g : GuestThreadContext) (s s' : State) : Prop := {
  cd_guest : exists c, csrs_wf c /\ csr_view c (csr_number u) = Some new /\
    (forall n, n <> csr_number u -> csr_view c n = csr_view (gcsr g) n) /\
    serving (set_gcsr c g) s' /\ guest_threads s' = <[(0, 0) := set_gcsr c g]> (guest_threads s);
  cd_regs n : 0 <= n < 32 -> xreg (active_regs (host_thread s')) n =
    if (n =? rd u) && negb (n =? 0) then old else xreg (active_regs (host_thread s)) n;
  cd_host : host_thread s' = set_active_regs (active_regs (host_thread s')) (host_thread s);
  cd_csr : csr s' = <[CSR_mepc := add64 pc 4]> (csr s);
  cd_rest : s' = set_host_thread (host_thread s') (set_guest_threads (guest_threads s') (set_csr (csr s') s)) }.

Lemma with_reg_frame r v s :
  with_reg r v s = set_host_thread (host_thread (with_reg r v s)) s /\
  host_thread (with_reg r v s) = set_active_regs (active_regs (host_thread (with_reg r v s))) (host_thread s).
Proof. unfold with_reg. destruct (r =? 0); [|done]. by destruct s as [? ? []]. Qed.

(** The last steps of both instructions. *)
Lemma csr_insn_end u pc old new c g s :
  regs_wf (active_regs (host_thread s)) -> 0 <= rd u < 32 -> serving g s -> csrs_wf c ->
  quiet (set_gcsr c g) -> csr_view c (csr_number u) = Some new ->
  (forall n, n <> csr_number u -> csr_view c n = csr_view (gcsr g) n) ->
  exists s', finish_csr pc (with_reg (rd u) old (with_guest (set_gcsr c g) s)) = Ok tt s' /\
    csr_done u pc old new g s s'.
Proof.
  intros [Hl _] Hrd Hs Hwf1 Hq Hnew Hother. pose proof (serving_with_guest g (set_gcsr c g) s Hs) as Hs1.
  pose proof (serving_with_reg _ _ (rd u) old Hs1) as Hs2.
  destruct (with_reg_frame (rd u) old (with_guest (set_gcsr c g) s)) as [Hst Hhost].
  eexists. split; [by eapply finish_csr_run|]. split.
  - exists c. do 3 (split; [done|]). split; [by apply serving_with_mepc|]. simpl. by rewrite Hst.
  - intros n Hn. by apply (xreg_with_reg (with_guest (set_gcsr c g) s)).
  - exact Hhost.
  - simpl. by rewrite Hst.
  - simpl. by rewrite Hst.
Qed.

(** A guest with nothing waiting to be delivered, its state and the instruction
    well formed. *)
Record csr_ready (u : UnpackedInstruction) (g : GuestThreadContext) (old : Z) (s : State) : Prop := {
  cr_serving : serving g s;
  cr_wf : csrs_wf (gcsr g);
  cr_quiet : quiet g;
  cr_regs : regs_wf (active_regs (host_thread s));
  cr_rd : 0 <= rd u < 32;
  cr_rs1 : 0 <= rs1 u < 32;
  cr_old : csr_view (gcsr g) (csr_number u) = Some old }.

Lemma xreg_range u g old s : csr_ready u g old s -> forall r, 0 <= xreg (active_regs (host_thread s)) r < 2 ^ 64.
Proof. intros [] r. unfold xreg. destruct (r =? 0); [lia|]. by apply x_plus_one_range. Qed.

(** [C24] Emulation of csrrw in a guest with nothing waiting to be delivered
    ([csr_ready]; what is delivered otherwise is guest_check_deferred's): the
    destination register receives the old value of the CSR, the CSR what is kept
    of the source register's ([csr_kept]), also when the two registers are the
    same, and the guest resumes after the instruction; all other state is as it
    was ([csr_done]). *)
Theorem csrrw_emulated u g old s pc :
  csr_ready u g old s ->
  (let v := xreg (active_regs (host_thread s)) (rs1 u) in
   csr_writable g (csr_number u) v ->
   exists s', emulate_csrrw u pc s = Ok tt s' /\
     csr_done u pc old (csr_kept (csr_number u) v old) g s s').
Proof.
  intros Hr. cbv zeta. set (v := xreg (active_regs (host_thread s)) (rs1 u)). intros [Hv Hmie].
  pose proof (xreg_range _ _ _ _ Hr (rs1 u)) as Hrange. fold v in Hrange. destruct Hr.
  set (c1 := csr_assign (csr_number u) v (gcsr g)). set (g1 := set_gcsr c1 g).
  destruct (csr_insn_end u pc old (csr_kept (csr_number u) v old) c1 g s) as (s' & Hrun & Hdone); try done.
  { by apply csrs_wf_assign. }
  { by apply (quiet_assign (csr_number u) v g). }
  { by apply csr_view_assign. }
  { intros n Hn. by apply csr_view_assign_other. }
  exists s'. split; [|exact Hdone]. unfold emulate_csrrw. cbv zeta. fold (csr_number u).
  rewrite (bind_ok _ _ s (if rd u =? 0 then 0 else old) s).
  2: { destruct (rd u =? 0); [done|]. by apply (get_virtual_csr_view g). }
  rewrite (bind_ok _ _ s v s).
  2: { unfold v. destruct (Z.eqb_spec (rs1 u) 0) as [->|Hne]; [done|]. apply (read_active_run g); [done|lia]. }
  erewrite bind_ok by (apply (set_virtual_csr_assign g); [done|by rewrite cr_old0|done]). change (update_gcsr _ g) with g1.
  fold g1 in Hrun. rewrite <- Hrun. erewrite bind_ok; [done|].
  pose proof (serving_with_guest g g1 s cr_serving0) as Hs1.
  rewrite <- (write_active_run g1 (with_guest g1 s) (rd u) old Hs1). by destruct (rd u =? 0).
Qed.

(** [C25] Emulation of csrrs in a guest with nothing waiting to be delivered: the
    destination register receives the old value of the CSR and the bits of the
    source register are set in the CSR, unless the two registers are the same:
    the code then reads the source after it has overwritten it, and the bits the
    guest asked for are lost.  All other state is as it was. *)
Theorem csrrs_emulated u g old s pc :
  csr_ready u g old s -> 0 <= old < 2 ^ 64 ->
  (let asked := xreg (active_regs (host_thread s)) (rs1 u) in
   let mask := if rs1 u =? rd u then old else asked in
   csr_writable g (csr_number u) (Z.lor old mask) ->
   exists s', emulate_csrrs u pc s = Ok tt s' /\
     csr_done u pc old
       (if rs1 u =? 0 then old else csr_kept (csr_number u) (Z.lor old mask) old) g s s').
Proof.
  intros Hr Hold. cbv zeta. set (asked := xreg (active_regs (host_thread s)) (rs1 u)).
  set (mask := if rs1 u =? rd u then old else asked). intros [Hv Hmie].
  pose proof (xreg_range _ _ _ _ Hr (rs1 u)) as Hasked. fold asked in Hasked.
  assert (0 <= Z.lor old mask < 2 ^ 64) as Hm.
  { apply lor_range; [lia|done|]. unfold mask. by destruct (rs1 u =? rd u). }
  destruct Hr. pose proof (serving_with_reg g s (rd u) old cr_serving0) as Hs1.
  set (new := if rs1 u =? 0 then old else csr_kept (csr_number u) (Z.lor old mask) old).
  set (c1 := if rs1 u =? 0 then gcsr g else csr_assign (csr_number u) (Z.lor old mask) (gcsr g)).
  destruct (csr_insn_end u pc old new c1 g s) as (s' & Hrun & Hdone); try done.
  { unfold c1. destruct (rs1 u =? 0); [done|]. by apply csrs_wf_assign. }
  { unfold c1. destruct (rs1 u =? 0); [by rewrite set_gcsr_same|]. by apply (quiet_assign _ (Z.lor old mask) g). }
  { unfold c1, new. destruct (rs1 u =? 0); [done|]. by apply csr_view_assign. }
  { intros n Hn. unfold c1. destruct (rs1 u =? 0); [done|]. by apply csr_view_assign_other. }
  exists s'. split; [|exact Hdone]. unfold emulate_csrrs. cbv zeta. fold (csr_number u).
  erewrite bind_ok by (by apply (get_virtual_csr_view g)).
  erewrite bind_ok by (by apply (write_active_run g)).
  rewrite <- Hrun. etrans; [eapply (bind_ok _ _ _ tt)|done]. unfold c1. destruct (Z.eqb_spec (rs1 u) 0) as [H0|H0]; cbn [negb].
  { by rewrite set_gcsr_same, (with_guest_same g s) by done. }
  erewrite bind_ok by (apply (read_active_run g); [exact Hs1|lia]).
  rewrite xreg_with_reg by (apply cr_regs0 || lia). rewrite (proj2 (Z.eqb_neq _ _) H0), andb_true_r.
  fold asked mask. rewrite (set_virtual_csr_assign g) by (done || by rewrite cr_old0).
  by rewrite with_reg_guest.
Qed.

End csr_spec.

(** csrrw a0, mscratch, a1 and csrrs a0, mscratch, a0. *)
Definition csrrw_a0_mscratch_a1 : UnpackedInstruction := mkInstr 0x73 10 1 11 0 26.
Definition csrrs_a0_mscratch_a0 : UnpackedInstruction := mkInstr 0x73 10 2 10 0 26.

(** A guest whose mscratch is 0x1234 and whose a0 and a1 are 0x56 and 0xABCD. *)
Definition csr_sample_guest : GuestThreadContext := update_gcsr (set_g_mscratch 0x1234) GUEST_THREAD_CONTEXT_INIT.
Definition csr_sample : State :=
  with_reg 10 0x56 (with_reg 11 0xABCD (with_guest csr_sample_guest sample_state)).

Lemma csr_sample_ready u :
  0 <= rd u < 32 -> 0 <= rs1 u < 32 -> csr_number u = CSR_mscratch ->
  csr_ready u csr_sample_guest 0x1234 csr_sample.
Proof.
  intros H1 H2 Hn. split; [|by split|by left| |done|done|by rewrite Hn].
  - apply serving_with_reg, serving_with_reg. apply (serving_with_guest GUEST_THREAD_CONTEXT_INIT). exact sample_serving.
  - split; [done|]. apply (bool_decide_unpack _). vm_compute. exact I.
Defined.

Lemma csrrw_emulated_witness :
  exists s', emulate_csrrw csrrw_a0_mscratch_a1 0x80000100 csr_sample = Ok tt s' /\
    csr_done csrrw_a0_mscratch_a1 0x80000100 0x1234 0xABCD csr_sample_guest csr_sample s'.
Proof.
  apply (csrrw_emulated csrrw_a0_mscratch_a1 csr_sample_guest 0x1234 csr_sample 0x80000100).
  - by apply csr_sample_ready.
  - split; [by eexists|done].
Defined.

(** The bits 0x56 asked for are lost. *)
Lemma csrrs_emulated_witness :
  exists s', emulate_csrrs csrrs_a0_mscratch_a0 0x80000100 csr_sample = Ok tt s' /\
    csr_done csrrs_a0_mscratch_a0 0x80000100 0x1234 0x1234 csr_sample_guest csr_sample s'.
Proof.
  apply (csrrs_emulated csrrs_a0_mscratch_a0 csr_sample_guest 0x1234 csr_sample 0x80000100).
  - by apply csr_sample_ready.
  - lia.
  - split; [by eexists|done].
Defined.
