(* ===== verification/Hypervisor.v ===== *)
(** hypervisor.c: boot and the trap handler. *)
From S2P Require Import Prelude Machine Wp Print Pte PageAlloc Instructions Vmem Contexts VirtCsr.
From S2P Require Import GuestPrivilege Timer VirtMmDev PageFault ExcHandlers.

Section hypervisor.
Context {plat : Platform}.

(** Up to the call of enter_guest, which does not return. *)
Definition boot_main : M unit :=
  let! mstatus := r_csr CSR_mstatus in
  let mstatus := Z.land mstatus (not64 MSTATUS_MPP_MASK) in
  let mstatus := Z.lor mstatus MSTATUS_MPP_U in
  w_csr CSR_mstatus mstatus ;;
  let! mstatus := r_csr CSR_mstatus in
  w_csr CSR_mstatus (Z.lor mstatus MSTATUS_MIE) ;;
  w_csr CSR_mtvec exc_entry_addr ;;
  w_csr CSR_satp 0 ;;
  w_csr CSR_pmpaddr0 0x3fffffffffffff ;;
  w_csr CSR_pmpcfg0 0xf ;;
  w_csr CSR_mepc 0x80000000 ;;
  modify (fun s => set_host_thread
    (set_exception_handler_stack (hypstack0_addr + 4096) (host_thread s)) s) ;;
  set_host_thread_address host_threads_addr ;;
  w_csr CSR_satp (MAKE_SATP (machine_root 0)) ;;
  vmem_fence None None.

(** [ctx->exception_handler_stack = v] *)
Definition set_handler_stack (v : Z) : M unit :=
  let! ctx := get_host_thread in
  put_host_thread (set_exception_handler_stack v ctx).

(** The dispatch on the cause of the trap. *)
Definition dispatch : M unit :=
  let! mcause := r_csr CSR_mcause in
  if nonzero (Z.land mcause MCAUSE_ASYNC_BIT) then handle_interrupt mcause
  else
    let! mstatus := r_csr CSR_mstatus in
    if negb (Z.land mstatus MSTATUS_MPP_MASK =? MSTATUS_MPP_U) then handle_hypervisor_exception mcause
    else handle_guest_exception mcause.

Definition exception : M unit :=
  let! ctx := get_host_thread in
  let current_stack := exception_handler_stack ctx in
  set_handler_stack (hypstack_nested_addr + 4096) ;;
  timer_suspend_virtual ;;
  dispatch ;;
  timer_resume_virtual ;;
  timer_reschedule ;;
  set_handler_stack current_stack.

End hypervisor.
