(* ===== verification/TrapSpec.v ===== *)
(** Every trap keeps the invariant: the handlers, operation by operation, and
    the trap handler as a whole. *)
From S2P Require Import Prelude Machine Wp Print Pte PageAlloc Instructions Vmem Tables VmemSpec.
From S2P Require Import ShadowSpec FlushSpec WalkSpec Contexts Invariant VirtCsr GuestPrivilege.
From S2P Require Import PrivilegeSpec Timer VirtMmDev PageFault ExcHandlers Hypervisor.

Section trap.
Context {plat : Platform} {plat_ok : PlatformOk}.
Context {ai : gset Z -> State -> Prop} {ai_ok : AllocatorContract ai}.
Context (ub : Prop).

#[local] Abbreviation keeps := (keeps (ai := ai) ub).

(** ** Emulated CSRs *)

Lemma keeps_get_virtual_csr csr_id : keeps (get_virtual_csr csr_id).
Proof. unfold get_virtual_csr. keeps_steps. Qed.

Lemma keeps_set_virtual_csr csr_id value : keeps (set_virtual_csr csr_id value).
Proof.
  unfold set_virtual_csr. keeps_steps.
  apply keeps_update_guest. intros g0. split_and!; try done. intros _. simpl. apply Z.mod_pos_bound. done.
Qed.

(** ** Virtual memory *)

Lemma keeps_flush : keeps flush_shadow_pagetable.
Proof.
  apply (keeps_wp no_panic). intros g G s Hs.
  eapply wp_post; [apply (flush_spec g G s), Hs|]. intros [] s' H.
  destruct (shadow_page_table g =? 0).
  - subst s'. split; [eauto|done].
  - destruct H as (Hvm & Hext & Hsync & _). split; [|intros x Hx; by apply Hext].
    exists g, (pruned G). by eapply hyp_inv_ext.
Qed.

(** ** Privilege and timer *)

Lemma keeps_guest_exception mcause : keeps (guest_exception mcause).
Proof.
  apply (keeps_wp any_panic). intros g G s Hs. destruct (user_mode g) eqn:Hu.
  - apply wp_total. eapply wp_post; [by apply (guest_exception_spec g G s)|].
    intros [] s' (Hinv & [Hm _] & _). split; [eauto|]. intros x _. by rewrite Hm.
  - unfold guest_exception. wp_step.
    apply (wp_current_guest any_panic g); [by eapply hyp_inv_serving|]. cbv beta iota.
    rewrite Hu. apply wp_panic_msg_any. by eapply hyp_inv_mscratch.
Qed.

Lemma keeps_check_deferred : keeps guest_check_deferred.
Proof.
  apply (keeps_wp no_panic). intros g G s Hs.
  eapply wp_post; [by apply (guest_check_deferred_spec g G s)|].
  intros b s' (_ & [Hm _] & Hb). split; [|intros x _; by rewrite Hm].
  destruct b; [|subst s'; eauto]. destruct Hb as (_ & Hinv & _). eauto.
Qed.

Lemma keeps_defer_exception mcause : keeps (guest_defer_exception mcause).
Proof.
  apply (keeps_wp no_panic). intros g G s Hs.
  eapply wp_post; [by apply (guest_defer_exception_spec g G s)|].
  intros [] s' (g' & Hinv & [Hm _]). split; [eauto|]. intros x _. by rewrite Hm.
Qed.

Lemma keeps_mret : keeps guest_mret.
Proof.
  apply (keeps_wp any_panic). intros g G s Hs. destruct (user_mode g) eqn:Hu.
  - unfold guest_mret. wp_step.
    apply (wp_current_guest any_panic g); [by eapply hyp_inv_serving|]. cbv beta iota.
    rewrite Hu. apply wp_panic_msg_any. by eapply hyp_inv_mscratch.
  - eapply wp_mono; [by apply (guest_mret_spec g G s)| |done].
    intros [] s' (_ & Hm & sp & G' & _ & Hinv & _). split; [by eexists _, G'|done].
Qed.

Hint Resolve keeps_get_virtual_csr keeps_set_virtual_csr keeps_flush keeps_guest_exception
  keeps_check_deferred keeps_defer_exception keeps_mret : keeps.

Lemma keeps_timer_resume : keeps timer_resume_virtual.
Proof. unfold timer_resume_virtual. keeps_steps. Qed.

Lemma keeps_interrupt_at d : keeps (timer_interrupt_at d).
Proof. unfold timer_interrupt_at. keeps_steps. Qed.
Lemma keeps_interrupt_sooner d : keeps (timer_interrupt_sooner d).
Proof. unfold timer_interrupt_sooner. keeps_steps. case_match; keeps_steps. Qed.

(** The loops run over the indices of the one guest thread. *)
Lemma keeps_consider i j : i ∈ seqZ 0 MAX_GUESTS -> j ∈ seqZ 0 MAX_VIRT_HARTS -> keeps (timer_consider i j).
Proof.
  intros Hi Hj. assert (i = 0) as -> by (apply elem_of_seqZ in Hi; unfold MAX_GUESTS in *; lia).
  assert (j = 0) as -> by (apply elem_of_seqZ in Hj; unfold MAX_VIRT_HARTS in *; lia).
  unfold timer_consider. intros s (g & G & Hs). apply wpx_bind.
  eapply wpx_ok; [apply get_guest_thread_ok, (hyp_inv_serving _ _ _ Hs)|].
  revert s G Hs. cut (keeps (if timer_scheduled g then
    let! sooner := timer_interrupt_sooner (add64 (timer_deadline g) (timer_adjustment g)) in
    if sooner then modify (set_interrupt_target (0, 0)) else ret tt else ret tt)).
  { intros H s G Hs. apply H. by exists g, G. }
  keeps_step; [|keeps_steps]. keeps_step; [apply keeps_interrupt_sooner|keeps_steps].
Qed.

Lemma keeps_reschedule : keeps timer_reschedule.
Proof.
  unfold timer_reschedule, timer_get_time. keeps_step; [keeps_steps|]. keeps_step; [keeps_steps|].
  keeps_step; [apply keeps_interrupt_at|].
  apply keeps_for_each. intros i Hi. apply keeps_for_each. intros j Hj. by apply keeps_consider.
Qed.

Lemma keeps_on_interrupt : keeps timer_on_interrupt.
Proof.
  unfold timer_on_interrupt. keeps_step; [keeps_steps|]. keeps_step; [keeps_steps|]. keeps_step.
  keeps_step; [keeps_steps|]. rewrite H. keeps_steps.
Qed.

(** ** Emulated devices *)

Lemma keeps_store_reg w r v : keeps (store_reg w r v).
Proof. unfold store_reg. keeps_steps. Qed.
Lemma keeps_load_reg w r : keeps (load_reg w r).
Proof. unfold load_reg. destruct r; keeps_steps. Qed.
Lemma keeps_if_reg r f : (forall i, keeps (f i)) -> keeps (if_reg r f).
Proof. intros H. destruct r; simpl; [done|apply keeps_ret]. Qed.
Lemma keeps_with_width a e m : keeps m -> keeps (with_width a e m).
Proof. intros H. unfold with_width. keeps_step; [keeps_steps|]. keeps_step; [done|keeps_steps]. Qed.

Hint Resolve keeps_store_reg keeps_load_reg : keeps.

Lemma keeps_mmdev_load a r w : keeps (virtual_mmdev_load a r w).
Proof.
  unfold virtual_mmdev_load, timer_get_time_virtual.
  repeat first [apply keeps_with_width | apply keeps_if_reg; intros ? | keeps_step; cbv beta iota].
Qed.

Lemma keeps_mmdev_store a r w : keeps (virtual_mmdev_store a r w).
Proof.
  unfold virtual_mmdev_store.
  repeat first [apply keeps_with_width | apply keeps_if_reg; intros ? | keeps_step; cbv beta iota].
Qed.

(** ** Page faults *)

Lemma keeps_emulate_device a ia gm f : keeps (emulate_device a ia gm f).
Proof.
  unfold emulate_device. destruct a; try apply keeps_ret.
  - keeps_step; [apply keeps_mmdev_load|]. destruct a; [|apply keeps_ret..].
    keeps_step; [|keeps_steps]. case_match; keeps_steps.
  - keeps_step; [apply keeps_mmdev_store|]. destruct a; keeps_steps.
Qed.

(** Finding and decoding the instruction changes nothing. *)
Lemma resolve_instruction_ok g G s ia :
  hyp_inv (ai := ai) g G s -> wp any_panic (resolve_instruction ia) (fun r s' => s' = s) s.
Proof.
  intros Hs. pose proof (hyp_inv_mscratch _ _ _ Hs) as Hsc. unfold resolve_instruction. wp_step.
  eapply wp_ok; [by apply get_host_thread_ok|]. cbv beta. rewrite (hyp_inv_current _ _ _ Hs).
  wp_step. eapply wp_post; [apply (resolve_guestmem_slice_spec g G s _ (hi_vm _ _ _ Hs)); done|].
  intros it s' (-> & _). wp_step; [by apply wp_panic_msg_any|]. wp_step; [by apply wp_panic_msg_any|].
  wp_step. wp_step. wp_step; [by apply wp_panic_msg_any|]. by apply wp_ret.
Qed.

Lemma wp_print_fields l s (Q : unit -> State -> Prop) :
  (forall s', io_ext s s' -> Q tt s') -> wp any_panic (for_each l print_field) Q s.
Proof.
  intros HQ. apply wp_for_each with (I := fun _ s' => io_ext s s'); [apply io_ext_refl| |by intros; apply HQ].
  intros x rest s1 _ Hs1. unfold print_field. wp_step. apply wp_print_string. intros s2 Hs2.
  apply wp_print_addr. intros s3 Hs3. by do 2 (eapply io_ext_trans; [eassumption|]).
Qed.

Lemma parse_failure_ok {A} what packed s (Q : A -> State -> Prop) :
  mscratch_ok s -> wp any_panic (parse_failure what packed) Q s.
Proof.
  intros Hsc. unfold parse_failure. wp_step.
  assert (forall s', io_ext s s' -> wp any_panic panic Q s') as Hp.
  { intros s' H. apply wp_panic_any. by eapply mscratch_ok_io. }
  wp_step; by apply wp_print_fields.
Qed.

Lemma dereference_ok Pn ptr s (Q : Z -> State -> Prop) :
  (forall v, Q v s) -> wp Pn (dereference_instruction ptr) Q s.
Proof. intros HQ. unfold dereference_instruction. wp_steps; apply HQ. Qed.

Lemma decode_fault_ok g G s a ia :
  hyp_inv (ai := ai) g G s -> in_u64 ia ->
  wp any_panic (decode_fault a ia) (fun f s' => s' = s /\ in_u64 (fault_addr f)) s.
Proof.
  intros Hs Hia. pose proof (hyp_inv_mscratch _ _ _ Hs) as Hsc. unfold decode_fault.
  destruct a; try (by apply wp_panic_msg_any); [..|by apply wp_ret].
  all: wp_step; eapply wp_post; [by eapply resolve_instruction_ok|]; intros [p sz] ? ->.
  all: wp_step; unfold parse_source_address, parse_destination_address; wp_step;
    apply dereference_ok; intros v; case_match; [apply wp_ret|by apply parse_failure_ok].
  all: wp_step; (eapply wp_ok; [by apply get_host_thread_ok|]); cbv beta; apply wp_ret;
    (split; [done|apply u64_range]).
Qed.

(** Where the guest walks its own tables they must lie in its memory. *)
Definition guest_tables_ok (g : GuestThreadContext) (m : mem_t) : Prop :=
  shadow_pt_active g = true -> forall gu,
    tables_in_ram (guest_view m) 2 (u64 (Z.shiftl (g_satp_ppn (gcsr g)) PGSHIFT)) gu.

Lemma fault_gm_ok g G s a ctx fa :
  hyp_inv (ai := ai) g G s -> current_guest ctx = (0, 0) -> ub \/ guest_tables_ok g (mem s) ->
  wpx ub (fault_gm a ctx g fa) (fun gm s' =>
    (shadow_pt_active g = true -> gm mod 4096 = fa mod 4096) /\
    guest_mem_same s s' /\ exists G', hyp_inv (ai := ai) g G' s') s.
Proof.
  intros Hs Hctx Hok. unfold fault_gm. destruct (shadow_pt_active g) eqn:Ha; cbn [negb].
  2: { apply wpx_ret. split; [done|]. split; [done|eauto]. }
  apply wpx_bind. unfold try_resolve_gu_to_gm. change (PGSHIFT + 9 + 9) with (12 + 9 * Z.of_nat 2).
  change (perm_field (PERMBIT PERMIDX_V)) with 1.
  eapply wpx_post.
  { apply (try_resolve_any ub 2 WALK_FUEL g G s (mem s)); try done; [apply Hs|unfold WALK_FUEL; lia|].
    destruct Hok as [|Hok]; [by left|right; by apply Hok]. }
  intros r s1 [Hf [Hsync _ (G1 & Hsub & Hvm & Hext)]].
  assert (hyp_inv (ai := ai) g G1 s1) as Hs1.
  { eapply hyp_inv_ext; [done..|]. exact (Hsync (hi_synced _ _ _ Hs)). }
  destruct r as [gm|].
  - apply wpx_ret. split; [by intros _; apply Hf|]. split; [intros x Hx; by apply Hext|eauto].
  - eapply wpx_wp, wp_panic_msg_any. exact (hyp_inv_mscratch _ _ _ Hs1).
Qed.

Lemma handle_page_fault_ok g G s a :
  hyp_inv (ai := ai) g G s -> is_access a = true -> ub \/ guest_tables_ok g (mem s) ->
  wpx ub (handle_page_fault a) (fun _ s' => hyp_ok (ai := ai) s' /\ guest_mem_same s s') s.
Proof.
  intros Hs Ha Hok. unfold handle_page_fault. pose proof (hyp_inv_mscratch _ _ _ Hs) as Hsc.
  apply wpx_bind. eapply wpx_ok; [by apply get_host_thread_ok|]. cbv beta.
  pose proof (hyp_inv_current _ _ _ Hs) as Hcur. rewrite Hcur.
  apply wpx_bind. eapply wpx_ok; [done|]. cbv beta.
  apply wpx_bind. eapply wpx_post; [by eapply wpx_wp, (decode_fault_ok g G s a _ Hs), Hs|].
  intros f ? [-> Hfa]. apply wpx_bind.
  eapply wpx_ok; [apply get_guest_thread_ok, (hyp_inv_serving _ _ _ Hs)|].
  apply wpx_bind. eapply wpx_post; [by apply (fault_gm_ok g G s)|].
  intros gm s1 (Hoff & Hmem1 & G1 & Hs1). apply wpx_bind.
  eapply wpx_post; [by eapply wpx_wp, (ensure_spec g G1 s1 _ gm (hi_vm _ _ _ Hs1))|].
  intros [r o] s2 (G2 & Hsub2 & Hvm2 & Hext2 & Hpost).
  assert (hyp_inv (ai := ai) g G2 s2) as Hs2.
  { eapply hyp_inv_ext; [done..|]. pose proof (hi_synced _ _ _ Hs1). unfold ensure_post in Hpost.
    repeat case_match; destruct_and?; destruct_or?; naive_solver. }
  assert (guest_mem_same s s2) as Hmem2 by (etrans; [done|]; intros x Hx; by apply Hext2).
  apply wpx_bind.
  apply wpx_post with (Q := fun _ s' => hyp_ok (ai := ai) s' /\ guest_mem_same s2 s').
  2: { intros x s' [H1 H2]. apply wpx_ret. split; [done|by etrans]. }
  assert (hyp_ok (ai := ai) s2) as Hok2 by (by exists g, G2).
  unfold ensure_post in Hpost. destruct (Z.ltb_spec gm 0x80000000) as [Hlow|Hlow].
  { destruct Hpost as [[= -> ->] _]. by apply keeps_emulate_device. }
  destruct (Z.leb_spec (2 ^ 39) gm) as [Hhigh|Hhigh].
  { destruct Hpost as [[= -> ->] _]. by apply wpx_ret. }
  destruct Hpost as (Ho & Hr & _). cbn [fst snd] in *. subst o.
  assert (wpx ub (if shadow_pt_active g then
      update_shadow_pt (shadow_page_table g) (fault_addr f) (gm + GUEST_MEMORY_OFFSET) a
    else ret r) (fun _ s' => hyp_ok (ai := ai) s' /\ guest_mem_same s2 s') s2) as Hup.
  2: { by destruct Hr as [[-> _]|[-> _]]. }
  destruct (shadow_pt_active g) eqn:Hact; [|by apply wpx_ret].
  destruct (gw_shadow _ (hi_wf _ _ _ Hs) Hact) as [_ Hsp].
  eapply wpx_post; [eapply wpx_wp, (update_shadow_pt_spec g G2 s2); try done|].
  - apply Hfa.
  - unfold HYPERVISOR_END, RAM_START, HOST_END. lia.
  - rewrite <- (Hoff eq_refl). unfold GUEST_MEMORY_OFFSET. Z.div_mod_to_equations; lia.
  - intros r' s3 H3. destruct (2 ^ 39 <=? fault_addr f).
    + destruct H3 as [-> ->]. done.
    + destruct H3 as (G3 & Hsub3 & Hvm3 & Hext3 & Hpost3). split; [|intros x Hx; by apply Hext3].
      exists g, G3. eapply hyp_inv_ext; [done..|]. destruct Hpost3 as (p & _ & _ & _ & _ & Hd & _).
      destruct Hd as [[_ ->]|(_ & Hsync & _)]; [apply Hs2|done].
Qed.

(** ** The handlers *)

Lemma keeps_resolve_instruction ia : keeps (resolve_instruction ia).
Proof.
  apply (keeps_wp any_panic). intros g G s Hs.
  eapply wp_post; [by eapply resolve_instruction_ok|]. intros r s' ->. split; [eauto|done].
Qed.

Lemma keeps_dereference ptr : keeps (dereference_instruction ptr).
Proof. unfold dereference_instruction. keeps_steps. Qed.

Lemma keeps_print_field nv : keeps (print_field nv).
Proof. unfold print_field. keeps_steps. Qed.

Hint Resolve keeps_resolve_instruction keeps_dereference keeps_print_field : keeps.

Lemma keeps_read_active r : keeps (read_active r).
Proof. unfold read_active. keeps_steps. Qed.
Lemma keeps_write_active r v : keeps (write_active r v).
Proof. unfold write_active. keeps_steps. Qed.
Lemma keeps_finish_csr a : keeps (finish_csr a).
Proof. unfold finish_csr. keeps_steps. Qed.

Hint Resolve keeps_read_active keeps_write_active keeps_finish_csr : keeps.

Lemma keeps_csrrw u a : keeps (emulate_csrrw u a).
Proof. unfold emulate_csrrw. keeps_steps. Qed.
Lemma keeps_csrrs u a : keeps (emulate_csrrs u a).
Proof. unfold emulate_csrrs. keeps_steps. Qed.

Lemma keeps_illegal p u h : keeps (illegal_instruction p u h).
Proof. unfold illegal_instruction. keeps_steps. Qed.

Lemma keeps_emulate_system u a m : emulate_system u a = Some m -> keeps m.
Proof.
  assert (keeps (flush_shadow_pagetable ;; w_csr CSR_mepc (add64 a 4))) as Hflush by keeps_steps.
  unfold emulate_system. intros H. repeat case_match; simplify_eq;
    eauto using keeps_csrrw, keeps_csrrs with keeps.
Qed.

Lemma keeps_handle_illegal : keeps handle_illegal_instruction.
Proof.
  unfold handle_illegal_instruction. keeps_step; [keeps_steps|]. keeps_step; [keeps_steps|].
  keeps_step; [keeps_steps|]. destruct a0 as [p sz]. keeps_step; [keeps_steps|].
  destruct (if opcode _ =? 0x73 then _ else _) eqn:E; [|apply keeps_illegal].
  destruct (opcode _ =? 0x73) in E; [|done]. by eapply keeps_emulate_system.
Qed.

(** A page fault followed by its report. *)
Lemma page_fault_then g G s a (k : PageFaultHandlerResult * Z -> M unit) :
  hyp_inv (ai := ai) g G s -> is_access a = true -> ub \/ guest_tables_ok g (mem s) ->
  (forall r, keeps (k r)) ->
  wpx ub (let! r := handle_page_fault a in k r)
    (fun _ s' => hyp_ok (ai := ai) s' /\ guest_mem_same s s') s.
Proof.
  intros Hs Ha Hok Hk. apply wpx_bind. eapply wpx_post; [by eapply handle_page_fault_ok|].
  intros r s1 [Hok1 Hm1]. eapply wpx_post; [by apply Hk|]. intros [] s2 [Hok2 Hm2].
  split; [done|by etrans].
Qed.

Lemma access_fault_then g G s a str (k : PageFaultHandlerResult * Z -> M unit) :
  hyp_inv (ai := ai) g G s -> is_access a = true -> ub \/ guest_tables_ok g (mem s) ->
  (forall r, keeps (k r)) ->
  wpx ub (print_string str ;; let! r := handle_page_fault a in k r)
    (fun _ s' => hyp_ok (ai := ai) s' /\ guest_mem_same s s') s.
Proof.
  intros Hs Ha Hok Hk. apply wpx_bind. eapply wpx_wp, (wp_print_string any_panic). intros s1 Hio.
  assert (mem s1 = mem s) as Hm by (by destruct Hio as (t & c & ->)).
  eapply wpx_post; [apply (page_fault_then g G s1); [by eapply hyp_inv_io|done|by rewrite Hm|done]|].
  intros [] s2 [H1 H2]. split; [done|]. intros x Hx. by rewrite H2, Hm.
Qed.

Lemma handle_guest_exception_ok g G s mcause :
  hyp_inv (ai := ai) g G s -> ub \/ guest_tables_ok g (mem s) ->
  wpx ub (handle_guest_exception mcause) (fun _ s' => hyp_ok (ai := ai) s' /\ guest_mem_same s s') s.
Proof.
  intros Hs Hok. assert (hyp_ok (ai := ai) s) as Hs' by (by exists g, G).
  unfold handle_guest_exception.
  repeat first
    [ done
    | by apply keeps_handle_illegal
    | by apply keeps_guest_exception
    | by apply keeps_panic_msg_addr
    | (eapply page_fault_then; [done..|]; intros [[] ?]; keeps_steps)
    | (eapply access_fault_then; [done..|]; intros [[] ?]; keeps_steps)
    | case_match ].
Qed.

Lemma dispatch_ok g G s :
  hyp_inv (ai := ai) g G s -> ub \/ guest_tables_ok g (mem s) ->
  wpx ub dispatch (fun _ s' => hyp_ok (ai := ai) s' /\ guest_mem_same s s') s.
Proof.
  intros Hs Hok. assert (hyp_ok (ai := ai) s) as Hs' by (by exists g, G). unfold dispatch.
  apply wpx_bind. eapply wpx_ok; [done|]. cbv beta. case_match.
  - unfold handle_interrupt. case_match; [by apply keeps_on_interrupt|by apply wpx_ret].
  - apply wpx_bind. eapply wpx_ok; [done|]. cbv beta. case_match.
    + by apply keeps_panic_msg_addr.
    + by eapply handle_guest_exception_ok.
Qed.

Lemma keeps_set_handler_stack v : keeps (set_handler_stack v).
Proof. unfold set_handler_stack. keeps_steps. Qed.

Lemma exception_ok g G s :
  hyp_inv (ai := ai) g G s -> ub \/ guest_tables_ok g (mem s) ->
  wpx ub exception (fun _ s' => hyp_ok (ai := ai) s' /\ guest_mem_same s s') s.
Proof.
  intros Hs Hok. pose proof (hyp_inv_mscratch _ _ _ Hs) as Hsc.
  pose proof (hyp_inv_current _ _ _ Hs) as Hcur. unfold exception.
  apply wpx_bind. eapply wpx_ok; [by apply get_host_thread_ok|]. cbv beta zeta.
  (* the nested stack and the suspended clock *)
  unfold set_handler_stack at 1. apply wpx_bind, wpx_bind.
  eapply wpx_ok; [by apply get_host_thread_ok|]. cbv beta.
  eapply wpx_ok; [by apply put_host_thread_ok|]. set (s1 := set_host_thread _ s).
  assert (hyp_inv (ai := ai) g G s1) as Hs1 by (by apply hyp_inv_host).
  unfold timer_suspend_virtual. apply wpx_bind, wpx_bind.
  eapply wpx_ok; [exact (get_current_guest_serving g s1 (hyp_inv_serving _ _ _ Hs1))|]. cbv beta iota.
  apply wpx_bind. eapply wpx_ok; [done|]. cbv beta.
  pose proof (hyp_inv_tick _ _ _ (S (tick s1)) Hs1) as Hs2. set (s2 := set_tick _ s1) in *.
  eapply wpx_ok; [exact (update_guest_serving g s2 _ (hyp_inv_serving _ _ _ Hs2))|].
  set (g3 := set_timer_suspended_at _ g). set (s3 := with_guest g3 s2).
  assert (hyp_inv (ai := ai) g3 G s3) as Hs3 by (by apply (hyp_inv_with_guest g)).
  apply wpx_bind. eapply wpx_post; [by apply (dispatch_ok g3 G s3)|].
  intros [] s4 [Hok4 Hm4].
  apply wpx_post with (Q := fun _ s' => hyp_ok (ai := ai) s' /\ guest_mem_same s4 s');
    [|intros [] s5 [H5 Hm5]; split; [exact H5|etrans; [exact Hm4|exact Hm5]]].
  clear Hm4. revert s4 Hok4.
  change (keeps (timer_resume_virtual ;; timer_reschedule ;; set_handler_stack (exception_handler_stack (host_thread s)))).
  keeps_step; [apply keeps_timer_resume|]. keeps_step; [apply keeps_reschedule|apply keeps_set_handler_stack].
Qed.

End trap.
