(* ===== verification/SampleGuest.v ===== *)
(** Concrete guests at an instruction of theirs, in either mode, for the examples
    of the theorems about traps. *)
From S2P Require Import Prelude Machine Sample Wp Print Pte PageAlloc Instructions Vmem Tables.
From S2P Require Import VmemSpec ShadowSpec FlushSpec WalkSpec Contexts Invariant SampleTables.
From S2P Require Import VmemTheorems PageFault Fetch.

(** ** Guest-machine mode *)

(** The guest in machine mode, with the instruction [p] at the start of its
    memory, mapped, and an address in a0. *)
Definition sample_loaded_state (p a0 : Z) : State :=
  set_host_thread (set_active_regs (<[9%nat := a0]> (replicate 31 0)) sample_host)
    (set_csr (<[CSR_mepc := 0x80000000]> (csr sample_machine_state))
      (set_mem (store64 ∅ 0x85000000 p) sample_machine_state)).
Definition sample_instr_state (p a0 : Z) : State :=
  final (ensure_guest_machine_mapped sample_host 0x80000000 (sample_loaded_state p a0)) (sample_loaded_state p a0).

Lemma sample_loaded_inv p a0 : trap_inv GUEST_THREAD_CONTEXT_INIT ∅ (sample_loaded_state p a0).
Proof.
  apply hyp_inv_host; [|reflexivity]. apply (hyp_inv_csr _ _ (set_mem (store64 ∅ 0x85000000 p) sample_machine_state)); [|done..].
  split; [|split; done|reflexivity|reflexivity|done].
  split; [reflexivity|reflexivity|reflexivity|exists []; apply alloc_refines_reset|].
  apply tables_ok_empty. intros k Hk. unfold entry, entry_addr.
  change root with 0x80010000. cbn [mem set_mem sample_machine_state]. rewrite load64_store64_other by lia. reflexivity.
Defined.

Lemma sample_instr_inv p a0 : exists G, trap_inv GUEST_THREAD_CONTEXT_INIT G (sample_instr_state p a0) /\
  active_regs (host_thread (sample_instr_state p a0)) = <[9%nat := a0]> (replicate 31 0) /\
  default 0 (csr (sample_instr_state p a0) !! CSR_mepc) = 0x80000000.
Proof.
  pose proof (sample_loaded_inv p a0) as Hs.
  pose proof (ensure_spec_total _ _ _ sample_host 0x80000000 (hi_vm _ _ _ Hs) eq_refl) as H.
  destruct (wp_run _ _ _ _ H empty_pages_left) as (r & s' & Hrun & G' & _ & Hvm & Hext & Hpost).
  unfold sample_instr_state. rewrite Hrun. exists G'. cbn [final].
  split; [|split; [rewrite (ve_host _ _ Hext); reflexivity|rewrite (ve_csr _ _ Hext); reflexivity]]. eapply hyp_inv_ext; [exact Hs|exact Hvm|exact Hext|].
  unfold ensure_post in Hpost. cbn [Z.ltb Z.leb Z.compare Pos.compare Pos.compare_cont Z.pow Z.pow_pos Pos.iter] in Hpost.
  destruct Hpost as (_ & [[_ ->]|(_ & _ & Hsync)] & _); [reflexivity|exact Hsync].
Defined.

Lemma sample_guest_instr p a0 :
  sv39_translate (mem (sample_instr_state p a0)) root 0x80000000 = Some (0x85000000, 31) ->
  instr_in (mem (sample_instr_state p a0)) 0x85000000 p ->
  guest_instr GUEST_THREAD_CONTEXT_INIT (sample_instr_state p a0) 0x80000000 0x85000000 p.
Proof.
  intros Htr Hin. split; [lia|discriminate|by exists 31| |exact Hin].
  change (0x80000000 mod 4096) with 0. destruct (instr_size_cases p); lia.
Qed.

Lemma sample_regs_ok a0 : 0 <= a0 < 2 ^ 64 -> regs_wf (<[9%nat := a0]> (replicate 31 0)).
Proof.
  intros Ha. split; [reflexivity|]. apply Forall_insert; [|exact Ha]. apply Forall_replicate. lia.
Qed.

(** ** Guest-user mode *)

(** The guest in user mode, with the instruction [p] at 0x80300120, which its own
    tables map onto itself but its shadow table does not map yet. *)
Definition sample_user_loaded (p a0 : Z) : State :=
  set_host_thread (set_active_regs (<[9%nat := a0]> (replicate 31 0)) sample_host)
    (set_csr (<[CSR_mepc := 0x80300120]> (csr sample_user_state))
      (set_mem (store64 sample_mem 0x85300120 p) sample_user_state)).

Lemma sample_user_loaded_inv p a0 : trap_inv sample_user sample_roles (sample_user_loaded p a0).
Proof.
  apply hyp_inv_host; [|reflexivity].
  apply (hyp_inv_csr _ _ (set_mem (store64 sample_mem 0x85300120 p) sample_user_state)); [|done..].
  apply hyp_inv_guest_mem; [exact sample_user_inv|]. intros x Hx. unfold HYPERVISOR_END, RAM_START, GUEST_MEMORY_OFFSET in Hx.
  symmetry. apply (store64_agree sample_mem 0x85300120 p x 1); lia.
Defined.

(** Its tables are not where the instruction is. *)
Lemma sample_loaded_view p a0 a : a + 8 <= 0x80004000 ->
  load64 (guest_view (mem (sample_user_loaded p a0))) a = load64 (guest_view sample_mem) a.
Proof.
  intros Ha. rewrite !load64_guest_view. apply load64_store64_other. unfold GUEST_MEMORY_OFFSET. lia.
Qed.

Lemma sample_user_loaded_tables p a0 gu :
  tables_in_ram (guest_view (mem (sample_user_loaded p a0))) 2 (guest_root sample_user) gu.
Proof. apply sample_tables_in_ram_with. intros a _. apply sample_loaded_view. Qed.
