(* ===== verification/TrapTheorems.v ===== *)
(** Demand paging, end to end: what handle_page_fault and the handlers built on
    it do to an access of the guest that faulted, whether a fetch, a load or a
    store, in either mode of the guest. *)
From S2P Require Import Prelude Machine Sample Wp Print Pte PageAlloc Instructions Vmem Tables.
From S2P Require Import VmemSpec ShadowSpec FlushSpec WalkSpec Contexts Invariant SampleTables.
From S2P Require Import VmemTheorems VirtCsr GuestPrivilege PrivilegeSpec Timer VirtMmDev.
From S2P Require Import PageFault Fetch SampleGuest ExcHandlers Hypervisor TrapSpec.

(** The cause with which the hart reports a page fault. *)
Definition cause_of (a : MempermIndex) : Z :=
  match a with PERMIDX_X => 12 | PERMIDX_R => 13 | _ => 15 end.

Section theorems.
Context {plat : Platform} {plat_ok : PlatformOk}.

(** What every change of the tables keeps. *)
Lemma trap_inv_ext g G G' s s' :
  trap_inv g G s -> vm_ok g G' s' -> vm_ext s s' -> tlb_synced (trace s') = true -> trap_inv g G' s'.
Proof. intros. by eapply hyp_inv_ext. Qed.

Lemma vm_ext_guest_mem s s' : vm_ext s s' -> guest_mem_same s s'.
Proof. intros H x Hx. by apply H. Qed.

(** A fault is over when handle_page_fault reports success; any other result
    ends in a panic. *)
Lemma guest_fault_handled Pn a s (Q : unit -> State -> Prop) :
  is_access a = true ->
  wp Pn (handle_page_fault a) (fun rv s' => fst rv = PFHR_SUCCESS /\ Q tt s') s ->
  wp Pn (handle_guest_exception (cause_of a)) Q s.
Proof.
  intros Ha Hw. destruct a; try discriminate; unfold handle_guest_exception, cause_of; cbv iota;
    apply wp_bind; (eapply wp_post; [exact Hw|]); intros [r v] s' [Hr HQ]; cbn [fst] in Hr; subst r;
    by apply wp_ret.
Qed.

(** The reports that end in a panic. *)
Ltac panic_reported :=
  lazymatch goal with
  | |- wp _ (panic_msg _) _ _ => apply wp_panic_msg_any; assumption
  | |- wp _ (panic_msg_addr _ _) _ _ => apply wp_panic_msg_addr_any; assumption
  | |- wp _ panic _ _ => apply wp_panic_any; assumption
  | |- wp _ (bind (r_csr _) _) _ _ => apply wp_bind, wp_gets; cbv beta; panic_reported
  | H : mscratch_ok ?s |- wp _ (bind (print_string _) _) _ ?s =>
      let H1 := fresh in apply wp_bind, wp_print_string; intros ? H1; apply (mscratch_ok_io _ _ H1) in H; panic_reported
  | H : mscratch_ok ?s |- wp _ (bind (print_addr _) _) _ ?s =>
      let H1 := fresh in apply wp_bind, wp_print_addr; intros ? H1; apply (mscratch_ok_io _ _ H1) in H; panic_reported
  end.

Lemma guest_fault_panics a s :
  is_access a = true ->
  wp any_panic (handle_page_fault a) (fun rv s' => fst rv <> PFHR_SUCCESS /\ mscratch_ok s') s ->
  exists s', handle_guest_exception (cause_of a) s = Panic s'.
Proof.
  intros Ha Hw. apply wp_panics. destruct a; try discriminate; unfold handle_guest_exception, cause_of; cbv iota;
    apply wp_bind; (eapply wp_post; [exact Hw|]); intros [r v] s' [Hr Hsc]; cbn [fst] in Hr;
    (destruct r; [by destruct Hr| | |]); panic_reported.
Qed.

(** What handle_page_fault does with an access it has decoded. *)
Definition resolve_fault (a : MempermIndex) (s : State) (g : GuestThreadContext) (f : FaultAccess)
    (gm : Z) : M PageFaultHandlerResult :=
  let! r := ensure_guest_machine_mapped (host_thread s) gm in
  match r with
  | (PFHR_TOO_LOW, _) => emulate_device a (trap_pc s) gm f
  | (PFHR_TOO_HIGH, _) => ret PFHR_TOO_HIGH
  | (outcome, Some fault_hm_addr) =>
      if shadow_pt_active g then update_shadow_pt (shadow_page_table g) (fault_addr f) fault_hm_addr a
      else ret outcome
  | (_, None) => undef
  end.

Lemma page_fault_decoded g G s a f :
  trap_inv g G s -> guest_access g s a f ->
  handle_page_fault a s =
    (let! gm := fault_gm a (host_thread s) g (fault_addr f) in
     let! res := resolve_fault a s g f gm in ret (res, fault_addr f)) s.
Proof.
  intros Hs Hacc. pose proof (hyp_inv_serving _ _ _ Hs) as (Hsc & Hcur & Hg).
  unfold handle_page_fault. erewrite bind_ok by (by apply get_host_thread_ok).
  erewrite bind_ok by done.
  erewrite bind_ok by exact (decode_access_run (ai := alloc_inv) g G s a f (hi_vm _ _ _ Hs) Hacc).
  rewrite Hcur. erewrite bind_ok by (by apply get_guest_thread_ok).
  unfold bind. destruct (fault_gm a (host_thread s) g (fault_addr f) s) as [gm s1| | |]; [|done..].
  unfold resolve_fault, bind. by destruct (ensure_guest_machine_mapped (host_thread s) gm s1).
Qed.

(** Composition: the address, then what is done about it. *)
Lemma page_fault_wp Pn g G s a f (Q : PageFaultHandlerResult * Z -> State -> Prop) :
  trap_inv g G s -> guest_access g s a f ->
  wp Pn (fault_gm a (host_thread s) g (fault_addr f)) (fun gm =>
    wp Pn (resolve_fault a s g f gm) (fun res s' => Q (res, fault_addr f) s')) s ->
  wp Pn (handle_page_fault a) Q s.
Proof.
  intros Hs Hacc Hw. unfold wp at 1. rewrite (page_fault_decoded g G s a f Hs Hacc).
  change (wp Pn (let! gm := fault_gm a (host_thread s) g (fault_addr f) in
    let! res := resolve_fault a s g f gm in ret (res, fault_addr f)) Q s).
  wp_step. eapply wp_post; [exact Hw|]. intros gm s1 H1. cbv beta in H1. wp_step.
  eapply wp_post; [exact H1|]. intros res s2 H2. by apply wp_ret.
Qed.

(** ** The guest-physical address *)

(** The guest's own tables, which lie in its memory, map [gu] to [gm] by a
    superpage that user mode may use. *)
Definition user_maps (g : GuestThreadContext) (m : mem_t) (gu gm : Z) : Prop :=
  tables_in_ram (guest_view m) 2 (guest_root g) gu /\
  exists l e, guest_leaf g m gu = Some (S l, e) /\ has_perm (permissions e) PERMIDX_U = true /\
    gm = add64 (numeric_address e) (gu mod sv39_span (S l)).

(** The guest-physical address of [va] in the guest's mode. *)
Definition guest_physical (g : GuestThreadContext) (m : mem_t) (va gm : Z) : Prop :=
  if shadow_pt_active g then user_maps g m va gm else gm = va.

(** A walk may take two pages, in user mode only. *)
Definition walk_lacks (g : GuestThreadContext) (n : Z) (G : gmap Z PageRole) : State -> Prop :=
  fun s => shadow_pt_active g = true /\ pool_lacks n G s.

Lemma fault_gm_run g G s a va gm :
  trap_inv g G s -> guest_physical g (mem s) va gm ->
  wp (walk_lacks g 2 G) (fault_gm a (host_thread s) g va) (fun r s' =>
    r = gm /\ walked (ai := alloc_inv) 2 g G s s' /\ (shadow_pt_active g = false -> s' = s)) s.
Proof.
  intros Hs Hgm. unfold guest_physical, fault_gm, walk_lacks in *. destruct (shadow_pt_active g); cbn [negb].
  2: { apply wp_ret. subst gm. split; [done|]. split; [apply walked_self, Hs|done]. }
  destruct Hgm as (Hram & l & e & Hl & HU & ->). unfold try_resolve_gu_to_gm. wp_step.
  eapply wp_mono.
  { apply (try_resolve_loop_spec (ai := alloc_inv) 2 WALK_FUEL g G s (mem s) (host_thread s) va (guest_root g)
      (perm_field (PERMBIT PERMIDX_V)) (S l) e); try done; [apply Hs|exact (hyp_inv_current _ _ _ Hs)]. }
  - intros r s1 [-> Hw]. by apply wp_ret.
  - intros s1 H. by split.
Qed.

Lemma walked_inv n g G s s' :
  trap_inv g G s -> walked (ai := alloc_inv) n g G s s' ->
  exists G', grows n G G' /\ trap_inv g G' s' /\ vm_ext s s'.
Proof.
  intros Hs [Hsync _ (G' & Hg & Hinv & Hext)]. exists G'. split; [done|]. split; [|done].
  eapply trap_inv_ext; [done..|]. apply Hsync, Hs.
Qed.

Lemma user_maps_offset g m va gm : user_maps g m va gm -> in_u64 gm /\ gm mod 4096 = va mod 4096.
Proof.
  intros (_ & l & e & Hl & _ & ->). destruct (sv39_leaf_unpacked _ _ _ _ _ _ Hl) as [Hlvl Hal].
  by apply (resolved_offset (S l) _ va Hlvl Hal).
Qed.

(** ** Memory *)

(** The host address of guest memory. *)
Lemma gm_in_host gm : 0x80000000 <= gm < 2 ^ 39 -> HYPERVISOR_END <= gm + GUEST_MEMORY_OFFSET < HOST_END.
Proof. unfold HYPERVISOR_END, HOST_END, RAM_START. lia. Qed.

Lemma gm_offset gm va : gm mod 4096 = va mod 4096 -> va mod 4096 = (gm + GUEST_MEMORY_OFFSET) mod 4096.
Proof. unfold GUEST_MEMORY_OFFSET. Z.div_mod_to_equations. lia. Qed.

(** Guest memory is mapped in the machine table. *)
Lemma ensure_in_ram g G s gm :
  trap_inv g G s -> 0x80000000 <= gm < 2 ^ 39 ->
  wp (pool_lacks 1 G) (ensure_guest_machine_mapped (host_thread s) gm) (fun r s' =>
    (r = (PFHR_SUCCESS, Some (gm + GUEST_MEMORY_OFFSET)) /\ machine_entry (mem s) gm = 0 \/
     r = (PFHR_NOT_CHANGED, Some (gm + GUEST_MEMORY_OFFSET)) /\ machine_entry (mem s) gm <> 0) /\
    exists G', grows 1 G G' /\ trap_inv g G' s' /\ vm_ext s s' /\
      sv39_translate (mem s') root gm = Some (gm + GUEST_MEMORY_OFFSET, 31) /\
      (shadow_page_table g <> 0 -> forall va,
         shadow_entry (mem s') (shadow_page_table g) va = shadow_entry (mem s) (shadow_page_table g) va)) s.
Proof.
  intros Hs Hgm. eapply wp_post; [exact (ensure_spec_total g G s _ gm (hi_vm _ _ _ Hs) (hyp_inv_current _ _ _ Hs))|].
  intros [r o] s1 (G1 & Hg & Hvm1 & Hext & Hpost). unfold ensure_post in Hpost.
  rewrite (proj2 (Z.ltb_ge _ _)), (proj2 (Z.leb_gt _ _)) in Hpost by lia.
  destruct Hpost as (Ho & Hr & Hne & _ & Hsh). cbn [fst snd] in *. subst o. split.
  { destruct Hr as [[-> ->]|(-> & ? & _)]; [by right|by left]. }
  exists G1. split; [done|]. split; [|split; [done|split; [|done]]].
  - eapply trap_inv_ext; [done..|]. destruct Hr as [[_ ->]|(_ & _ & Hsync)]; [apply Hs|done].
  - rewrite (machine_translate_entry _ _ _ _ (vi_tables _ _ _ Hvm1)) by lia. by rewrite (proj2 (Z.eqb_neq _ _)).
Qed.

Lemma machine_unmapped g G s gm :
  trap_inv g G s -> 0x80000000 <= gm < 2 ^ 39 ->
  (sv39_translate (mem s) root gm = None <-> machine_entry (mem s) gm = 0).
Proof.
  intros Hs Hgm. rewrite (machine_translate_entry _ _ _ _ (vi_tables _ _ _ (hi_vm _ _ _ Hs))) by lia.
  by destruct (Z.eqb_spec (machine_entry (mem s) gm) 0).
Qed.

(** In guest-machine mode the address is the guest-physical one. *)
Lemma machine_page_fault Pn g G s a f (Q : PageFaultHandlerResult * Z -> State -> Prop) :
  trap_inv g G s -> shadow_pt_active g = false -> guest_access g s a f ->
  wp Pn (ensure_guest_machine_mapped (host_thread s) (fault_addr f)) (fun r s' =>
    fst r <> PFHR_TOO_LOW /\ (snd r <> None \/ fst r = PFHR_TOO_HIGH) /\ Q (fst r, fault_addr f) s') s ->
  wp Pn (handle_page_fault a) Q s.
Proof.
  intros Hs Ha Hacc Hw. apply (page_fault_wp _ g G s a f _ Hs Hacc). unfold fault_gm. rewrite Ha. cbn [negb].
  apply wp_ret. unfold resolve_fault. rewrite Ha. wp_step. eapply wp_post; [exact Hw|].
  intros [[] [hm|]] s1 (H1 & H2 & HQ); cbn [fst snd] in *; try done; try (by apply wp_ret); by destruct H2.
Qed.

Lemma machine_page_mapped g G s a f :
  trap_inv g G s -> shadow_pt_active g = false -> guest_access g s a f ->
  0x80000000 <= fault_addr f < 2 ^ 39 -> sv39_translate (mem s) root (fault_addr f) = None ->
  wp (pool_lacks 1 G) (handle_page_fault a) (fun rv s' => fst rv = PFHR_SUCCESS /\
    exists G', trap_inv g G' s' /\ vm_ext s s' /\
      sv39_translate (mem s') root (fault_addr f) = Some (fault_addr f + GUEST_MEMORY_OFFSET, 31)) s.
Proof.
  intros Hs Ha Hacc Hgm Hnone. apply (machine_page_fault _ g G s a f _ Hs Ha Hacc).
  eapply wp_post; [by apply (ensure_in_ram g G s (fault_addr f))|].
  intros r s1 [Hr (G1 & _ & Hs1 & Hext & Htr & _)]. apply (machine_unmapped g G s _ Hs Hgm) in Hnone.
  destruct Hr as [[-> _]|[_ Hne]]; [|done]. split; [done|]. split; [by left|]. split; [done|]. by exists G1.
Qed.

(** [C7] Faults of a fetch, a load or a store, of any integer encoding, in
    guest-machine mode.  An address in guest memory that is not mapped is mapped
    at its fixed offset with every permission; the program counter and all CSRs
    and registers are kept, so that the guest retries the instruction with the
    table permitting it; the only way to panic is that no page is left.  A fault at an address that is mapped
    already, such as an access that runs over the end of the mapping its first
    byte is in, and an address beyond Sv39 stop the hart. *)
Theorem machine_fault_mapped g G s a f :
  trap_inv g G s -> shadow_pt_active g = false -> guest_access g s a f ->
  (let gm := fault_addr f in
   (0x80000000 <= gm < 2 ^ 39 -> sv39_translate (mem s) root gm = None ->
    wp (pool_lacks 1 G) (handle_guest_exception (cause_of a)) (fun _ s' => exists G', trap_inv g G' s' /\
      guest_mem_same s s' /\ csr s' = csr s /\ host_thread s' = host_thread s /\
      sv39_translate (mem s') root gm = Some (gm + GUEST_MEMORY_OFFSET, 31)) s) /\
   (2 ^ 39 <= gm \/ 0x80000000 <= gm /\ sv39_translate (mem s) root gm <> None ->
    exists s', handle_guest_exception (cause_of a) s = Panic s')).
Proof.
  intros Hs Ha Hacc. cbv zeta. set (gm := fault_addr f). pose proof (guest_access_kind _ _ _ _ Hacc) as Hkind. split.
  - intros Hgm Hnone. apply guest_fault_handled; [done|].
    eapply wp_post; [by apply (machine_page_mapped g G s a f)|].
    intros rv s1 [Hr (G1 & Hs1 & Hext & Htr)]. split; [done|]. exists G1.
    split; [done|]. split; [by apply vm_ext_guest_mem|]. split; [apply Hext|]. split; [apply Hext|done].
  - intros Hbad. apply guest_fault_panics; [done|]. apply (machine_page_fault _ g G s a f _ Hs Ha Hacc). fold gm.
    destruct (Z.leb_spec (2 ^ 39) gm) as [Hhigh|Hlow].
    + eapply wp_post; [exact (ensure_spec g G s _ gm (hi_vm _ _ _ Hs) (hyp_inv_current _ _ _ Hs))|].
      intros r s1 (G1 & _ & Hvm & _ & Hpost). unfold ensure_post in Hpost.
      rewrite (proj2 (Z.ltb_ge _ _)), (proj2 (Z.leb_le _ _)) in Hpost by lia. destruct Hpost as [-> _].
      split; [done|]. split; [by right|]. split; [done|apply Hvm].
    + destruct Hbad as [|[Hram Hsome]]; [lia|]. eapply wp_any.
      eapply wp_post; [by apply (ensure_in_ram g G s gm)|].
      intros r s1 [Hr (G1 & _ & Hs1 & _)]. destruct Hr as [[_ He]|[-> _]].
      { destruct Hsome. by apply (machine_unmapped g G s gm). }
      split; [done|]. split; [by left|]. split; [done|]. exact (hyp_inv_mscratch _ _ _ Hs1).
Qed.

(** The shadow mapping of a page for an access not yet permitted. *)
Lemma shadow_access_mapped g G s a gu gm :
  trap_inv g G s -> shadow_page_table g <> 0 -> is_access a = true ->
  0 <= gu < 2 ^ 39 -> 0x80000000 <= gm < 2 ^ 39 -> gm mod 4096 = gu mod 4096 ->
  (forall p, sv39_translate (mem s) (shadow_page_table g) gu = Some (gm + GUEST_MEMORY_OFFSET, p) ->
     has_perm p a = false) ->
  wp (pool_lacks 2 G) (update_shadow_pt (shadow_page_table g) gu (gm + GUEST_MEMORY_OFFSET) a)
    (fun res s' => res = PFHR_SUCCESS /\ exists G' p, trap_inv g G' s' /\ vm_ext s s' /\
      sv39_translate (mem s') (shadow_page_table g) gu = Some (gm + GUEST_MEMORY_OFFSET, p) /\
      has_perm p a = true /\ has_perm p PERMIDX_U = true) s.
Proof.
  intros Hs Hsp Ha Hgu Hgm Hoff Hnew.
  eapply wp_post; [exact (update_shadow_pt_total g G s gu (gm + GUEST_MEMORY_OFFSET) a (hi_vm _ _ _ Hs)
    Hsp (proj1 Hgu) (gm_in_host gm Hgm) (gm_offset gm gu Hoff) Ha)|].
  intros res s3 H3. cbv beta in H3. rewrite (proj2 (Z.leb_gt _ _)) in H3 by lia.
  destruct H3 as (G3 & _ & Hvm3 & Hext3 & p & Htr & Hp & _ & Hpa & Hres & _).
  destruct Hres as [[_ ->]|(-> & Hsync & _)]; [rewrite (Hnew _ Htr) in Hpa; discriminate|].
  split; [done|]. exists G3, p. split; [by eapply trap_inv_ext|].
  split; [done|]. split; [done|]. split; [done|by apply shadow_perms_user].
Qed.

(** The walk of the guest's tables, the machine mapping and the shadow table. *)
Lemma user_page_fault g G s a f gm :
  trap_inv g G s -> shadow_pt_active g = true -> guest_access g s a f ->
  fault_addr f < 2 ^ 39 -> user_maps g (mem s) (fault_addr f) gm -> 0x80000000 <= gm < 2 ^ 39 ->
  (forall p, sv39_translate (mem s) (shadow_page_table g) (fault_addr f) = Some (gm + GUEST_MEMORY_OFFSET, p) ->
     has_perm p a = false) ->
  wp (pool_lacks 5 G) (handle_page_fault a) (fun rv s' => fst rv = PFHR_SUCCESS /\
    exists G' p, trap_inv g G' s' /\ vm_ext s s' /\
      sv39_translate (mem s') (shadow_page_table g) (fault_addr f) = Some (gm + GUEST_MEMORY_OFFSET, p) /\
      has_perm p a = true /\ has_perm p PERMIDX_U = true) s.
Proof.
  intros Hs Ha Hacc. set (gu := fault_addr f). intros Hgu Hmaps Hgm Hnew.
  destruct (user_maps_offset _ _ _ _ Hmaps) as [_ Hoff].
  destruct (gw_shadow _ (hi_wf _ _ _ Hs) Ha) as [_ Hsp].
  pose proof (guest_access_addr _ _ _ _ (hi_mepc _ _ _ Hs) Hacc) as Hgu0. fold gu in Hgu0.
  apply (page_fault_wp _ g G s a f _ Hs Hacc). fold gu.
  eapply wp_mono; [apply (fault_gm_run g G s a gu gm Hs); unfold guest_physical; by rewrite Ha| |].
  2: { intros s' [_ H]. unfold pool_lacks in *. lia. }
  intros r s1 (-> & Hw & _). destruct (walked_inv _ _ _ _ _ Hs Hw) as (G1 & Hg1 & Hs1 & Hext1).
  unfold resolve_fault. rewrite Ha, <- (ve_host _ _ Hext1). wp_step.
  eapply wp_mono; [by apply (ensure_in_ram g G1 s1 gm)| |intros; by eapply pool_lacks_grown].
  intros r s2 [Hr (G2 & Hg2 & Hs2 & Hext2 & _ & Hsh2)].
  pose proof (grows_trans _ _ _ _ _ Hg1 Hg2) as Hg12.
  cut (forall Q : PageFaultHandlerResult -> State -> Prop,
    (forall G' p s', trap_inv g G' s' -> vm_ext s2 s' ->
       sv39_translate (mem s') (shadow_page_table g) gu = Some (gm + GUEST_MEMORY_OFFSET, p) ->
       has_perm p a = true -> has_perm p PERMIDX_U = true -> Q PFHR_SUCCESS s') ->
    wp (pool_lacks 5 G) (update_shadow_pt (shadow_page_table g) gu (gm + GUEST_MEMORY_OFFSET) a) Q s2).
  { intros Hup. destruct Hr as [[-> _]|[-> _]]; apply Hup; intros G3 p s3 Hs3 Hext3 Htr Hp HU.
    all: split; [done|]; exists G3, p; split; [done|]; split; [|done].
    all: exact (transitivity Hext1 (transitivity Hext2 Hext3)). }
  intros Q HQ. eapply wp_mono; [apply (shadow_access_mapped g G2 s2); try done| |intros; by eapply pool_lacks_grown].
  - by eapply guest_access_kind.
  - unfold in_u64 in *. lia.
  - intros p Hp. apply Hnew. rewrite <- Hp. symmetry.
    eapply shadow_views; [apply (hi_vm _ _ _ Hs)|apply (hi_vm _ _ _ Hs2)|done|].
    rewrite Hsh2 by done. by apply Hw.
  - intros res s3 (-> & G3 & p & Hs3 & Hext3 & Htr & Hp & HU). by eapply HQ.
Qed.

(** Either mode: the table in use permits the access afterwards. *)
Lemma access_mapped g G s a f gm :
  trap_inv g G s -> guest_access g s a f -> fault_addr f < 2 ^ 39 ->
  guest_physical g (mem s) (fault_addr f) gm -> 0x80000000 <= gm < 2 ^ 39 ->
  (forall p, sv39_translate (mem s) (active_table g) (fault_addr f) = Some (gm + GUEST_MEMORY_OFFSET, p) ->
     has_perm p a = false) ->
  wp (pool_lacks 5 G) (handle_guest_exception (cause_of a)) (fun _ s' =>
    exists G' p, trap_inv g G' s' /\ vm_ext s s' /\
      sv39_translate (mem s') (active_table g) (fault_addr f) = Some (gm + GUEST_MEMORY_OFFSET, p) /\
      has_perm p a = true /\ has_perm p PERMIDX_U = true) s.
Proof.
  intros Hs Hacc Hva Hphys Hgm Hnew. pose proof (guest_access_kind _ _ _ _ Hacc) as Hkind.
  apply guest_fault_handled; [done|].
  unfold guest_physical, active_table in *. destruct (shadow_pt_active g) eqn:Ha.
  { by apply (user_page_fault g G s a f gm). }
  subst gm. eapply wp_mono; [apply (machine_page_mapped g G s a f); try done| |unfold pool_lacks; intros; lia].
  - rewrite (machine_translate_entry _ _ _ _ (vi_tables _ _ _ (hi_vm _ _ _ Hs))) in * by lia.
    destruct (_ =? 0); [done|]. specialize (Hnew 31 eq_refl). by destruct a.
  - intros rv s' [Hr (G' & Hs' & Hext & Htr)]. split; [done|]. exists G', 31.
    split; [done|]. split; [done|]. split; [done|]. by destruct a.
Qed.

(** A page of 4 KiB in the guest's tables is reported as unmapped. *)
Lemma user_small_page_panics g G s a f e :
  trap_inv g G s -> shadow_pt_active g = true -> guest_access g s a f ->
  tables_in_ram (guest_view (mem s)) 2 (guest_root g) (fault_addr f) ->
  guest_leaf g (mem s) (fault_addr f) = Some (0%nat, e) -> has_perm (permissions e) PERMIDX_U = true ->
  exists s', handle_guest_exception (cause_of a) s = Panic s'.
Proof.
  intros Hs Ha Hacc Hram Hl HU. apply guest_fault_panics; [by eapply guest_access_kind|].
  apply (page_fault_wp _ g G s a f _ Hs Hacc). unfold fault_gm. rewrite Ha. cbn [negb].
  unfold try_resolve_gu_to_gm. wp_step. eapply wp_any, wp_post.
  { apply (try_resolve_loop_spec (ai := alloc_inv) 2 WALK_FUEL g G s (mem s) (host_thread s) (fault_addr f)
      (guest_root g) (perm_field (PERMBIT PERMIDX_V)) 0 e); try done; [apply Hs|exact (hyp_inv_current _ _ _ Hs)]. }
  intros r s1 [-> Hw]. destruct (walked_inv _ _ _ _ _ Hs Hw) as (G1 & _ & Hs1 & _). cbn [resolved_leaf].
  apply wp_panic_msg; [exact (hyp_inv_mscratch _ _ _ Hs1)|done].
Qed.

(** [C6] Demand paging in guest-user mode, the composition of the walk of the
    guest's tables, the machine mapping and the shadow table: a fetch, a load or
    a store, of any integer encoding, that the guest's own tables map, by a
    superpage, to an address of its memory, and that its shadow table does not
    permit yet, is resolved by a shadow mapping to the host address of that
    memory that permits the access from user mode; registers, CSRs and guest
    memory are kept, so that the instruction is retried; the only way to panic
    is that fewer than five pages are left.  An address that the guest's
    tables map by a page of 4 KiB stops the hart. *)
Theorem user_fault_mapped g G s a f :
  trap_inv g G s -> shadow_pt_active g = true -> guest_access g s a f ->
  (let gu := fault_addr f in
   (forall gm, gu < 2 ^ 39 -> user_maps g (mem s) gu gm -> 0x80000000 <= gm < 2 ^ 39 ->
    (forall p, sv39_translate (mem s) (shadow_page_table g) gu = Some (gm + GUEST_MEMORY_OFFSET, p) ->
       has_perm p a = false) ->
    wp (pool_lacks 5 G) (handle_guest_exception (cause_of a)) (fun _ s' => exists G' p, trap_inv g G' s' /\
      guest_mem_same s s' /\ csr s' = csr s /\ host_thread s' = host_thread s /\
      sv39_translate (mem s') (shadow_page_table g) gu = Some (gm + GUEST_MEMORY_OFFSET, p) /\
      has_perm p a = true /\ has_perm p PERMIDX_U = true) s) /\
   (forall e, tables_in_ram (guest_view (mem s)) 2 (guest_root g) gu -> guest_leaf g (mem s) gu = Some (0%nat, e) ->
    has_perm (permissions e) PERMIDX_U = true -> exists s', handle_guest_exception (cause_of a) s = Panic s')).
Proof.
  intros Hs Ha Hacc. cbv zeta. split; [|intros e; by apply (user_small_page_panics g G)].
  intros gm Hgu Hmaps Hgm Hnew. apply guest_fault_handled; [by eapply guest_access_kind|].
  eapply wp_post; [by apply (user_page_fault g G s a f gm)|].
  intros rv s' [Hr (G' & p & Hs' & Hext & H)]. split; [done|]. exists G', p. split; [done|].
  split; [by apply vm_ext_guest_mem|]. split; [apply Hext|]. split; [apply Hext|done].
Qed.

End theorems.

(** ** Witnesses *)

(** ld a1, 0(a0) *)
Definition ld_a1 : LoadInstr := LOAD MAW_64BIT false 11 10 0.

(** The load of a guest in machine mode from a part of its memory that is not
    mapped yet, and the one that is reported at the same address again. *)
Lemma sample_load_access a0 (s := sample_instr_state (encode_load ld_a1) a0) :
  sv39_translate (mem s) root 0x80000000 = Some (0x85000000, 31) ->
  instr_in (mem s) 0x85000000 (encode_load ld_a1) ->
  guest_access GUEST_THREAD_CONTEXT_INIT s PERMIDX_R (access_of s (load_operands false ld_a1)) /\
  fault_addr (access_of s (load_operands false ld_a1)) = u64 (a0 + 0).
Proof.
  destruct (sample_instr_inv (encode_load ld_a1) a0) as (G & _ & Hregs & Hpc). intros Htr Hin. split.
  - apply (access_load _ _ ld_a1 0x85000000); [reflexivity|]. unfold trap_pc, s. rewrite Hpc.
    by apply sample_guest_instr.
  - unfold access_of, s. cbn [fault_addr]. by rewrite Hregs.
Qed.

Lemma machine_fault_mapped_witness :
  (exists s', handle_guest_exception 13 (sample_instr_state (encode_load ld_a1) 0x80400008) = Ok tt s' /\
     sv39_translate (mem s') root 0x80400008 = Some (0x85400008, 31)) /\
  (exists s', handle_guest_exception 13 (sample_instr_state (encode_load ld_a1) 0x801FFFFC) = Panic s').
Proof.
  split.
  - destruct (sample_instr_inv (encode_load ld_a1) 0x80400008) as (G & Hs & _).
    destruct (sample_load_access 0x80400008 ltac:(vm_compute; reflexivity) ltac:(vm_compute; reflexivity)) as [Hacc Ha].
    destruct (machine_fault_mapped _ G _ PERMIDX_R _ Hs eq_refl Hacc) as [H _]. rewrite Ha in H.
    destruct (wp_returns _ _ _ _ (H ltac:(split; [vm_compute; discriminate|vm_compute; reflexivity])
      ltac:(vm_compute; reflexivity))) as ([] & s' & Hrun & G' & _ & _ & _ & _ & Htr); [vm_compute; reflexivity|].
    exists s'. split; [exact Hrun|exact Htr].
  - destruct (sample_instr_inv (encode_load ld_a1) 0x801FFFFC) as (G & Hs & _).
    destruct (sample_load_access 0x801FFFFC ltac:(vm_compute; reflexivity) ltac:(vm_compute; reflexivity)) as [Hacc Ha].
    destruct (machine_fault_mapped _ G _ PERMIDX_R _ Hs eq_refl Hacc) as [_ H]. rewrite Ha in H.
    apply H. right. split; [vm_compute; discriminate|vm_compute; discriminate].
Defined.

(** The mappings of the guest in user mode: its own and, none yet, the shadow. *)
Lemma sample_user_loaded_maps p a0 : user_maps sample_user (mem (sample_user_loaded p a0)) 0x80300120 0x80300120.
Proof.
  split; [apply sample_user_loaded_tables|]. exists 1%nat, (unpack_pt_entry sample_guest_leaf).
  split; [|split; reflexivity]. unfold guest_leaf. change (guest_root sample_user) with 0x80001000.
  cbn [sv39_leaf]. rewrite sample_loaded_view by (vm_compute; discriminate). vm_compute. reflexivity.
Qed.

Lemma sample_user_loaded_unmapped p a0 : sv39_translate (mem (sample_user_loaded p a0)) sample_root 0x80300120 = None.
Proof.
  unfold sv39_translate. cbn [sv39_leaf].
  assert (load64 (mem (sample_user_loaded p a0)) (entry_addr sample_root (vpn 2 0x80300120)) = 0) as ->; [|reflexivity].
  etrans; [apply load64_store64_other; left; vm_compute; discriminate|]. vm_compute. reflexivity.
Qed.

(** The fetch of a guest in user mode of an instruction not mapped yet. *)
Lemma user_fault_mapped_witness :
  (exists s' p, handle_guest_exception 12 (sample_user_loaded 0x13 0) = Ok tt s' /\
     sv39_translate (mem s') sample_root 0x80300120 = Some (0x85300120, p) /\ has_perm p PERMIDX_X = true) /\
  (exists s', handle_guest_exception 12
     (set_csr (<[CSR_mepc := 0xC0000000]> (csr sample_user_state)) sample_user_state) = Panic s').
Proof.
  split.
  - destruct (user_fault_mapped sample_user sample_roles (sample_user_loaded 0x13 0) PERMIDX_X _
      (sample_user_loaded_inv 0x13 0) eq_refl (access_fetch _ _)) as [H _].
    change (fault_addr _) with 0x80300120 in H.
    specialize (H 0x80300120 ltac:(reflexivity) (sample_user_loaded_maps _ _)
      ltac:(split; [discriminate|reflexivity]) ltac:(vm_compute; discriminate)).
    destruct (wp_run _ _ _ _ H) as ([] & s' & Hrun & G' & p & _ & _ & _ & _ & Htr & Hp & _).
    { intros s'. unfold pool_lacks, MAX_ALLOCATEABLE_PAGES, sample_roles. rewrite map_size_singleton. lia. }
    exists s', p. split; [exact Hrun|split; [exact Htr|exact Hp]].
  - destruct (user_fault_mapped sample_user sample_roles
      (set_csr (<[CSR_mepc := 0xC0000000]> (csr sample_user_state)) sample_user_state) PERMIDX_X _
      (hyp_inv_csr _ _ _ CSR_mepc 0xC0000000 sample_user_inv ltac:(done) ltac:(done) ltac:(done)) eq_refl
      (access_fetch _ _)) as [_ H].
    exact (H (unpack_pt_entry (0x80004 * 1024 + 0xDF)) (sample_tables_in_ram _) ltac:(vm_compute; reflexivity) eq_refl).
Defined.
