(* ===== verification/EmulationTheorems.v ===== *)
(** Trap and emulate, end to end: an instruction of the guest that traps, read
    from the guest's memory, decoded and carried out on the guest's behalf. *)
From S2P Require Import Prelude Machine Sample Wp Print Pte PageAlloc Instructions Vmem Tables.
From S2P Require Import VmemSpec ShadowSpec FlushSpec WalkSpec Contexts Invariant SampleTables.
From S2P Require Import VmemTheorems VirtCsr GuestPrivilege PrivilegeSpec Timer VirtMmDev.
From S2P Require Import PageFault Fetch SampleGuest.
From S2P Require Import ExcHandlers Hypervisor TrapSpec TrapTheorems.

(** ** Loads and stores to devices *)

(** The register after a load of [v]: extended from the width of the access. *)
Definition load_result (w : MemoryAccessWidth) (is_signed : bool) (v : Z) : Z :=
  if is_signed then u64 (sext (width_bits w) v) else v mod 2 ^ width_bits w.

Lemma low_bits_mod w old v : low_bits w old v mod 2 ^ width_bits w = v mod 2 ^ width_bits w.
Proof.
  unfold low_bits. assert (0 < 2 ^ width_bits w) by (destruct w; done).
  rewrite (Z.mod_eq old) by lia.
  replace (old - _ + _) with (v mod 2 ^ width_bits w + old / 2 ^ width_bits w * 2 ^ width_bits w) by lia.
  by rewrite Z.mod_add, Z.mod_mod by lia.
Qed.

(** [reset_upper_bits] makes of the partial write what the load should be. *)
Lemma reset_upper_bits_low w is_signed old v :
  0 <= old < 2 ^ 64 -> reset_upper_bits (low_bits w old v) w is_signed = load_result w is_signed v.
Proof.
  intros Hold. pose proof (low_bits_mod w old v) as Hm. unfold load_result.
  destruct w; cbn [reset_upper_bits width_bits] in *; unfold u8, u16, u32.
  1-3: destruct is_signed; [unfold sext; by rewrite Hm|exact Hm].
  assert (low_bits MAW_64BIT old v = v mod 2 ^ 64) as ->.
  { unfold low_bits. cbn [width_bits]. rewrite (Z.mod_small old) by done. lia. }
  destruct is_signed; [|done]. unfold u64, sext. case_match; [by rewrite Z.mod_mod|].
  replace (v mod 2 ^ 64 - 2 ^ 64) with (v mod 2 ^ 64 + -1 * 2 ^ 64) by lia.
  by rewrite Z.mod_add, Z.mod_mod.
Qed.

Section devices.
Context {plat : Platform} {plat_ok : PlatformOk}.

(** Every device lies below RAM. *)
Lemma load_map_low addr w : load_map addr = Some w -> addr < 0x80000000.
Proof. unfold load_map. repeat case_match; try done; lia. Qed.
Lemma store_map_low addr w : store_map addr = Some w -> addr < 0x80000000.
Proof. unfold store_map. repeat case_match; try done; lia. Qed.

(** The access is the device's own. *)
Lemma access_result_own w : access_result (Some w) w = VMMAR_SUCCESS.
Proof. unfold access_result. by rewrite bool_decide_eq_false_2 by (by intros []). Qed.

(** A fault on an access below RAM: in user mode the address is first found in
    the guest's tables, which may take pages for machine tables; then the
    device is emulated. *)
Lemma device_fault_wp g G s a f gm (Q : unit -> State -> Prop) :
  trap_inv g G s -> guest_access g s a f -> guest_physical g (mem s) (fault_addr f) gm -> gm < 0x80000000 ->
  (forall G1 s1, trap_inv g G1 s1 -> vm_ext s s1 -> (shadow_pt_active g = false -> s1 = s) ->
     exists s2, emulate_device a (trap_pc s) gm f s1 = Ok PFHR_SUCCESS s2 /\ Q tt s2) ->
  wp (walk_lacks g 2 G) (handle_guest_exception (cause_of a)) Q s.
Proof.
  intros Hs Hacc Hgm Hlow Hdev. apply guest_fault_handled; [by eapply guest_access_kind|].
  apply (page_fault_wp _ g G s a f _ Hs Hacc).
  eapply wp_post; [by apply (fault_gm_run g G s a (fault_addr f) gm)|].
  intros r s1 (-> & Hw & Hsame). destruct (walked_inv _ _ _ _ _ Hs Hw) as (G1 & _ & Hs1 & Hext1).
  destruct (Hdev G1 s1 Hs1 Hext1 Hsame) as (s2 & Hrun & HQ).
  eapply wp_ok; [|split; [reflexivity|exact HQ]].
  unfold resolve_fault, ensure_guest_machine_mapped. rewrite (proj2 (Z.ltb_lt _ _)) by lia. exact Hrun.
Qed.

(** The program counter after an instruction. *)
Definition at_pc (pc : Z) (s : State) : State := set_csr (<[CSR_mepc := pc]> (csr s)) s.

Lemma w_mepc_run pc n s : w_csr CSR_mepc (add64 pc n) s = Ok tt (at_pc (add64 pc n) s).
Proof.
  unfold w_csr, modify, at_pc. cbv zeta. change (CSR_mepc =? CSR_satp) with false.
  unfold add64. by rewrite (u64_id (u64 _)) by apply u64_range.
Qed.

Lemma emulate_load_run g s pc addr f :
  serving g s -> regs_wf (active_regs (host_thread s)) -> 0 <= rw_reg f < 32 ->
  load_map addr = Some (rw_width f) ->
  exists t, emulate_device PERMIDX_R pc addr f s = Ok PFHR_SUCCESS (at_pc (add64 pc (pc_advance f))
    (set_tick t (with_reg (rw_reg f) (load_result (rw_width f) (load_is_signed f) (device_value g addr s)) s))).
Proof.
  intros Hs [Hlen Hwf] Hr Hmap. unfold emulate_device, reg_ptr_of.
  set (reg := if rw_reg f =? 0 then None else Some (rw_reg f - 1)).
  pose proof (wp_virtual_mmdev_load g s addr reg (rw_width f) Hs) as H.
  apply wp_no_panic_iff in H as (r & s1 & Hrun & Hr1 & H). rewrite Hmap, access_result_own in Hr1. subst r.
  rewrite decide_True in H by done. destruct H as [t ->]. exists t.
  erewrite bind_ok by exact Hrun. unfold reg, with_reg. destruct (Z.eqb_spec (rw_reg f) 0) as [H0|H0].
  { erewrite bind_ok by done. erewrite bind_ok by (apply w_mepc_run). done. }
  assert (serving g (set_tick t (set_reg_low (rw_width f) (Some (rw_reg f - 1)) (device_value g addr s) s)))
    as Hs1 by exact Hs.
  erewrite bind_ok.
  2: { erewrite bind_ok by (apply get_host_thread_ok, Hs1). apply put_host_thread_ok, Hs1. }
  erewrite bind_ok by (apply w_mepc_run). unfold ret. f_equal. f_equal.
  cbn [set_reg_low set_reg host_thread set_tick set_host_thread active_regs set_active_regs].
  rewrite x_plus_one_set_same by lia. rewrite reset_upper_bits_low by (by apply x_plus_one_range).
  unfold set_tick, set_host_thread, set_active_regs, set_x_plus_one.
  cbn [active_regs host_thread]. by rewrite list_insert_insert_eq.
Qed.

Lemma load_reg_ok b i : load_wf i = true -> 0 <= acc_reg (load_operands b i) < 32.
Proof.
  destruct i; cbn [load_wf load_operands acc_reg]; rewrite ?andb_true_iff; unfold reg_ok, creg_ok;
    rewrite ?andb_true_iff; lia.
Qed.

Lemma trap_inv_at_pc g G s pc n : trap_inv g G s -> trap_inv g G (at_pc (add64 pc n) s).
Proof. intros. apply hyp_inv_csr; [done..|apply u64_range]. Qed.

Lemma trap_inv_with_reg g G s r v : trap_inv g G s -> trap_inv g G (with_reg r v s).
Proof.
  intros Hs. unfold with_reg. destruct (r =? 0); [done|]. apply hyp_inv_host; [done|].
  exact (hyp_inv_current _ _ _ Hs).
Qed.

(** The extension of C.LWSP, which the decoder gets wrong, does not matter: the
    one device register of that width reads as zero. *)
Lemma load_signed_irrelevant g s addr i :
  load_map addr = Some (acc_width (load_operands true i)) ->
  load_result (acc_width (load_operands false i)) (acc_signed (load_operands false i)) (device_value g addr s)
  = load_result (acc_width (load_operands true i)) (acc_signed (load_operands true i)) (device_value g addr s).
Proof.
  destruct i; try done. cbn [load_operands acc_width acc_signed]. unfold load_map.
  repeat case_match; try done. intros _. unfold device_value.
  repeat match goal with H : (_ =? _) = false |- _ => rewrite H; clear H end.
  repeat match goal with H : (addr =? _) = true |- _ => apply Z.eqb_eq in H end. subst addr. done.
Qed.


(** ** Stores *)

Lemma store_effect_inv g G s addr reg s' :
  trap_inv g G s -> store_effect g addr reg s s' -> exists g', trap_inv g' G s'.
Proof.
  intros Hs. unfold store_effect. repeat case_match.
  - intros ->. eexists. eapply hyp_inv_with_guest; [done|]. by split_and!.
  - intros [t ->]. exists g. eapply hyp_inv_io; [done|]. by eexists t, _.
  - intros ->. by exists g.
Qed.


(** ** System instructions *)

(** The instructions that the hypervisor carries out for the guest. *)
Inductive SysInstr :=
  | SFENCE_VMA (rs1 rs2 : Z) | MRET | WFI
  | CSRRW (rd csr rs1 : Z) | CSRRS (rd csr rs1 : Z).

(** The encodings of the RISC-V manual. *)
Definition encode_sys (i : SysInstr) : Z :=
  match i with
  | SFENCE_VMA rs1 rs2 => 9 * 2 ^ 25 + rs2 * 2 ^ 20 + rs1 * 2 ^ 15 + 0x73
  | MRET => 0x30200073
  | WFI => 0x10500073
  | CSRRW rd csr rs1 => csr * 2 ^ 20 + rs1 * 2 ^ 15 + 1 * 2 ^ 12 + rd * 2 ^ 7 + 0x73
  | CSRRS rd csr rs1 => csr * 2 ^ 20 + rs1 * 2 ^ 15 + 2 * 2 ^ 12 + rd * 2 ^ 7 + 0x73
  end.

Definition sys_wf (i : SysInstr) : bool :=
  match i with
  | SFENCE_VMA rs1 rs2 => reg_ok rs1 && reg_ok rs2
  | MRET | WFI => true
  | CSRRW rd csr rs1 | CSRRS rd csr rs1 => reg_ok rd && reg_ok rs1 && (0 <=? csr) && (csr <? 4096)
  end.

(** The operation that carries it out. *)
Definition emulate_sys (pc : Z) (i : SysInstr) : M unit :=
  match i with
  | SFENCE_VMA _ _ => flush_shadow_pagetable ;; w_csr CSR_mepc (add64 pc 4)
  | MRET => guest_mret
  | WFI => wfi
  | CSRRW rd csr rs1 => emulate_csrrw (mkInstr 0x73 rd 1 rs1 (csr mod 32) (csr / 32)) pc
  | CSRRS rd csr rs1 => emulate_csrrs (mkInstr 0x73 rd 2 rs1 (csr mod 32) (csr / 32)) pc
  end.

End devices.

(** The instruction that the six fields of a word with opcode 0x73 encode. *)
Definition sys_instr_of (u : UnpackedInstruction) : option SysInstr :=
  if funct3 u =? 0 then
    if (funct7 u =? 9) && (rd u =? 0) then Some (SFENCE_VMA (rs1 u) (rs2 u))
    else if (funct7 u =? 24) && (rs2 u =? 2) && (rs1 u =? 0) && (rd u =? 0) then Some MRET
    else if (funct7 u =? 8) && (rs2 u =? 5) && (rs1 u =? 0) && (rd u =? 0) then Some WFI
    else None
  else if funct3 u =? 1 then Some (CSRRW (rd u) (funct7 u * 32 + rs2 u) (rs1 u))
  else if funct3 u =? 2 then Some (CSRRS (rd u) (funct7 u * 32 + rs2 u) (rs1 u))
  else None.

Lemma csr_field_split csr : csr * 2 ^ 20 = csr / 32 * 2 ^ 25 + csr mod 32 * 2 ^ 20.
Proof. change (2 ^ 20) with 1048576. change (2 ^ 25) with 33554432. Z.div_mod_to_equations. lia. Qed.

(** The fields of an encoding. *)
Definition sys_fields (i : SysInstr) : UnpackedInstruction :=
  match i with
  | SFENCE_VMA rs1 rs2 => mkInstr 0x73 0 0 rs1 rs2 9
  | MRET => mkInstr 0x73 0 0 0 2 24
  | WFI => mkInstr 0x73 0 0 0 5 8
  | CSRRW rd csr rs1 => mkInstr 0x73 rd 1 rs1 (csr mod 32) (csr / 32)
  | CSRRS rd csr rs1 => mkInstr 0x73 rd 2 rs1 (csr mod 32) (csr / 32)
  end.

Lemma unpack_encode_sys i : sys_wf i = true -> unpack_instruction (encode_sys i) = sys_fields i.
Proof.
  destruct i as [a b| | |d c a|d c a]; cbn [sys_wf encode_sys sys_fields]; intros Hwf; wf_bounds; try done.
  - rewrite <- (unpack_assembled 0x73 0 0 a b 9) by lia. f_equal. lia.
  - rewrite csr_field_split. apply unpack_assembled; (lia || (Z.div_mod_to_equations; lia)).
  - rewrite csr_field_split. apply unpack_assembled; (lia || (Z.div_mod_to_equations; lia)).
Qed.

Lemma sys_instr_of_fields i : sys_instr_of (sys_fields i) = Some i.
Proof.
  destruct i as [a b| | |d c a|d c a]; try done; cbn [sys_fields]; unfold sys_instr_of; cbn [funct3 funct7 rd rs1 rs2 Z.eqb Pos.eqb];
    do 2 f_equal; Z.div_mod_to_equations; lia.
Qed.

(** A word is made of its fields. *)
Lemma word_assembled p : 0 <= p < 2 ^ 32 ->
  (let u := unpack_instruction p in
   p = funct7 u * 2 ^ 25 + rs2 u * 2 ^ 20 + rs1 u * 2 ^ 15 + funct3 u * 2 ^ 12 + rd u * 2 ^ 7 + opcode u) /\
  (let u := unpack_instruction p in
   0 <= rd u < 32 /\ 0 <= rs1 u < 32 /\ 0 <= rs2 u < 32 /\ 0 <= funct7 u < 128).
Proof.
  intros Hp. cbn [unpack_instruction funct7 rs2 rs1 funct3 rd opcode]. rewrite !EXTRACT_BITS_arith by lia.
  change (2 ^ 32) with 4294967296 in Hp. change (2 ^ 0) with 1. change (2 ^ 3) with 8. change (2 ^ 5) with 32.
  change (2 ^ 7) with 128. change (2 ^ 12) with 4096. change (2 ^ 15) with 32768.
  change (2 ^ 20) with 1048576. change (2 ^ 25) with 33554432.
  split; [|split_and!]; Z.div_mod_to_equations; lia.
Qed.

Lemma sys_instr_of_encoded p i :
  0 <= p < 2 ^ 32 -> opcode (unpack_instruction p) = 0x73 -> sys_instr_of (unpack_instruction p) = Some i ->
  sys_wf i = true /\ p = encode_sys i.
Proof.
  intros Hp Hop Hi. destruct (word_assembled p Hp) as [He Hr]. cbv zeta in *.
  destruct (unpack_instruction p) as [op d f a b g]. cbn [opcode rd funct3 rs1 rs2 funct7] in *. subst op.
  assert (forall r, 0 <= r < 32 -> reg_ok r = true) as Hreg.
  { intros r H. unfold reg_ok. rewrite andb_true_iff, Z.leb_le, Z.ltb_lt. lia. }
  unfold sys_instr_of in Hi. cbn [rd funct3 rs1 rs2 funct7] in Hi.
  repeat case_match; try discriminate; injection Hi as <-;
    repeat match goal with
    | H : (_ && _) = true |- _ => apply andb_and in H; destruct H
    | H : (_ =? _) = true |- _ => apply Z.eqb_eq in H
    end; subst; (split; [|cbn [encode_sys]; try lia]); cbn [sys_wf];
    rewrite ?Hreg by lia; try done.
  all: change (2 ^ 20) with 1048576; change (2 ^ 25) with 33554432 in *; rewrite ?andb_true_l; lia.
Qed.

Section system.
Context {plat : Platform} {plat_ok : PlatformOk}.

Lemma emulate_system_some u i pc :
  opcode u = 0x73 -> 0 <= rs2 u < 32 -> sys_instr_of u = Some i ->
  emulate_system u pc = Some (emulate_sys pc i).
Proof.
  destruct u as [op d f a b g]. cbn [opcode rs2]. intros -> Hb Hi. unfold sys_instr_of in Hi.
  cbn [rd funct3 rs1 rs2 funct7] in Hi.
  assert ((g * 32 + b) mod 32 = b) as Hm by (Z.div_mod_to_equations; lia).
  assert ((g * 32 + b) / 32 = g) as Hd by (Z.div_mod_to_equations; lia).
  repeat case_match; try discriminate; injection Hi as <-;
    repeat match goal with
    | H : (_ && _) = true |- _ => apply andb_and in H; destruct H
    | H : (_ =? _) = true |- _ => apply Z.eqb_eq in H
    end; subst; cbn [emulate_sys]; rewrite ?Hm, ?Hd; done.
Qed.

Lemma emulate_system_none u pc :
  sys_instr_of u = None ->
  emulate_system u pc = None \/ emulate_system u pc = Some (panic_msg (nl +:+ "Guest ecall/ebreak")).
Proof.
  destruct u as [op d f a b g]. unfold sys_instr_of, emulate_system. cbn [rd funct3 rs1 rs2 funct7].
  intros H. repeat (case_match; try (by left); try (by right)); subst; simpl in *; congruence.
Qed.

Lemma illegal_instruction_panics p u h s (Q : unit -> State -> Prop) :
  mscratch_ok s -> wp any_panic (illegal_instruction p u h) Q s.
Proof.
  intros Hsc. apply wp_bind, wp_print_fields. intros s1 H1. apply wp_panic_any. by eapply mscratch_ok_io.
Qed.

Lemma guest_instr_word g s pc host p : guest_instr g s pc host p -> 0 <= p < 2 ^ 32.
Proof.
  intros [_ _ _ _ Hb]. pose proof (load_le_range (Z.to_nat (instr_size p)) (mem s) host) as Hr.
  rewrite Hb in Hr. destruct (instr_size_cases p) as [E|E]; rewrite E in Hr;
    [change (256 ^ Z.of_nat (Z.to_nat 2)) with 65536 in Hr|change (256 ^ Z.of_nat (Z.to_nat 4)) with 4294967296 in Hr];
    change (2 ^ 32) with 4294967296; lia.
Qed.

(** The handler up to the switch over the instruction. *)
Lemma illegal_fetched g G s p host :
  trap_inv g G s ->
  (let pc := default 0 (csr s !! CSR_mepc) in
   let u := unpack_instruction p in
   0x80000000 <= pc <= 0x8080000000 -> guest_instr g s pc host p ->
   handle_guest_exception 2 s =
     match (if opcode u =? 0x73 then emulate_system u pc else None) with
     | Some m => m
     | None => illegal_instruction p u host
     end s).
Proof.
  intros Hs. cbv zeta. set (pc := default 0 (csr s !! CSR_mepc)). intros Hpc Hi.
  change (handle_guest_exception 2) with handle_illegal_instruction. unfold handle_illegal_instruction.
  etrans; [by apply (bind_ok _ _ s pc s)|]. cbv beta.
  rewrite (proj2 (Z.ltb_ge _ _)), (proj2 (Z.ltb_ge _ _)) by lia. cbv iota beta delta [orb].
  erewrite bind_ok by exact (resolve_instruction_run (ai := alloc_inv) g G s pc host p (hi_vm _ _ _ Hs) Hi).
  cbv beta iota. by erewrite bind_ok by (apply dereference_run, Hi).
Qed.


End system.

(** ** Witnesses *)

(** lbu a1, 5(a0); sd a0, 0(a0); csrrw a0, mscratch, a1 *)
Definition lbu_a1_lsr : LoadInstr := LOAD MAW_8BIT true 11 10 5.
Definition sd_a0_mtimecmp : StoreInstr := STORE MAW_64BIT 10 10 0.
Definition csrrw_instr : SysInstr := CSRRW 10 CSR_mscratch 11.

(** The guest in user mode after the fault on its fetch. *)
Definition sample_user_fetched (p a0 : Z) : State :=
  final (handle_guest_exception 12 (sample_user_loaded p a0)) (sample_user_loaded p a0).

Lemma sample_user_fetch p a0 :
  wp (pool_lacks 5 sample_roles) (handle_guest_exception 12) (fun _ s' => exists G' perm,
    trap_inv sample_user G' s' /\ vm_ext (sample_user_loaded p a0) s' /\
    sv39_translate (mem s') sample_root 0x80300120 = Some (0x85300120, perm)) (sample_user_loaded p a0).
Proof.
  apply (guest_fault_handled _ PERMIDX_X); [done|].
  eapply wp_post.
  - apply (user_page_fault sample_user sample_roles _ PERMIDX_X _ 0x80300120 (sample_user_loaded_inv p a0) eq_refl
      (access_fetch _ _)); [done|apply sample_user_loaded_maps|done|].
    intros q Hq. rewrite sample_user_loaded_unmapped in Hq. discriminate Hq.
  - intros rv s' [Hr (G' & q & Hs' & Hext & Htr & _)]. split; [exact Hr|]. by exists G', q.
Qed.

Lemma sample_user_fetched_inv p a0 : exists G perm,
  trap_inv sample_user G (sample_user_fetched p a0) /\
  trap_pc (sample_user_fetched p a0) = 0x80300120 /\
  active_regs (host_thread (sample_user_fetched p a0)) = <[9%nat := a0]> (replicate 31 0) /\
  sv39_translate (mem (sample_user_fetched p a0)) sample_root 0x80300120 = Some (0x85300120, perm) /\
  guest_mem_same (sample_user_loaded p a0) (sample_user_fetched p a0).
Proof.
  destruct (wp_run _ _ _ _ (sample_user_fetch p a0)) as ([] & s' & Hrun & G & perm & Hs & Hext & Htr).
  { intros s'. unfold pool_lacks, MAX_ALLOCATEABLE_PAGES, sample_roles. rewrite map_size_singleton. lia. }
  unfold sample_user_fetched. rewrite Hrun. exists G, perm. unfold trap_pc. cbn [final].
  rewrite (ve_csr _ _ Hext), (ve_host _ _ Hext). split; [exact Hs|]. split; [done|]. split; [done|].
  split; [exact Htr|by apply vm_ext_guest_mem].
Qed.

(** The guest's tables are still there, and map the devices. *)
Lemma sample_user_device_maps p a0 :
  guest_leaf sample_user (mem (sample_user_fetched p a0)) 0x10000005 = Some (2%nat, unpack_pt_entry 0xDF) ->
  guest_physical sample_user (mem (sample_user_fetched p a0)) 0x10000005 0x10000005.
Proof.
  destruct (sample_user_fetched_inv p a0) as (_ & _ & _ & _ & _ & _ & Hmem). intros Hl. split.
  - apply sample_tables_in_ram_with. intros a Ha Ha'.
    etrans; [|exact (sample_loaded_view p a0 a Ha')].
    rewrite !load64_guest_view. apply load64_agree. intros x Hx. apply Hmem.
    unfold HYPERVISOR_END, RAM_START, GUEST_MEMORY_OFFSET in *. lia.
  - exists 1%nat, (unpack_pt_entry 0xDF). split; [exact Hl|split; reflexivity].
Qed.

Lemma sample_user_guest_instr p a0 :
  instr_in (mem (sample_user_fetched p a0)) 0x85300120 p ->
  guest_instr sample_user (sample_user_fetched p a0) 0x80300120 0x85300120 p.
Proof.
  destruct (sample_user_fetched_inv p a0) as (_ & perm & _ & _ & _ & Htr & _). intros Hin.
  split; [lia|discriminate|by exists perm| |exact Hin].
  change (0x80300120 mod 4096) with 0x120. destruct (instr_size_cases p); lia.
Qed.



