(* ===== verification/System.v ===== *)
(** The hypervisor and its guest together: the hart runs the guest through the
    table in satp until a trap enters exception(); what holds in every state
    the system can reach from boot. *)
From S2P Require Import Prelude Machine Wp Print Pte PageAlloc Instructions Vmem Tables VmemSpec.
From S2P Require Import ShadowSpec FlushSpec WalkSpec Contexts Invariant VirtCsr GuestPrivilege.
From S2P Require Import PrivilegeSpec Timer VirtMmDev PageFault ExcHandlers Hypervisor TrapSpec.

(** ** The hart *)

(** The fields of satp. *)
Definition satp_mode (satp : Z) : Z := Z.shiftr satp SATP_MODE_SHIFT.
Definition satp_table (satp : Z) : Z := satp mod 2 ^ 44 * 2 ^ 12.

Section system.
Context {plat : Platform}.

(** A guest access to [va] reaches [pa] with permissions [p].  The hart may use
    anything it has cached as long as a change of satp or of a table has not
    been fenced, and anything at all without Sv39.  That the address must be
    canonical and the A and D bits of the leaf are left out here: they forbid
    accesses, and what is proved of every access below is so proved of more. *)
Definition guest_translates (s : State) (va pa p : Z) : Prop :=
  let satp := default 0 (csr s !! CSR_satp) in
  tlb_synced (trace s) = true -> satp_mode satp = 8 ->
  sv39_translate (mem s) (satp_table satp) va = Some (pa, p).

(** Taking a trap: the trap CSRs, and the registers saved by _exc_entry. *)
Definition trap_entry (mepc mcause mtval mstatus : Z) (regs : list Z) (s : State) : State :=
  set_host_thread (set_active_regs regs (host_thread s))
    (set_csr (<[CSR_mstatus := u64 mstatus]> (<[CSR_mtval := u64 mtval]>
      (<[CSR_mcause := u64 mcause]> (<[CSR_mepc := u64 mepc]> (csr s))))) s).

(** One step: the guest stores a byte, or traps and is resumed. *)
Inductive guest_step (s : State) : State -> Prop :=
  | step_store va pa p v :
      guest_translates s va pa p -> has_perm p PERMIDX_W = true ->
      guest_step s (set_mem (<[pa := v mod 256]> (mem s)) s)
  | step_trap mepc mcause mtval mstatus regs s' :
      exception (trap_entry mepc mcause mtval mstatus regs s) = Ok tt s' -> guest_step s s'.

(** What the hart, the loader and the zeroed .bss provide. *)
Record boot_ready (s : State) : Prop := {
  br_roots : zero_table (mem s) root;
  br_free : free_list_top s = 0;
  br_next : next_unallocated_idx s = 0;
  br_lock : allocator_lock s = false;
  br_current : current_guest (host_thread s) = (0, 0);
  br_guest : guest_threads s !! (0, 0) = Some GUEST_THREAD_CONTEXT_INIT }.

Inductive reachable : State -> Prop :=
  | reach_boot s0 s : boot_ready s0 -> boot_main s0 = Ok tt s -> reachable s
  | reach_step s s' : reachable s -> guest_step s s' -> reachable s'.

(** ** satp *)

Lemma satp_fields t : 0 <= t < 2 ^ 56 -> t mod 4096 = 0 ->
  satp_mode (u64 (MAKE_SATP t)) = 8 /\ satp_table (u64 (MAKE_SATP t)) = t.
Proof.
  intros Ht Hal. unfold MAKE_SATP, SATP_MODE_SV39, SATP_MODE_SHIFT, satp_mode, satp_table.
  rewrite (Z.shiftr_div_pow2 t 12), (Z.shiftl_mul_pow2 8 60) by lia. change (2 ^ 12) with 4096.
  assert (0 <= t / 4096 < 2 ^ 44) as Hr.
  { split; [apply Z.div_pos; lia|]. apply Z.div_lt_upper_bound; [lia|].
    change (4096 * 2 ^ 44) with (2 ^ 56). lia. }
  rewrite lor_disjoint_add by lia. rewrite u64_id by lia. split.
  - rewrite Z.shiftr_div_pow2 by (unfold SATP_MODE_SHIFT; lia). unfold SATP_MODE_SHIFT.
    rewrite Z.div_add_l, (Z.div_small (t / 4096)) by lia. done.
  - replace (8 * 2 ^ 60 + t / 4096) with (t / 4096 + 8 * 2 ^ 16 * 2 ^ 44) by lia.
    rewrite Z.mod_add, Z.mod_small by lia. Z.div_mod_to_equations; lia.
Qed.

(** ** Isolation *)

Context {plat_ok : PlatformOk}.

Lemma machine_translate_isolated sp G m va pa p :
  tables_ok sp G m -> sv39_translate m root va = Some (pa, p) ->
  HYPERVISOR_END <= pa < HOST_END /\ p ∈ shadow_perms.
Proof.
  intros Hok. destruct (tk_root _ _ _ Hok (vpn 2 va) (vpn_range _ _)) as [H2|(c & H2 & Hc)].
  { by rewrite machine_translate_miss. }
  pose proof (tk_pool _ _ _ Hok _ _ Hc) as Hpool.
  destruct (tk_machine _ _ _ Hok _ _ Hc) as (Hi & _ & Hc').
  destruct (Hc' (vpn 1 va) (vpn_range _ _)) as [H1|H1].
  { by rewrite (machine_translate_miss2 m c). }
  unfold sv39_translate. rewrite (sv39_leaf_table _ _ _ _ _ Hpool H2).
  pose proof (vpn_range 1 va) as Hj.
  destruct (machine_base_bounds (vpn 2 va) (vpn 1 va) ltac:(lia) Hj) as (_ & Hend & Hal).
  rewrite (sv39_leaf_found _ _ _ _ (machine_base (vpn 2 va) (vpn 1 va)) 31).
  - cbn [numeric_address permissions]. intros [= <- <-]. change (sv39_span 1) with (2 ^ 21).
    split; [|unfold shadow_perms; set_solver].
    pose proof (Z.mod_pos_bound va (2 ^ 21)). split; [|lia].
    unfold machine_base, HYPERVISOR_END, RAM_START. change (2 ^ 30) with 1073741824.
    change (2 ^ 21) with 2097152 in *. lia.
  - rewrite H1. apply machine_leaf_unpack; [lia|done].
  - rewrite H1. apply machine_leaf_range; [lia|done].
  - unfold shadow_perms. set_solver.
  - done.
Qed.

Section with_allocator.
Context {ai : gset Z -> State -> Prop}.

Lemma active_table_bounds g G m :
  guest_wf g -> tables_ok (shadow_page_table g) G m ->
  active_table g <> 0 /\ 0 <= active_table g < 2 ^ 56 /\ active_table g mod 4096 = 0.
Proof.
  intros Hwf Hok. unfold active_table. destruct (shadow_pt_active g) eqn:Ha.
  - destruct (gw_shadow _ Hwf Ha) as [_ Hsp]. split; [done|].
    assert (is_pool_page (shadow_page_table g)) as Hp.
    { eapply (tk_pool _ _ _ Hok). by apply Hok. }
    pose proof (table_addr_small _ Hp). apply is_pool_page_bounds in Hp. lia.
  - pose proof root_bounds as (H1 & H2 & H3).
    unfold RAM_START, HYPERVISOR_END, GUEST_MEMORY_OFFSET, RAM_START in *. lia.
Qed.

(** What the table in use maps lies above the hypervisor. *)
Lemma active_translation g G s va pa p :
  hyp_inv (ai := ai) g G s -> sv39_translate (mem s) (active_table g) va = Some (pa, p) ->
  HYPERVISOR_END <= pa /\ p ∈ shadow_perms.
Proof.
  intros [Hvm Hwf _ _ _] Htr. pose proof (vi_tables _ _ _ Hvm) as Hok.
  destruct (active_table_bounds _ _ _ Hwf Hok) as [Hne _]. revert Htr Hne. unfold active_table.
  destruct (shadow_pt_active g); intros Htr Hne.
  - by eapply shadow_translate_isolated in Htr as [[? _] ?].
  - by eapply machine_translate_isolated in Htr as [[? _] ?].
Qed.

(** The table in use is the one in satp, *)
Lemma active_satp g G s :
  hyp_inv (ai := ai) g G s ->
  let satp := default 0 (csr s !! CSR_satp) in satp_mode satp = 8 /\ satp_table satp = active_table g.
Proof.
  intros [Hvm Hwf Hsatp _ _]. cbv zeta. rewrite Hsatp.
  destruct (active_table_bounds _ _ _ Hwf (vi_tables _ _ _ Hvm)) as (_ & Hr & Hal). by apply satp_fields.
Qed.

(** so that whatever the guest reaches lies above the hypervisor. *)
Lemma translation_isolated g G s va pa p :
  hyp_inv (ai := ai) g G s -> guest_translates s va pa p -> HYPERVISOR_END <= pa.
Proof.
  intros Hs Htr. destruct (active_satp _ _ _ Hs) as [Hmode Htable]. unfold guest_translates in Htr.
  rewrite Hmode, Htable in Htr. eapply active_translation; [done|]. apply Htr; [apply Hs|done].
Qed.

Context {ai_ok : AllocatorContract ai}.

(** A store to guest memory keeps the invariant. *)
Lemma hyp_inv_guest_store g G s pa v :
  hyp_inv (ai := ai) g G s -> HYPERVISOR_END <= pa ->
  hyp_inv (ai := ai) g G (set_mem (<[pa := v]> (mem s)) s).
Proof.
  intros Hs Hpa. apply hyp_inv_guest_mem; [done|]. intros x Hx. by rewrite lookup_insert_ne by lia.
Qed.

(** Taking a trap keeps it too. *)
Lemma hyp_inv_trap_entry g G s mepc mcause mtval mstatus regs :
  hyp_inv (ai := ai) g G s -> hyp_inv (ai := ai) g G (trap_entry mepc mcause mtval mstatus regs s).
Proof.
  intros Hs. pose proof (hyp_inv_serving _ _ _ Hs) as (Hsc & Hcur & Hg).
  apply (hyp_inv_same g g G s); try done; try apply Hs.
  - split_and!; try done. unfold mscratch_ok in *. simpl. by rewrite !lookup_insert_ne.
  - simpl. by rewrite !lookup_insert_ne.
  - simpl. rewrite !lookup_insert_ne, lookup_insert_eq by done. apply u64_range.
Qed.

(** boot_main, on the empty tables. *)
Lemma mpp_cleared m :
  Z.land (u64 (Z.lor (u64 (Z.lor (Z.land m (not64 MSTATUS_MPP_MASK)) MSTATUS_MPP_U)) MSTATUS_MIE))
    MSTATUS_MPP_MASK = MSTATUS_MPP_U.
Proof.
  change MSTATUS_MPP_U with 0. apply Z.bits_inj'. intros i Hi. rewrite Z.bits_0, Z.land_spec.
  destruct (Z.testbit MSTATUS_MPP_MASK i) eqn:E; [|by rewrite andb_false_r].
  assert (i = 11 \/ i = 12) as H.
  { destruct (decide (i < 13)); [|by rewrite Z.bits_above_log2 in E by (done || simpl; lia)].
    destruct (decide (i < 11)); [|lia]. unfold MSTATUS_MPP_MASK in E.
    by rewrite Z.shiftl_spec_low in E by lia. }
  unfold u64. rewrite Z.mod_pow2_bits_low, Z.lor_spec, Z.mod_pow2_bits_low, Z.lor_spec, Z.land_spec by lia.
  destruct H as [-> | ->]; rewrite andb_false_r; done.
Qed.

Lemma boot_main_spec s :
  boot_ready s -> ai ∅ s ->
  wp no_panic boot_main (fun _ s' =>
    hyp_inv (ai := ai) GUEST_THREAD_CONTEXT_INIT ∅ s' /\ same_store s s' /\
    csr s' !! CSR_mepc = Some 0x80000000 /\
    Z.land (default 0 (csr s' !! CSR_mstatus)) MSTATUS_MPP_MASK = MSTATUS_MPP_U) s.
Proof.
  intros [Hz Hf Hn Hl Hcur Hg] Hai. unfold boot_main.
  wp_step. apply wp_gets. wp_step. apply wp_w_csr; [done|]. wp_step. apply wp_gets.
  cbv beta. simpl. rewrite lookup_insert_eq. cbn [default].
  do 2 (wp_step; apply wp_w_csr; [done|]). wp_step. wp_step. cbv beta.
  do 3 (wp_step; apply wp_w_csr; [done|]). wp_step. wp_step. wp_step.
  apply wp_w_csr; [done|]. wp_step. wp_step. wp_step. simpl.
  split; [split|split; [|split]].
  - split; simpl; try done.
    + unfold mscratch_ok. simpl. rewrite lookup_insert_ne, lookup_insert_eq by done.
      simpl. apply host_threads_u64.
    + rewrite dom_empty_L. eapply ai_frame; [done|]. by split_and!.
    + by apply tables_ok_empty.
  - split; [done|done|simpl; lia].
  - simpl. by rewrite lookup_insert_eq.
  - done.
  - simpl. rewrite !lookup_insert_ne, lookup_insert_eq by done. apply u64_range.
  - by split_and!.
  - rewrite !lookup_insert_ne, lookup_insert_eq by done. done.
  - rewrite !lookup_insert_ne, lookup_insert_eq by done. apply mpp_cleared.
Qed.

End with_allocator.

(** ** Every reachable state *)

Lemma boot_allocator s : boot_ready s -> alloc_inv ∅ s.
Proof.
  intros [Hz Hf Hn Hl Hcur Hg]. exists []. split_and!; try done.
  - by rewrite Hn.
  - by rewrite Hn.
  - constructor.
  - intros p. rewrite Hn. split; [set_solver|]. intros (i & Hi & _). lia.
Qed.

Lemma guest_step_ok s s' :
  hyp_ok (ai := alloc_inv) s -> guest_step s s' -> hyp_ok (ai := alloc_inv) s'.
Proof.
  intros (g & G & Hs) [va pa p v Htr HW | mepc mcause mtval mstatus regs s1 Hrun].
  - exists g, G. apply hyp_inv_guest_store; [done|]. by eapply translation_isolated.
  - pose proof (hyp_inv_trap_entry _ _ _ mepc mcause mtval mstatus regs Hs) as Hs0.
    pose proof (exception_ok True g G _ Hs0 (or_introl I)) as Hx.
    by apply (wpx_elim _ _ _ _ _ _ Hx Hrun).
Qed.

Lemma reachable_ok s : reachable s -> hyp_ok (ai := alloc_inv) s.
Proof.
  induction 1 as [s0 s Hb Hrun|s s' _ IH Hstep].
  - pose proof (boot_main_spec s0 Hb (boot_allocator s0 Hb)) as Hw.
    destruct (wp_elim _ _ _ _ _ _ Hw Hrun) as [Hs _]. by eexists _, _.
  - by eapply guest_step_ok.
Qed.

End system.
