(* ===== verification/Retry.v ===== *)
(** The trap handler as a whole around a fault that it resolves: what exception()
    does before and after the dispatch, and that the guest retries its
    instruction with the access permitted. *)
From S2P Require Import Prelude Machine Sample Wp Print Pte PageAlloc Instructions Vmem Tables.
From S2P Require Import VmemSpec ShadowSpec FlushSpec WalkSpec Contexts Invariant SampleTables.
From S2P Require Import VmemTheorems VirtCsr GuestPrivilege PrivilegeSpec Timer VirtMmDev.
From S2P Require Import PageFault Fetch SampleGuest ExcHandlers Hypervisor TrapSpec TrapTheorems System.

Section retry.
Context {plat : Platform} {plat_ok : PlatformOk}.

(** ** The frame of the handler *)

(** The state in which the cause is dispatched: the nested stack is in place and
    the guest's clock is suspended. *)
Definition suspended (g : GuestThreadContext) (s : State) : GuestThreadContext :=
  set_timer_suspended_at (mtime_now s) g.
Definition dispatch_state (g : GuestThreadContext) (s : State) : State :=
  with_guest (suspended g s) (set_tick (S (tick s))
    (set_host_thread (set_exception_handler_stack (hypstack_nested_addr + 4096) (host_thread s)) s)).

Lemma dispatch_state_inv g G s : trap_inv g G s -> trap_inv (suspended g s) G (dispatch_state g s).
Proof.
  intros Hs. apply (hyp_inv_with_guest g); [|done]. apply hyp_inv_tick, hyp_inv_host; [done|].
  exact (hyp_inv_current _ _ _ Hs).
Qed.

(** What is left of the state [s4] after the dispatch when the guest is resumed:
    all but its clock and the comparator. *)
Record resumed (stack : Z) (s4 s' : State) : Prop := {
  rs_mem : mem s' = mem s4;
  rs_csr : forall n, n <> CSR_mie -> csr s' !! n = csr s4 !! n;
  rs_regs : active_regs (host_thread s') = active_regs (host_thread s4);
  rs_stack : exception_handler_stack (host_thread s') = stack }.

Lemma resume_run Pn g4 G4 s4 stack (Q : unit -> State -> Prop) :
  trap_inv g4 G4 s4 -> (forall s', hyp_ok (ai := alloc_inv) s' -> resumed stack s4 s' -> Q tt s') ->
  wp Pn (timer_resume_virtual ;; timer_reschedule ;; set_handler_stack stack) Q s4.
Proof.
  intros Hs4 HQ. pose proof (hyp_inv_serving _ _ _ Hs4) as Hsv.
  unfold timer_resume_virtual. apply wp_bind, wp_bind.
  eapply wp_ok; [by apply get_current_guest_serving|]. cbv beta iota. wp_step. eapply wp_ok; [done|]. cbv beta.
  eapply wp_ok; [by apply (update_guest_serving g4)|].
  set (g5 := set_timer_adjustment _ g4). set (s5 := with_guest g5 _).
  assert (trap_inv g5 G4 s5) as Hs5 by (apply (hyp_inv_with_guest g4); [by apply hyp_inv_tick|done]).
  wp_step. apply wp_total.
  pose proof (timer_reschedule_armed g5 s5 (hyp_inv_serving _ _ _ Hs5)) as Hres. cbv zeta in Hres.
  apply wp_no_panic_iff in Hres as ([] & s6 & Hrun & Harm).
  assert (exists d t, armed d t s5 s6) as (d & t & _ & _ & _ & Hcsr & Hmem & Hgs & Hhost) by (case_match; eauto).
  pose proof (wpx_elim _ _ _ _ _ _ (keeps_reschedule False s5 (ex_intro _ g5 (ex_intro _ G4 Hs5))) Hrun) as [(g6 & G6 & Hs6) _].
  eapply wp_ok; [exact Hrun|]. unfold set_handler_stack. wp_step.
  eapply wp_ok; [apply get_host_thread_ok, (hyp_inv_serving _ _ _ Hs6)|]. cbv beta.
  eapply wp_ok; [apply put_host_thread_ok, (hyp_inv_serving _ _ _ Hs6)|]. apply HQ.
  - exists g6, G6. apply hyp_inv_host; [done|]. exact (hyp_inv_current _ _ _ Hs6).
  - split; cbn [mem csr host_thread set_host_thread]; [by rewrite Hmem|intros n Hn; by rewrite Hcsr| |done].
    cbn [active_regs set_exception_handler_stack]. by rewrite Hhost.
Qed.

(** exception() around the handler of a synchronous cause raised in user mode,
    as the guest always runs. *)
Lemma exception_around Pn g G s c (R : State -> Prop) (Q : unit -> State -> Prop) :
  trap_inv g G s -> csr s !! CSR_mcause = Some c -> Z.land c MCAUSE_ASYNC_BIT = 0 ->
  Z.land (default 0 (csr s !! CSR_mstatus)) MSTATUS_MPP_MASK = MSTATUS_MPP_U ->
  wp Pn (handle_guest_exception c) (fun _ s4 => (exists g4 G4, trap_inv g4 G4 s4) /\ R s4) (dispatch_state g s) ->
  (forall s4 s', R s4 -> hyp_ok (ai := alloc_inv) s' -> resumed (exception_handler_stack (host_thread s)) s4 s' -> Q tt s') ->
  wp Pn exception Q s.
Proof.
  intros Hs Hc Hsync Hmpp Hhandle HQ. pose proof (hyp_inv_serving _ _ _ Hs) as Hsv. destruct Hsv as (Hsc & Hcur & Hg).
  unfold exception. wp_step. eapply wp_ok; [by apply get_host_thread_ok|]. cbv beta zeta.
  unfold set_handler_stack at 1. apply wp_bind, wp_bind.
  eapply wp_ok; [by apply get_host_thread_ok|]. cbv beta. eapply wp_ok; [by apply put_host_thread_ok|].
  set (s1 := set_host_thread _ s).
  assert (trap_inv g G s1) as Hs1 by (by apply hyp_inv_host).
  unfold timer_suspend_virtual. apply wp_bind, wp_bind.
  eapply wp_ok; [exact (get_current_guest_serving g s1 (hyp_inv_serving _ _ _ Hs1))|]. cbv beta iota.
  wp_step. eapply wp_ok; [done|]. cbv beta.
  eapply wp_ok; [exact (update_guest_serving g _ _ (hyp_inv_serving _ _ _ (hyp_inv_tick _ _ _ (S (tick s1)) Hs1)))|].
  change (with_guest _ _) with (dispatch_state g s). wp_step.
  assert (wp Pn dispatch (fun _ s4 => (exists g4 G4, trap_inv g4 G4 s4) /\ R s4) (dispatch_state g s)) as Hd.
  { unfold dispatch. wp_step. apply wp_gets. change (csr (dispatch_state g s)) with (csr s). rewrite Hc. cbn [default].
    unfold id. rewrite Hsync. change (nonzero 0) with false. cbv iota. wp_step. apply wp_gets.
    change (csr (dispatch_state g s)) with (csr s). rewrite Hmpp. exact Hhandle. }
  eapply wp_post; [exact Hd|]. intros [] s4 [(g4 & G4 & Hs4) HR].
  apply (resume_run Pn g4 G4); [done|]. intros s' Hok Hres. by apply (HQ s4).
Qed.

(** ** Retrying *)

Lemma guest_access_dispatch g s a f : guest_access g s a f -> guest_access (suspended g s) (dispatch_state g s) a f.
Proof.
  intros [|i host Hwf [H1 H2 H3 H4 H5]|i host Hwf [H1 H2 H3 H4 H5]]; [exact (access_fetch (suspended g s) (dispatch_state g s))| |].
  - apply (access_load (suspended g s) (dispatch_state g s) i host); [done|by split].
  - apply (access_store (suspended g s) (dispatch_state g s) i host); [done|by split].
Qed.

(** What a hart makes of a mapping in the table in use: no leaf of the
    hypervisor has its A bit set. *)
Lemma access_once_mapped g G s va pa p a :
  trap_inv g G s -> 0 <= va < 2 ^ 39 -> has_perm p a = true -> has_perm p PERMIDX_U = true ->
  (let table := satp_table (default 0 (csr s !! CSR_satp)) in
   sv39_translate (mem s) table va = Some (pa, p) ->
   hart_access Svadu (mem s) table va a = (if va <? 2 ^ 38 then Some pa else None) /\
   hart_access Svade (mem s) table va a = None).
Proof.
  intros Hs Hva Ha HU. cbv zeta. rewrite (proj2 (active_satp _ _ _ Hs)). intros Htr.
  destruct (active_translation _ _ _ _ _ _ Hs Htr) as [_ [_ HA]%shadow_perms_no_ad].
  rewrite !(hart_access_mapped _ _ _ _ pa p) by done. by rewrite sv39_canonical_low.
Qed.


End retry.

(** ** Witnesses *)

Lemma sample_user_maps : user_maps sample_user (mem sample_user_state) 0x80300120 0x80300120.
Proof.
  split; [apply sample_tables_in_ram|]. exists 1%nat, (unpack_pt_entry sample_guest_leaf).
  split; [vm_compute; reflexivity|split; reflexivity].
Qed.

