(* ===== verification/SystemTheorems.v ===== *)
(** The properties of the hypervisor as a whole: the trap handler on every
    trap, the boot, and what holds in every state that the hypervisor and any
    guest can reach together. *)
From S2P Require Import Prelude Machine Sample Wp Print Pte PageAlloc Instructions Vmem Tables.
From S2P Require Import VmemSpec ShadowSpec FlushSpec WalkSpec Contexts Invariant SampleTables.
From S2P Require Import VmemTheorems VirtCsr GuestPrivilege PrivilegeSpec Timer VirtMmDev.
From S2P Require Import PageFault ExcHandlers Hypervisor TrapSpec System.

Section theorems.
Context {plat : Platform} {plat_ok : PlatformOk}.

(** [C1] Isolation.  In every state that boot, the guest's stores and its traps
    can reach, whatever the guest does, each address the guest can use, in
    either mode, translates to host memory above the hypervisor's image. *)
Theorem guest_isolated s va pa p :
  reachable s -> guest_translates s va pa p -> HYPERVISOR_END <= pa.
Proof. intros Hr Htr. destruct (reachable_ok s Hr) as (g & G & Hs). by eapply translation_isolated. Qed.

(** [C2] The invariant of the hypervisor.  In every reachable state the hart
    translates through exactly one table, the machine table in guest-machine
    mode and with paging off, the guest's shadow table in guest-user mode with
    paging on; every change to a table has been flushed; the tables are well
    formed and the pages of the allocator are exactly theirs; and the guest in
    machine mode has traps disabled. *)
Theorem reachable_invariant s :
  reachable s ->
  exists g G, serving g s /\ tables_ok (shadow_page_table g) G (mem s) /\ alloc_inv (dom G) s /\
    tlb_synced (trace s) = true /\
    (let satp := default 0 (csr s !! CSR_satp) in
     satp_mode satp = 8 /\
     satp_table satp = if shadow_pt_active g then shadow_page_table g else root) /\
    (shadow_pt_active g = true -> user_mode g = true) /\
    (user_mode g = false -> g_mstatus_mdt (gcsr g) = true).
Proof.
  intros Hr. destruct (reachable_ok s Hr) as (g & G & Hs). exists g, G.
  pose proof Hs as [Hvm Hwf Hsatp Hsync _]. pose proof (vi_tables _ _ _ Hvm) as Hok.
  destruct (active_table_bounds _ _ _ Hwf Hok) as (_ & Hr1 & Hal).
  split; [by eapply hyp_inv_serving|]. split; [exact Hok|]. split; [exact (vi_alloc _ _ _ Hvm)|].
  split; [exact Hsync|]. split; [|split; [apply Hwf|exact (gw_mdt _ Hwf)]].
  cbv zeta. rewrite Hsatp. by apply satp_fields.
Qed.

(** [C4] No step of the guest writes the hypervisor's memory: a store reaches
    only addresses above the image, and a trap, however the hypervisor handles
    it, leaves all memory above the image as it was, so that neither corrupts the
    other. *)
Theorem memory_separated s s' :
  reachable s -> guest_step s s' ->
  (forall x, x < HYPERVISOR_END -> mem s' !! x = mem s !! x) \/
  (forall x, HYPERVISOR_END <= x -> mem s' !! x = mem s !! x).
Proof.
  intros Hr Hstep. destruct (reachable_ok s Hr) as (g & G & Hs).
  destruct Hstep as [va pa p v Htr HW | mepc mcause mtval mstatus regs s1 Hrun].
  - left. intros x Hx. pose proof (translation_isolated _ _ _ _ _ _ Hs Htr) as Hpa.
    simpl. rewrite lookup_insert_ne by lia. done.
  - right. pose proof (hyp_inv_trap_entry _ _ _ mepc mcause mtval mstatus regs Hs) as Hs0.
    pose proof (exception_ok True g G _ Hs0 (or_introl I)) as Hx.
    exact (proj2 (wpx_elim _ _ _ _ _ _ Hx Hrun)).
Qed.

(** [C3] The trap handler is total and keeps the invariant: from a state that
    satisfies it, for any cause, trap value, guest instruction and registers,
    [exception] either returns in a state that satisfies it again with the
    guest's memory unchanged, or panics; it does not loop, and it is free of
    undefined behaviour as long as the page tables of the guest lie in the
    guest's memory. *)
Theorem exception_total g G s mepc mcause mtval mstatus regs :
  trap_inv g G s -> guest_tables_ok g (mem s) ->
  wp any_panic exception (fun _ s' => hyp_ok (ai := alloc_inv) s' /\ guest_mem_same s s')
    (trap_entry mepc mcause mtval mstatus regs s).
Proof.
  intros Hs Hok. apply wpx_false.
  pose proof (hyp_inv_trap_entry _ _ _ mepc mcause mtval mstatus regs Hs) as Hs0.
  apply (exception_ok False g G _ Hs0). by right.
Qed.

(** [C23] Booting: from the zeroed memory of the image, boot_main reaches the
    invariant with nothing mapped, memory untouched, the program counter at the
    start of RAM and the previous privilege set to user, so that the first
    instruction of the guest faults and is mapped on demand. *)
Theorem boot_main_correct s :
  boot_ready s ->
  exists s', boot_main s = Ok tt s' /\ trap_inv GUEST_THREAD_CONTEXT_INIT ∅ s' /\ mem s' = mem s /\
    csr s' !! CSR_mepc = Some 0x80000000 /\
    Z.land (default 0 (csr s' !! CSR_mstatus)) MSTATUS_MPP_MASK = MSTATUS_MPP_U /\
    forall va, low_va va -> sv39_translate (mem s') root va = None.
Proof.
  intros Hb. pose proof (boot_main_spec s Hb (boot_allocator s Hb)) as H.
  apply wp_no_panic_iff in H as ([] & s' & Hrun & Hinv & [Hm _] & Hpc & Hmpp). exists s'.
  split; [exact Hrun|]. split; [exact Hinv|]. split; [exact Hm|]. split; [exact Hpc|]. split; [exact Hmpp|].
  intros va Hva. pose proof (vi_tables _ _ _ (hi_vm _ _ _ Hinv)) as Hok.
  apply machine_translate_miss.
  destruct (tk_root _ _ _ Hok (vpn 2 va) (vpn_range _ _)) as [H0|(c & _ & Hc)]; [exact H0|].
  by rewrite lookup_empty in Hc.
Qed.

End theorems.

(** ** Witnesses: the boot of a guest that fetches its first instruction *)

Lemma reset_ready : boot_ready reset_state.
Proof. split; try reflexivity. intros k Hk. reflexivity. Defined.

Definition booted : State := final (boot_main reset_state) reset_state.

Lemma booted_run : boot_main reset_state = Ok tt booted.
Proof. apply returns_final. vm_compute. reflexivity. Defined.

Lemma booted_reachable : reachable booted.
Proof. exact (reach_boot _ _ reset_ready booted_run). Defined.

Definition no_regs : list Z := replicate 31 0.

(** The state in which the first fetch is retried. *)
Definition fetched : State :=
  final (exception (trap_entry 0x80000000 12 0x80000000 0 no_regs booted)) booted.

Lemma fetched_step : guest_step booted fetched.
Proof.
  apply (step_trap _ 0x80000000 12 0x80000000 0 no_regs).
  apply returns_final. vm_compute. reflexivity.
Defined.

Lemma fetched_reachable : reachable fetched.
Proof. exact (reach_step _ _ booted_reachable fetched_step). Defined.

Lemma fetched_translates : guest_translates fetched 0x80000004 0x85000004 31.
Proof. intros _ _. vm_compute. reflexivity. Defined.

Lemma guest_isolated_witness :
  reachable fetched /\ guest_translates fetched 0x80000004 0x85000004 31 /\ HYPERVISOR_END <= 0x85000004.
Proof.
  split; [exact fetched_reachable|]. split; [exact fetched_translates|].
  exact (guest_isolated fetched _ _ _ fetched_reachable fetched_translates).
Defined.

Lemma reachable_invariant_witness :
  exists g G, serving g fetched /\ tables_ok (shadow_page_table g) G (mem fetched) /\ alloc_inv (dom G) fetched /\
    tlb_synced (trace fetched) = true /\
    (let satp := default 0 (csr fetched !! CSR_satp) in
     satp_mode satp = 8 /\
     satp_table satp = if shadow_pt_active g then shadow_page_table g else root) /\
    (shadow_pt_active g = true -> user_mode g = true) /\
    (user_mode g = false -> g_mstatus_mdt (gcsr g) = true).
Proof. exact (reachable_invariant fetched fetched_reachable). Defined.

Lemma memory_separated_witness :
  (forall x, x < HYPERVISOR_END -> mem fetched !! x = mem booted !! x) \/
  (forall x, HYPERVISOR_END <= x -> mem fetched !! x = mem booted !! x).
Proof. exact (memory_separated booted fetched booted_reachable fetched_step). Defined.

Lemma exception_total_witness :
  wp any_panic exception (fun _ s' => hyp_ok (ai := alloc_inv) s' /\ guest_mem_same sample_user_state s')
    (trap_entry 0x1000 13 0x80300000 0 no_regs sample_user_state).
Proof.
  apply (exception_total sample_user sample_roles sample_user_state); [exact sample_user_inv|].
  intros _ gu. exact (sample_tables_in_ram gu).
Defined.

Lemma boot_main_correct_witness :
  exists s', boot_main reset_state = Ok tt s' /\ trap_inv GUEST_THREAD_CONTEXT_INIT ∅ s' /\ mem s' = ∅ /\
    csr s' !! CSR_mepc = Some 0x80000000 /\
    Z.land (default 0 (csr s' !! CSR_mstatus)) MSTATUS_MPP_MASK = MSTATUS_MPP_U /\
    forall va, low_va va -> sv39_translate (mem s') root va = None.
Proof. exact (boot_main_correct reset_state reset_ready). Defined.
